(* ===== verification/_CoqProject ===== *)
-Q . S2P
Prelude.v
GoFloat.v
GoFloatExact.v
GoFloatSign.v
GoText.v
GoScan.v
GoHttp.v
GoSort.v
ReqQueue.v
Cluster.v
Balancer.v
Proxy.v
Api.v
Job.v
PrioQueue.v
Circuit.v
RateLimit.v
Cache.v
CacheUse.v
ModelRegistry.v
ModelContext.v
JobQueue.v
JobStream.v
MeshNet.v
Mesh.v
MeshLoops.v
Schema.v
AgentDB.v
Agent.v
AuditTrail.v
OpenAI.v
OpenAIAgent.v
ModelLists.v
Usage.v
Accounting.v
Clients.v
Hive.v
AgentApi.v
NodeAgent.v
Provider.v
Telemetry.v
Settings.v
Server.v
ProxyServer.v
Prometheus.v
Status.v
MeshServer.v
Startup.v
Shutdown.v
