(* ===== verification/Prelude.v ===== *)
(** * Verification of the Hive inference cluster

    The repository holds two servers that share a purpose, spreading inference
    work over machines that run Ollama, and no code:

    - the proxy server ([main.go], [internal/], [config/], with the node
      agent [cmd/agent]): one hive process admits requests to a bounded
      queue, keeps a table of the nodes that register and send heartbeats,
      selects one of them per request, forwards the request and records it;
    - the mesh server ([hive-server-go/]): every machine runs one; it queues
      jobs for its own Ollama, discovers its peers by UDP beacons and probes,
      forwards jobs to the best of them, and serves the coding agent, whose
      sessions are kept in SQLite, an OpenAI-compatible API over both, and
      an audit trail of the requests.

    ** Files

    Language and library layer
    - [Prelude]: 64-bit integers with their wrap-around ([wrap64],
      [int_add], ...), time and durations in nanoseconds, [panics] (an
      operation that may panic returns an [option]), slices and maps, the
      order [ord] in which a [range] visits a map ([map_range]), the hint
      database [hive].
    - [GoFloat], [GoFloatExact], [GoFloatSign]: [float64] as executable
      binary64, with the exactness and sign facts the proofs need.
    - [GoText], [GoScan]: the functions of package [strings] on byte strings,
      and [Sscanf("%d")] and [Atoi] with their rules for blanks, signs and
      overflow.
    - [GoHttp]: decoded JSON values, type assertions, responses.
    - [GoSort]: [sort.Slice] as a class with the contract of the standard
      library; its clients are verified against the contract.

    Proxy server
    - [ReqQueue]: [internal/queue/queue.go].  [Queue.t] and [History.t] are
      the two structs, over a store of requests shared by pointer.
    - [Cluster]: [internal/cluster/node.go], [manager.go].  [Manager] with
      one function per method and handler; [apply_event] and [run] compose
      them into histories.
    - [Balancer]: [internal/balancer/balancer.go].
    - [Proxy]: [internal/proxy/proxy.go].  [handleInference] is one request
      on its own; [step] interleaves any number of them with cancellations,
      cluster events and changes of strategy, cut where the code releases a
      lock.
    - [Api]: [internal/api/handlers.go], [config/], the start of [main.go].
    - [ProxyServer]: the routes of [main.go] and the handlers of all of the
      above behind them; [serve_proxy] is the one handler [main] serves.
    - [NodeAgent]: [cmd/agent/main.go].  [agent_tick] is one round of its
      loop, run against the manager of [Cluster].

    Mesh server
    - [Job]: the job record of [queue.go] and [helpers.go].
    - [PrioQueue]: [priority_queue.go].  Its [step] interleaves producers,
      workers blocked on the condition variable, peeks, cancellations and
      the close.
    - [JobQueue]: [queue.go], [reporting.go].  Its [step] interleaves the
      submissions with the workers; [call] and [record_result] are what a
      worker does with one job and Ollama's reply.
    - [JobStream]: [stream.go].  Subscriber slices with shared backing
      arrays and channels; [publish_loop] is a publication in progress.
    - [Circuit]: [circuit_breaker.go].
    - [RateLimit]: [auth.go].
    - [Cache]: [cache.go], over a class for the third-party cache, each
      method as one step; [CacheUse]: the methods cut at the mutex and at the
      library's calls, interleaved with the cleanup loop and [Close].
    - [ModelRegistry]: [model_registry.go].
    - [ModelContext]: [model_context.go], with its tables entry by entry.
    - [MeshNet], [Mesh]: [mesh.go] and the peer handlers of [handlers.go];
      [apply_op] composes the messages a server receives.
    - [MeshLoops]: the goroutines of [mesh.go]; [exec] is a step of one of
      them, [table_op] what it does to the table in terms of [apply_op].
    - [Schema]: the SQL of [db.go] and [audit.go] as texts, with a reader of
      the tables they create and use.
    - [AgentDB], [Agent]: the coding-agent tables of [db.go] as lists of
      rows, over a class [Store] that says which statements fail and how the
      engine orders equal keys, and the sessions of [coding_agent.go].
    - [AuditTrail]: [audit.go].  [exec] interleaves the handlers that log
      with the background loop that empties the buffer into the table; the
      queries and the request pages read the table.
    - [OpenAI], [OpenAIAgent]: [openai_compat.go]: translation, choice of a
      model and an endpoint, forwarding, streaming; and the path through the
      sessions of [Agent], with the handler that chooses between the two.
    - [ModelLists]: the servers of a mesh that ask each other for their
      models; [list_models] is a request with those it causes, on fuel.
    - [Usage]: the [token_usage] table of [db.go], its reports and histogram
      and the report handlers.  [Accounting]: the goroutines that fill it,
      interleaved with the workers of [JobQueue].
    - [Clients]: the client manager and its handlers, [handlers.go].
    - [Hive]: submission of jobs, forwarding to a peer and the peer's side,
      over [Clients], [JobQueue] and [Mesh].  [remote] puts the peer's
      middleware and handler in the place of the network.
    - [AgentApi]: the handlers of the coding agent.
    - [Provider]: [provider.go].  [Telemetry]: [metrics.go] and [logs.go].
      [Prometheus]: [metrics_prometheus.go], over a class for the client
      library.  [Status]: [hardware.go] and the status handlers.
    - [Settings]: [config.go] and what [main] and [NewHiveServer] make of the
      file and the environment.
    - [Server]: the routes of [RegisterRoutes] and [main], their resolution
      by [http.ServeMux], and the middleware; [serve] is the handler [main]
      serves, around any handler of a route.
    - [MeshServer]: the handlers of all routes over one state, [hive];
      [serve_hive] is a request from its arrival to its end.
    - [Startup]: what [main] does up to its listener, with every constructor.
      [Shutdown]: what it does after a signal; its steps run beside those of
      [JobQueue], [MeshLoops] and [AuditTrail].

    ** What the theorems show

    - Life of a request: [handleInference_outcome] (every branch of a request
      that is admitted), [active_requests_exact] (under interleaving),
      [serve_proxy_refines] (every request is a run of that interleaving),
      [queue_fills_up] and [cancelled_request_still_runs] (two behaviours
      their users do not expect).
    - Queues: [Enqueue_refines_levels], [Dequeue_highest_oldest],
      [queue_reachable_wf], [History_keeps_newest] for the request queue;
      [dequeue_refines_flat], [enqueue_refines_flat], [jobs_conserved],
      [no_lost_wakeup], [dequeue_after_close_sleeps] for the priority queue,
      whose specification is one flat list; [jobs_fifo_exactly_once],
      [capacity_and_outcomes] and [workers_drain] (termination) for the
      worker pool.
    - Membership and selection: [GetHealthyNodes_exact],
      [manager_reachable_wf], [offline_needs_registration];
      [SelectNode_eligible], [SelectNode_least_load], [round_robin_fair];
      [best_peer_optimal], [peers_never_self], [beacon_roundtrip],
      [detectLocalIP_sound_complete] for the mesh; [mesh_run_refines] (what
      the goroutines do is a sequence of its operations), [mesh_stop_ends]
      (termination).
    - Protection: [circuit_refines_spec] against the machine [spec_step],
      [Execute_trips], [rate_limit_bound], [auth_required].
    - Data: [cache_get_sound], [refcount_exact],
      [FindCompatibleLocalModel_sound_complete], [budget_bounds],
      [Publish_exact], [subscriptions_exact],
      [unsubscribe_during_publish_panics], [cluster_status_aggregates].
    - Coding agent: [store_integrity], [SendMessage_exact],
      [compression_exact], [deleted_session_resurrected]; its API:
      [agent_refusals_change_nothing], [documented_path_refused].
    - OpenAI API: [selectBestModel_refines] against the documented order of
      choice, [translate_reference], [stream_exact], [list_models_exact],
      [find_peer_least_loaded], [chat_completions_outcome],
      [agent_reply_is_stale], [system_prompt_ignored].
    - Audit trail: [audit_events_conserved] (no event lost or reordered),
      [audit_prompt_flush] (none waits), [audit_detail_roundtrip],
      [timeline_roundtrip], [events_after_stop_lost].
    - Servers together: [submitJob_exact], [forward_runs_on_peer],
      [full_queue_loses_job], [refused_forward_is_empty_answer];
      [slots_never_used] and [forgotten_node_stays_unknown] for an agent and
      its manager; [peer_model_taken_for_local] for the probes and the choice
      of a model; [endless_listing] (for every fuel) and
      [phantom_model_persists] for servers that list each other's models;
      [beacon_carries_no_models] for a beacon and the health page.
    - The mesh server as a whole: [hive_sound] (all its tables stay well
      formed and requests are answered), [safe_methods] (reading changes only
      caches), [key_protects], [peers_open_without_key].
    - The process: [main_never_listens], [store_path] for its start;
      [shutdown_outcomes], [drain_abandons_jobs] for its end.
    - Around the handlers: [request_outcome], [routes_most_specific],
      [wrong_method_is_404], [documented_routes_missing]; [settings_precedence], [other_sections_ignored],
      [first_success_closes]; [clients_reachable_wf],
      [client_kept_while_heard].
    - The response cache in concurrent use: [concurrent_get_sound],
      [misses_are_hits_in_flight], [cleared_entry_outlives_ttl],
      [close_returns], [close_is_final].
    - Reports: [usage_accounting], [histogram_exact], [summary_totals],
      [prune_exact], [setup_idempotent], [statements_fit_schema],
      [log_history_exact], [metrics_exact], [metrics_never_panic],
      [collector_changes_nothing].

    Each theorem with hypotheses has a companion [..._witness] that applies
    it to a concrete state.

    ** Conventions and bounds

    - A method that holds its mutex throughout is one atomic step.  Where the
      code releases a lock in between, or another goroutine can run, the
      method is cut into several steps.
    - Clock readings, random numbers, replies from the network, map
      enumeration orders and failing statements are inputs of the definitions.
    - An operation that panics in Go yields [None].
    - Three functions recurse on fuel.  [History.reverse_loop] gets the length
      of the slice, and [History_List_newest_first] shows that this always
      suffices.  [splitN], behind [strings.Split], gets two more than the
      length of the string, and every piece found shortens the string.
      [list_models] counts nested requests; that no fuel may be enough is
      [endless_listing].  All other recursion is structural.
    - Case mapping and space trimming are Go's on ASCII text.

    ** What is not modelled

    Sockets, tickers and listeners (pure I/O; the loops around them are
    modelled, and when they fire is an input); the dashboard page and the
    reading of static files; the pages of the Prometheus library; what
    [Close] of the cache library does to later calls; the SQL engine, beyond the statements
    the source issues.  Redirects of [http.ServeMux] to a cleaned path, and
    the content types [net/http] guesses, are left out of [Server]. *)

From Stdlib Require Export ZArith Lia Sorted.
From stdpp Require Export base tactics list gmap strings pretty sorting.

#[global] Set Default Goal Selector "!".

(** ** 64-bit integers

    Go's [int] and [int64] are 64-bit two's-complement values on the
    platforms the servers run on.  A value is a [Z]; every operation of the
    source that can leave the range is written with [wrap64]. *)

Definition int64_min : Z := (- 2 ^ 63)%Z.
Definition int64_max : Z := (2 ^ 63 - 1)%Z.
Definition int64_range (z : Z) : Prop := (int64_min <= z <= int64_max)%Z.

Definition wrap64 (z : Z) : Z := ((z + 2 ^ 63) mod 2 ^ 64 - 2 ^ 63)%Z.

Definition int_add (x y : Z) : Z := wrap64 (x + y).
Definition int_sub (x y : Z) : Z := wrap64 (x - y).
Definition int_mul (x y : Z) : Z := wrap64 (x * y).

(** Go's [/] and [%] truncate towards zero.  The quotient of the minimum by
    [-1] wraps; every divisor in the source is a positive constant or
    guarded. *)
Definition int_quot (x y : Z) : Z := wrap64 (Z.quot x y).
Definition int_rem (x y : Z) : Z := Z.rem x y.

(** [x++] and [x--]. *)
Definition int_incr (x : Z) : Z := int_add x 1.
Definition int_decr (x : Z) : Z := int_sub x 1.

(** The length of a slice or of a map as Go's [len] reports it. *)
Definition go_len {A} (l : list A) : Z := Z.of_nat (length l).

#[global] Instance int64_range_dec z : Decision (int64_range z).
Proof. unfold int64_range. apply _. Defined.

Lemma wrap64_range z : int64_range (wrap64 z).
Proof.
  unfold int64_range, wrap64, int64_min, int64_max.
  pose proof (Z.mod_pos_bound (z + 2 ^ 63) (2 ^ 64) ltac:(lia)). lia.
Qed.

Lemma wrap64_id z : int64_range z → wrap64 z = z.
Proof.
  unfold int64_range, wrap64, int64_min, int64_max. intros Hz.
  rewrite Z.mod_small; lia.
Qed.

Lemma wrap64_wrap64 z : wrap64 (wrap64 z) = wrap64 z.
Proof. apply wrap64_id, wrap64_range. Qed.

(** Sums wrap once, at the end. *)
Lemma int_add_wrap x y : int_add (wrap64 x) y = wrap64 (x + y).
Proof.
  unfold int_add, wrap64. f_equal.
  replace ((x + 2 ^ 63) mod 2 ^ 64 - 2 ^ 63 + y + 2 ^ 63)%Z with ((x + 2 ^ 63) mod 2 ^ 64 + y)%Z by lia.
  rewrite Z.add_mod_idemp_l by done. f_equal. lia.
Qed.

Lemma int_add_id x y : int64_range (x + y) → int_add x y = (x + y)%Z.
Proof. apply wrap64_id. Qed.

Lemma int_sub_id x y : int64_range (x - y) → int_sub x y = (x - y)%Z.
Proof. apply wrap64_id. Qed.

Lemma int_incr_id x :
  (0 <= x < int64_max)%Z → int_incr x = (x + 1)%Z.
Proof.
  intros Hx. apply wrap64_id. unfold int64_range, int64_min, int64_max in *. lia.
Qed.

Lemma go_len_nonneg {A} (l : list A) : (0 <= go_len l)%Z.
Proof. unfold go_len. lia. Qed.

Lemma go_len_app {A} (l k : list A) : go_len (l ++ k) = (go_len l + go_len k)%Z.
Proof. unfold go_len. rewrite length_app. lia. Qed.

Lemma go_len_nil {A} : go_len (@nil A) = 0%Z.
Proof. done. Qed.

Lemma go_len_cons {A} (x : A) l : go_len (x :: l) = (1 + go_len l)%Z.
Proof. unfold go_len. simpl. lia. Qed.

(** ** Time

    A [time.Time] is a number of nanoseconds since Go's zero time, so the
    zero value is [0] and [IsZero] compares with it; a [time.Duration] is a
    64-bit number of nanoseconds.  [Time.Sub] saturates, as the standard
    library documents.  The clock is an input: every operation takes the
    readings it makes, in the order it makes them. *)

Abbreviation Time := Z (only parsing).
Abbreviation Duration := Z (only parsing).

Definition Nanosecond : Duration := 1%Z.
Definition Millisecond : Duration := 1000000%Z.
Definition Second : Duration := 1000000000%Z.
Definition Minute : Duration := (60 * Second)%Z.

Definition time_zero : Time := 0%Z.
Definition IsZero (t : Time) : bool := Z.eqb t time_zero.
Definition time_After (t u : Time) : bool := Z.ltb u t.
Definition time_Add (t : Time) (d : Duration) : Time := (t + d)%Z.
Definition time_Sub (t u : Time) : Duration :=
  Z.max int64_min (Z.min int64_max (t - u)).
Definition time_Since (now t : Time) : Duration := time_Sub now t.
Definition time_Until (t now : Time) : Duration := time_Sub t now.

(** [Time.Unix]: the epoch is 1970-01-01. *)
Definition unix_epoch : Time := (62135596800 * Second)%Z.
Definition Unix (t : Time) : Z := Z.div (t - unix_epoch) Second.

Lemma time_Sub_exact t u : int64_range (t - u) → time_Sub t u = (t - u)%Z.
Proof. unfold time_Sub, int64_range. lia. Qed.

(** For a threshold inside the range, saturation is invisible. *)
Lemma time_Sub_ltb t u d :
  (int64_min < d <= int64_max)%Z →
  Z.ltb (time_Sub t u) d = Z.ltb (t - u) d.
Proof.
  intros Hd. unfold time_Sub, int64_min, int64_max in *.
  destruct (Z.ltb_spec (t - u) d); [apply Z.ltb_lt|apply Z.ltb_ge]; lia.
Qed.

Lemma time_Sub_gtb t u d :
  (int64_min <= d < int64_max)%Z →
  Z.ltb d (time_Sub t u) = Z.ltb d (t - u).
Proof.
  intros Hd. unfold time_Sub, int64_min, int64_max in *.
  destruct (Z.ltb_spec d (t - u)); [apply Z.ltb_lt|apply Z.ltb_ge]; lia.
Qed.

(** ** Slices *)

(** [copy(l[dst:], l[src:])] on one slice: [copy] moves as many elements as
    fit and behaves as if it read the source first. *)
Definition go_copy_within {A} (dst src : nat) (l : list A) : list A :=
  let n := min (length l - dst) (length l - src) in
  take dst l ++ take n (drop src l) ++ drop (dst + n) l.

(** The insertion idiom of the source: append a placeholder, shift the tail
    up by one and store at the index. *)
Definition go_insert_at {A} (nil_value : A) (idx : nat) (x : A) (l : list A) : list A :=
  <[idx := x]> (go_copy_within (S idx) idx (l ++ [nil_value])).

(** [append(l[:i], l[i+1:]...)]. *)
Definition go_remove_at {A} (i : nat) (l : list A) : list A :=
  take i l ++ drop (S i) l.

Lemma go_insert_at_spec {A} (nv : A) idx x l :
  idx ≤ length l →
  go_insert_at nv idx x l = take idx l ++ x :: drop idx l.
Proof.
  intros Hidx. unfold go_insert_at, go_copy_within. rewrite length_app.
  set (n := min _ _).
  assert (n = length l - idx) as -> by (subst n; simpl; lia).
  rewrite (drop_ge (l ++ [nv]) (S idx + _)) by (rewrite length_app; simpl; lia).
  rewrite app_nil_r, drop_app_le by lia.
  rewrite (take_app_le (drop idx l)) by (rewrite length_drop; lia).
  rewrite (take_ge (drop idx l)) by (rewrite length_drop; lia).
  destruct (decide (idx = length l)) as [->|Hne].
  - rewrite take_ge by (rewrite length_app; simpl; lia).
    rewrite drop_ge, app_nil_r by lia. rewrite take_ge by lia.
    rewrite insert_app_r_alt by lia. by rewrite Nat.sub_diag.
  - rewrite take_app_le by lia.
    destruct (lookup_lt_is_Some_2 l idx ltac:(lia)) as [y Hy].
    rewrite (take_S_r _ _ _ Hy), <-app_assoc, insert_app_r_alt
      by (rewrite length_take; lia).
    rewrite length_take_le by lia. by rewrite Nat.sub_diag.
Qed.

Lemma go_remove_at_middle {A} (l1 l2 : list A) x :
  go_remove_at (length l1) (l1 ++ x :: l2) = l1 ++ l2.
Proof.
  unfold go_remove_at. rewrite take_app_length, drop_app_ge by lia.
  by replace (S (length l1) - length l1) with 1 by lia.
Qed.

(** The first element a boolean test accepts, with its index and the rest:
    the shape of every search loop of the source that stops at a match. *)
Fixpoint find_first {A} (f : A → bool) (l : list A) : option (nat * A) :=
  match l with
  | [] => None
  | x :: l' =>
      if f x then Some (0, x)
      else match find_first f l' with
           | Some (i, y) => Some (S i, y)
           | None => None
           end
  end.

Lemma find_first_Some {A} (f : A → bool) l i x :
  find_first f l = Some (i, x) ↔
  ∃ l1 l2, l = l1 ++ x :: l2 ∧ length l1 = i ∧ f x = true ∧
           Forall (λ y, f y = false) l1.
Proof.
  revert i. induction l as [|y l IH]; intros i; simpl.
  - split; [done|]. intros (l1 & l2 & Heq & _). by destruct l1.
  - destruct (f y) eqn:Hy.
    + split.
      * intros [= <- <-]. by exists [], l.
      * intros ([|z l1] & l2 & Heq & <- & Hx & Hall); simplify_eq/=; [done|].
        apply Forall_cons in Hall as [? _]. congruence.
    + destruct (find_first f l) as [[j z]|] eqn:Hfind.
      * split.
        -- intros [= <- <-].
           destruct (proj1 (IH j) eq_refl) as (l1 & l2 & -> & Hlen & Hx & Hall).
           exists (y :: l1), l2. simpl. rewrite Hlen. by repeat (constructor || split).
        -- intros ([|w l1] & l2 & Heq & <- & Hx & Hall); simplify_eq/=; [congruence|].
           apply Forall_cons in Hall as [_ Hall].
           assert (Some (j, z) = Some (length l1, x)) as [= -> ->]; [|done].
           apply IH. eauto 10.
      * split; [done|].
        intros ([|w l1] & l2 & Heq & <- & Hx & Hall); simplify_eq/=; [congruence|].
        apply Forall_cons in Hall as [_ Hall].
        assert (None = Some (length l1, x)); [|done]. apply IH. eauto 10.
Qed.

Lemma find_first_None {A} (f : A → bool) l :
  find_first f l = None ↔ Forall (λ y, f y = false) l.
Proof.
  induction l as [|y l IH]; simpl; [by split; constructor|].
  rewrite Forall_cons, <-IH.
  destruct (f y); [by split; [|intros []]|].
  destruct (find_first f l) as [[]|]; split; by intros; destruct_and?.
Qed.

Lemma find_first_lookup {A} (f : A → bool) l i x :
  find_first f l = Some (i, x) → l !! i = Some x ∧ f x = true.
Proof.
  intros (l1 & l2 & -> & <- & Hx & _)%find_first_Some.
  by rewrite list_lookup_middle.
Qed.

Lemma find_first_app {A} (f : A → bool) l k :
  find_first f (l ++ k) =
  match find_first f l with
  | Some r => Some r
  | None => match find_first f k with
            | Some (i, x) => Some (length l + i, x)
            | None => None
            end
  end.
Proof.
  induction l as [|y l IH]; simpl; [by destruct (find_first f k) as [[]|]|].
  destruct (f y); [done|]. rewrite IH.
  destruct (find_first f l) as [[]|], (find_first f k) as [[]|]; done.
Qed.

Lemma go_remove_at_app {A} (l k : list A) i :
  go_remove_at (length l + i) (l ++ k) = l ++ go_remove_at i k.
Proof.
  unfold go_remove_at. rewrite take_app_add, <-Nat.add_succ_r, drop_app_add.
  by rewrite app_assoc.
Qed.

Lemma go_remove_at_app_l {A} (l k : list A) i :
  i < length l → go_remove_at i (l ++ k) = go_remove_at i l ++ k.
Proof.
  intros Hi. unfold go_remove_at. rewrite take_app_le, drop_app_le by lia. by rewrite app_assoc.
Qed.

Lemma go_remove_at_perm {A} (l : list A) i x :
  l !! i = Some x → l ≡ₚ x :: go_remove_at i l.
Proof.
  intros Hx. unfold go_remove_at. rewrite <-(take_drop_middle l i x Hx) at 1.
  by rewrite Permutation_middle.
Qed.

(** Number of elements a test accepts. *)
Definition count_if {A} (f : A → bool) (l : list A) : nat :=
  length (filter (λ x, f x = true) l).

Lemma count_if_cons {A} (f : A → bool) x l :
  count_if f (x :: l) = (if f x then S (count_if f l) else count_if f l).
Proof. unfold count_if. rewrite filter_cons. by destruct (f x); case_decide. Qed.

Lemma count_if_app {A} (f : A → bool) l k :
  count_if f (l ++ k) = count_if f l + count_if f k.
Proof. unfold count_if. by rewrite filter_app, length_app. Qed.

Lemma count_if_le {A} (f : A → bool) l : count_if f l ≤ length l.
Proof. apply length_filter. Qed.

Lemma filter_none {A} (P : A → Prop) `{∀ x, Decision (P x)} (l : list A) :
  (∀ x, x ∈ l → ¬ P x) → filter P l = [].
Proof.
  intros HP. induction l as [|x l IH]; [done|]. rewrite filter_cons_False.
  - apply IH. intros y Hy. apply HP. by right.
  - apply HP. by left.
Qed.

Lemma filter_all {A} (P : A → Prop) `{∀ x, Decision (P x)} (l : list A) :
  (∀ x, x ∈ l → P x) → filter P l = l.
Proof.
  intros HP. induction l as [|x l IH]; [done|]. rewrite filter_cons_True.
  - f_equal. apply IH. intros y Hy. apply HP. by right.
  - apply HP. by left.
Qed.

Lemma filter_ext_in {A} (P Q : A → Prop) `{!∀ x, Decision (P x), !∀ x, Decision (Q x)} (l : list A) :
  (∀ x, x ∈ l → P x ↔ Q x) → filter P l = filter Q l.
Proof.
  induction l as [|x l IH]; intros HPQ; [done|]. rewrite !filter_cons.
  rewrite IH by (intros y Hy; apply HPQ; by right).
  pose proof (HPQ x ltac:(by left)). destruct (decide (P x)), (decide (Q x)); tauto.
Qed.

Lemma elem_of_concat {A} (x : A) (ls : list (list A)) :
  x ∈ concat ls ↔ ∃ l, x ∈ l ∧ l ∈ ls.
Proof.
  induction ls as [|l ls IH]; simpl.
  - split; [by intros ?%not_elem_of_nil|]. by intros (l & _ & ?%not_elem_of_nil).
  - rewrite elem_of_app, IH. setoid_rewrite elem_of_cons. naive_solver.
Qed.

Lemma NoDup_fmap_inj {A B} (f : A → B) (l : list A) x y :
  NoDup (f <$> l) → x ∈ l → y ∈ l → f x = f y → x = y.
Proof.
  intros Hnd [i Hi]%list_elem_of_lookup_1 [j Hj]%list_elem_of_lookup_1 Hf.
  assert (i = j) as ->; [|congruence].
  eapply NoDup_lookup; [exact Hnd|..]; rewrite list_lookup_fmap; [by rewrite Hi|].
  by rewrite Hj, Hf.
Qed.

Lemma NoDup_fmap_inv {A B} (f : A → B) (l : list A) : NoDup (f <$> l) → NoDup l.
Proof.
  induction l as [|x l IH]; [constructor|]. rewrite fmap_cons, !NoDup_cons.
  intros [Hn Hl]. split; [|by apply IH]. intros Hin. apply Hn. apply list_elem_of_fmap. eauto.
Qed.

(** A write at one position of a list, seen through a partial projection. *)
Lemma omap_insert_perm {A B} (f : A → option B) (l : list A) i x y :
  l !! i = Some x →
  omap f (<[i := y]> l) ++ option_list (f x) ≡ₚ option_list (f y) ++ omap f l.
Proof.
  intros Hx. rewrite <-(take_drop_middle l i x Hx) at 2.
  rewrite (insert_take_drop l i y) by (by eapply lookup_lt_Some).
  rewrite !omap_app. simpl.
  assert (∀ z, (match f z with Some b => b :: omap f (drop (S i) l) | None => omap f (drop (S i) l) end)
               = option_list (f z) ++ omap f (drop (S i) l)) as Hz by (intros z; by destruct (f z)).
  rewrite !Hz. solve_Permutation.
Qed.

Lemma omap_sublist {A B} (f g : A → option B) (l : list A) :
  (∀ x b, f x = Some b → g x = Some b) → omap f l `sublist_of` omap g l.
Proof.
  intros Hfg. induction l as [|x l IH]; simpl; [done|].
  destruct (f x) as [b|] eqn:Hf.
  - rewrite (Hfg _ _ Hf). by constructor.
  - destruct (g x); [by constructor|done].
Qed.

(** ** Sorted insertion

    [insert_sorted] facts shared by the queues: a list sorted by a total
    preorder splits at the first element below the new one. *)

Lemma Sorted_split_ge {A} (R : relation A) `{!Transitive R} (l : list A) :
  StronglySorted R l → ∀ l1 l2, l = l1 ++ l2 →
  StronglySorted R l1 ∧ StronglySorted R l2 ∧
  (∀ x y, x ∈ l1 → y ∈ l2 → R x y).
Proof.
  intros Hs l1 l2 ->. induction l1 as [|a l1 IH]; simpl in *.
  - repeat split; [constructor|done|]. intros x y Hx. by apply elem_of_nil in Hx.
  - apply StronglySorted_inv in Hs as [Hs Hall].
    destruct (IH Hs) as (H1 & H2 & H12).
    rewrite Forall_app, !Forall_forall in Hall. destruct Hall as [Ha1 Ha2].
    repeat split; [|done|].
    + constructor; [done|]. by apply Forall_forall.
    + intros x y [->|Hx]%elem_of_cons Hy; eauto.
Qed.

Lemma StronglySorted_app_intro {A} (R : relation A) (l1 l2 : list A) :
  StronglySorted R l1 → StronglySorted R l2 →
  (∀ x y, x ∈ l1 → y ∈ l2 → R x y) → StronglySorted R (l1 ++ l2).
Proof.
  intros H1 H2 H12. induction H1 as [|a l1 H1 IH Hall]; simpl; [done|].
  constructor.
  - apply IH. intros x y Hx. apply H12. by right.
  - apply Forall_app. split; [done|]. apply Forall_forall.
    intros y Hy. apply H12; [by left|done].
Qed.

(** ** Option and map helpers *)

Definition from_opt {A} (d : A) (o : option A) : A :=
  match o with Some x => x | None => d end.

(** An enumeration of a map, in the unspecified order of a Go [range]. *)
Definition map_range {V} (m : gmap string V) (l : list (string * V)) : Prop :=
  l ≡ₚ map_to_list m.

Lemma map_range_elem {V} (m : gmap string V) l k v :
  map_range m l → (k, v) ∈ l ↔ m !! k = Some v.
Proof. intros Hl. by rewrite Hl, elem_of_map_to_list. Qed.

Lemma map_range_length {V} (m : gmap string V) l :
  map_range m l → length l = size m.
Proof. intros Hl. by rewrite Hl, length_map_to_list. Qed.

Lemma map_range_keys_NoDup {V} (m : gmap string V) l :
  map_range m l → NoDup (fst <$> l).
Proof. intros Hl. rewrite Hl. apply NoDup_fst_map_to_list. Qed.

Lemma map_range_self {V} (m : gmap string V) : map_range m (map_to_list m).
Proof. by unfold map_range. Qed.

(** An invariant of every step is an invariant of a run. *)
Lemma foldl_inv {A B} (P : B → Prop) (f : B → A → B) (l : list A) (b : B) :
  P b → (∀ b a, a ∈ l → P b → P (f b a)) → P (foldl f b l).
Proof.
  revert b. induction l as [|a l IH]; intros b Hb Hstep; simpl; [done|].
  apply IH; [apply Hstep; [by left|done]|].
  intros b' a' Ha. apply Hstep. by right.
Qed.

(** ** Automation *)

Create HintDb hive discriminated.
Create Rewrite HintDb go_int.

#[export] Hint Resolve wrap64_range go_len_nonneg map_range_self : hive.
#[export] Hint Rewrite @go_len_app @go_len_cons @go_len_nil : go_int.

(** Case analysis on every test of the goal, closing the trivial cases. *)
Ltac case_tests :=
  repeat (case_match || case_decide); simplify_eq/=; try done.

(** Turn boolean tests on [Z] of the context and goal into propositions. *)
Ltac zbool :=
  repeat match goal with
  | H : Z.ltb _ _ = true |- _ => apply Z.ltb_lt in H
  | H : Z.ltb _ _ = false |- _ => apply Z.ltb_ge in H
  | H : Z.leb _ _ = true |- _ => apply Z.leb_le in H
  | H : Z.leb _ _ = false |- _ => apply Z.leb_gt in H
  | H : Z.eqb _ _ = true |- _ => apply Z.eqb_eq in H
  | H : Z.eqb _ _ = false |- _ => apply Z.eqb_neq in H
  | H : String.eqb _ _ = true |- _ => apply String.eqb_eq in H
  | H : String.eqb _ _ = false |- _ => apply String.eqb_neq in H
  | H : andb _ _ = true |- _ => apply andb_true_iff in H; destruct H
  | H : orb _ _ = false |- _ => apply orb_false_iff in H; destruct H
  end.

Ltac len_lia := autorewrite with go_int in *; unfold go_len in *; lia.
