(* ===== verification/GoFloat.v ===== *)
(** * IEEE 754 doubles

    Go's [float64] as the executable binary64 of the standard library's
    [SpecFloat] (precision 53, maximal exponent 1024, round to nearest even),
    with the conversions and comparisons the sources use.  The order lemmas
    are what the load balancer, the mesh and the rate computations need. *)

From Stdlib Require Export Floats.SpecFloat.
From S2P Require Import Prelude.

Abbreviation f64 := spec_float (only parsing).

(** [float64(z)] rounds to nearest; [int(f)] truncates.  Outside the range of
    [int] Go leaves the result to the implementation; the value here is the
    one the amd64 conversion instruction produces. *)
Definition f64_of_Z (z : Z) : f64 := binary_normalize 53 1024 z 0 false.

Definition f64_trunc_Z (f : f64) : option Z :=
  match f with
  | S754_zero _ => Some 0%Z
  | S754_finite s m e =>
      let a := match e with
               | Z0 => Zpos m
               | Zpos _ => Z.shiftl (Zpos m) e
               | Zneg _ => Z.shiftr (Zpos m) (- e)
               end in
      Some (if s then (- a)%Z else a)
  | S754_infinity _ | S754_nan => None
  end.

Definition f64_to_int (f : f64) : Z :=
  match f64_trunc_Z f with
  | Some z => if bool_decide (int64_range z) then z else int64_min
  | None => int64_min
  end.

Definition f64_add (x y : f64) : f64 := SFadd 53 1024 x y.
Definition f64_sub (x y : f64) : f64 := SFsub 53 1024 x y.
Definition f64_mul (x y : f64) : f64 := SFmul 53 1024 x y.
Definition f64_div (x y : f64) : f64 := SFdiv 53 1024 x y.
Definition f64_ltb (x y : f64) : bool := SFltb x y.
Definition f64_leb (x y : f64) : bool := SFleb x y.
Definition f64_eqb (x y : f64) : bool := SFeqb x y.
Definition f64_is_nan (x : f64) : bool :=
  match x with S754_nan => true | _ => false end.

(** A decimal literal [num/den] of the source: the exact quotient rounded
    once, which is how the compiler evaluates it. *)
Definition f64_lit (num den : Z) : f64 := f64_div (f64_of_Z num) (f64_of_Z den).
Definition f64_zero : f64 := S754_zero false.

(** [Duration.Seconds]. *)
Definition Seconds (d : Duration) : f64 :=
  f64_add (f64_of_Z (Z.quot d Second)) (f64_div (f64_of_Z (Z.rem d Second)) (f64_of_Z 1000000000)).

#[global] Instance f64_eq_dec : EqDecision f64.
Proof. unfold EqDecision. intros x y. unfold Decision. repeat decide equality. Defined.

(** ** The order of the doubles

    [SFcompare] is the lexicographic order of a key: the class and sign, then
    the exponent, then the mantissa, both negated below zero. *)

Definition f64_key (x : f64) : option (Z * Z * Z) :=
  match x with
  | S754_nan => None
  | S754_zero _ => Some (0, 0, 0)%Z
  | S754_infinity true => Some (-2, 0, 0)%Z
  | S754_infinity false => Some (2, 0, 0)%Z
  | S754_finite true m e => Some (-1, - e, - Zpos m)%Z
  | S754_finite false m e => Some (1, e, Zpos m)%Z
  end.

Definition key_lt (a b : Z * Z * Z) : Prop :=
  let '(a1, a2, a3) := a in
  let '(b1, b2, b3) := b in
  (a1 < b1 ∨ a1 = b1 ∧ (a2 < b2 ∨ a2 = b2 ∧ a3 < b3))%Z.

Lemma f64_ltb_key x y :
  f64_ltb x y = true ↔
  ∃ a b, f64_key x = Some a ∧ f64_key y = Some b ∧ key_lt a b.
Proof.
  unfold f64_ltb, SFltb. split.
  - destruct x as [[]|[]| |[] m e], y as [[]|[]| |[] m' e'];
      simpl; try done; intros Hcmp; do 2 eexists; split_and!; try done; simpl; try lia;
      destruct (Z.compare_spec e e'); try done; try lia;
      change (Pcompare m m' Eq) with (Pos.compare m m') in *;
      destruct (Pos.compare_spec m m'); simpl in *; try done; lia.
  - intros (a & b & Ha & Hb & Hlt).
    destruct x as [[]|[]| |[] m e], y as [[]|[]| |[] m' e'];
      simplify_eq/=; try done; try lia;
      destruct (Z.compare_spec e e'); try done; try lia;
      change (Pcompare m m' Eq) with (Pos.compare m m') in *;
      destruct (Pos.compare_spec m m'); simpl; try done; lia.
Qed.

Lemma key_lt_irrefl a : ¬ key_lt a a.
Proof. destruct a as [[] ]. simpl. lia. Qed.

Lemma key_lt_trans a b c : key_lt a b → key_lt b c → key_lt a c.
Proof. destruct a as [[] ], b as [[] ], c as [[] ]. simpl. lia. Qed.

Lemma key_lt_cotrans a b c : key_lt a c → key_lt a b ∨ key_lt b c.
Proof. destruct a as [[] ], b as [[] ], c as [[] ]. simpl. lia. Qed.

Lemma f64_ltb_irrefl x : f64_ltb x x = false.
Proof.
  apply not_true_iff_false. rewrite f64_ltb_key.
  intros (a & b & Ha & Hb & Hlt). simplify_eq. by eapply key_lt_irrefl.
Qed.

Lemma f64_ltb_trans x y z :
  f64_ltb x y = true → f64_ltb y z = true → f64_ltb x z = true.
Proof.
  rewrite !f64_ltb_key. intros (a & b & Ha & Hb & H1) (b' & c & Hb' & Hc & H2).
  simplify_eq.
  exists a, c. split_and!; [done..|]. by eapply key_lt_trans.
Qed.

Lemma f64_ltb_asym x y : f64_ltb x y = true → f64_ltb y x = false.
Proof.
  intros Hxy. apply not_true_iff_false. intros Hyx.
  pose proof (f64_ltb_trans _ _ _ Hxy Hyx) as H. by rewrite f64_ltb_irrefl in H.
Qed.

(** Without a NaN in the middle, "not less" is transitive: the comparison is
    a strict weak order. *)
Lemma f64_nlt_trans x y z :
  f64_is_nan y = false →
  f64_ltb y x = false → f64_ltb z y = false → f64_ltb z x = false.
Proof.
  rewrite <-!not_true_iff_false, !f64_ltb_key. intros Hy Hyx Hzy (c & a & Hc & Ha & Hlt).
  destruct (f64_key y) as [b|] eqn:Hb; [|by destruct y as [[]|[]| |[] ? ?]].
  destruct (key_lt_cotrans c b a Hlt); [apply Hzy|apply Hyx]; eauto.
Qed.

Lemma f64_key_nan x : f64_key x = None ↔ x = S754_nan.
Proof. by destruct x as [[]|[]| |[] ? ?]. Qed.

(** [>] is [<] with the operands exchanged; [==] on ordered operands is the
    absence of both strict comparisons. *)
Lemma f64_eqb_not_lt x y :
  f64_is_nan x = false → f64_is_nan y = false →
  f64_ltb x y = false → f64_ltb y x = false → f64_eqb x y = true.
Proof.
  unfold f64_ltb, SFltb, f64_eqb, SFeqb.
  destruct x as [[]|[]| |[] m e], y as [[]|[]| |[] m' e']; simpl; try done;
    rewrite (Z.compare_antisym e e'); destruct (Z.compare_spec e e'); simpl; try done;
    change (Pcompare m m' Eq) with (Pos.compare m m');
    change (Pcompare m' m Eq) with (Pos.compare m' m);
    rewrite (Pos.compare_antisym m m'); destruct (Pos.compare_spec m m'); simpl; done.
Qed.

Lemma f64_eqb_nlt x y : f64_eqb x y = true → f64_ltb x y = false.
Proof. unfold f64_ltb, SFltb, f64_eqb, SFeqb. destruct (SFcompare x y) as [[]|]; done. Qed.

Lemma f64_eqb_sym x y : f64_eqb x y = f64_eqb y x.
Proof.
  unfold f64_eqb, SFeqb.
  destruct x as [[]|[]| |[] m e], y as [[]|[]| |[] m' e']; simpl; try done;
    rewrite (Z.compare_antisym e e'); destruct (e ?= e')%Z; simpl; try done;
    change (Pcompare m m' Eq) with (Pos.compare m m');
    change (Pcompare m' m Eq) with (Pos.compare m' m);
    rewrite (Pos.compare_antisym m m'); by destruct (m ?= m')%positive.
Qed.

Lemma f64_ltb_nan_l x y : f64_ltb x y = true → f64_is_nan x = false ∧ f64_is_nan y = false.
Proof. by destruct x as [[]|[]| |[] ? ?], y as [[]|[]| |[] ? ?]. Qed.

(** Sanity checks of the conversions on concrete values. *)
Example f64_four_fifths_int : f64_to_int (f64_mul (f64_of_Z 131072) (f64_lit 4 5)) = 104857%Z.
Proof. reflexivity. Qed.

Example f64_nan_int : f64_to_int S754_nan = int64_min.
Proof. reflexivity. Qed.

#[export] Hint Resolve f64_ltb_irrefl f64_ltb_asym : hive.
