(* ===== verification/GoFloatExact.v ===== *)
(** * Conversions between machine integers and doubles

    [float64(n)] of a machine integer is a finite double, zero only for zero,
    and exact up to 2^53 in absolute value, so that a counter survives a trip
    through JSON; a quotient of two such conversions is a number unless the
    divisor is zero. *)

From S2P Require Import Prelude GoFloat.

Local Open Scope Z_scope.

(** ** The number of binary digits *)

Lemma digits_bounds m : 2 ^ (Zpos (digits2_pos m) - 1) <= Zpos m < 2 ^ Zpos (digits2_pos m).
Proof.
  induction m as [m IH|m IH|]; cbn [digits2_pos]; [| |done];
    rewrite Pos2Z.inj_succ; unfold Z.succ;
    replace (Zpos (digits2_pos m) + 1 - 1) with (Zpos (digits2_pos m) - 1 + 1) by lia;
    rewrite !Z.pow_add_r by lia; lia.
Qed.

Lemma digits_le m n : 0 <= n → Zpos m < 2 ^ n → Zpos (digits2_pos m) <= n.
Proof.
  intros Hn Hm. pose proof (digits_bounds m) as [Hlo _].
  destruct (Z.le_gt_cases (Zpos (digits2_pos m)) n) as [|Hgt]; [done|].
  pose proof (Z.pow_le_mono_r 2 n (Zpos (digits2_pos m) - 1) ltac:(lia) ltac:(lia)). lia.
Qed.

Lemma digits_shift m d : Zpos (digits2_pos (Pos.iter xO m d)) = Zpos (digits2_pos m) + Zpos d.
Proof.
  induction d as [|d IH] using Pos.peano_ind; [cbn; lia|].
  rewrite Pos.iter_succ. cbn [digits2_pos]. lia.
Qed.

Lemma pos_shift_value m d : Zpos (Pos.iter xO m d) = Zpos m * 2 ^ Zpos d.
Proof.
  induction d as [|d IH] using Pos.peano_ind; [cbn; lia|].
  rewrite Pos.iter_succ, Pos2Z.inj_succ, Z.pow_succ_r, Pos2Z.inj_xO by lia. lia.
Qed.

(** ** Shifting right *)

Lemma shr_1_m mrs : 0 <= shr_m mrs → shr_m (shr_1 mrs) = shr_m mrs / 2.
Proof.
  destruct mrs as [[|[m|m|]|m] r s]; cbn [shr_1 shr_m]; intros Hm; try done.
  - rewrite (Pos2Z.inj_xI m). apply (Z.div_unique_pos _ 2 _ 1); lia.
  - rewrite (Pos2Z.inj_xO m). apply (Z.div_unique_pos _ 2 _ 0); lia.
Qed.

Lemma shr_iter_m p mrs :
  0 <= shr_m mrs →
  shr_m (iter_pos shr_1 p mrs) = shr_m mrs / 2 ^ Zpos p ∧ 0 <= shr_m (iter_pos shr_1 p mrs).
Proof.
  assert (∀ mrs, 0 <= shr_m mrs → shr_m (iter_pos shr_1 p mrs) = shr_m mrs / 2 ^ Zpos p) as Hp.
  { clear mrs. induction p as [p IH|p IH|]; intros mrs Hm; cbn [iter_pos].
    - assert (0 <= shr_m (shr_1 mrs)) as H1 by (rewrite shr_1_m by done; apply Z.div_pos; lia).
      assert (0 <= shr_m (iter_pos shr_1 p (shr_1 mrs))) as H2.
      { rewrite IH by done. apply Z.div_pos; [done|]. by apply Z.pow_pos_nonneg. }
      rewrite !IH, shr_1_m, !Z.div_div by (done || lia || by apply Z.pow_pos_nonneg).
      f_equal. replace (Zpos (xI p)) with (1 + Zpos p + Zpos p) by lia. rewrite !Z.pow_add_r by lia. lia.
    - assert (0 <= shr_m (iter_pos shr_1 p mrs)) as H2.
      { rewrite IH by done. apply Z.div_pos; [done|]. by apply Z.pow_pos_nonneg. }
      rewrite !IH, !Z.div_div by (done || lia || by apply Z.pow_pos_nonneg).
      f_equal. replace (Zpos (xO p)) with (Zpos p + Zpos p) by lia. by rewrite Z.pow_add_r by lia.
    - by rewrite shr_1_m. }
  intros Hm. split; [by apply Hp|]. rewrite Hp by done. apply Z.div_pos; [done|]. by apply Z.pow_pos_nonneg.
Qed.

Lemma shr_record_m m l : shr_m (shr_record_of_loc m l) = m.
Proof. by destruct l as [|[]]. Qed.

Lemma shr_fexp_nonneg m e l : 0 <= m → 0 <= shr_m (shr_fexp 53 1024 m e l).1.
Proof.
  intros Hm. unfold shr_fexp, shr. destruct (_ - e); simpl; rewrite ?shr_record_m; try done.
  apply shr_iter_m. by rewrite shr_record_m.
Qed.

Lemma round_nearest_even_ge m l : m <= round_nearest_even m l <= m + 1.
Proof. unfold round_nearest_even. destruct l as [|[]]; try lia. destruct (Z.even m); lia. Qed.

Lemma round_aux_not_nan s m e l : 0 <= m → f64_is_nan (binary_round_aux 53 1024 s m e l) = false.
Proof.
  intros Hm. unfold binary_round_aux.
  pose proof (shr_fexp_nonneg m e l Hm) as H1. destruct (shr_fexp 53 1024 m e l) as [mrs' e'].
  simpl in H1. pose proof (round_nearest_even_ge (shr_m mrs') (loc_of_shr_record mrs')) as H2.
  pose proof (shr_fexp_nonneg (round_nearest_even (shr_m mrs') (loc_of_shr_record mrs')) e' loc_Exact
    ltac:(lia)) as H3.
  destruct (shr_fexp 53 1024 _ e' loc_Exact) as [mrs'' e'']. simpl in H3.
  destruct (shr_m mrs''); [done| |lia]. by destruct (_ <=? _).
Qed.

(** ** Conversions *)

(** One normalisation of a positive mantissa whose exponent is far above the
    smallest one: it stays positive, and the exponent grows by what was
    shifted out. *)
Lemma shr_fexp_pos m e l :
  -900 <= e →
  let n := Z.max 0 (Zpos (digits2_pos m) - 53) in
  shr_m (shr_fexp 53 1024 (Zpos m) e l).1 = Zpos m / 2 ^ n ∧
  0 < shr_m (shr_fexp 53 1024 (Zpos m) e l).1 < 2 ^ 53 ∧
  (shr_fexp 53 1024 (Zpos m) e l).2 = e + n ∧
  (n = 0 → (shr_fexp 53 1024 (Zpos m) e l).1 = shr_record_of_loc (Zpos m) l).
Proof.
  intros He n. pose proof (digits_bounds m) as [Hlo Hhi].
  assert (shr_m (shr_fexp 53 1024 (Zpos m) e l).1 = Zpos m / 2 ^ n ∧
          (shr_fexp 53 1024 (Zpos m) e l).2 = e + n ∧
          (n = 0 → (shr_fexp 53 1024 (Zpos m) e l).1 = shr_record_of_loc (Zpos m) l)) as (H1 & H2 & H3).
  { unfold shr_fexp. cbn [Zdigits2].
    replace (fexp 53 1024 (Zpos (digits2_pos m) + e) - e) with (Zpos (digits2_pos m) - 53)
      by (unfold fexp, emin; lia).
    unfold shr, n. destruct (Zpos (digits2_pos m) - 53) as [|p|p] eqn:Hd; cbn [fst snd].
    - rewrite Z.max_id, shr_record_m, Z.pow_0_r, Z.div_1_r, Z.add_0_r. done.
    - replace (Z.max 0 (Zpos p)) with (Zpos p) by lia.
      destruct (shr_iter_m p (shr_record_of_loc (Zpos m) l)) as [-> _]; [by rewrite shr_record_m|].
      rewrite shr_record_m. split_and!; [done|done|lia].
    - replace (Z.max 0 (Zneg p)) with 0 by lia. by rewrite shr_record_m, Z.pow_0_r, Z.div_1_r, Z.add_0_r. }
  split_and!; [done| | |done|done]; rewrite H1.
  - assert (2 ^ n <= Zpos m) as Hle.
    { etrans; [|exact Hlo]. apply Z.pow_le_mono_r; lia. }
    pose proof (Z.div_le_mono (2 ^ n) (Zpos m) (2 ^ n) ltac:(apply Z.pow_pos_nonneg; lia) Hle) as Hd.
    rewrite Z.div_same in Hd by (apply Z.pow_nonzero; lia). lia.
  - apply Z.div_lt_upper_bound; [apply Z.pow_pos_nonneg; lia|].
    rewrite <-Z.pow_add_r by lia. eapply Z.lt_le_trans; [exact Hhi|]. apply Z.pow_le_mono_r; lia.
Qed.

Lemma round_aux_finite s m e :
  -900 <= e → e + Z.max 0 (Zpos (digits2_pos m) - 53) + 1 <= 971 →
  ∃ m' e', binary_round_aux 53 1024 s (Zpos m) e loc_Exact = S754_finite s m' e'.
Proof.
  intros He Hmax. unfold binary_round_aux.
  destruct (shr_fexp_pos m e loc_Exact He) as (H1 & H2 & H3 & _).
  destruct (shr_fexp 53 1024 (Zpos m) e loc_Exact) as [mrs' e']. cbn [fst snd] in *.
  pose proof (round_nearest_even_ge (shr_m mrs') (loc_of_shr_record mrs')) as Hr.
  destruct (round_nearest_even (shr_m mrs') (loc_of_shr_record mrs')) as [|k|k]; [lia| |lia].
  destruct (shr_fexp_pos k e' loc_Exact ltac:(lia)) as (G1 & G2 & G3 & _).
  destruct (shr_fexp 53 1024 (Zpos k) e' loc_Exact) as [mrs'' e'']. cbn [fst snd] in *.
  destruct (shr_m mrs'') as [|m'|m']; [lia| |lia].
  assert (Zpos (digits2_pos k) <= 54) by (apply digits_le; lia).
  rewrite (proj2 (Z.leb_le _ _)) by lia. eauto.
Qed.

Lemma round_finite s m :
  Zpos m <= 2 ^ 63 → ∃ m' e', binary_round 53 1024 s m 0 = S754_finite s m' e'.
Proof.
  intros Hm. assert (Zpos (digits2_pos m) <= 64) as Hd by (apply digits_le; lia).
  unfold binary_round, shl_align.
  destruct (fexp 53 1024 (Zpos (digits2_pos m) + 0) - 0) as [|p|p] eqn:Hp.
  - apply round_aux_finite; lia.
  - apply round_aux_finite; lia.
  - apply round_aux_finite; [unfold fexp, emin in *; lia|]. rewrite digits_shift. unfold fexp, emin in *. lia.
Qed.

(** [float64] of a machine integer is finite, and zero only for zero. *)
Lemma f64_of_Z_finite z :
  int64_range z → z ≠ 0 → ∃ s m e, f64_of_Z z = S754_finite s m e.
Proof.
  unfold int64_range, int64_min, int64_max. intros Hz Hnz. unfold f64_of_Z, binary_normalize.
  destruct z as [|m|m]; [done|destruct (round_finite false m) as (? & ? & ->)|
    destruct (round_finite true m) as (? & ? & ->)]; try lia; eauto.
Qed.

Lemma f64_of_Z_not_nan z : int64_range z → f64_is_nan (f64_of_Z z) = false.
Proof.
  intros Hz. destruct (decide (z = 0)) as [->|Hnz]; [done|].
  by destruct (f64_of_Z_finite z Hz Hnz) as (? & ? & ? & ->).
Qed.

(** A quotient of machine integers is a number when the divisor is not 0. *)
Lemma f64_div_not_nan a b :
  int64_range a → int64_range b → b ≠ 0 → f64_is_nan (f64_div (f64_of_Z a) (f64_of_Z b)) = false.
Proof.
  intros Ha Hb Hnz. destruct (f64_of_Z_finite b Hb Hnz) as (s & m & e & ->).
  destruct (decide (a = 0)) as [->|Hna]; [done|].
  destruct (f64_of_Z_finite a Ha Hna) as (s' & m' & e' & ->).
  unfold f64_div, SFdiv. unfold SFdiv_core_binary. set (e0 := Z.min _ _).
  set (k := match e' - e - e0 with Z0 => _ | Zpos _ => _ | Zneg _ => _ end).
  assert (0 <= k) as Hk.
  { unfold k. destruct (e' - e - e0); [lia| |lia]. apply Z.shiftl_nonneg. lia. }
  pose proof (Z_div_mod k (Zpos m) ltac:(lia)) as Hdm.
  destruct (Z.div_eucl k (Zpos m)) as [q r]. apply round_aux_not_nan. nia.
Qed.

(** Up to 2^53 the conversion is exact. *)
Lemma f64_round_trip z : Z.abs z <= 2 ^ 53 - 1 → f64_to_int (f64_of_Z z) = z.
Proof.
  intros Hz. unfold f64_to_int.
  assert (f64_trunc_Z (f64_of_Z z) = Some z) as ->.
  { unfold f64_of_Z, binary_normalize.
    assert (∀ s m, Zpos m < 2 ^ 53 →
      f64_trunc_Z (binary_round 53 1024 s m 0) = Some (if s then - Zpos m else Zpos m)) as Hr.
    { clear z Hz. intros s m Hm. assert (Zpos (digits2_pos m) <= 53) as Hd by (apply digits_le; lia).
      assert (∀ k e, Zpos (digits2_pos k) <= 53 → -900 <= e <= 0 →
                binary_round_aux 53 1024 s (Zpos k) e loc_Exact = S754_finite s k e) as Haux.
      { intros k e Hk He. unfold binary_round_aux.
        destruct (shr_fexp_pos k e loc_Exact ltac:(lia)) as (_ & _ & H3 & H4).
        destruct (shr_fexp 53 1024 (Zpos k) e loc_Exact) as [mrs e'] eqn:Hs. cbn [fst snd] in *.
        rewrite H4 by lia. assert (e' = e) as -> by lia. cbn.
        rewrite Hs. rewrite H4 by lia. cbn. by rewrite (proj2 (Z.leb_le _ _)) by lia. }
      unfold binary_round, shl_align.
      destruct (fexp 53 1024 (Zpos (digits2_pos m) + 0) - 0) as [|p|p] eqn:Hp.
      - rewrite Haux by lia. done.
      - unfold fexp, emin in Hp. lia.
      - assert (fexp 53 1024 (Zpos (digits2_pos m) + 0) = Zneg p) as -> by lia.
        unfold fexp, emin in Hp.
        rewrite Haux by (rewrite ?digits_shift; lia). cbn [f64_trunc_Z].
        rewrite Pos2Z.opp_neg, Z.shiftr_div_pow2, pos_shift_value, Z.div_mul
          by (try apply Z.pow_nonzero; lia). done. }
    destruct z as [|m|m]; [done| |]; rewrite Hr by lia; done. }
  rewrite bool_decide_eq_true_2; [done|]. unfold int64_range, int64_min, int64_max. lia.
Qed.
