(* ===== verification/GoFloatSign.v ===== *)
(** * The signs of differences and quotients of doubles

    The difference of two doubles in order, and the quotient of two positive
    doubles, are not negative: what an array index computed from them needs.
    The order of the representations is that of the values only for canonical
    mantissas, which is what [valid_binary] says and every computed double
    has. *)

From S2P Require Import Prelude GoFloat GoFloatExact.

Local Open Scope Z_scope.

(** The sign bit of a number. *)
Definition sign_of (x : f64) : option bool :=
  match x with
  | S754_nan => None
  | S754_zero s | S754_infinity s => Some s
  | S754_finite s _ _ => Some s
  end.

Definition valid (x : f64) : bool := valid_binary 53 1024 x.

Lemma round_aux_sign s m e l : 0 <= m → sign_of (binary_round_aux 53 1024 s m e l) = Some s.
Proof.
  intros Hm. unfold binary_round_aux.
  pose proof (shr_fexp_nonneg m e l Hm) as H1. destruct (shr_fexp 53 1024 m e l) as [mrs' e'].
  simpl in H1. pose proof (round_nearest_even_ge (shr_m mrs') (loc_of_shr_record mrs')) as H2.
  pose proof (shr_fexp_nonneg (round_nearest_even (shr_m mrs') (loc_of_shr_record mrs')) e' loc_Exact
    ltac:(lia)) as H3.
  destruct (shr_fexp 53 1024 _ e' loc_Exact) as [mrs'' e'']. simpl in H3.
  destruct (shr_m mrs''); [done| |lia]. by destruct (_ <=? _).
Qed.

Lemma normalize_sign m e : 0 <= m → sign_of (binary_normalize 53 1024 m e false) = Some false.
Proof.
  destruct m as [|m|m]; [done| |lia]. intros _. simpl. unfold binary_round.
  destruct (shl_align _ _ _). by apply round_aux_sign.
Qed.

Lemma shl_align_value m e ez : ez <= e → Zpos (fst (shl_align m e ez)) = Zpos m * 2 ^ (e - ez).
Proof.
  intros He. unfold shl_align. destruct (ez - e) as [|p|p] eqn:Hd; simpl; [|lia|].
  - replace (e - ez) with 0 by lia. lia.
  - rewrite pos_shift_value. do 2 f_equal. lia.
Qed.

(** The order of canonical representations is that of the values. *)
Lemma canonical_le m e m' e' ez :
  canonical_mantissa 53 1024 m e = true → canonical_mantissa 53 1024 m' e' = true →
  ez <= e → ez <= e' → (e < e' ∨ e = e' ∧ (Zpos m <= Zpos m')) →
  Zpos m * 2 ^ (e - ez) <= Zpos m' * 2 ^ (e' - ez).
Proof.
  unfold canonical_mantissa, fexp, emin. rewrite !Z.eqb_eq. intros Hc Hc' Hz Hz' [He|[-> Hm]].
  - replace (e' - ez) with (e' - e + (e - ez)) by lia. rewrite Z.pow_add_r, Z.mul_assoc by lia.
    apply Z.mul_le_mono_nonneg_r; [by apply Z.pow_nonneg|].
    pose proof (digits_bounds m) as [_ Hhi]. pose proof (digits_bounds m') as [Hlo' _].
    assert (Zpos (digits2_pos m') = 53) as Hd' by lia. rewrite Hd' in Hlo'.
    assert (2 ^ Zpos (digits2_pos m) <= 2 ^ 53) by (apply Z.pow_le_mono_r; lia).
    assert (2 ^ 1 <= 2 ^ (e' - e)) by (apply Z.pow_le_mono_r; lia). nia.
  - apply Z.mul_le_mono_nonneg_r; [by apply Z.pow_nonneg|done].
Qed.

Lemma f64_sub_sign x y :
  valid x = true → valid y = true → f64_ltb f64_zero x = true → f64_ltb f64_zero y = true →
  f64_trunc_Z x ≠ None → f64_trunc_Z y ≠ None → f64_ltb x y = false →
  sign_of (f64_sub x y) = Some false.
Proof.
  destruct x as [|[]| |[] m e], y as [|[]| |[] m' e']; try done.
  unfold valid, valid_binary, bounded. rewrite !andb_true_iff. intros [Hc _] [Hc' _] _ _ _ _ Hlt.
  unfold f64_sub, SFsub. apply normalize_sign. simpl.
  rewrite !shl_align_value by lia. apply Z.le_0_sub, canonical_le; [done|done|lia|lia|].
  unfold f64_ltb, SFltb, SFcompare in Hlt. change (Pos.compare_cont Eq m m') with (Pos.compare m m') in Hlt.
  destruct (Z.compare_spec e e'); [|done|by left]. right. split; [done|].
  destruct (Pos.compare_spec m m'); [lia|done|lia].
Qed.

(** A quotient of numbers that are not negative is not negative, unless it is
    not a number. *)
Lemma f64_div_sign x y :
  sign_of x = Some false → sign_of y = Some false → f64_is_nan (f64_div x y) = false →
  sign_of (f64_div x y) = Some false.
Proof.
  destruct x as [[]|[]| |[] m e], y as [[]|[]| |[] m' e']; try done. intros _ _ _.
  unfold f64_div, SFdiv. unfold SFdiv_core_binary. set (e0 := Z.min _ _).
  set (k := match e - e' - e0 with Z0 => _ | Zpos _ => _ | Zneg _ => _ end).
  assert (0 <= k) as Hk.
  { unfold k. destruct (e - e' - e0); [lia| |lia]. apply Z.shiftl_nonneg. lia. }
  pose proof (Z_div_mod k (Zpos m') ltac:(lia)) as Hdm.
  destruct (Z.div_eucl k (Zpos m')) as [q r]. apply round_aux_sign. nia.
Qed.

Lemma trunc_nonneg x z : sign_of x = Some false → f64_trunc_Z x = Some z → 0 <= z.
Proof.
  destruct x as [|[]| |[] m e]; try done; simpl; [intros _ [= <-]; done|]. intros _ [= <-].
  destruct e; [lia|apply Z.shiftl_nonneg; lia|apply Z.shiftr_nonneg; lia].
Qed.
