(* ===== verification/GoText.v ===== *)
(** * Strings and byte searches

    Go strings are byte sequences, so they are Rocq [string]s (8-bit
    characters) and [len] is their length.  The functions of package
    [strings] that the sources call are here, with the facts the components
    need.  Case mapping and space trimming are the ASCII part of the Unicode
    functions: they agree with Go on ASCII text. *)

From S2P Require Import Prelude.
From Stdlib Require Export Ascii.

Local Open Scope string_scope.
#[local] Arguments String.append !_ _ / : simpl nomatch.

(** [s[:n]] and [s[n:]] for [n] inside the string. *)
Fixpoint str_take (n : nat) (s : string) : string :=
  match n, s with
  | S n', String c s' => String c (str_take n' s')
  | _, _ => ""
  end.

Fixpoint str_drop (n : nat) (s : string) : string :=
  match n, s with
  | S n', String _ s' => str_drop n' s'
  | O, _ => s
  | _, EmptyString => ""
  end.

(** [strings.HasPrefix] and [strings.TrimPrefix]. *)
Fixpoint has_prefix (s p : string) {struct p} : bool :=
  match p, s with
  | EmptyString, _ => true
  | String a p', String b s' => Ascii.eqb a b && has_prefix s' p'
  | String _ _, EmptyString => false
  end.

Definition trim_prefix (s p : string) : string :=
  if has_prefix s p then str_drop (String.length p) s else s.

(** [strings.Index]: the first position where the substring starts. *)
Fixpoint str_index (s sub : string) : option nat :=
  if has_prefix s sub then Some 0%nat
  else match s with
       | EmptyString => None
       | String _ s' => S <$> str_index s' sub
       end.

Definition strings_Contains (s sub : string) : bool :=
  match str_index s sub with Some _ => true | None => false end.

(** [strings.SplitN] with a separator that is not empty: at most [n] pieces
    ([n] counts the cuts left plus one). *)
Fixpoint splitN (n : nat) (s sep : string) : list string :=
  match n with
  | O | 1%nat => [s]
  | S n' =>
      match str_index s sep with
      | Some i => str_take i s :: splitN n' (str_drop (i + String.length sep) s) sep
      | None => [s]
      end
  end.

(** [strings.Split]: a string has at most [length + 1] pieces. *)
Definition split (s sep : string) : list string :=
  splitN (S (S (String.length s))) s sep.

Definition is_space (c : ascii) : bool :=
  let n := nat_of_ascii c in
  (Nat.eqb n 32 || (Nat.leb 9 n && Nat.leb n 13))%bool.

Fixpoint trim_left (s : string) : string :=
  match s with
  | String c s' => if is_space c then trim_left s' else s
  | EmptyString => ""
  end.

Fixpoint trim_right (s : string) : string :=
  match s with
  | String c s' =>
      match trim_right s' with
      | EmptyString => if is_space c then "" else String c ""
      | t => String c t
      end
  | EmptyString => ""
  end.

Definition trim_space (s : string) : string := trim_right (trim_left s).

Definition lower_ascii (c : ascii) : ascii :=
  let n := nat_of_ascii c in
  if (Nat.leb 65 n && Nat.leb n 90)%bool then ascii_of_nat (n + 32) else c.

Fixpoint to_lower (s : string) : string :=
  match s with
  | String c s' => String (lower_ascii c) (to_lower s')
  | EmptyString => ""
  end.

(** [strings.Join]. *)
Fixpoint join (sep : string) (l : list string) : string :=
  match l with
  | [] => ""
  | [x] => x
  | x :: l' => x ++ sep ++ join sep l'
  end.

(** [%d] of an integer. *)
Definition fmt_d (z : Z) : string := pretty z.

(** ** Facts *)

Lemma str_app_nil_r s : s ++ "" = s.
Proof. induction s; simpl; congruence. Qed.

Lemma str_app_assoc s t u : s ++ (t ++ u) = (s ++ t) ++ u.
Proof. induction s; simpl; congruence. Qed.

Lemma str_length_app s t : String.length (s ++ t) = (String.length s + String.length t)%nat.
Proof. induction s; simpl; congruence. Qed.

Lemma str_drop_app s t : str_drop (String.length s) (s ++ t) = t.
Proof. by induction s. Qed.

Lemma str_take_app s t : str_take (String.length s) (s ++ t) = s.
Proof. induction s; simpl; [by destruct t|congruence]. Qed.

Lemma str_take_drop n s : str_take n s ++ str_drop n s = s.
Proof. revert s. induction n; intros []; simpl; congruence. Qed.

Lemma str_take_length n s :
  (n ≤ String.length s)%nat → String.length (str_take n s) = n.
Proof. revert s. induction n; intros [] ?; simpl in *; [..|rewrite IHn]; lia. Qed.

Lemma has_prefix_spec s p : has_prefix s p = true ↔ ∃ r, s = p ++ r.
Proof.
  revert s. induction p as [|a p IH]; intros s; simpl.
  - split; [by exists s|by intros].
  - destruct s as [|b s]; [split; [done|intros [r Hr]; simpl in Hr; discriminate]|].
    rewrite andb_true_iff, Ascii.eqb_eq, IH.
    split.
    + by intros [-> [r ->]]; exists r.
    + intros [r Hr]. inversion Hr. eauto.
Qed.

Lemma has_prefix_length s p :
  has_prefix s p = true → (String.length p ≤ String.length s)%nat.
Proof. intros [r ->]%has_prefix_spec. rewrite str_length_app. lia. Qed.

Lemma has_prefix_refl s : has_prefix s s = true.
Proof. apply has_prefix_spec. exists "". by rewrite str_app_nil_r. Qed.

(** Two prefixes of one string are comparable. *)
Lemma has_prefix_comparable s p q :
  has_prefix s p = true → has_prefix s q = true →
  (String.length p ≤ String.length q)%nat → has_prefix q p = true.
Proof.
  revert s q. induction p as [|a p IH]; intros s q Hp Hq Hle; [done|].
  destruct s as [|b s]; [done|]. destruct q as [|c q]; simpl in *; [lia|].
  apply andb_true_iff in Hp as [Ha Hp], Hq as [Hc Hq].
  apply Ascii.eqb_eq in Ha as ->, Hc as ->.
  rewrite Ascii.eqb_refl. simpl. eapply IH; eauto. lia.
Qed.

Lemma trim_prefix_app p r : trim_prefix (p ++ r) p = r.
Proof.
  unfold trim_prefix. replace (has_prefix (p ++ r) p) with true.
  - apply str_drop_app.
  - symmetry. apply has_prefix_spec. eauto.
Qed.

Lemma str_index_None_prefix s sub r t :
  str_index s sub = None → s = r ++ sub ++ t → False.
Proof.
  revert r. induction s as [|c s IH]; intros r; simpl.
  - destruct sub as [|a sub]; simpl; [done|]. intros _. by destruct r.
  - destruct (has_prefix (String c s) sub) eqn:Hp; [done|].
    intros Hi Heq. destruct r as [|b r].
    + apply not_true_iff_false in Hp. apply Hp, has_prefix_spec. eauto.
    + apply (IH r); [by destruct (str_index s sub)|]. by inversion Heq.
Qed.

Lemma str_index_Some s sub i :
  str_index s sub = Some i →
  s = str_take i s ++ sub ++ str_drop (i + String.length sub) s.
Proof.
  revert i. induction s as [|c s IH]; intros i; simpl.
  - destruct sub; simpl; [|done]. by intros [= <-].
  - destruct (has_prefix (String c s) sub) eqn:Hp.
    + intros [= <-]. apply has_prefix_spec in Hp as [r Hr].
      simpl. rewrite Hr, str_drop_app. done.
    + destruct (str_index s sub) as [j|]; [|done]. intros [= <-].
      simpl. f_equal. by apply IH.
Qed.

Lemma strings_Contains_spec s sub :
  strings_Contains s sub = true ↔ ∃ r t, s = r ++ sub ++ t.
Proof.
  unfold strings_Contains. destruct (str_index s sub) as [i|] eqn:Hi; split; try done.
  - intros _. apply str_index_Some in Hi. eauto.
  - intros (r & t & Heq). exfalso. eapply str_index_None_prefix; eauto.
Qed.

Lemma join_cons sep x l : l ≠ [] → join sep (x :: l) = x ++ sep ++ join sep l.
Proof. by destruct l. Qed.

Lemma splitN_cons n s sep : splitN n s sep ≠ [].
Proof. destruct n as [|[|n]]; simpl; [done..|]. by destruct (str_index s sep). Qed.

Lemma splitN_join n s sep : join sep (splitN n s sep) = s.
Proof.
  revert s. induction n as [|[|n] IH]; intros s; [done..|].
  change (splitN (S (S n)) s sep) with
    (match str_index s sep with
     | Some i => str_take i s :: splitN (S n) (str_drop (i + String.length sep) s) sep
     | None => [s]
     end).
  destruct (str_index s sep) as [i|] eqn:Hi; [|done].
  rewrite join_cons by apply splitN_cons. rewrite IH.
  symmetry. by apply str_index_Some.
Qed.

Lemma split_join s sep : join sep (split s sep) = s.
Proof. apply splitN_join. Qed.

Lemma lower_ascii_idem c : lower_ascii (lower_ascii c) = lower_ascii c.
Proof. by destruct c as [[] [] [] [] [] [] [] []]. Qed.

Lemma to_lower_idem s : to_lower (to_lower s) = to_lower s.
Proof. induction s; simpl; [done|]. by rewrite lower_ascii_idem, IHs. Qed.

Lemma to_lower_length s : String.length (to_lower s) = String.length s.
Proof. induction s; simpl; congruence. Qed.

#[export] Hint Resolve has_prefix_refl : hive.

(** The double quote, for texts that contain one. *)
Definition dq : string := String (ascii_of_nat 34) "".
