(* ===== verification/GoScan.v ===== *)
(** * Numbers in text

    [fmt.Sscanf] with [%d] and [strconv.Atoi], as the configuration and the
    query strings are read. *)

From S2P Require Import Prelude GoText.

Local Open Scope string_scope.
Local Open Scope Z_scope.

(** [fmt.Sscanf(s, "%d", &n)]: leading blanks are skipped, the digits read up
    to the first other character; [None] leaves [n] as it was. *)

Definition newline : ascii := ascii_of_nat 10.

Fixpoint skip_blanks (s : string) : string :=
  match s with
  | String c s' => if is_space c && negb (Ascii.eqb c newline) then skip_blanks s' else s
  | EmptyString => s
  end.

Definition digit_of (c : ascii) : option Z :=
  let n := Z.of_nat (nat_of_ascii c) in
  if (48 <=? n) && (n <=? 57) then Some (n - 48) else None.

Fixpoint scan_digits (acc : option Z) (s : string) : option Z :=
  match s with
  | EmptyString => acc
  | String c s =>
      match digit_of c with
      | Some d => scan_digits (Some (10 * from_opt 0 acc + d)) s
      | None => acc
      end
  end.

Definition Sscanf_d (s : string) : option Z :=
  let s := skip_blanks s in
  let n := match s with
           | String c s' =>
               if Ascii.eqb c "-" then Z.opp <$> scan_digits None s'
               else if Ascii.eqb c "+" then scan_digits None s'
               else scan_digits None s
           | EmptyString => None
           end in
  match n with
  | Some z => if bool_decide (int64_range z) then Some z else None
  | None => None
  end.

Example Sscanf_d_examples :
  Sscanf_d "  42px" = Some 42 ∧ Sscanf_d "-7" = Some (-7) ∧ Sscanf_d "x1" = None ∧
  Sscanf_d "99999999999999999999" = None.
Proof. by vm_compute. Qed.

(** [strconv.Atoi]: an optional sign and digits, nothing else. *)
Fixpoint all_digits (s : string) : bool :=
  match s with
  | EmptyString => true
  | String c s => match digit_of c with Some _ => all_digits s | None => false end
  end.

Definition Atoi (s : string) : option Z :=
  let body := match s with
              | String c s' => if Ascii.eqb c "-" || Ascii.eqb c "+" then s' else s
              | EmptyString => s
              end in
  if all_digits body && bool_decide (s = skip_blanks s) then Sscanf_d s else None.

Example Atoi_examples :
  Atoi "42" = Some 42 ∧ Atoi "-7" = Some (-7) ∧ Atoi "42px" = None ∧ Atoi " 1" = None ∧ Atoi "" = None ∧
  Atoi "-" = None.
Proof. by vm_compute. Qed.

(** [getEnvInt]; [val] is the variable's value, empty when unset. *)
Definition getEnvInt (val : string) (def : Z) : Z :=
  if String.eqb val "" then def else from_opt def (Sscanf_d val).


(** ** Facts *)

Lemma Sscanf_d_range s z : Sscanf_d s = Some z → int64_range z.
Proof. unfold Sscanf_d. case_match; [|done]. case_bool_decide; [|done]. by intros [= <-]. Qed.

Lemma getEnvInt_range val def : int64_range def → int64_range (getEnvInt val def).
Proof.
  unfold getEnvInt. destruct (String.eqb val ""); [done|].
  destruct (Sscanf_d val) eqn:Hs; [|done]. intros _. by eapply Sscanf_d_range.
Qed.
