(* ===== verification/GoHttp.v ===== *)
(** * Dynamic values and HTTP responses

    [interface{}] values as they come out of [encoding/json] (a [float64] for
    every number, a map for every object), the type assertions the sources
    apply to them, and the response a handler writes. *)

From S2P Require Import Prelude GoFloat.

Local Open Scope string_scope.

(** A decoded JSON value.  [JObj] holds a Go map, so keys are unique and have
    no order. *)
Inductive json :=
  | JNull
  | JBool (b : bool)
  | JNum (f : f64)
  | JInt (z : Z)  (** a Go [int] stored in an [interface{}], never decoded *)
  | JStr (s : string)
  | JArr (l : list json)
  | JObj (m : gmap string json).

(** The type assertions [v.(string)], [v.(bool)], [v.(float64)], ... *)
Definition as_str (j : json) : option string := match j with JStr s => Some s | _ => None end.
Definition as_bool (j : json) : option bool := match j with JBool b => Some b | _ => None end.
Definition as_num (j : json) : option f64 := match j with JNum f => Some f | _ => None end.
Definition as_int (j : json) : option Z := match j with JInt z => Some z | _ => None end.
Definition as_arr (j : json) : option (list json) := match j with JArr l => Some l | _ => None end.
Definition as_obj (j : json) : option (gmap string json) := match j with JObj m => Some m | _ => None end.

(** [m[key].(T)]: a missing key reads as [nil], which no assertion accepts. *)
Definition obj_get {A} (as_T : json → option A) (m : gmap string json) (key : string) : option A :=
  m !! key ≫= as_T.

(** [x, _ := m[key].(T)]: the zero value when the assertion fails. *)
Definition obj_str (m : gmap string json) (key : string) : string := from_opt "" (obj_get as_str m key).

(** A composite literal [map[string]interface{}{...}]. *)
Definition jmap (l : list (string * json)) : gmap string json := list_to_map l.
Definition jobj (l : list (string * json)) : json := JObj (jmap l).

(** A response: [http.Error] writes a plain text body, the JSON encoders
    write a value. *)
Inductive resp_body :=
  | BText (s : string)
  | BJson (j : json)
  | BNone.

Record response := mk_response { rs_code : Z; rs_body : resp_body }.

Definition StatusOK : Z := 200.
Definition StatusNoContent : Z := 204.
Definition StatusBadRequest : Z := 400.
Definition StatusUnauthorized : Z := 401.
Definition StatusNotFound : Z := 404.
Definition StatusMethodNotAllowed : Z := 405.
Definition StatusTooManyRequests : Z := 429.
Definition StatusInternalServerError : Z := 500.
Definition StatusBadGateway : Z := 502.
Definition StatusServiceUnavailable : Z := 503.

Definition http_Error (msg : string) (code : Z) : response := mk_response code (BText msg).
Definition write_json (j : json) : response := mk_response StatusOK (BJson j).

(** A Go [error] result: the message of the error, or the value. *)
Inductive result (A : Type) :=
  | Ok (a : A)
  | Err (msg : string).
Arguments Ok {A} a.
Arguments Err {A} msg.

Definition is_ok {A} (r : result A) : bool := match r with Ok _ => true | Err _ => false end.

(** A computation that may panic (index out of range, send on a closed
    channel, ...): [None] is the panic. *)
Abbreviation panics A := (option A) (only parsing).

Lemma obj_get_insert {A} (as_T : json → option A) m k v :
  obj_get as_T (<[k := v]> m) k = as_T v.
Proof. unfold obj_get. by rewrite lookup_insert_eq. Qed.

Lemma obj_get_insert_ne {A} (as_T : json → option A) m k k' v :
  k ≠ k' → obj_get as_T (<[k := v]> m) k' = obj_get as_T m k'.
Proof. intros Hne. unfold obj_get. by rewrite lookup_insert_ne. Qed.

Lemma obj_get_missing {A} (as_T : json → option A) m k :
  m !! k = None → obj_get as_T m k = None.
Proof. unfold obj_get. by intros ->. Qed.

#[export] Hint Rewrite @obj_get_insert : go_int.
