(* ===== verification/GoSort.v ===== *)
(** * Package [sort]: the contract of [sort.Slice]

    The sources sort with [sort.Slice], which is not stable and whose
    algorithm is not part of its contract.  [GoSort] is the operation,
    [GoSortSpec] what the standard library promises of it: the result is a
    permutation, and when the comparison is a strict weak order on the
    elements, no element comes after one it is strictly below.  The clients
    are verified against the interface; [insertion_sort] shows that it can be
    implemented. *)

From S2P Require Import Prelude.

Class GoSort := sort_slice : ∀ {A : Type}, (A → A → bool) → list A → list A.

(** A strict weak order on the elements of a list: asymmetric, and "not
    below" is transitive. *)
Definition weak_order_on {A} (less : A → A → bool) (l : list A) : Prop :=
  (∀ x y, x ∈ l → y ∈ l → less x y = true → less y x = false) ∧
  (∀ x y z, x ∈ l → y ∈ l → z ∈ l →
     less y x = false → less z y = false → less z x = false).

(** In sorted order: nothing later is strictly below anything earlier. *)
Definition sorted_by {A} (less : A → A → bool) (l : list A) : Prop :=
  StronglySorted (λ x y, less y x = false) l.

Class GoSortSpec (H : GoSort) : Prop := {
  sort_slice_perm {A} (less : A → A → bool) l : sort_slice less l ≡ₚ l;
  sort_slice_sorted {A} (less : A → A → bool) l :
    weak_order_on less l → sorted_by less (sort_slice less l) }.

(** ** Facts for the clients *)

Section client.
Context `{GoSortSpec}.

Lemma sort_slice_elem {A} (less : A → A → bool) l x : x ∈ sort_slice less l ↔ x ∈ l.
Proof. by rewrite sort_slice_perm. Qed.

Lemma sort_slice_length {A} (less : A → A → bool) l :
  length (sort_slice less l) = length l.
Proof. by rewrite sort_slice_perm. Qed.

Lemma sort_slice_nil_inv {A} (less : A → A → bool) l : sort_slice less l = [] → l = [].
Proof. intros Hl. apply Permutation_nil. rewrite <-(sort_slice_perm less l). by rewrite Hl. Qed.

(** The head of the sorted slice is a minimum. *)
Lemma sort_slice_head {A} (less : A → A → bool) l x k :
  weak_order_on less l → sort_slice less l = x :: k →
  x ∈ l ∧ ∀ y, y ∈ l → less y x = false.
Proof.
  intros Hw Hs. pose proof (sort_slice_sorted less l Hw) as Hsort.
  assert (x ∈ l) as Hx by (rewrite <-(sort_slice_elem less), Hs; by left).
  split; [done|]. intros y Hy. rewrite <-(sort_slice_elem less), Hs in Hy.
  unfold sorted_by in Hsort. rewrite Hs in Hsort.
  apply StronglySorted_inv in Hsort as [_ Hall]. rewrite Forall_forall in Hall.
  apply elem_of_cons in Hy as [->|Hy]; [|by apply Hall].
  destruct (less x x) eqn:Hxx; [|done]. destruct Hw as [Hasym _].
  by rewrite (Hasym x x Hx Hx Hxx) in Hxx.
Qed.
End client.

Lemma weak_order_on_sub {A} (less : A → A → bool) l k :
  (∀ x, x ∈ k → x ∈ l) → weak_order_on less l → weak_order_on less k.
Proof. intros Hsub [Ha Ht]. split; eauto. Qed.

(** Orders by an integer key are strict weak orders. *)
Lemma weak_order_on_Z_key {A} (key : A → Z) l :
  weak_order_on (λ x y, Z.ltb (key x) (key y)) l.
Proof. split; intros *; rewrite ?Z.ltb_lt, ?Z.ltb_ge; lia. Qed.

Lemma weak_order_on_Z_key_desc {A} (key : A → Z) l :
  weak_order_on (λ x y, Z.ltb (key y) (key x)) l.
Proof. split; intros *; rewrite ?Z.ltb_lt, ?Z.ltb_ge; lia. Qed.

(** ** An implementation *)

Fixpoint insert_by {A} (less : A → A → bool) (x : A) (l : list A) : list A :=
  match l with
  | [] => [x]
  | y :: l' => if less y x then y :: insert_by less x l' else x :: l
  end.

#[global] Instance insertion_sort : GoSort :=
  λ A less l, foldr (insert_by less) [] l.

Lemma insert_by_perm {A} (less : A → A → bool) x l : insert_by less x l ≡ₚ x :: l.
Proof.
  induction l as [|y l IH]; simpl; [done|]. destruct (less y x); [|done].
  rewrite IH. by constructor.
Qed.

Lemma insertion_sort_perm {A} (less : A → A → bool) l :
  foldr (insert_by less) [] l ≡ₚ l.
Proof. induction l as [|x l IH]; simpl; [done|]. by rewrite insert_by_perm, IH. Qed.

Lemma insert_by_sorted {A} (less : A → A → bool) x l :
  weak_order_on less (x :: l) → sorted_by less l → sorted_by less (insert_by less x l).
Proof.
  intros Hw Hs. unfold sorted_by in *.
  induction Hs as [|y l Hs IH Hall]; simpl; [by repeat constructor|].
  pose proof Hw as [Hasym Htrans].
  rewrite Forall_forall in Hall. destruct (less y x) eqn:Hyx.
  - constructor.
    + apply IH. eapply weak_order_on_sub, Hw.
      intros z. rewrite !elem_of_cons. tauto.
    + apply Forall_forall. intros z. rewrite insert_by_perm, elem_of_cons.
      intros [->|Hz]; [|by apply Hall].
      apply Hasym; [by right; left|by left|done].
  - constructor; [by constructor; [|apply Forall_forall]|].
    apply Forall_forall. intros z [->|Hz]%elem_of_cons; [done|].
    apply (Htrans x y z); rewrite ?elem_of_cons; auto.
Qed.

#[global] Instance insertion_sort_spec : GoSortSpec insertion_sort.
Proof.
  split; [intros A less l; apply insertion_sort_perm|].
  intros A less l Hw. unfold sort_slice, insertion_sort.
  induction l as [|x l IH]; simpl; [constructor|].
  apply insert_by_sorted.
  - eapply weak_order_on_sub, Hw. intros y. by rewrite !elem_of_cons, insertion_sort_perm.
  - apply IH. eapply weak_order_on_sub, Hw. intros y. by right.
Qed.
