(* ===== verification/ReqQueue.v ===== *)
(** * The request queue and its history ([internal/queue/queue.go])

    Requests are shared by pointer between the queue, the proxy and the
    history, so they live in a store and the containers hold addresses.
    [Queue] and [History] model the two types of the package; each method
    holds the type's mutex for its whole body, so a method is one atomic
    step on the store and the container. *)

From S2P Require Import Prelude.

Local Open Scope string_scope.
Local Open Scope Z_scope.

(** ** Data *)

(** [Priority] is an [int]; the three constants are the named levels, but the
    proxy builds one from any number a client sends. *)
Definition PriorityLow : Z := 0.
Definition PriorityNormal : Z := 1.
Definition PriorityHigh : Z := 2.

(** [RequestStatus] is a string type; a new request has the empty one. *)
Definition StatusPending : string := "pending".
Definition StatusRunning : string := "running".
Definition StatusComplete : string := "complete".
Definition StatusFailed : string := "failed".
Definition StatusTimeout : string := "timeout".

Record Request := mk_Request {
  ID : string;
  Model : string;
  Priority : Z;
  Status : string;
  NodeID : string;
  CreatedAt : Time;
  StartedAt : option Time;
  CompletedAt : option Time;
  Error : string;
  Metadata : string }.

Definition zero_Request : Request := mk_Request "" "" 0 "" "" 0 None None "" "".

Definition set_Status (s : string) (r : Request) : Request :=
  mk_Request (ID r) (Model r) (Priority r) s (NodeID r) (CreatedAt r)
    (StartedAt r) (CompletedAt r) (Error r) (Metadata r).
Definition set_CreatedAt (t : Time) (r : Request) : Request :=
  mk_Request (ID r) (Model r) (Priority r) (Status r) (NodeID r) t
    (StartedAt r) (CompletedAt r) (Error r) (Metadata r).
Definition set_NodeID (n : string) (r : Request) : Request :=
  mk_Request (ID r) (Model r) (Priority r) (Status r) n (CreatedAt r)
    (StartedAt r) (CompletedAt r) (Error r) (Metadata r).
Definition set_StartedAt (t : Time) (r : Request) : Request :=
  mk_Request (ID r) (Model r) (Priority r) (Status r) (NodeID r) (CreatedAt r)
    (Some t) (CompletedAt r) (Error r) (Metadata r).
Definition set_CompletedAt (t : Time) (r : Request) : Request :=
  mk_Request (ID r) (Model r) (Priority r) (Status r) (NodeID r) (CreatedAt r)
    (StartedAt r) (Some t) (Error r) (Metadata r).
Definition set_Error (e : string) (r : Request) : Request :=
  mk_Request (ID r) (Model r) (Priority r) (Status r) (NodeID r) (CreatedAt r)
    (StartedAt r) (CompletedAt r) e (Metadata r).

(** The store of requests; address 0 is the nil pointer and is never used. *)
Abbreviation ptr := nat (only parsing).
Abbreviation heap := (gmap nat Request) (only parsing).
Definition nil_ptr : ptr := 0%nat.

Definition deref (h : heap) (p : ptr) : Request := from_opt zero_Request (h !! p).
Definition prio (h : heap) (p : ptr) : Z := Priority (deref h p).

Module Queue.

(** [notify] is a channel with one slot: the flag says whether the slot is
    taken. *)
Record t := mk { items : list ptr; maxSize : Z; notify : bool }.

(** [make] panics on a negative capacity. *)
Definition New (maxSize : Z) : option t :=
  if maxSize <? 0 then None else Some (mk [] maxSize false).

(** The scan for the insertion point: the first item of lower priority. *)
Definition insertIdx (h : heap) (pr : Z) (items : list ptr) : nat :=
  match find_first (λ p, prio h p <? pr) items with
  | Some (i, _) => i
  | None => length items
  end.

Definition Enqueue (h : heap) (q : t) (req : ptr) (now : Time) : bool * heap * t :=
  if maxSize q <=? go_len (items q) then (false, h, q)
  else
    let h := alter (λ r, set_CreatedAt now (set_Status StatusPending r)) req h in
    let idx := insertIdx h (prio h req) (items q) in
    (true, h, mk (go_insert_at nil_ptr idx req (items q)) (maxSize q) true).

Definition Dequeue (q : t) : option ptr * t :=
  match items q with
  | [] => (None, q)
  | req :: rest => (Some req, mk rest (maxSize q) (notify q))
  end.

Definition Peek (q : t) : option ptr := head (items q).
Definition Len (q : t) : Z := go_len (items q).
Definition List (q : t) : list ptr := items q.

Definition Cancel (h : heap) (q : t) (reqID : string) : bool * heap * t :=
  match find_first (λ p, String.eqb (ID (deref h p)) reqID
                         && String.eqb (Status (deref h p)) StatusPending)%bool (items q) with
  | Some (i, req) =>
      (true, alter (set_Status StatusFailed) req h,
       mk (go_remove_at i (items q)) (maxSize q) (notify q))
  | None => (false, h, q)
  end.

(** Receiving from [Notify()] empties the slot. *)
Definition Notify_recv (q : t) : bool * t := (notify q, mk (items q) (maxSize q) false).

(** ** Specification: one arrival-ordered list per priority *)

Definition level (h : heap) (q : t) (k : Z) : list ptr :=
  filter (λ p, prio h p = k) (items q).

(** The items are in descending priority order. *)
Definition ordered (h : heap) (q : t) : Prop :=
  StronglySorted (λ p p', prio h p' <= prio h p) (items q).

Definition bounded (q : t) : Prop := go_len (items q) <= maxSize q.

(** Every queued address is allocated. *)
Definition valid (h : heap) (q : t) : Prop := Forall (λ p, is_Some (h !! p)) (items q).

Definition wf (s : heap * t) : Prop :=
  ordered (s.1) (s.2) ∧ bounded (s.2) ∧ valid (s.1) (s.2).

(** The steps a queue of the program goes through: its methods, and the
    writes of the pointer holders, which leave the priority alone. *)
Inductive step : heap * t → heap * t → Prop :=
  | step_enqueue h q p now b h' q' :
      is_Some (h !! p) → Enqueue h q p now = (b, h', q') → step (h, q) (h', q')
  | step_dequeue h q o q' : Dequeue q = (o, q') → step (h, q) (h, q')
  | step_cancel h q i b h' q' : Cancel h q i = (b, h', q') → step (h, q) (h', q')
  | step_alloc h q p r : h !! p = None → step (h, q) (<[p := r]> h, q)
  | step_write h q p f :
      (∀ r, Priority (f r) = Priority r) → step (h, q) (alter f p h, q)
  | step_recv h q b q' : Notify_recv q = (b, q') → step (h, q) (h, q').

End Queue.

Module History.

Record t := mk { requests : list ptr; maxSize : Z }.

Definition NewHistory (maxSize : Z) : option t :=
  if maxSize <? 0 then None else Some (mk [] maxSize).

(** [l[i:]]: panics unless [0 <= i <= len(l)]. *)
Definition slice_from (i : Z) (l : list ptr) : option (list ptr) :=
  if (i <? 0) || (go_len l <? i) then None else Some (drop (Z.to_nat i) l).

Definition Add (h : t) (req : ptr) : option t :=
  let requests := (requests h ++ [req])%list in
  if maxSize h <? go_len requests then
    l ← slice_from (go_len requests - maxSize h) requests; Some (mk l (maxSize h))
  else Some (mk requests (maxSize h)).

(** The in-place reversal [for i, j := 0, len-1; i < j; i, j = i+1, j-1]. *)
Definition swap (i j : Z) (l : list ptr) : list ptr :=
  match l !! Z.to_nat i, l !! Z.to_nat j with
  | Some x, Some y => <[Z.to_nat i := y]> (<[Z.to_nat j := x]> l)
  | _, _ => l
  end.

Fixpoint reverse_loop (fuel : nat) (i j : Z) (l : list ptr) : list ptr :=
  match fuel with
  | O => l
  | S fuel => if i <? j then reverse_loop fuel (i + 1) (j - 1) (swap i j l) else l
  end.

Definition List (h : t) (limit : Z) : option (list ptr) :=
  let start := if limit <? go_len (requests h) then go_len (requests h) - limit else 0 in
  result ← slice_from start (requests h);
  Some (reverse_loop (length result) 0 (go_len result - 1) result).

Record Stats := mk_Stats { Total : Z; Pending : Z; Running : Z; Completed : Z; Failed : Z }.

Definition is_complete (h : heap) (p : ptr) : bool :=
  String.eqb (Status (deref h p)) StatusComplete.
Definition is_failed (h : heap) (p : ptr) : bool :=
  (String.eqb (Status (deref h p)) StatusFailed
   || String.eqb (Status (deref h p)) StatusTimeout)%bool.

(** One iteration of the [switch] in the counting loop. *)
Definition count_one (h : heap) (s : Stats) (p : ptr) : Stats :=
  if is_complete h p then
    mk_Stats (Total s) (Pending s) (Running s) (int_incr (Completed s)) (Failed s)
  else if is_failed h p then
    mk_Stats (Total s) (Pending s) (Running s) (Completed s) (int_incr (Failed s))
  else s.

Definition get_Stats (h : heap) (hist : t) : Stats :=
  foldl (count_one h) (mk_Stats 0 0 0 0 0) (requests hist).

End History.

(** ** Lemmas: the store *)

Lemma deref_alter_prio f h p p' :
  (∀ r, Priority (f r) = Priority r) → prio (alter f p h) p' = prio h p'.
Proof.
  intros Hf. unfold prio, deref. rewrite lookup_alter. case_decide; [|done].
  destruct (h !! p') eqn:Hp; subst; rewrite Hp; simpl; [apply Hf|done].
Qed.

Lemma alter_is_Some (h : heap) f p p' :
  is_Some (h !! p') → is_Some (alter f p h !! p').
Proof.
  intros [r Hr]. rewrite lookup_alter. case_decide; subst; rewrite Hr; by eexists.
Qed.

Lemma prio_insert_fresh h p r p' : p' ≠ p → prio (<[p := r]> h) p' = prio h p'.
Proof. intros Hne. unfold prio, deref. by rewrite lookup_insert_ne. Qed.


(** ** The priority queue *)

Module QueueFacts.
Import Queue.

Lemma insertIdx_split h pr l :
  StronglySorted (λ p p', prio h p' <= prio h p) l →
  ∃ l1 l2, l = (l1 ++ l2)%list ∧ insertIdx h pr l = length l1 ∧
    Forall (λ p, pr <= prio h p) l1 ∧ Forall (λ p, prio h p < pr) l2.
Proof.
  intros Hs. unfold insertIdx.
  destruct (find_first _ l) as [[i x]|] eqn:Hfind.
  - apply find_first_Some in Hfind as (l1 & l2 & -> & <- & Hx & Hall).
    exists l1, (x :: l2). split_and!; [done..| |].
    + eapply Forall_impl; [exact Hall|]. simpl. intros p Hp. zbool. lia.
    + apply Sorted_split_ge with (l1 := l1) (l2 := x :: l2) in Hs as (_ & Hs & _);
        [|intros ???; lia|done].
      apply StronglySorted_inv in Hs as [_ Hall2]. simpl in Hx. zbool.
      constructor; [done|]. eapply Forall_impl; [exact Hall2|]. simpl. lia.
  - apply find_first_None in Hfind. exists l, []. rewrite app_nil_r.
    split_and!; [done..| |constructor].
    eapply Forall_impl; [exact Hfind|]. simpl. intros p Hp. zbool. lia.
Qed.

Lemma Enqueue_full h q req now :
  maxSize q <= go_len (items q) → Enqueue h q req now = (false, h, q).
Proof. intros Hfull. unfold Enqueue. by rewrite (proj2 (Z.leb_le _ _) Hfull). Qed.

Definition enqueued (now : Time) (req : ptr) (h : heap) : heap :=
  alter (λ r, set_CreatedAt now (set_Status StatusPending r)) req h.

Lemma prio_enqueued now req h p : prio (enqueued now req h) p = prio h p.
Proof. by apply deref_alter_prio. Qed.

(** The shape of an accepted request: it lands behind everything of at
    least its priority and in front of the rest. *)
Lemma Enqueue_spec h q req now :
  ordered h q → go_len (items q) < maxSize q →
  ∃ l1 l2, items q = (l1 ++ l2)%list ∧
    Enqueue h q req now =
      (true, enqueued now req h, mk (l1 ++ req :: l2) (maxSize q) true) ∧
    Forall (λ p, prio h req <= prio h p) l1 ∧ Forall (λ p, prio h p < prio h req) l2.
Proof.
  intros Hord Hlt. unfold Enqueue.
  rewrite (proj2 (Z.leb_gt _ _) Hlt). fold (enqueued now req h).
  destruct (insertIdx_split h (prio h req) (items q) Hord)
    as (l1 & l2 & Heq & Hidx & H1 & H2).
  exists l1, l2. split_and!; [done| |done..].
  assert (insertIdx (enqueued now req h) (prio (enqueued now req h) req) (items q)
          = length l1) as ->.
  { rewrite prio_enqueued, <-Hidx. unfold insertIdx.
    replace (find_first _ _) with (find_first (λ p, prio h p <? prio h req) (items q));
      [done|].
    clear. induction (items q) as [|p l IH]; simpl; [done|].
    by rewrite prio_enqueued, IH. }
  rewrite Heq, go_insert_at_spec by (rewrite length_app; lia).
  by rewrite take_app_length, drop_app_length.
Qed.

Lemma level_app h l1 l2 ms nb k :
  level h (mk (l1 ++ l2) ms nb) k =
  (level h (mk l1 ms nb) k ++ level h (mk l2 ms nb) k)%list.
Proof. apply filter_app. Qed.

Lemma level_ext h h' q k :
  (∀ p, prio h' p = prio h p) → level h' q k = level h q k.
Proof. intros Heq. unfold level. apply list_filter_iff. intros p. by rewrite Heq. Qed.

Lemma level_nil h l ms nb k :
  (∀ p, p ∈ l → prio h p ≠ k) → level h (mk l ms nb) k = [].
Proof. apply filter_none. Qed.

Lemma ordered_ext h h' q :
  (∀ p, p ∈ items q → prio h' p = prio h p) → ordered h q → ordered h' q.
Proof.
  unfold ordered. intros Heq Hs. induction Hs as [|p l Hs IH Hall]; constructor.
  - apply IH. intros p' Hp'. apply Heq. by right.
  - rewrite Forall_forall in Hall |- *. intros p' Hp'.
    rewrite (Heq p) by left. rewrite (Heq p') by (by right). auto.
Qed.

Lemma Enqueue_wf h q req now b h' q' :
  wf (h, q) → is_Some (h !! req) → Enqueue h q req now = (b, h', q') → wf (h', q').
Proof.
  intros (Hord & Hb & Hv) Hreq Henq. simpl in *.
  destruct (decide (maxSize q <= go_len (items q))) as [Hfull|Hlt].
  { rewrite Enqueue_full in Henq by done. by simplify_eq. }
  destruct (Enqueue_spec h q req now Hord ltac:(lia)) as (l1 & l2 & Heq & Hr & H1 & H2).
  rewrite Hr in Henq. simplify_eq/=. unfold ordered, bounded, valid in *.
  rewrite Heq in *. split_and!; simpl.
  - eapply ordered_ext with (h := h) (q := mk (l1 ++ req :: l2) 0 true);
      [intros; apply prio_enqueued|]. unfold ordered. simpl.
    apply Sorted_split_ge with (l1 := l1) (l2 := l2) in Hord as (Hs1 & Hs2 & H12);
      [|intros ???; lia|done].
    rewrite Forall_forall in H1, H2.
    apply StronglySorted_app_intro; [done| |].
    + constructor; [done|]. apply Forall_forall. intros p Hp. specialize (H2 p Hp). lia.
    + intros x y Hx [->|Hy]%elem_of_cons; auto.
  - unfold bounded. simpl. len_lia.
  - assert (Forall (λ p, is_Some (enqueued now req h !! p)) (l1 ++ l2)) as Hv'.
    { eapply Forall_impl; [exact Hv|]. intros p. apply alter_is_Some. }
    unfold valid. simpl. rewrite Forall_app in Hv' |- *. destruct Hv'. split; [done|].
    constructor; [by apply alter_is_Some|done].
Qed.

Lemma Dequeue_wf h q o q' : wf (h, q) → Dequeue q = (o, q') → wf (h, q').
Proof.
  intros (Hord & Hb & Hv) Hdeq. unfold Dequeue, wf, ordered, bounded, valid in *. simpl in *.
  destruct (items q) as [|p l] eqn:Hq; simplify_eq/=; [by rewrite Hq|].
  apply StronglySorted_inv in Hord as [? _]. apply Forall_cons in Hv as [_ ?].
  split_and!; try done. len_lia.
Qed.

Lemma sorted_remove (R : relation ptr) `{!Transitive R} l1 x l2 :
  StronglySorted R (l1 ++ x :: l2) → StronglySorted R (l1 ++ l2).
Proof.
  intros Hs. apply Sorted_split_ge with (l1 := l1) (l2 := x :: l2) in Hs
    as (H1 & H2 & H12); [|done..].
  apply StronglySorted_inv in H2 as [H2 _].
  apply StronglySorted_app_intro; [done..|]. intros a b Ha Hb. apply H12; [done|by right].
Qed.

(** What [Cancel] finds: the first pending item with that id. *)
Lemma Cancel_spec h q i :
  (∃ l1 p l2, items q = (l1 ++ p :: l2)%list ∧
     ID (deref h p) = i ∧ Status (deref h p) = StatusPending ∧
     Forall (λ p', ¬ (ID (deref h p') = i ∧ Status (deref h p') = StatusPending)) l1 ∧
     Cancel h q i = (true, alter (set_Status StatusFailed) p h,
                     mk (l1 ++ l2) (maxSize q) (notify q))) ∨
  (Forall (λ p', ¬ (ID (deref h p') = i ∧ Status (deref h p') = StatusPending)) (items q) ∧
   Cancel h q i = (false, h, q)).
Proof.
  unfold Cancel. destruct (find_first _ (items q)) as [[j p]|] eqn:Hfind.
  - left. apply find_first_Some in Hfind as (l1 & l2 & Heq & <- & Hp & Hall).
    zbool. exists l1, p, l2. split_and!; [done..| |by rewrite Heq, go_remove_at_middle].
    eapply Forall_impl; [exact Hall|]. simpl. intros p' Hp' [HI HS].
    by rewrite HI, HS, !String.eqb_refl in Hp'.
  - right. split; [|done]. apply find_first_None in Hfind.
    eapply Forall_impl; [exact Hfind|]. simpl. intros p' Hp' [HI HS].
    by rewrite HI, HS, !String.eqb_refl in Hp'.
Qed.

Lemma alter_valid h q f p : valid h q → valid (alter f p h) q.
Proof.
  intros Hv. eapply Forall_impl; [exact Hv|]. intros p'. apply alter_is_Some.
Qed.

Lemma alter_wf h q f p :
  (∀ r, Priority (f r) = Priority r) → wf (h, q) → wf (alter f p h, q).
Proof.
  intros Hf (Hord & Hb & Hv). split_and!; simpl; [|done|by apply alter_valid].
  eapply ordered_ext; [|done]. intros. by apply deref_alter_prio.
Qed.

Lemma Cancel_wf h q i b h' q' : wf (h, q) → Cancel h q i = (b, h', q') → wf (h', q').
Proof.
  intros Hwf Hc. destruct (Cancel_spec h q i)
    as [(l1 & p & l2 & Heq & _ & _ & _ & Hr)|[_ Hr]]; rewrite Hr in Hc; simplify_eq; [|done].
  apply alter_wf; [done|]. destruct Hwf as (Hord & Hb & Hv).
  unfold wf, ordered, bounded, valid in *. simpl in *. rewrite Heq in *.
  split_and!.
  - eapply sorted_remove; [intros ???; lia|done].
  - len_lia.
  - rewrite Forall_app, Forall_cons in Hv. rewrite Forall_app. tauto.
Qed.

Lemma step_wf s s' : step s s' → wf s → wf s'.
Proof.
  intros Hstep Hwf. destruct Hstep.
  - eauto using Enqueue_wf.
  - eauto using Dequeue_wf.
  - eauto using Cancel_wf.
  - destruct Hwf as (Hord & Hb & Hv). unfold valid in *. simpl in *.
    assert (∀ p', p' ∈ items q → p' ≠ p) as Hne.
    { rewrite Forall_forall in Hv. intros p' Hp' ->.
      destruct (Hv _ Hp'). congruence. }
    split_and!; simpl; [|done|].
    + eapply ordered_ext; [|done]. intros p' Hp'. apply prio_insert_fresh. auto.
    + apply Forall_forall. intros p' Hp'. rewrite lookup_insert_ne by (symmetry; auto).
      rewrite Forall_forall in Hv. auto.
  - by apply alter_wf.
  - unfold Notify_recv in *. by simplify_eq.
Qed.

End QueueFacts.

(** ** The history *)

Module HistoryFacts.
Import History.

Lemma swap_ends (a m b : list ptr) x y i j :
  Z.to_nat i = length a → Z.to_nat j = (length a + S (length m))%nat →
  swap i j (a ++ x :: m ++ y :: b) = (a ++ y :: m ++ x :: b)%list.
Proof.
  intros Hi Hj. unfold swap. rewrite Hi, Hj.
  rewrite list_lookup_middle by done.
  rewrite lookup_app_r by lia.
  replace (length a + S (length m) - length a)%nat with (S (length m)) by lia.
  simpl. rewrite list_lookup_middle by done.
  rewrite !insert_app_r_alt by lia.
  replace (length a + S (length m) - length a)%nat with (S (length m)) by lia.
  rewrite Nat.sub_diag. simpl.
  by rewrite insert_app_r_alt, Nat.sub_diag by lia.
Qed.

(** Between two reversed ends the loop reverses the middle; half the length
    is enough fuel. *)
Lemma reverse_loop_middle fuel (m a b : list ptr) i j :
  (length m ≤ fuel)%nat → 0 <= i → Z.to_nat i = length a →
  j = i + go_len m - 1 →
  reverse_loop fuel i j (a ++ m ++ b) = (a ++ reverse m ++ b)%list.
Proof.
  revert m a b i j. induction fuel as [|fuel IH]; intros m a b i j Hf Hi0 Hi ->; simpl.
  { destruct m; [done|simpl in *; lia]. }
  destruct (Z.ltb_spec i (i + go_len m - 1)) as [Hlt|Hge].
  - destruct m as [|x m]; [unfold go_len in *; simpl in *; lia|].
    destruct m as [|z m _] using rev_ind; [unfold go_len in *; simpl in *; lia|].
    assert (go_len (x :: m ++ [z]) = go_len m + 2) as Hlen by len_lia.
    rewrite Hlen in *. simpl. rewrite <-(app_assoc m [z] b). simpl.
    rewrite swap_ends; [|done|unfold go_len in *; lia].
    replace (a ++ z :: m ++ x :: b)%list with ((a ++ [z]) ++ m ++ (x :: b))%list
      by (by rewrite <-app_assoc).
    rewrite IH; [| |lia| |lia].
    + rewrite reverse_cons, reverse_app, reverse_singleton.
      by rewrite <-!app_assoc.
    + simpl in Hf. rewrite length_app in Hf. simpl in Hf. lia.
    + rewrite length_app. simpl. lia.
  - destruct m as [|x m]; [done|]. destruct m as [|y m]; [done|].
    unfold go_len in *. simpl in *. lia.
Qed.

Lemma reverse_loop_reverse (l : list ptr) :
  reverse_loop (length l) 0 (go_len l - 1) l = reverse l.
Proof.
  rewrite <-(app_nil_r l) at 3. rewrite <-(app_nil_r (reverse l)).
  by apply (reverse_loop_middle (length l) l [] []); [..|lia].
Qed.

Lemma slice_from_ok i l :
  0 <= i <= go_len l → slice_from i l = Some (drop (Z.to_nat i) l).
Proof.
  intros Hi. unfold slice_from.
  rewrite (proj2 (Z.ltb_ge _ _)), (proj2 (Z.ltb_ge _ _)) by lia. done.
Qed.

Lemma slice_from_panics i l : go_len l < i → slice_from i l = None.
Proof.
  intros Hi. unfold slice_from. rewrite (proj2 (Z.ltb_lt (go_len l) i)) by done.
  by rewrite orb_true_r.
Qed.

(** One addition, on a history that keeps the newest part of a log. *)
Lemma Add_newest (h : t) (log : list ptr) req :
  0 <= maxSize h →
  requests h = drop (length log - Z.to_nat (maxSize h)) log →
  Add h req = Some (mk (drop (length (log ++ [req]) - Z.to_nat (maxSize h)) (log ++ [req]))
                       (maxSize h)).
Proof.
  intros Hm Hreq. unfold Add. rewrite Hreq.
  set (n := Z.to_nat (maxSize h)). assert (maxSize h = Z.of_nat n) as Hn by lia.
  rewrite Hn. rewrite !length_app. simpl.
  assert (length (drop (length log - n) log) = min n (length log)) as Hd
    by (rewrite length_drop; lia).
  destruct (Z.ltb_spec (Z.of_nat n) (go_len (drop (length log - n) log ++ [req]))) as [Hlt|Hge].
  - rewrite slice_from_ok by len_lia. simpl. do 2 f_equal.
    assert (n ≤ length log)%nat as Hnl.
    { autorewrite with go_int in Hlt. unfold go_len in Hlt. simpl in *. lia. }
    replace (Z.to_nat _) with 1%nat by (autorewrite with go_int; unfold go_len; simpl; lia).
    destruct n as [|n].
    + rewrite !drop_ge; try rewrite length_app; simpl; try rewrite length_drop; try lia.
      done.
    + rewrite !drop_app_le by (try rewrite length_drop; lia).
      rewrite drop_drop. do 2 f_equal. lia.
  - f_equal. f_equal. autorewrite with go_int in Hge. unfold go_len in Hge. simpl in Hge.
    rewrite drop_app_le by lia. do 2 f_equal. lia.
Qed.

Definition add_all (h : t) (l : list ptr) : option t :=
  foldl (λ o p, o ≫= λ h, Add h p) (Some h) l.

Lemma add_all_newest (h : t) (l log : list ptr) :
  0 <= maxSize h → requests h = drop (length log - Z.to_nat (maxSize h)) log →
  add_all h l = Some (mk (drop (length (log ++ l) - Z.to_nat (maxSize h)) (log ++ l))
                         (maxSize h)).
Proof.
  revert h log. unfold add_all. induction l as [|p l IH]; intros h log Hm Hreq; simpl.
  - rewrite app_nil_r. destruct h. simpl in *. by subst.
  - rewrite (Add_newest h log p) by done. erewrite IH; [..|reflexivity]; [|done].
    simpl. by rewrite <-app_assoc.
Qed.

Lemma count_one_fold h l s :
  0 <= Completed s → 0 <= Failed s →
  Completed s + Z.of_nat (length l) <= int64_max →
  Failed s + Z.of_nat (length l) <= int64_max →
  foldl (count_one h) s l =
  mk_Stats (Total s) (Pending s) (Running s)
    (Completed s + Z.of_nat (count_if (is_complete h) l))
    (Failed s + Z.of_nat (count_if (λ p, negb (is_complete h p) && is_failed h p) l)).
Proof.
  revert s. induction l as [|p l IH]; intros s Hc0 Hf0 Hc Hf; simpl in *.
  - destruct s. simpl. by rewrite !Z.add_0_r.
  - rewrite !count_if_cons. unfold count_one at 2.
    destruct (is_complete h p); simpl; [|destruct (is_failed h p); simpl];
      rewrite IH by (simpl; rewrite ?int_incr_id by lia; lia); simpl;
      rewrite ?int_incr_id by lia; f_equal; lia.
Qed.

(** A request cannot be both complete and failed. *)
Lemma complete_not_failed h p : is_complete h p = true → is_failed h p = false.
Proof.
  unfold is_complete, is_failed. intros Hs. zbool. by rewrite Hs.
Qed.

Lemma count_failed h l :
  count_if (λ p, negb (is_complete h p) && is_failed h p)%bool l = count_if (is_failed h) l.
Proof.
  induction l as [|p l IH]; [done|]. rewrite !count_if_cons, IH.
  destruct (is_complete h p) eqn:Hc; simpl; [|done].
  by rewrite (complete_not_failed _ _ Hc).
Qed.

End HistoryFacts.

(** ** Properties *)

Import Queue QueueFacts.

(** C17: [Enqueue] refines the specification with one arrival-ordered list per
    priority: a full queue refuses and changes nothing; otherwise the request
    becomes pending and is appended to the list of its own priority, every
    other list is unchanged, and the queue stays ordered and bounded. *)
Theorem Enqueue_refines_levels h q req now :
  wf (h, q) → is_Some (h !! req) →
  (maxSize q <= go_len (items q) → Enqueue h q req now = (false, h, q)) ∧
  (go_len (items q) < maxSize q → ∃ h' q',
     Enqueue h q req now = (true, h', q') ∧ wf (h', q') ∧
     Status (deref h' req) = StatusPending ∧ notify q' = true ∧
     ∀ k, level h' q' k =
          if decide (k = prio h req) then (level h q k ++ [req])%list else level h q k).
Proof.
  intros Hwf Hreq. split; [apply Enqueue_full|]. intros Hlt.
  destruct (Enqueue_spec h q req now (proj1 Hwf) Hlt) as (l1 & l2 & Heq & Hr & H1 & H2).
  eexists _, _. split_and!; [done|by eapply Enqueue_wf| |done|].
  - unfold enqueued, deref. rewrite lookup_alter_eq. by destruct Hreq as [r ->].
  - intros k. rewrite (level_ext h) by apply prio_enqueued.
    unfold level. simpl. rewrite Heq, !filter_app, filter_cons.
    rewrite Forall_forall in H1, H2. case_decide; subst; case_decide; try done.
    rewrite (filter_none _ l2); [by rewrite app_nil_r|].
    intros p Hp. specialize (H2 p Hp). lia.
Qed.

(** [Dequeue] returns the oldest request of the highest priority present,
    removes exactly that one, and reports an empty queue with nil. *)
Theorem Dequeue_highest_oldest h q :
  wf (h, q) →
  match Dequeue q with
  | (None, q') => items q = [] ∧ q' = q
  | (Some p, q') =>
      wf (h, q') ∧ Forall (λ p', prio h p' <= prio h p) (items q) ∧
      level h q (prio h p) = p :: level h q' (prio h p) ∧
      ∀ k, k ≠ prio h p → level h q' k = level h q k
  end.
Proof.
  intros Hwf. destruct (Dequeue q) as [[p|] q'] eqn:Hd.
  - pose proof (Dequeue_wf _ _ _ _ Hwf Hd) as Hwf'. split; [done|].
    unfold Dequeue, level in *. destruct Hwf as (Hord & _). unfold ordered in Hord. simpl in *.
    destruct (items q) as [|p0 l]; simplify_eq/=.
    apply StronglySorted_inv in Hord as [_ Hall]. split_and!.
    + by constructor.
    + by rewrite filter_cons_True.
    + intros k Hk. by rewrite filter_cons_False by done.
  - unfold Dequeue in Hd. by destruct (items q) eqn:Hq; simplify_eq.
Qed.

(** Every state the queue reaches from [New] through its methods and the
    priority-preserving writes of the pointer holders is ordered by
    descending priority, never exceeds its capacity and holds only allocated
    requests. *)
Theorem queue_reachable_wf n q0 s :
  New n = Some q0 → rtc step (∅, q0) s → wf s.
Proof.
  intros Hnew Hrtc. assert (wf (∅, q0)) as Hwf.
  { unfold New in Hnew. destruct (Z.ltb_spec n 0); simplify_eq.
    split_and!; simpl; [constructor|unfold bounded; unfold go_len; simpl; lia|constructor]. }
  induction Hrtc; eauto using step_wf.
Qed.

(** The history is a bounded log: after any sequence of additions to a
    new history it holds exactly the newest [maxSize] requests in order, and
    no addition panics. *)
Theorem History_keeps_newest n h0 (l : list ptr) :
  History.NewHistory n = Some h0 →
  ∃ h, HistoryFacts.add_all h0 l = Some h ∧
       History.requests h = drop (length l - Z.to_nat n) l.
Proof.
  unfold History.NewHistory. destruct (Z.ltb_spec n 0); intros [= <-].
  pose proof (HistoryFacts.add_all_newest (History.mk [] n) l []) as Hadd.
  rewrite Hadd by done. by eexists.
Qed.

(** [List] returns the newest [limit] entries, newest first (its in-place
    reversal loop terminates and reverses), and panics exactly on a negative
    limit. *)
Theorem History_List_newest_first h limit :
  History.List h limit =
  if limit <? 0 then None
  else Some (take (Z.to_nat limit) (reverse (History.requests h))).
Proof.
  unfold History.List. set (l := History.requests h).
  assert (Z.of_nat (length l) = go_len l) as Hl by done.
  destruct (Z.ltb_spec limit 0).
  - rewrite (proj2 (Z.ltb_lt limit (go_len l))) by (unfold go_len; lia).
    by rewrite HistoryFacts.slice_from_panics by lia.
  - destruct (Z.ltb_spec limit (go_len l)).
    + rewrite HistoryFacts.slice_from_ok by (unfold go_len in *; lia). simpl.
      rewrite HistoryFacts.reverse_loop_reverse. f_equal.
      rewrite <-(reverse_involutive l) at 2.
      rewrite <-(take_drop (Z.to_nat limit) (reverse l)) at 1.
      rewrite reverse_app, drop_app_ge; rewrite length_reverse, length_drop, length_reverse;
        [|unfold go_len in *; lia].
      replace (_ - _)%nat with 0%nat by (unfold go_len in *; lia).
      by rewrite drop_0, reverse_involutive.
    + rewrite HistoryFacts.slice_from_ok by (unfold go_len in *; lia). simpl.
      rewrite HistoryFacts.reverse_loop_reverse.
      rewrite take_ge by (rewrite length_reverse; unfold go_len in *; lia). done.
Qed.

(** [Stats] counts the completed and the failed or timed-out entries of
    the history; its pending, running and total fields are zero whatever the
    history holds. *)
Theorem history_stats_counts h hist :
  go_len (History.requests hist) <= int64_max →
  History.get_Stats h hist =
  History.mk_Stats 0 0 0
    (Z.of_nat (count_if (History.is_complete h) (History.requests hist)))
    (Z.of_nat (count_if (History.is_failed h) (History.requests hist))).
Proof.
  intros Hlen. unfold History.get_Stats.
  rewrite HistoryFacts.count_one_fold by (simpl; unfold go_len, int64_max in *; lia).
  simpl. by rewrite HistoryFacts.count_failed.
Qed.

(** ** Witnesses *)

Module Example_queue.
Definition request (i : string) (pr : Z) : Request :=
  mk_Request i "llama2" pr StatusPending "" 0 None None "" "".
Definition store : heap :=
  list_to_map [(1%nat, request "low" PriorityLow); (2%nat, request "high" PriorityHigh);
               (3%nat, request "normal" PriorityNormal)].
Definition queue : Queue.t := Queue.mk [2%nat; 1%nat] 3 true.

Lemma queue_wf : wf (store, queue).
Proof.
  split_and!; [|vm_compute; congruence|repeat constructor; by eexists].
  repeat constructor; vm_compute; congruence.
Qed.
End Example_queue.
Import Example_queue.

Lemma Enqueue_refines_levels_witness :
  ∃ h' q', Enqueue store queue 3 7 = (true, h', q') ∧ items q' = [2; 3; 1]%nat.
Proof.
  destruct (proj2 (Enqueue_refines_levels store queue 3 7 queue_wf ltac:(by eexists)))
    as (h' & q' & Heq & _); [reflexivity|].
  exists h', q'. split; [exact Heq|]. vm_compute in Heq. by injection Heq as _ <-.
Defined.

Lemma Dequeue_highest_oldest_witness :
  level store queue 2 = 2%nat :: level store (Queue.mk [1%nat] 3 true) 2.
Proof. exact (proj1 (proj2 (proj2 (Dequeue_highest_oldest store queue queue_wf)))). Defined.

Lemma queue_reachable_wf_witness :
  wf (snd (fst (Enqueue (<[1%nat := request "a" 1]> ∅) (mk [] 2 false) 1 5)),
      snd (Enqueue (<[1%nat := request "a" 1]> ∅) (mk [] 2 false) 1 5)).
Proof.
  apply (queue_reachable_wf 2 (mk [] 2 false)); [reflexivity|].
  eapply rtc_l; [apply (step_alloc ∅ _ 1%nat (request "a" 1)); reflexivity|].
  eapply rtc_l; [|apply rtc_refl].
  eapply (step_enqueue _ _ 1%nat 5); [exists (request "a" 1); reflexivity|].
  by rewrite <-!surjective_pairing.
Defined.

Lemma History_keeps_newest_witness :
  ∃ h, HistoryFacts.add_all (History.mk [] 2) [1; 2; 3]%nat = Some h ∧
       History.requests h = [2; 3]%nat.
Proof.
  destruct (History_keeps_newest 2 (History.mk [] 2) [1; 2; 3]%nat eq_refl) as (h & H1 & H2).
  by exists h.
Defined.

Lemma history_stats_counts_witness :
  History.get_Stats (alter (set_Status StatusComplete) 1%nat store) (History.mk [1; 2]%nat 5)
  = History.mk_Stats 0 0 0 1 0.
Proof. rewrite history_stats_counts; [reflexivity|vm_compute; congruence]. Defined.
