(* ===== verification/Cluster.v ===== *)
(** * Cluster membership ([internal/cluster/node.go], [manager.go])

    The nodes a cluster knows, their registration, heartbeats, health and
    staleness.  The manager's map owns its nodes: every write the program
    makes to a node goes through an entry of the map, so a node is a value of
    the map and a method an atomic step (each holds a mutex around its
    writes).  JSON decoding has happened before a handler's definition
    starts: a handler takes the decoded payload or the decoder's error. *)

From S2P Require Import Prelude GoFloat GoHttp.

Local Open Scope string_scope.
Local Open Scope Z_scope.

(** ** Data *)

Definition HardwareAppleSilicon : string := "apple-silicon".
Definition HardwareNvidiaGPU : string := "nvidia-gpu".
Definition HardwareNvidiaDGX : string := "nvidia-dgx".
Definition HardwareCPU : string := "cpu".
Definition HardwareUnknown : string := "unknown".

Definition NodeOnline : string := "online".
Definition NodeOffline : string := "offline".
Definition NodeDrain : string := "drain".

Record Node := mk_Node {
  ID : string;
  Name : string;
  Address : string;
  Port : Z;
  Hardware : string;
  GPUModel : string;
  GPUMemory : Z;
  VRAMUsed : f64;
  VRAMTotal : f64;
  MemoryUsed : f64;
  MemoryTotal : f64;
  CPUUsage : f64;
  Capacity : Z;
  ActiveConns : Z;
  QueuedReqs : Z;
  Models : list string;
  Status : string;
  LastHeartbeat : Time;
  JoinedAt : Time;
  OllamaVersion : string }.

(** What a heartbeat reports. *)
Record Load := mk_Load {
  cpu : f64; memUsed : f64; memTotal : f64; vramUsed : f64; vramTotal : f64;
  activeConns : Z }.

Definition set_Status (s : string) (n : Node) : Node :=
  mk_Node (ID n) (Name n) (Address n) (Port n) (Hardware n) (GPUModel n) (GPUMemory n)
    (VRAMUsed n) (VRAMTotal n) (MemoryUsed n) (MemoryTotal n) (CPUUsage n) (Capacity n)
    (ActiveConns n) (QueuedReqs n) (Models n) s (LastHeartbeat n) (JoinedAt n)
    (OllamaVersion n).

Definition SetModels (models : list string) (n : Node) : Node :=
  mk_Node (ID n) (Name n) (Address n) (Port n) (Hardware n) (GPUModel n) (GPUMemory n)
    (VRAMUsed n) (VRAMTotal n) (MemoryUsed n) (MemoryTotal n) (CPUUsage n) (Capacity n)
    (ActiveConns n) (QueuedReqs n) models (Status n) (LastHeartbeat n) (JoinedAt n)
    (OllamaVersion n).

(** ** Node methods *)

Definition UpdateLoad (l : Load) (now : Time) (n : Node) : Node :=
  mk_Node (ID n) (Name n) (Address n) (Port n) (Hardware n) (GPUModel n) (GPUMemory n)
    (vramUsed l) (vramTotal l) (memUsed l) (memTotal l) (cpu l) (Capacity n)
    (activeConns l) (QueuedReqs n) (Models n) (Status n) now (JoinedAt n)
    (OllamaVersion n).

(** [x > 0] on doubles. *)
Definition f64_pos (x : f64) : bool := f64_ltb f64_zero x.

Definition LoadScore (n : Node) : f64 :=
  let cpuScore := f64_div (CPUUsage n) (f64_of_Z 100) in
  let memScore := if f64_pos (MemoryTotal n) then f64_div (MemoryUsed n) (MemoryTotal n)
                  else f64_zero in
  let vramScore := if f64_pos (VRAMTotal n) then f64_div (VRAMUsed n) (VRAMTotal n)
                   else f64_zero in
  let connScore := if 0 <? Capacity n
                   then f64_div (f64_of_Z (ActiveConns n)) (f64_of_Z (Capacity n))
                   else f64_zero in
  f64_add (f64_add (f64_add (f64_mul cpuScore (f64_lit 1 5)) (f64_mul memScore (f64_lit 1 5)))
                   (f64_mul vramScore (f64_lit 2 5)))
          (f64_mul connScore (f64_lit 1 5)).

Definition AvailableSlots (n : Node) : Z :=
  let slots := int_sub (Capacity n) (ActiveConns n) in
  if slots <? 0 then 0 else slots.

Definition IsHealthy (timeout : Duration) (now : Time) (n : Node) : bool :=
  String.eqb (Status n) NodeOnline && (time_Since now (LastHeartbeat n) <? timeout).

Definition GetActiveConns (n : Node) : Z := ActiveConns n.
Definition GetModels (n : Node) : list string := Models n.

Section Marshal.
(** The standard library's encoding of a [time.Time]. *)
Variable time_json : Time → json.

Definition MarshalJSON (n : Node) : json :=
  jobj [("id", JStr (ID n)); ("name", JStr (Name n)); ("address", JStr (Address n));
        ("port", JInt (Port n)); ("hardware", JStr (Hardware n));
        ("gpu_model", JStr (GPUModel n)); ("gpu_memory_gb", JInt (GPUMemory n));
        ("vram_used_gb", JNum (VRAMUsed n)); ("vram_total_gb", JNum (VRAMTotal n));
        ("memory_used_gb", JNum (MemoryUsed n)); ("memory_total_gb", JNum (MemoryTotal n));
        ("cpu_usage", JNum (CPUUsage n)); ("capacity", JInt (Capacity n));
        ("active_connections", JInt (ActiveConns n));
        ("queued_requests", JInt (QueuedReqs n));
        ("models", JArr (JStr <$> Models n)); ("status", JStr (Status n));
        ("last_heartbeat", time_json (LastHeartbeat n));
        ("joined_at", time_json (JoinedAt n));
        ("ollama_version", JStr (OllamaVersion n))].
End Marshal.

(** ** The manager *)

(** [onUpdate] says whether a callback is installed; [updates] counts its
    invocations. *)
Record Manager := mk_Manager {
  nodes : gmap string Node;
  heartbeatTimeout : Duration;
  onUpdate : bool;
  updates : nat }.

Definition NewManager (timeout : Duration) (onUpdate : bool) : Manager :=
  mk_Manager ∅ timeout onUpdate 0.

Definition set_nodes (ns : gmap string Node) (m : Manager) : Manager :=
  mk_Manager ns (heartbeatTimeout m) (onUpdate m) (updates m).

(** [if m.onUpdate != nil { m.onUpdate() }] *)
Definition call_onUpdate (m : Manager) : Manager :=
  if onUpdate m then
    mk_Manager (nodes m) (heartbeatTimeout m) (onUpdate m) (S (updates m))
  else m.

(** Re-registration copies these fields into the node already known. *)
Definition refresh (existing node : Node) (now : Time) : Node :=
  mk_Node (ID existing) (Name node) (Address node) (Port node) (Hardware node)
    (GPUModel node) (GPUMemory node) (VRAMUsed existing) (VRAMTotal existing)
    (MemoryUsed existing) (MemoryTotal existing) (CPUUsage existing) (Capacity node)
    (ActiveConns existing) (QueuedReqs existing) (Models node) NodeOnline now
    (JoinedAt existing) (OllamaVersion existing).

(** A first registration stamps the heartbeat and the joining time. *)
Definition enroll (node : Node) (now1 now2 : Time) : Node :=
  mk_Node (ID node) (Name node) (Address node) (Port node) (Hardware node)
    (GPUModel node) (GPUMemory node) (VRAMUsed node) (VRAMTotal node) (MemoryUsed node)
    (MemoryTotal node) (CPUUsage node) (Capacity node) (ActiveConns node)
    (QueuedReqs node) (Models node) NodeOnline now1 now2 (OllamaVersion node).

Definition RegisterNode (m : Manager) (node : Node) (now1 now2 : Time) : Manager :=
  call_onUpdate
    match nodes m !! ID node with
    | Some existing => set_nodes (<[ID node := refresh existing node now1]> (nodes m)) m
    | None => set_nodes (<[ID node := enroll node now1 now2]> (nodes m)) m
    end.

Definition UpdateNodeHeartbeat (m : Manager) (nodeID : string) (l : Load) (now : Time) : Manager :=
  match nodes m !! nodeID with
  | None => m
  | Some node => call_onUpdate (set_nodes (<[nodeID := UpdateLoad l now node]> (nodes m)) m)
  end.

Definition DeregisterNode (m : Manager) (nodeID : string) : Manager :=
  match nodes m !! nodeID with
  | Some _ => call_onUpdate (set_nodes (delete nodeID (nodes m)) m)
  | None => m
  end.

Definition GetNode (m : Manager) (nodeID : string) : option Node := nodes m !! nodeID.

(** The enumerations follow the order [ord] in which the map is ranged over;
    [rd] is the clock reading taken at each node. *)
Definition GetNodes (ord : list (string * Node)) : list Node := snd <$> ord.

Definition GetHealthyNodes (m : Manager) (ord : list (string * Node)) (rd : string → Time)
    : list Node :=
  snd <$> filter (λ e, IsHealthy (heartbeatTimeout m) (rd e.1) e.2
                       && String.eqb (Status e.2) NodeOnline = true) ord.

(** One tick of the stale-node checker. *)
Definition mark_stale (timeout : Duration) (now : Time) (n : Node) : Node :=
  if String.eqb (Status n) NodeOnline && (timeout <? time_Since now (LastHeartbeat n))
  then set_Status NodeOffline n else n.

Definition CheckStale_tick (m : Manager) (rd : string → Time) : Manager :=
  call_onUpdate
    (set_nodes (map_imap (λ id n, Some (mark_stale (heartbeatTimeout m) (rd id) n)) (nodes m)) m).

(** ** Handlers *)

Record RegistrationPayload := mk_RegistrationPayload {
  reg_ID : string; reg_Name : string; reg_Address : string; reg_Port : Z;
  reg_Hardware : string; reg_GPUModel : string; reg_GPUMemory : Z; reg_Capacity : Z;
  reg_Models : list string; reg_OllamaVersion : string }.

Record HeartbeatPayload := mk_HeartbeatPayload {
  hb_NodeID : string; hb_CPUUsage : f64; hb_MemoryUsed : f64; hb_MemoryTotal : f64;
  hb_VRAMUsed : f64; hb_VRAMTotal : f64; hb_ActiveConns : Z;
  hb_Models : option (list string) }.

Definition node_of_registration (reg : RegistrationPayload) : Node :=
  mk_Node (reg_ID reg) (reg_Name reg) (reg_Address reg) (reg_Port reg) (reg_Hardware reg)
    (reg_GPUModel reg) (reg_GPUMemory reg) f64_zero f64_zero f64_zero f64_zero f64_zero
    (reg_Capacity reg) 0 0 (reg_Models reg) "" 0 0 (reg_OllamaVersion reg).

Definition HandleRegister (m : Manager) (meth : string)
    (body : result RegistrationPayload) (now1 now2 : Time) : Manager * response :=
  if negb (String.eqb meth "POST") then
    (m, http_Error "POST required" StatusMethodNotAllowed)
  else match body with
  | Err e => (m, http_Error ("bad json: " +:+ e) StatusBadRequest)
  | Ok reg =>
      if String.eqb (reg_ID reg) "" || String.eqb (reg_Address reg) "" then
        (m, http_Error "id and address required" StatusBadRequest)
      else
        (RegisterNode m (node_of_registration reg) now1 now2,
         write_json (jobj [("status", JStr "registered"); ("node_id", JStr (reg_ID reg))]))
  end.

Definition load_of_heartbeat (hb : HeartbeatPayload) : Load :=
  mk_Load (hb_CPUUsage hb) (hb_MemoryUsed hb) (hb_MemoryTotal hb) (hb_VRAMUsed hb)
    (hb_VRAMTotal hb) (hb_ActiveConns hb).

Definition HandleHeartbeat (m : Manager) (meth : string)
    (body : result HeartbeatPayload) (now : Time) : Manager * response :=
  if negb (String.eqb meth "POST") then
    (m, http_Error "POST required" StatusMethodNotAllowed)
  else match body with
  | Err _ => (m, http_Error "bad json" StatusBadRequest)
  | Ok hb =>
      let m := UpdateNodeHeartbeat m (hb_NodeID hb) (load_of_heartbeat hb) now in
      let m := match hb_Models hb with
               | Some models =>
                   match GetNode m (hb_NodeID hb) with
                   | Some node =>
                       set_nodes (<[hb_NodeID hb := SetModels models node]> (nodes m)) m
                   | None => m
                   end
               | None => m
               end in
      (m, write_json (jobj [("status", JStr "ok")]))
  end.

Definition HandleDeregister (m : Manager) (meth : string) (body : result string)
    : Manager * response :=
  if negb (String.eqb meth "POST") then
    (m, http_Error "POST required" StatusMethodNotAllowed)
  else match body with
  | Err _ => (m, http_Error "bad json" StatusBadRequest)
  | Ok nodeID =>
      (DeregisterNode m nodeID, write_json (jobj [("status", JStr "deregistered")]))
  end.

Definition HandleNodes (time_json : Time → json) (ord : list (string * Node)) : response :=
  write_json (JArr (MarshalJSON time_json <$> GetNodes ord)).

(** [uptime] is [time.Since(time.Now())]: [now1] is read by the inner call and
    [now2] by the outer one; [dur_string] is [Duration.String]. *)
Definition HandleHealth (dur_string : Duration → string) (m : Manager)
    (ord ord' : list (string * Node)) (rd : string → Time) (now1 now2 : Time) : response :=
  write_json (jobj [("status", JStr "ok");
                    ("total_nodes", JInt (go_len (GetNodes ord)));
                    ("online_nodes", JInt (go_len (GetHealthyNodes m ord' rd)));
                    ("uptime", JStr (dur_string (time_Since now2 now1)))]).

(** ** Reachability *)

(** The events that change a manager.  A registration comes from the handler
    and carries a fresh node. *)
Inductive event :=
  | ERegister (reg : RegistrationPayload) (now1 now2 : Time)
  | EHeartbeat (hb : HeartbeatPayload) (now : Time)
  | EDeregister (nodeID : string)
  | ETick (rd : string → Time).

Definition apply_event (m : Manager) (e : event) : Manager :=
  match e with
  | ERegister reg now1 now2 => fst (HandleRegister m "POST" (Ok reg) now1 now2)
  | EHeartbeat hb now => fst (HandleHeartbeat m "POST" (Ok hb) now)
  | EDeregister nodeID => fst (HandleDeregister m "POST" (Ok nodeID))
  | ETick rd => CheckStale_tick m rd
  end.

Definition run (m : Manager) (es : list event) : Manager := foldl apply_event m es.

(** Every entry sits under its own id and is online or offline. *)
Definition manager_wf (m : Manager) : Prop :=
  map_Forall (λ id n, ID n = id ∧ (Status n = NodeOnline ∨ Status n = NodeOffline)) (nodes m).

(** Does the event register this node?  Is the node, if known, offline? *)
Definition registers (id : string) (e : event) : bool :=
  match e with ERegister reg _ _ => String.eqb (reg_ID reg) id | _ => false end.

Definition offline_at (id : string) (m : Manager) : Prop :=
  match nodes m !! id with Some n => Status n = NodeOffline | None => True end.

(** A heartbeat's effect on the map: the load, then the models if any. *)
Definition heartbeat_effect (hb : HeartbeatPayload) (now : Time) (n : Node) : Node :=
  let n := UpdateLoad (load_of_heartbeat hb) now n in
  match hb_Models hb with Some models => SetModels models n | None => n end.

(** ** Lemmas *)

Lemma nodes_call_onUpdate m : nodes (call_onUpdate m) = nodes m.
Proof. unfold call_onUpdate. by destruct (onUpdate m). Qed.

Lemma timeout_call_onUpdate m : heartbeatTimeout (call_onUpdate m) = heartbeatTimeout m.
Proof. unfold call_onUpdate. by destruct (onUpdate m). Qed.

Lemma nodes_RegisterNode m node now1 now2 :
  nodes (RegisterNode m node now1 now2) =
  <[ID node := match nodes m !! ID node with
               | Some existing => refresh existing node now1
               | None => enroll node now1 now2
               end]> (nodes m).
Proof. unfold RegisterNode. rewrite nodes_call_onUpdate. by destruct (nodes m !! ID node). Qed.

Lemma nodes_UpdateNodeHeartbeat m id l now :
  nodes (UpdateNodeHeartbeat m id l now) = alter (UpdateLoad l now) id (nodes m).
Proof.
  unfold UpdateNodeHeartbeat. destruct (nodes m !! id) as [n|] eqn:Hn.
  - rewrite nodes_call_onUpdate. simpl. apply map_eq. intros i.
    rewrite lookup_insert, lookup_alter. case_decide; subst; by rewrite ?Hn.
  - apply map_eq. intros i. rewrite lookup_alter. case_decide; subst; by rewrite ?Hn.
Qed.

Lemma nodes_HandleHeartbeat m hb now :
  nodes (fst (HandleHeartbeat m "POST" (Ok hb) now)) =
  alter (heartbeat_effect hb now) (hb_NodeID hb) (nodes m).
Proof.
  unfold HandleHeartbeat, heartbeat_effect, GetNode. simpl.
  destruct (hb_Models hb) as [models|]; simpl; [|apply nodes_UpdateNodeHeartbeat].
  rewrite nodes_UpdateNodeHeartbeat, lookup_alter_eq.
  apply map_eq. intros i. rewrite lookup_alter.
  destruct (nodes m !! hb_NodeID hb) as [n|] eqn:Hn; simpl.
  - rewrite lookup_insert, lookup_alter. case_decide; subst; by rewrite ?Hn.
  - rewrite nodes_UpdateNodeHeartbeat, lookup_alter. case_decide; subst; by rewrite ?Hn.
Qed.

Lemma lookup_tick m rd id :
  nodes (CheckStale_tick m rd) !! id =
  mark_stale (heartbeatTimeout m) (rd id) <$> nodes m !! id.
Proof.
  unfold CheckStale_tick. rewrite nodes_call_onUpdate. simpl.
  rewrite map_lookup_imap. by destruct (nodes m !! id).
Qed.

Lemma nodes_HandleDeregister m id :
  nodes (fst (HandleDeregister m "POST" (Ok id))) = delete id (nodes m).
Proof.
  unfold HandleDeregister, DeregisterNode. simpl.
  destruct (nodes m !! id) eqn:Hn; [by rewrite nodes_call_onUpdate|].
  by rewrite delete_id.
Qed.

Lemma mark_stale_ID t now n : ID (mark_stale t now n) = ID n.
Proof. unfold mark_stale. by destruct (_ && _). Qed.

Lemma heartbeat_effect_Status hb now n : Status (heartbeat_effect hb now n) = Status n.
Proof. unfold heartbeat_effect. by destruct (hb_Models hb). Qed.

Lemma heartbeat_effect_ID hb now n : ID (heartbeat_effect hb now n) = ID n.
Proof. unfold heartbeat_effect. by destruct (hb_Models hb). Qed.

Lemma mark_stale_Status t now n :
  Status n = NodeOnline ∨ Status n = NodeOffline →
  Status (mark_stale t now n) = NodeOnline ∨ Status (mark_stale t now n) = NodeOffline.
Proof. unfold mark_stale. destruct (_ && _); simpl; [by right|done]. Qed.

Lemma apply_event_wf m e : manager_wf m → manager_wf (apply_event m e).
Proof.
  intros Hwf. unfold manager_wf. destruct e as [reg now1 now2|hb now|id|rd]; cbn [apply_event].
  - unfold HandleRegister. simpl. destruct (_ || _); [done|]. simpl.
    rewrite nodes_RegisterNode. simpl. apply map_Forall_insert_2; [|done].
    destruct (nodes m !! reg_ID reg) as [n|] eqn:Hn; simpl; [|by auto].
    split; [|by left]. by apply (Hwf _ _ Hn).
  - rewrite nodes_HandleHeartbeat. intros i n. rewrite lookup_alter. case_decide; [|apply Hwf].
    intros (n' & Hn' & ->)%fmap_Some. rewrite heartbeat_effect_ID, heartbeat_effect_Status.
    subst. by apply Hwf.
  - rewrite nodes_HandleDeregister. by apply map_Forall_delete.
  - intros i n. rewrite lookup_tick. intros (n' & Hn' & ->)%fmap_Some.
    destruct (Hwf _ _ Hn'). rewrite mark_stale_ID. eauto using mark_stale_Status.
Qed.

Lemma run_wf timeout upd es : manager_wf (run (NewManager timeout upd) es).
Proof. unfold run. apply foldl_inv; [done|]. intros m e _. apply apply_event_wf. Qed.

Lemma run_app m es es' : run m (es ++ es') = run (run m es) es'.
Proof. apply foldl_app. Qed.

(** Membership in the healthy list, in whatever order the map is ranged. *)
Lemma elem_of_GetHealthyNodes m ord rd n :
  manager_wf m → map_range (nodes m) ord →
  n ∈ GetHealthyNodes m ord rd ↔
  nodes m !! ID n = Some n ∧ Status n = NodeOnline ∧
  time_Since (rd (ID n)) (LastHeartbeat n) < heartbeatTimeout m.
Proof.
  intros Hwf Hord. unfold GetHealthyNodes. rewrite list_elem_of_fmap. split.
  - intros ([id n'] & -> & Hin). simpl.
    rewrite list_elem_of_filter in Hin. simpl in Hin. destruct Hin as [Htest Hin].
    rewrite (map_range_elem _ _ _ _ Hord) in Hin.
    destruct (Hwf _ _ Hin) as [-> _]. unfold IsHealthy in Htest.
    rewrite !andb_true_iff, String.eqb_eq, Z.ltb_lt in Htest. tauto.
  - intros (Hn & Hs & Ht). exists (ID n, n). split; [done|].
    rewrite list_elem_of_filter, (map_range_elem _ _ _ _ Hord). split; [|done]. simpl.
    unfold IsHealthy. by rewrite Hs, !String.eqb_refl, (proj2 (Z.ltb_lt _ _) Ht).
Qed.

Lemma NoDup_GetHealthyNodes m ord rd :
  manager_wf m → map_range (nodes m) ord → NoDup (GetHealthyNodes m ord rd).
Proof.
  intros Hwf Hord. unfold GetHealthyNodes. apply NoDup_fmap_2_strong.
  - intros [i x] [j y] Hx Hy Heq. simpl in Heq. subst.
    apply list_elem_of_filter in Hx as [_ Hx], Hy as [_ Hy].
    apply (map_range_elem _ _ _ _ Hord) in Hx. apply (map_range_elem _ _ _ _ Hord) in Hy.
    apply Hwf in Hx as [? _], Hy as [? _]. congruence.
  - apply NoDup_filter. rewrite Hord. apply NoDup_map_to_list.
Qed.

(** ** Properties *)

(** Every state a new manager reaches through the register, heartbeat and
    deregister handlers and the stale-node ticker keeps each node under its
    own id and either online or offline. *)
Theorem manager_reachable_wf timeout upd es :
  manager_wf (run (NewManager timeout upd) es).
Proof.
  apply run_wf.
Qed.

(** A valid registration makes the node online with a fresh heartbeat and
    the registered attributes; a node seen before keeps its joining time, its
    load and its recorded Ollama version; no other node changes. *)
Theorem HandleRegister_effect m reg now1 now2 :
  reg_ID reg ≠ "" → reg_Address reg ≠ "" →
  let m' := fst (HandleRegister m "POST" (Ok reg) now1 now2) in
  ∃ n, nodes m' !! reg_ID reg = Some n ∧
    Status n = NodeOnline ∧ LastHeartbeat n = now1 ∧
    (Name n, Address n, Port n, Capacity n, Models n) =
      (reg_Name reg, reg_Address reg, reg_Port reg, reg_Capacity reg, reg_Models reg) ∧
    match nodes m !! reg_ID reg with
    | Some old => JoinedAt n = JoinedAt old ∧ OllamaVersion n = OllamaVersion old ∧
                  CPUUsage n = CPUUsage old ∧ MemoryUsed n = MemoryUsed old ∧
                  VRAMUsed n = VRAMUsed old ∧ ActiveConns n = ActiveConns old
    | None => JoinedAt n = now2 ∧ OllamaVersion n = reg_OllamaVersion reg ∧ ActiveConns n = 0
    end ∧
    ∀ id, id ≠ reg_ID reg → nodes m' !! id = nodes m !! id.
Proof.
  intros Hid Haddr m'. subst m'. unfold HandleRegister. simpl.
  destruct (String.eqb_spec (reg_ID reg) ""), (String.eqb_spec (reg_Address reg) "");
    try done. simpl. rewrite nodes_RegisterNode. simpl.
  eexists. rewrite lookup_insert_eq. split; [done|].
  destruct (nodes m !! reg_ID reg); split_and!; try done;
    intros id Hne; by rewrite lookup_insert_ne.
Qed.

(** The healthy list is exact, whatever order the map is ranged in: it
    contains precisely the nodes that are online and whose last heartbeat is
    younger than the timeout at the reading taken for them, each once. *)
Theorem GetHealthyNodes_exact m ord rd :
  manager_wf m → map_range (nodes m) ord →
  NoDup (GetHealthyNodes m ord rd) ∧
  ∀ n, n ∈ GetHealthyNodes m ord rd ↔
    nodes m !! ID n = Some n ∧ Status n = NodeOnline ∧
    time_Since (rd (ID n)) (LastHeartbeat n) < heartbeatTimeout m.
Proof.
  intros Hwf Hord. split; [|intros n; by apply elem_of_GetHealthyNodes].
  by apply NoDup_GetHealthyNodes.
Qed.

(** One tick of the stale checker takes exactly the online nodes that
    have been silent for longer than the timeout offline, and changes nothing
    else about any node. *)
Theorem CheckStale_tick_exact m rd id n :
  nodes m !! id = Some n →
  nodes (CheckStale_tick m rd) !! id =
  Some (if decide (Status n = NodeOnline ∧
                   heartbeatTimeout m < time_Since (rd id) (LastHeartbeat n))
        then set_Status NodeOffline n else n).
Proof.
  intros Hn. rewrite lookup_tick, Hn. simpl. f_equal. unfold mark_stale.
  destruct (String.eqb_spec (Status n) NodeOnline),
    (Z.ltb_spec (heartbeatTimeout m) (time_Since (rd id) (LastHeartbeat n)));
    simpl; destruct (decide _) as [[]|Hno]; try done; try lia; destruct Hno; by split.
Qed.

Lemma apply_event_offline m id e :
  registers id e = false → offline_at id m → offline_at id (apply_event m e).
Proof.
  unfold offline_at. intros Hreg Hoff. destruct e as [reg now1 now2|hb now|id'|rd];
    cbn [apply_event registers] in *.
  - zbool. unfold HandleRegister. simpl. destruct (_ || _); [done|]. simpl.
    by rewrite nodes_RegisterNode, lookup_insert_ne by done.
  - rewrite nodes_HandleHeartbeat, lookup_alter. case_decide; [subst id|done].
    destruct (nodes m !! _); simpl; [|done]. by rewrite heartbeat_effect_Status.
  - rewrite nodes_HandleDeregister, lookup_delete. by case_decide.
  - rewrite lookup_tick. destruct (nodes m !! id) as [n|]; simpl; [|done].
    unfold mark_stale. by rewrite Hoff.
Qed.

(** Going offline is permanent without a new registration: once a node
    has been marked offline, no number of heartbeats (which the handler still
    answers with success) brings it back among the healthy nodes. *)
Theorem offline_needs_registration m id es rd ord :
  offline_at id m → manager_wf m →
  Forall (λ e, registers id e = false) es →
  map_range (nodes (run m es)) ord →
  ∀ n, n ∈ GetHealthyNodes (run m es) ord rd → ID n ≠ id.
Proof.
  intros Hoff Hwf Hes Hord n Hn Hid.
  assert (offline_at id (run m es) ∧ manager_wf (run m es)) as [Hoff' Hwf'].
  { clear -Hoff Hwf Hes. revert m Hoff Hwf. unfold run. induction Hes as [|e es He Hes IH];
      intros m Hoff Hwf; simpl; [done|].
    apply IH; [by apply apply_event_offline|by apply apply_event_wf]. }
  apply (elem_of_GetHealthyNodes _ _ _ _ Hwf' Hord) in Hn as (Hn & Hs & _). subst.
  unfold offline_at in Hoff'. rewrite Hn in Hoff'. by rewrite Hoff' in Hs.
Qed.

(** ** Witnesses: a cluster of one node registered at 5s. *)

Definition example_registration : RegistrationPayload :=
  mk_RegistrationPayload "n1" "mini" "10.0.0.7" 11434 HardwareAppleSilicon "M2" 16 4
    ["llama3:latest"] "0.5.1".

Definition example_manager : Manager :=
  run (NewManager (10 * Second) false) [ERegister example_registration (5 * Second) (5 * Second)].

Definition example_node : Node :=
  enroll (node_of_registration example_registration) (5 * Second) (5 * Second).

Lemma HandleRegister_effect_witness :
  ∃ n, nodes (fst (HandleRegister (NewManager (10 * Second) true) "POST"
                     (Ok example_registration) 7 8)) !! "n1" = Some n ∧ JoinedAt n = 8.
Proof.
  destruct (HandleRegister_effect (NewManager (10 * Second) true) example_registration 7 8)
    as (n & Hn & _ & _ & _ & Hold & _); [done..|].
  exists n. split; [exact Hn|]. apply Hold.
Defined.

Lemma GetHealthyNodes_exact_witness :
  example_node ∈ GetHealthyNodes example_manager [("n1", example_node)] (λ _, 6 * Second).
Proof.
  destruct (GetHealthyNodes_exact example_manager [("n1", example_node)] (λ _, 6 * Second))
    as [_ Hiff].
  - apply run_wf.
  - unfold map_range. by vm_compute.
  - apply Hiff. by vm_compute.
Defined.

Lemma CheckStale_tick_exact_witness :
  nodes (CheckStale_tick example_manager (λ _, 16 * Second)) !! "n1" =
  Some (set_Status NodeOffline example_node).
Proof.
  rewrite (CheckStale_tick_exact example_manager (λ _, 16 * Second) "n1" example_node eq_refl).
  reflexivity.
Defined.

Definition example_silent : Manager := CheckStale_tick example_manager (λ _, 16 * Second).
Definition example_heartbeat : HeartbeatPayload :=
  mk_HeartbeatPayload "n1" f64_zero f64_zero f64_zero f64_zero f64_zero 0 None.
Definition example_back : Manager := run example_silent [EHeartbeat example_heartbeat (17 * Second)].

Lemma offline_needs_registration_witness :
  Forall (λ n, ID n ≠ "n1")
    (GetHealthyNodes example_back (map_to_list (nodes example_back)) (λ _, 17 * Second)).
Proof.
  apply Forall_forall. intros n. apply offline_needs_registration.
  - by vm_compute.
  - apply (apply_event_wf _ (ETick _)), run_wf.
  - by repeat constructor.
  - apply map_range_self.
Defined.
