(* ===== verification/Balancer.v ===== *)
(** * The load balancer ([internal/balancer/balancer.go])

    [SelectNode] picks a node for a request among the nodes the cluster
    reports.  The slice it sorts is its own, so the nodes are values here;
    [rd] is the clock reading [IsHealthy] takes at a node, [intn] is
    [rand.Intn].  [nodes[idx]] can be out of range, which panics: the results
    are [panics (option Node)]. *)

From S2P Require Import Prelude GoFloat GoHttp GoSort Cluster.

Local Open Scope string_scope.
Local Open Scope Z_scope.

Definition StrategyLeastLoad : string := "least_load".
Definition StrategyRoundRobin : string := "round_robin".
Definition StrategyRandom : string := "random".
Definition StrategyCapacity : string := "capacity".

Record Balancer := mk_Balancer { strategy : string; rrIndex : Z }.

Definition New (s : string) : Balancer :=
  mk_Balancer (if String.eqb s "" then StrategyLeastLoad else s) 0.

Definition SetStrategy (s : string) (b : Balancer) : Balancer := mk_Balancer s (rrIndex b).
Definition GetStrategy (b : Balancer) : string := strategy b.

(** [nodes[i]] with a Go index. *)
Definition go_index {A} (l : list A) (i : Z) : panics A :=
  if i <? 0 then None else l !! Z.to_nat i.

(** The filter of [SelectNode]. *)
Definition is_eligible (rd : string → Time) (n : Node) : bool :=
  IsHealthy (10 * Second) (rd (ID n)) n && (0 <? AvailableSlots n).

Definition eligible (rd : string → Time) (ns : list Node) : list Node :=
  filter (λ n, is_eligible rd n = true) ns.

(** The comparison functions handed to [sort.Slice]. *)
Definition less_score (x y : Node) : bool := f64_ltb (LoadScore x) (LoadScore y).
Definition more_slots (x y : Node) : bool := AvailableSlots y <? AvailableSlots x.

Section Select.
Context `{GoSort}.

Definition leastLoad (ns : list Node) : panics (option Node) :=
  match ns with
  | [] => Some None
  | _ => Some <$> go_index (sort_slice less_score ns) 0
  end.

Definition roundRobin (b : Balancer) (ns : list Node) : panics (option Node) * Balancer :=
  let idx := int_rem (rrIndex b) (go_len ns) in
  let b := mk_Balancer (strategy b) (int_incr (rrIndex b)) in
  (Some <$> go_index ns idx, b).

Definition random (intn : Z → Z) (ns : list Node) : panics (option Node) :=
  Some <$> go_index ns (intn (go_len ns)).

Definition bestCapacity (ns : list Node) : panics (option Node) :=
  Some <$> go_index (sort_slice more_slots ns) 0.

Definition SelectNode (b : Balancer) (model : string) (nodes : list Node)
    (rd : string → Time) (intn : Z → Z) : panics (option Node) * Balancer :=
  if go_len nodes =? 0 then (Some None, b) else
  let healthy := eligible rd nodes in
  if go_len healthy =? 0 then (Some None, b) else
  if String.eqb (strategy b) StrategyLeastLoad then (leastLoad healthy, b)
  else if String.eqb (strategy b) StrategyRoundRobin then roundRobin b healthy
  else if String.eqb (strategy b) StrategyRandom then (random intn healthy, b)
  else if String.eqb (strategy b) StrategyCapacity then (bestCapacity healthy, b)
  else (leastLoad healthy, b).

(** [k] consecutive selections with the same candidates. *)
Fixpoint select_n (k : nat) (b : Balancer) (model : string) (nodes : list Node)
    (rd : string → Time) (intn : Z → Z) : list (panics (option Node)) :=
  match k with
  | O => []
  | S k => let (r, b) := SelectNode b model nodes rd intn in
           r :: select_n k b model nodes rd intn
  end.
End Select.

(** [rand.Intn n] is in [[0, n)]. *)
Definition intn_ok (intn : Z → Z) : Prop := ∀ n, 0 < n → 0 <= intn n < n.

(** The strategies under which the selection is by load. *)
Definition by_load (s : string) : Prop :=
  s ≠ StrategyRoundRobin ∧ s ≠ StrategyRandom ∧ s ≠ StrategyCapacity.

(** ** Lemmas *)

Lemma eligible_spec rd ns n :
  n ∈ eligible rd ns ↔
  n ∈ ns ∧ Status n = NodeOnline ∧
  time_Since (rd (ID n)) (LastHeartbeat n) < 10 * Second ∧ 0 < AvailableSlots n.
Proof.
  unfold eligible, is_eligible, IsHealthy. rewrite list_elem_of_filter.
  rewrite !andb_true_iff, String.eqb_eq, !Z.ltb_lt. tauto.
Qed.

Lemma AvailableSlots_pos n :
  0 <= Capacity n <= int64_max → 0 <= ActiveConns n <= int64_max →
  0 < AvailableSlots n ↔ ActiveConns n < Capacity n.
Proof.
  intros Hc Ha. unfold AvailableSlots.
  rewrite int_sub_id by (unfold int64_range, int64_min, int64_max in *; lia).
  destruct (Z.ltb_spec (Capacity n - ActiveConns n) 0); lia.
Qed.

Lemma go_index_Some {A} (l : list A) i :
  0 <= i < go_len l → ∃ x, go_index l i = Some x ∧ l !! Z.to_nat i = Some x.
Proof.
  unfold go_index, go_len. intros Hi. destruct (Z.ltb_spec i 0); [lia|].
  destruct (lookup_lt_is_Some_2 l (Z.to_nat i)) as [x Hx]; [lia|]. eauto.
Qed.

Lemma go_index_elem {A} (l : list A) i x : go_index l i = Some x → x ∈ l.
Proof. unfold go_index. destruct (i <? 0); [done|]. apply list_elem_of_lookup_2. Qed.

Lemma int_rem_bound x y : 0 <= x → 0 < y → 0 <= int_rem x y < y.
Proof. intros. unfold int_rem. apply Z.rem_bound_pos; lia. Qed.

Lemma score_weak_order ns :
  Forall (λ n, f64_is_nan (LoadScore n) = false) ns →
  weak_order_on less_score ns.
Proof.
  rewrite Forall_forall. intros Hnan. split.
  - intros x y _ _. apply f64_ltb_asym.
  - intros x y z Hx Hy Hz H1 H2. eapply f64_nlt_trans; [|exact H1|exact H2]. auto.
Qed.

Section facts.
Context `{GoSortSpec}.

(** The selections by an order return the head of the sorted candidates. *)
Lemma sorted_head_spec (less : Node → Node → bool) ns :
  ns ≠ [] →
  ∃ x k, sort_slice less ns = x :: k ∧ go_index (sort_slice less ns) 0 = Some x.
Proof.
  intros Hne. destruct (sort_slice less ns) as [|x k] eqn:Hs; [|by exists x, k].
  by apply sort_slice_nil_inv in Hs.
Qed.

Lemma sorted_head_minimal (less : Node → Node → bool) ns x :
  weak_order_on less ns → go_index (sort_slice less ns) 0 = Some x →
  x ∈ ns ∧ ∀ y, y ∈ ns → less y x = false.
Proof.
  intros Hw Hx. destruct (sort_slice less ns) as [|x' k] eqn:Hs; [done|].
  injection Hx as <-. by eapply sort_slice_head.
Qed.

Lemma leastLoad_spec ns :
  ns ≠ [] → ∃ n, leastLoad ns = Some (Some n) ∧ n ∈ ns ∧
    go_index (sort_slice less_score ns) 0 = Some n.
Proof.
  intros Hne. destruct (sorted_head_spec less_score _ Hne) as (x & k & Hs & Hx).
  exists x. unfold leastLoad. rewrite Hx. destruct ns; [done|]. split_and!; [done| |done].
  apply go_index_elem in Hx. by rewrite sort_slice_elem in Hx.
Qed.

Lemma bestCapacity_spec ns :
  ns ≠ [] → ∃ n, bestCapacity ns = Some (Some n) ∧ n ∈ ns ∧
    go_index (sort_slice more_slots ns) 0 = Some n.
Proof.
  intros Hne. destruct (sorted_head_spec more_slots _ Hne) as (x & k & Hs & Hx).
  exists x. unfold bestCapacity. rewrite Hx. split_and!; [done| |done].
  apply go_index_elem in Hx. by rewrite sort_slice_elem in Hx.
Qed.

Lemma roundRobin_spec b ns :
  ns ≠ [] → 0 <= rrIndex b → ∃ n, (roundRobin b ns).1 = Some (Some n) ∧ n ∈ ns ∧
    ns !! Z.to_nat (Z.rem (rrIndex b) (go_len ns)) = Some n.
Proof.
  intros Hne Hb. assert (0 < go_len ns) by (unfold go_len; destruct ns; [done|simpl; lia]).
  destruct (go_index_Some ns (int_rem (rrIndex b) (go_len ns))) as (n & Hn & Hl).
  { by apply int_rem_bound. }
  exists n. unfold roundRobin. simpl. rewrite Hn. split_and!; try done.
  by eapply go_index_elem.
Qed.

Lemma random_spec intn ns :
  ns ≠ [] → intn_ok intn → ∃ n, random intn ns = Some (Some n) ∧ n ∈ ns.
Proof.
  intros Hne Hi. assert (0 < go_len ns) by (unfold go_len; destruct ns; [done|simpl; lia]).
  destruct (go_index_Some ns (intn (go_len ns))) as (n & Hn & _); [by apply Hi|].
  exists n. unfold random. rewrite Hn. split; [done|]. by eapply go_index_elem.
Qed.

Lemma go_len_eqb_0 {A} (l : list A) : (go_len l =? 0) = bool_decide (l = []).
Proof. by destruct l. Qed.

Lemma eligible_nil rd : eligible rd [] = [].
Proof. done. Qed.

(** [SelectNode] with the empty cases folded. *)
Lemma SelectNode_unfold b model ns rd intn :
  SelectNode b model ns rd intn =
  let healthy := eligible rd ns in
  if decide (healthy = []) then (Some None, b)
  else if String.eqb (strategy b) StrategyLeastLoad then (leastLoad healthy, b)
  else if String.eqb (strategy b) StrategyRoundRobin then roundRobin b healthy
  else if String.eqb (strategy b) StrategyRandom then (random intn healthy, b)
  else if String.eqb (strategy b) StrategyCapacity then (bestCapacity healthy, b)
  else (leastLoad healthy, b).
Proof.
  unfold SelectNode. rewrite !go_len_eqb_0. simpl.
  repeat case_bool_decide; subst; rewrite ?eligible_nil; by repeat case_decide.
Qed.

Lemma SelectNode_cases b model ns rd intn :
  0 <= rrIndex b → intn_ok intn →
  let healthy := eligible rd ns in
  healthy = [] ∧ SelectNode b model ns rd intn = (Some None, b) ∨
  healthy ≠ [] ∧ ∃ n, (SelectNode b model ns rd intn).1 = Some (Some n) ∧ n ∈ healthy.
Proof.
  intros Hb Hi healthy. rewrite SelectNode_unfold. fold healthy. simpl.
  destruct (decide (healthy = [])) as [He|He]; [by left|right; split; [done|]].
  destruct (leastLoad_spec _ He) as (n1 & ? & ? & _).
  destruct (bestCapacity_spec _ He) as (n2 & ? & ? & _).
  destruct (roundRobin_spec b _ He Hb) as (n3 & ? & ? & _).
  destruct (random_spec _ _ He Hi) as (n4 & ? & ?).
  repeat case_match; eauto.
Qed.

Lemma select_n_round_robin k b model ns rd intn :
  strategy b = StrategyRoundRobin → 0 <= rrIndex b →
  rrIndex b + Z.of_nat k <= int64_max → eligible rd ns ≠ [] →
  select_n k b model ns rd intn =
  (λ i, Some <$> eligible rd ns !!
          Z.to_nat (Z.rem (rrIndex b + Z.of_nat i) (go_len (eligible rd ns)))) <$> seq 0 k.
Proof.
  intros Hs Hb Hk Hne. revert b Hs Hb Hk.
  induction k as [|k IH]; intros b Hs Hb Hk; [done|].
  cbn [select_n]. rewrite SelectNode_unfold, Hs. simpl.
  destruct (decide (eligible rd ns = [])) as [|_]; [done|].
  destruct (roundRobin_spec b _ Hne Hb) as (n & Hn & _ & Hl).
  unfold roundRobin in *. simpl in *. rewrite Hn, Z.add_0_r, Hl. simpl. f_equal.
  rewrite int_incr_id by lia. rewrite IH; simpl; [|done|lia..].
  rewrite <-(fmap_S_seq 0 k), <-list_fmap_compose. apply list_fmap_ext.
  intros i x _. simpl. do 4 f_equal. lia.
Qed.
End facts.

Lemma rotation_permutation {A} (l : list A) (r : Z) :
  0 <= r → l ≠ [] →
  (λ i, l !! Z.to_nat (Z.rem (r + Z.of_nat i) (go_len l))) <$> seq 0 (length l)
  ≡ₚ Some <$> l.
Proof.
  intros Hr Hne. assert (0 < go_len l) as Hlen by (unfold go_len; destruct l; simpl; [done|lia]).
  set (s := Z.to_nat (r mod go_len l)).
  pose proof (Z.mod_pos_bound r (go_len l) Hlen) as Hs.
  assert (s < length l)%nat as Hslt by (unfold s, go_len in *; lia).
  trans (Some <$> (drop s l ++ take s l)%list).
  - apply reflexive_eq, list_eq. intros i. rewrite !list_lookup_fmap.
    destruct (decide (i < length l)%nat) as [Hi|Hi].
    + rewrite lookup_seq_lt by done. simpl.
      rewrite Z.rem_mod_nonneg by lia.
      rewrite <-Z.add_mod_idemp_l by lia.
      assert (Z.to_nat ((r mod go_len l + Z.of_nat i) mod go_len l)
              = if decide (s + i < length l)%nat then (s + i)%nat else (s + i - length l)%nat) as ->.
      { unfold s, go_len in *. case_decide.
        - rewrite Z.mod_small by lia. lia.
        - rewrite <-(Z_mod_plus_full _ (-1)), Z.mod_small by lia. lia. }
      case_decide.
      * rewrite lookup_app_l by (rewrite length_drop; lia). rewrite lookup_drop.
        by destruct (lookup_lt_is_Some_2 l (s + i)) as [x ->]; [lia|].
      * rewrite lookup_app_r by (rewrite length_drop; lia). rewrite length_drop.
        replace (i - (length l - s))%nat with (s + i - length l)%nat by lia.
        rewrite lookup_take_lt by lia.
        by destruct (lookup_lt_is_Some_2 l (s + i - length l)) as [x ->]; [lia|].
    + rewrite lookup_seq_ge by lia.
      rewrite lookup_ge_None_2; [done|]. rewrite length_app, length_drop, length_take. lia.
  - apply fmap_Permutation. rewrite Permutation_app_comm. by rewrite take_drop.
Qed.

(** ** Properties *)

Section properties.
Context `{GoSortSpec}.

(** C16: whatever the strategy, a selection never panics, finds no node only
    when no reported node is eligible, and otherwise returns a reported node
    that is online, whose heartbeat is younger than ten seconds and that has
    a free slot. *)
Theorem SelectNode_eligible b model ns rd intn :
  0 <= rrIndex b → intn_ok intn →
  match (SelectNode b model ns rd intn).1 with
  | None => False
  | Some None => ∀ n, n ∈ ns → ¬ (Status n = NodeOnline ∧
      time_Since (rd (ID n)) (LastHeartbeat n) < 10 * Second ∧ 0 < AvailableSlots n)
  | Some (Some n) => n ∈ ns ∧ Status n = NodeOnline ∧
      time_Since (rd (ID n)) (LastHeartbeat n) < 10 * Second ∧ 0 < AvailableSlots n
  end.
Proof.
  intros Hb Hi. destruct (SelectNode_cases b model ns rd intn Hb Hi) as [[He ->]|(_ & n & -> & Hn)].
  - simpl. intros n Hn Hel. assert (n ∈ eligible rd ns) as Hin by by apply eligible_spec.
    rewrite He in Hin. by apply not_elem_of_nil in Hin.
  - by apply eligible_spec in Hn.
Qed.

(** Under the least-load strategy, and under any strategy name the
    balancer does not know, no eligible node has a lower load score than the
    selected one; the scores may be any doubles but NaN. *)
Theorem SelectNode_least_load b model ns rd intn n :
  by_load (strategy b) → 0 <= rrIndex b → intn_ok intn →
  Forall (λ n, f64_is_nan (LoadScore n) = false) ns →
  (SelectNode b model ns rd intn).1 = Some (Some n) →
  ∀ n', n' ∈ eligible rd ns → f64_ltb (LoadScore n') (LoadScore n) = false.
Proof.
  intros (Hrr & Hrand & Hcap) Hb Hi Hnan Hsel n' Hn'. rewrite SelectNode_unfold in Hsel.
  simpl in Hsel. destruct (decide (eligible rd ns = [])) as [He|He]; [done|].
  destruct (leastLoad_spec _ He) as (n1 & Hll & _ & Hx).
  assert (leastLoad (eligible rd ns) = Some (Some n)) as Hn.
  { apply String.eqb_neq in Hrr, Hrand, Hcap. rewrite Hrr, Hrand, Hcap in Hsel.
    by destruct (String.eqb (strategy b) StrategyLeastLoad) in Hsel. }
  rewrite Hn in Hll. injection Hll as <-.
  apply (sorted_head_minimal less_score (eligible rd ns) n); [|done..].
  apply score_weak_order. rewrite Forall_forall in *. intros x Hx'.
  apply Hnan. by apply eligible_spec in Hx' as [? _].
Qed.

(** Under the capacity strategy the selected node has the most free
    slots of all eligible nodes. *)
Theorem SelectNode_best_capacity b model ns rd intn n :
  strategy b = StrategyCapacity →
  (SelectNode b model ns rd intn).1 = Some (Some n) →
  ∀ n', n' ∈ eligible rd ns → AvailableSlots n' <= AvailableSlots n.
Proof.
  intros Hs Hsel n' Hn'. rewrite SelectNode_unfold, Hs in Hsel. simpl in Hsel.
  destruct (decide (eligible rd ns = [])) as [He|He]; [done|].
  destruct (bestCapacity_spec _ He) as (n1 & Hbc & _ & Hx).
  simpl in Hsel. rewrite Hsel in Hbc. injection Hbc as <-.
  apply Z.ltb_ge.
  by apply (sorted_head_minimal more_slots (eligible rd ns) n (weak_order_on_Z_key_desc _ _) Hx).
Qed.

(** Round robin is fair: as long as the candidates stay the same and the
    counter does not overflow, every run of as many selections as there are
    eligible nodes picks each of them exactly once, wherever the counter
    starts. *)
Theorem round_robin_fair b model ns rd intn :
  strategy b = StrategyRoundRobin → 0 <= rrIndex b →
  rrIndex b + go_len (eligible rd ns) <= int64_max →
  select_n (length (eligible rd ns)) b model ns rd intn ≡ₚ
  (λ n, Some (Some n)) <$> eligible rd ns.
Proof.
  intros Hs Hb Hmax. destruct (decide (eligible rd ns = [])) as [He|Hne]; [by rewrite He|].
  rewrite select_n_round_robin by done.
  pose proof (rotation_permutation (eligible rd ns) (rrIndex b) Hb Hne) as Hp.
  apply (fmap_Permutation (fmap Some)) in Hp.
  by rewrite <-!list_fmap_compose in Hp.
Qed.
End properties.

(** ** Witnesses *)

Definition example_node2 : Node :=
  UpdateLoad (mk_Load (f64_of_Z 50) f64_zero f64_zero f64_zero f64_zero 3) (5 * Second)
    (set_Status NodeOnline
       (node_of_registration
          (mk_RegistrationPayload "n2" "spark" "10.0.0.8" 11434 HardwareNvidiaDGX "GB10" 128 8
             ["llama3:latest"] "0.5.1"))).

Definition example_nodes : list Node := [example_node2; example_node].

Lemma SelectNode_eligible_witness :
  example_node2 ∈ example_nodes ∧ 0 < AvailableSlots example_node2.
Proof.
  pose proof (SelectNode_eligible (New StrategyCapacity) "llama3" example_nodes
                (λ _, 6 * Second) (λ _, 0)) as Hsel.
  vm_compute (SelectNode _ _ _ _ _).1 in Hsel.
  destruct Hsel as (Hin & _ & _ & Hslots); [done|by intros n Hn|].
  by split.
Defined.

Lemma SelectNode_least_load_witness :
  f64_ltb (LoadScore example_node2) (LoadScore example_node) = false.
Proof.
  apply (SelectNode_least_load (New "") "llama3" example_nodes (λ _, 6 * Second) (λ _, 0)).
  - done.
  - done.
  - by intros n Hn.
  - by repeat constructor.
  - by vm_compute.
  - by vm_compute; constructor.
Defined.

Lemma SelectNode_best_capacity_witness :
  AvailableSlots example_node <= AvailableSlots example_node2.
Proof.
  apply (SelectNode_best_capacity (New StrategyCapacity) "llama3" example_nodes
           (λ _, 6 * Second) (λ _, 0)).
  - done.
  - by vm_compute.
  - vm_compute. by right; left.
Defined.

Lemma round_robin_fair_witness :
  select_n 2 (mk_Balancer StrategyRoundRobin 7) "llama3" example_nodes (λ _, 6 * Second) (λ _, 0)
  ≡ₚ [Some (Some example_node2); Some (Some example_node)].
Proof.
  apply (round_robin_fair (mk_Balancer StrategyRoundRobin 7) "llama3" example_nodes
           (λ _, 6 * Second) (λ _, 0)); by vm_compute.
Defined.
