(* ===== verification/Proxy.v ===== *)
(** * The inference proxy ([internal/proxy/proxy.go])

    A request for [/api/generate] or [/api/chat] is decoded, queued, sent to
    the node the balancer selects and recorded in the history.  Concurrent
    requests interleave between the calls into the queue, the balancer, the
    table of active requests and the history, each of which is atomic, so the
    handlers are cut there: [enqueue_request], [dispatch], the upstream exchange and
    [finish].  The upstream node is the input [upstream]; [step] is the
    interleaving of many requests with cancellations, cluster events and
    changes of strategy. *)

From S2P Require Import Prelude GoFloat GoText GoHttp GoSort ReqQueue Cluster Balancer.

Local Open Scope string_scope.
Local Open Scope Z_scope.

(** ** State *)

Record Proxy := mk_Proxy {
  cluster : Manager;
  balancer : Balancer;
  queue : Queue.t;
  history : History.t;
  active : gmap string nat;
  hp : gmap nat Request }.

Definition New (m : Manager) (b : Balancer) (q : Queue.t) (h : History.t)
    (heap : gmap nat Request) : Proxy :=
  mk_Proxy m b q h ∅ heap.

Definition set_hp (heap : gmap nat Request) (s : Proxy) : Proxy :=
  mk_Proxy (cluster s) (balancer s) (queue s) (history s) (active s) heap.
Definition set_queue (q : Queue.t) (s : Proxy) : Proxy :=
  mk_Proxy (cluster s) (balancer s) q (history s) (active s) (hp s).
Definition set_history (h : History.t) (s : Proxy) : Proxy :=
  mk_Proxy (cluster s) (balancer s) (queue s) h (active s) (hp s).
Definition set_active (a : gmap string nat) (s : Proxy) : Proxy :=
  mk_Proxy (cluster s) (balancer s) (queue s) (history s) a (hp s).
Definition set_balancer (b : Balancer) (s : Proxy) : Proxy :=
  mk_Proxy (cluster s) b (queue s) (history s) (active s) (hp s).
Definition set_cluster (m : Manager) (s : Proxy) : Proxy :=
  mk_Proxy m (balancer s) (queue s) (history s) (active s) (hp s).

(** A write through the request pointer. *)
Definition write (p : nat) (f : Request → Request) (s : Proxy) : Proxy :=
  set_hp (alter f p (hp s)) s.

(** The texts of the error bodies. *)
Definition json_error (msg : string) : string :=
  "{" +:+ dq +:+ "error" +:+ dq +:+ ":" +:+ dq +:+ msg +:+ dq +:+ "}".

(** ** Admission *)

(** Nanoseconds between Go's zero time and 1970. *)
Definition unix_epoch : Time := 62135596800 * Second.
Definition UnixNano (t : Time) : Z := wrap64 (t - unix_epoch).
Definition randInt (now : Time) : Z := int_rem (UnixNano now) 100000.

(** What [handleInference] reads from the decoded body. *)
Definition req_model (body : gmap string json) : string := obj_str body "model".
Definition req_stream (body : gmap string json) : bool :=
  from_opt false (obj_get as_bool body "stream").
Definition req_priority (body : gmap string json) : Z :=
  match obj_get as_num body "priority" with
  | Some pri => f64_to_int pri
  | None => PriorityNormal
  end.

Definition new_request (body : string) (reqBody : gmap string json) (now1 now2 : Time) : Request :=
  mk_Request (fmt_d (UnixNano now1) +:+ "-" +:+ fmt_d (randInt now2)) (req_model reqBody)
    (req_priority reqBody) "" "" 0 None None "" body.

(** [handleInference] up to the call of a response handler: the reply that
    ends it, or the model and stream flag it goes on with.  [body] is the
    outcome of [io.ReadAll], [parsed] of [json.Unmarshal]; the request lives at
    the fresh address [p]; the clock is read for the id, its suffix and the
    queue. *)
Definition enqueue_request (s : Proxy) (body : result string) (parsed : result (gmap string json))
    (p : nat) (now1 now2 now3 : Time) : Proxy * (response + string * bool) :=
  match body with
  | Err _ => (s, inl (http_Error "failed to read body" StatusBadRequest))
  | Ok body =>
      match parsed with
      | Err _ => (s, inl (http_Error "invalid json" StatusBadRequest))
      | Ok reqBody =>
          let req := new_request body reqBody now1 now2 in
          match Queue.Enqueue (<[p := req]> (hp s)) (queue s) p now3 with
          | (true, heap, q) =>
              (set_queue q (set_hp heap s), inr (req_model reqBody, req_stream reqBody))
          | (false, heap, q) =>
              (set_queue q (set_hp heap s),
               inl (http_Error (json_error "queue full") StatusServiceUnavailable))
          end
      end
  end.

(** ** Dispatch *)

(** The inputs of a selection: the order and clock readings of the cluster's
    enumeration, the balancer's clock readings and its random source. *)
Record selection := mk_selection {
  sel_ord : list (string * Node);
  sel_rd : string → Time;
  sel_rd' : string → Time;
  sel_intn : Z → Z }.

Definition fail_with (e : string) (r : Request) : Request :=
  set_Error e (ReqQueue.set_Status StatusFailed r).

Definition start_on (n : Node) (now : Time) (r : Request) : Request :=
  set_StartedAt now (set_NodeID (Cluster.ID n) (ReqQueue.set_Status StatusRunning r)).

Definition select_node `{GoSort} (s : Proxy) (model : string) (sel : selection)
    : panics (option Node) * Balancer :=
  SelectNode (balancer s) model (GetHealthyNodes (cluster s) (sel_ord sel) (sel_rd sel))
    (sel_rd' sel) (sel_intn sel).

(** The common head of [handleSyncResponse] and [handleStreamResponse]. *)
Definition dispatch `{GoSort} (s : Proxy) (p : nat) (model : string) (sel : selection)
    (now : Time) : panics (Proxy * (response + Node)) :=
  match select_node s model sel with
  | (None, _) => None
  | (Some None, b) =>
      let s := write p (fail_with "no available nodes") (set_balancer b s) in
      h ← History.Add (history s) p;
      Some (set_history h s,
            inl (http_Error (json_error "no available nodes in cluster") StatusServiceUnavailable))
  | (Some (Some n), b) =>
      let s := write p (start_on n now) (set_balancer b s) in
      Some (set_active (<[ReqQueue.ID (deref (hp s) p) := p]> (active s)) s, inr n)
  end.

(** The deferred function of both handlers. *)
Definition finish (s : Proxy) (p : nat) (now : Time) : panics Proxy :=
  let s := set_active (delete (ReqQueue.ID (deref (hp s) p)) (active s)) s in
  let s := write p (set_CompletedAt now) s in
  h ← History.Add (history s) p;
  Some (set_history h s).

(** ** The upstream exchange *)

(** [http.NewRequest] fails, [client.Do] fails, or the node replies; the body
    of a reply arrives in reads, the last of which carries the error (or end
    of file) that stops the copy. *)
Inductive upstream :=
  | UBadRequest (e : string)
  | UFailed (e : string)
  | UReply (code : Z) (reads : list (string * option string)).

(** The read loop of the stream handler (and [io.Copy] of the other one):
    what has been written when a read reports an error. *)
Fixpoint copy_loop (reads : list (string * option string)) : string :=
  match reads with
  | [] => ""
  | (chunk, None) :: reads => chunk +:+ copy_loop reads
  | (chunk, Some _) :: _ => chunk
  end.

Definition complete (r : Request) : Request := ReqQueue.set_Status StatusComplete r.

(** The rest of [handleSyncResponse]: the write to the request and the reply. *)
Definition sync_exchange (u : upstream) : (Request → Request) * response :=
  match u with
  | UBadRequest e => (fail_with e, http_Error (json_error "proxy error") StatusInternalServerError)
  | UFailed e => (fail_with e, http_Error (json_error ("upstream error: " +:+ e)) StatusBadGateway)
  | UReply code reads => (complete, mk_response code (BText (copy_loop reads)))
  end.

(** The rest of [handleStreamResponse]; [flusher] says whether the response
    writer is an [http.Flusher]. *)
Definition stream_exchange (flusher : bool) (u : upstream) : (Request → Request) * response :=
  if negb flusher then
    (id, http_Error "streaming not supported" StatusInternalServerError)
  else match u with
  | UBadRequest e => (fail_with e, mk_response StatusOK BNone)
  | UFailed e => (fail_with e, mk_response StatusOK BNone)
  | UReply _ reads => (complete, mk_response StatusOK (BText (copy_loop reads)))
  end.

Definition exchange (stream flusher : bool) (u : upstream) : (Request → Request) * response :=
  if stream then stream_exchange flusher u else sync_exchange u.

(** [handleSyncResponse] / [handleStreamResponse] without interleaving. *)
Definition handleResponse `{GoSort} (s : Proxy) (p : nat) (model : string) (stream flusher : bool)
    (sel : selection) (u : upstream) (now1 now2 : Time) : panics (Proxy * response) :=
  '(s, r) ← dispatch s p model sel now1;
  match r with
  | inl resp => Some (s, resp)
  | inr _ =>
      let '(f, resp) := exchange stream flusher u in
      s ← finish (write p f s) p now2;
      Some (s, resp)
  end.

Definition handleInference `{GoSort} (s : Proxy) (body : result string)
    (parsed : result (gmap string json)) (p : nat) (flusher : bool) (sel : selection)
    (u : upstream) (now1 now2 now3 now4 now5 : Time) : panics (Proxy * response) :=
  match enqueue_request s body parsed p now1 now2 now3 with
  | (s, inl resp) => Some (s, resp)
  | (s, inr (model, stream)) => handleResponse s p model stream flusher sel u now4 now5
  end.

(** [HandleOllama]: inference or a plain proxy to the local Ollama, whose
    exchange is [local]. *)
Definition is_inference (path : string) : bool :=
  has_prefix path "/api/generate" || has_prefix path "/api/chat".

(** [proxyLocal]: the two failures and the copied reply. *)
Definition proxyLocal (local : upstream) : response :=
  match local with
  | UBadRequest e => http_Error e StatusInternalServerError
  | UFailed e => http_Error e StatusBadGateway
  | UReply code reads => mk_response code (BText (copy_loop reads))
  end.

Definition HandleCancel (s : Proxy) (body : result string) : Proxy * response :=
  match body with
  | Err _ => (s, http_Error "bad json" StatusBadRequest)
  | Ok reqID =>
      match Queue.Cancel (hp s) (queue s) reqID with
      | (true, heap, q) =>
          (set_queue q (set_hp heap s), write_json (jobj [("status", JStr "cancelled")]))
      | (false, _, _) =>
          (s, http_Error (json_error "request not found or already running") StatusNotFound)
      end
  end.

Definition GetActiveRequests (ord : list (string * nat)) : list nat := snd <$> ord.

(** ** Interleaving *)

(** Where a request's handler stands. *)
Inductive phase :=
  | Queued (model : string) (stream : bool)
  | Running (n : Node) (stream : bool).

Record sys := mk_sys { st : Proxy; inflight : gmap nat phase }.

Inductive label := LAdmit | LRefuse | LNoNode | LStart | LFinish | LCancel | LCluster | LStrategy.

(** One atomic step of the proxy serving many requests.  Addresses of
    requests are fresh, and two requests that are in flight together have
    different ids (their ids are clock readings in nanoseconds). *)
Inductive step `{GoSort} : label → sys → sys → Prop :=
  | step_admit S p body parsed now1 now2 now3 s' model stream :
      hp (st S) !! p = None →
      enqueue_request (st S) body parsed p now1 now2 now3 = (s', inr (model, stream)) →
      (∀ q ph, inflight S !! q = Some ph → ReqQueue.ID (deref (hp s') q) ≠ ReqQueue.ID (deref (hp s') p)) →
      step LAdmit S (mk_sys s' (<[p := Queued model stream]> (inflight S)))
  | step_refuse S p body parsed now1 now2 now3 s' resp :
      hp (st S) !! p = None →
      enqueue_request (st S) body parsed p now1 now2 now3 = (s', inl resp) →
      step LRefuse S (mk_sys s' (inflight S))
  | step_no_node S p model stream sel now s' resp :
      inflight S !! p = Some (Queued model stream) →
      dispatch (st S) p model sel now = Some (s', inl resp) →
      step LNoNode S (mk_sys s' (delete p (inflight S)))
  | step_start S p model stream sel now s' n :
      inflight S !! p = Some (Queued model stream) →
      dispatch (st S) p model sel now = Some (s', inr n) →
      step LStart S (mk_sys s' (<[p := Running n stream]> (inflight S)))
  | step_finish S p n stream flusher u now s' :
      inflight S !! p = Some (Running n stream) →
      finish (write p (exchange stream flusher u).1 (st S)) p now = Some s' →
      step LFinish S (mk_sys s' (delete p (inflight S)))
  | step_cancel S body s' resp :
      HandleCancel (st S) body = (s', resp) →
      step LCancel S (mk_sys s' (inflight S))
  | step_cluster S e :
      step LCluster S (mk_sys (set_cluster (apply_event (cluster (st S)) e) (st S)) (inflight S))
  | step_strategy S str :
      step LStrategy S
        (mk_sys (set_balancer (SetStrategy str (balancer (st S))) (st S)) (inflight S)).

(** Runs, with their labels. *)
Inductive steps `{GoSort} : list label → sys → sys → Prop :=
  | steps_nil S : steps [] S S
  | steps_cons l ls S1 S2 S3 : step l S1 S2 → steps ls S2 S3 → steps (l :: ls) S1 S3.

(** A proxy that has just started. *)
Definition initial (S : sys) : Prop :=
  inflight S = ∅ ∧ active (st S) = ∅ ∧ Queue.items (queue (st S)) = [] ∧
  0 <= Queue.maxSize (queue (st S)).

#[global] Instance label_eq_dec : EqDecision label.
Proof. solve_decision. Defined.

Definition is_admit (l : label) : bool := bool_decide (l = LAdmit).

(** The final status of a request that was sent to a node. *)
Definition final_status (stream flusher : bool) (u : upstream) : string :=
  if stream && negb flusher then StatusRunning
  else match u with UReply _ _ => StatusComplete | _ => StatusFailed end.

(** The invariant of the interleaving: requests in flight are allocated and
    have distinct ids, the active table holds exactly the running ones, and a
    running request carries its node and the running status. *)
Record inv (S : sys) : Prop := mk_inv {
  inv_alloc : ∀ p ph, inflight S !! p = Some ph → is_Some (hp (st S) !! p);
  inv_ids : ∀ p q ph ph', inflight S !! p = Some ph → inflight S !! q = Some ph' →
    ReqQueue.ID (deref (hp (st S)) p) = ReqQueue.ID (deref (hp (st S)) q) → p = q;
  inv_active : ∀ i p, active (st S) !! i = Some p ↔
    ∃ n stream, inflight S !! p = Some (Running n stream) ∧
                ReqQueue.ID (deref (hp (st S)) p) = i;
  inv_running : ∀ p n stream, inflight S !! p = Some (Running n stream) →
    ReqQueue.Status (deref (hp (st S)) p) = StatusRunning ∧
    NodeID (deref (hp (st S)) p) = Cluster.ID n }.

(** ** Lemmas: the effect of each operation *)

Lemma request_alter_ne f (h : gmap nat Request) p q : p ≠ q → deref (alter f p h) q = deref h q.
Proof. intros Hne. unfold deref. by rewrite lookup_alter_ne. Qed.

Lemma request_alter_eq f (h : gmap nat Request) p :
  is_Some (h !! p) → deref (alter f p h) p = f (deref h p).
Proof. intros [r Hr]. unfold deref. by rewrite lookup_alter_eq, Hr. Qed.

Lemma ID_alter f (h : gmap nat Request) p q :
  (∀ r, ReqQueue.ID (f r) = ReqQueue.ID r) →
  ReqQueue.ID (deref (alter f p h) q) = ReqQueue.ID (deref h q).
Proof.
  intros Hf. unfold deref. rewrite lookup_alter. case_decide; [subst|done].
  destruct (h !! q); simpl; [apply Hf|done].
Qed.

Lemma deref_insert_ne (h : gmap nat Request) p r q : p ≠ q → deref (<[p := r]> h) q = deref h q.
Proof. intros Hne. unfold deref. by rewrite lookup_insert_ne. Qed.

Lemma insertIdx_le h pr l : (Queue.insertIdx h pr l ≤ length l)%nat.
Proof.
  unfold Queue.insertIdx. destruct (find_first _ l) as [[i x]|] eqn:Hf; [|done].
  apply find_first_lookup in Hf as [Hl _]. apply lookup_lt_Some in Hl. lia.
Qed.

(** Admission either stops with the state's visible part unchanged, or adds
    the pending request to the queue. *)
Lemma admit_refused s body parsed p now1 now2 now3 s' resp :
  enqueue_request s body parsed p now1 now2 now3 = (s', inl resp) →
  s' = set_hp (hp s') s ∧ ∀ q, p ≠ q → hp s' !! q = hp s !! q.
Proof.
  unfold enqueue_request. intros Ha. destruct body as [b|]; [|by destruct s; simplify_eq].
  destruct parsed as [m|]; [|by destruct s; simplify_eq].
  destruct (decide (Queue.maxSize (queue s) <= go_len (Queue.items (queue s)))) as [Hf|Hf].
  - rewrite QueueFacts.Enqueue_full in Ha by done. simplify_eq. simpl.
    split; [done|]. intros q Hq. by rewrite lookup_insert_ne.
  - unfold Queue.Enqueue in Ha. rewrite (proj2 (Z.leb_gt _ _)) in Ha by lia. simplify_eq.
Qed.

Lemma admit_accepted s body parsed p now1 now2 now3 s' model stream :
  enqueue_request s body parsed p now1 now2 now3 = (s', inr (model, stream)) →
  cluster s' = cluster s ∧ balancer s' = balancer s ∧ history s' = history s ∧
  active s' = active s ∧
  go_len (Queue.items (queue s')) = go_len (Queue.items (queue s)) + 1 ∧
  Queue.maxSize (queue s') = Queue.maxSize (queue s) ∧
  go_len (Queue.items (queue s)) < Queue.maxSize (queue s) ∧
  is_Some (hp s' !! p) ∧ ReqQueue.Status (deref (hp s') p) = StatusPending ∧
  ∀ q, p ≠ q → hp s' !! q = hp s !! q.
Proof.
  unfold enqueue_request. intros Ha. destruct body as [b|]; [|done]. destruct parsed as [m|]; [|done].
  unfold Queue.Enqueue in Ha.
  destruct (Z.leb_spec (Queue.maxSize (queue s)) (go_len (Queue.items (queue s)))); [done|].
  simplify_eq. simpl. split_and!; try done.
  - rewrite go_insert_at_spec.
    + rewrite go_len_app, go_len_cons. unfold go_len. rewrite length_take, length_drop. lia.
    + apply insertIdx_le.
  - rewrite lookup_alter_eq, lookup_insert_eq. by eexists.
  - rewrite request_alter_eq; [done|]. rewrite lookup_insert_eq. by eexists.
  - intros q Hq. by rewrite lookup_alter_ne, lookup_insert_ne.
Qed.

Section interleaving.
Context `{GoSort}.

Lemma dispatch_no_node s p model sel now s' resp :
  dispatch s p model sel now = Some (s', inl resp) →
  (select_node s model sel).1 = Some None ∧
  resp = http_Error (json_error "no available nodes in cluster") StatusServiceUnavailable ∧
  ∃ b h, History.Add (history s) p = Some h ∧
         s' = set_history h (write p (fail_with "no available nodes") (set_balancer b s)).
Proof.
  unfold dispatch. destruct (select_node s model sel) as [[[n|]|] b]; [done| |done].
  simpl. intros Hd. destruct (History.Add (history s) p) as [h|] eqn:Hh; simplify_eq/=.
  split_and!; try done. by exists b, h.
Qed.

Lemma dispatch_started s p model sel now s' n :
  dispatch s p model sel now = Some (s', inr n) →
  (select_node s model sel).1 = Some (Some n) ∧
  ∃ b, s' = set_active (<[ReqQueue.ID (deref (hp s) p) := p]> (active s))
              (write p (start_on n now) (set_balancer b s)).
Proof.
  unfold dispatch. destruct (select_node s model sel) as [[[n'|]|] b]; [|by destruct (History.Add _ _)|done].
  intros [= <- <-]. split; [done|]. exists b. simpl. by rewrite ID_alter.
Qed.

Lemma finish_spec s p now s' :
  finish s p now = Some s' →
  ∃ h, History.Add (history s) p = Some h ∧
    s' = set_history h (write p (set_CompletedAt now)
           (set_active (delete (ReqQueue.ID (deref (hp s) p)) (active s)) s)).
Proof.
  unfold finish. simpl. destruct (History.Add (history s) p) as [h|] eqn:Hh; simpl; [|done].
  intros [= <-]. by exists h.
Qed.

Lemma exchange_ID stream flusher u r : ReqQueue.ID ((exchange stream flusher u).1 r) = ReqQueue.ID r.
Proof. by destruct stream, flusher, u. Qed.

Lemma HandleCancel_cases s body s' resp :
  HandleCancel s body = (s', resp) →
  s' = s ∨ ∃ p q, ReqQueue.Status (deref (hp s) p) = StatusPending ∧
    s' = set_queue q (write p (ReqQueue.set_Status StatusFailed) s).
Proof.
  unfold HandleCancel. destruct body as [i|]; [|intros; simplify_eq; by left].
  destruct (QueueFacts.Cancel_spec (hp s) (queue s) i)
    as [(l1 & p & l2 & _ & _ & Hst & _ & ->)|[_ ->]]; intros; simplify_eq; [right|by left].
  by eexists p, _.
Qed.

(** The invariant survives a write that keeps the ids, away from the running
    requests or setting their status. *)
Lemma inv_same_table S s' :
  inv S → active s' = active (st S) →
  (∀ p ph, inflight S !! p = Some ph → is_Some (hp s' !! p)) →
  (∀ p ph, inflight S !! p = Some ph →
     ReqQueue.ID (deref (hp s') p) = ReqQueue.ID (deref (hp (st S)) p)) →
  (∀ p n stream, inflight S !! p = Some (Running n stream) →
     deref (hp s') p = deref (hp (st S)) p) →
  inv (mk_sys s' (inflight S)).
Proof.
  intros [Ha Hi Ht Hr] Hact Halloc Hids Hrun. split; simpl.
  - done.
  - intros p q ph ph' Hp Hq. rewrite (Hids _ _ Hp), (Hids _ _ Hq). eauto.
  - intros i p. rewrite Hact, Ht. by split; intros (n & stream & Hp & Hid);
      exists n, stream; rewrite (Hids _ _ Hp) in *.
  - intros p n stream Hp. rewrite (Hrun _ _ _ Hp). eauto.
Qed.

Lemma inv_admit S p s' model stream :
  inv S → hp (st S) !! p = None → active s' = active (st S) → is_Some (hp s' !! p) →
  (∀ q, p ≠ q → hp s' !! q = hp (st S) !! q) →
  (∀ q ph, inflight S !! q = Some ph →
     ReqQueue.ID (deref (hp s') q) ≠ ReqQueue.ID (deref (hp s') p)) →
  inv (mk_sys s' (<[p := Queued model stream]> (inflight S))).
Proof.
  intros [Ha Hi Ht Hr] Hfresh Hact Hp Hsame Hid.
  assert (inflight S !! p = None) as Hnone.
  { destruct (inflight S !! p) eqn:Hph; [|done]. apply Ha in Hph as [r Hph]. congruence. }
  assert (∀ q, p ≠ q → deref (hp s') q = deref (hp (st S)) q) as Hd
    by (intros q Hq; unfold deref; by rewrite Hsame).
  split; simpl.
  - intros q ph [[<- _]|[Hne Hq]]%lookup_insert_Some; [done|]. rewrite Hsame by done. eauto.
  - intros q q' ph ph' [[<- _]|[Hne Hq]]%lookup_insert_Some [[<- _]|[Hne' Hq']]%lookup_insert_Some Heq;
      [done|by edestruct Hid|by edestruct Hid|]. rewrite !Hd in Heq by done. eauto.
  - intros i q. rewrite Hact, Ht. split; intros (n & stm & Hq & Hi').
    + exists n, stm. assert (p ≠ q) by congruence. by rewrite lookup_insert_ne, Hd.
    + apply lookup_insert_Some in Hq as [[_ ?]|[Hne Hq]]; [done|]. rewrite Hd in Hi' by done. eauto.
  - intros q n stm [[_ ?]|[Hne Hq]]%lookup_insert_Some; [done|]. rewrite Hd by done. eauto.
Qed.

(** Leaving: the request at [p] is taken out of flight, and out of the table
    if it was there. *)
Lemma inv_leave S p f s' :
  inv S → (∀ r, ReqQueue.ID (f r) = ReqQueue.ID r) →
  hp s' = alter f p (hp (st S)) →
  ((active s' = active (st S) ∧ ∃ m stm, inflight S !! p = Some (Queued m stm)) ∨
   (active s' = delete (ReqQueue.ID (deref (hp (st S)) p)) (active (st S)) ∧
    is_Some (inflight S !! p))) →
  inv (mk_sys s' (delete p (inflight S))).
Proof.
  intros [Ha Hi Ht Hr] Hf Hhp Hact.
  assert (∀ q, p ≠ q → deref (hp s') q = deref (hp (st S)) q) as Hd
    by (intros q Hq; rewrite Hhp; by apply request_alter_ne).
  split; simpl.
  - intros q ph [Hne Hq]%lookup_delete_Some. rewrite Hhp. by eapply alter_is_Some, Ha.
  - intros q q' ph ph' [Hne Hq]%lookup_delete_Some [Hne' Hq']%lookup_delete_Some.
    rewrite !Hd by done. eauto.
  - intros i q. destruct Hact as [[-> (m & stm & Hp)]|[-> [ph Hp]]].
    + rewrite Ht. split; intros (n & stm' & Hq & Hid).
      * exists n, stm'. assert (p ≠ q) by congruence. by rewrite lookup_delete_ne, Hd.
      * apply lookup_delete_Some in Hq as [Hne Hq]. rewrite Hd in Hid by done. eauto.
    + rewrite lookup_delete_Some, Ht. split.
      * intros (Hne & n & stm' & Hq & Hid). exists n, stm'.
        assert (p ≠ q) by congruence. by rewrite lookup_delete_ne, Hd.
      * intros (n & stm' & [Hne Hq]%lookup_delete_Some & Hid). rewrite Hd in Hid by done.
        split; [|eauto]. intros Heq. apply Hne. eapply Hi; [done..|]. congruence.
  - intros q n stm [Hne Hq]%lookup_delete_Some. rewrite Hd by done. eauto.
Qed.

Lemma inv_start S p m stm n now s' :
  inv S → inflight S !! p = Some (Queued m stm) →
  hp s' = alter (start_on n now) p (hp (st S)) →
  active s' = <[ReqQueue.ID (deref (hp (st S)) p) := p]> (active (st S)) →
  inv (mk_sys s' (<[p := Running n stm]> (inflight S))).
Proof.
  intros [Ha Hi Ht Hr] Hp Hhp Hact.
  assert (∀ q, ReqQueue.ID (deref (hp s') q) = ReqQueue.ID (deref (hp (st S)) q)) as Hid
    by (intros q; rewrite Hhp; by apply ID_alter).
  assert (∀ q ph, <[p := Running n stm]> (inflight S) !! q = Some ph →
            is_Some (inflight S !! q)) as Hin.
  { intros q ph [[<- _]|[_ Hq]]%lookup_insert_Some; rewrite ?Hp, ?Hq; by eexists. }
  split; simpl.
  - intros q ph [ph' Hq]%Hin. rewrite Hhp. by eapply alter_is_Some, Ha.
  - intros q q' ph ph' [? Hq]%Hin [? Hq']%Hin. rewrite !Hid. eauto.
  - intros i q. rewrite Hact, lookup_insert_Some, Hid.
    split.
    + intros [[<- <-]|[Hne Hq]]; [exists n, stm; by rewrite lookup_insert_eq|].
      apply Ht in Hq as (n' & stm' & Hq & Hi'). exists n', stm'. 
      by rewrite lookup_insert_ne by congruence.
    + intros (n' & stm' & [[<- ?]|[Hne Hq]]%lookup_insert_Some & Hi'); [by left|].
      right. split; [|apply Ht; eauto]. intros Heq. apply Hne. eapply Hi; [done..|]. congruence.
  - intros q n' stm' [[<- ?]|[Hne Hq]]%lookup_insert_Some; rewrite Hhp.
    + simplify_eq. by rewrite request_alter_eq by eauto.
    + rewrite request_alter_ne by done. eauto.
Qed.

Lemma proxy_step_inv l S S' : step l S S' → inv S → inv S'.
Proof.
  intros Hstep Hinv. destruct Hstep as
    [S p body parsed n1 n2 n3 s' m stm Hf Ha Hid|S p body parsed n1 n2 n3 s' resp Hf Ha
    |S p m stm sel now s' resp Hp Hd|S p m stm sel now s' n Hp Hd|S p n stm fl u now s' Hp Hd
    |S body s' resp Hc|S e|S str].
  - apply admit_accepted in Ha as (_ & _ & _ & Hact & _ & _ & _ & Hp & _ & Hsame).
    by eapply inv_admit.
  - apply admit_refused in Ha as [Hs' Hsame].
    assert (∀ q ph, inflight S !! q = Some ph → hp s' !! q = hp (st S) !! q) as Hq.
    { intros q ph Hph. apply Hsame. intros <-. apply (inv_alloc _ Hinv) in Hph as [? ?]. congruence. }
    apply inv_same_table; [done|by rewrite Hs'|..].
    + intros q ph Hph. rewrite (Hq _ _ Hph). by eapply inv_alloc.
    + intros q ph Hph. unfold deref. by rewrite (Hq _ _ Hph).
    + intros q n stm Hph. unfold deref. by rewrite (Hq _ _ Hph).
  - apply dispatch_no_node in Hd as (_ & _ & b & h & _ & ->).
    eapply (inv_leave S p (fail_with "no available nodes")); [done|done|done|].
    left. eauto.
  - apply dispatch_started in Hd as (_ & b & ->). by eapply inv_start.
  - apply finish_spec in Hd as (h & _ & ->).
    eapply (inv_leave S p (set_CompletedAt now ∘ (exchange stm fl u).1)); [done| | |].
    + intros r. simpl. by rewrite <-(exchange_ID stm fl u r).
    + simpl. by rewrite alter_alter_eq.
    + right. simpl. rewrite ID_alter by (intros; apply exchange_ID). split; [done|]. by eexists.
  - apply HandleCancel_cases in Hc as [->|(p & q & Hpend & ->)]; [by destruct S|].
    apply inv_same_table; [done|done|..]; simpl.
    + intros q' ph Hq'. by eapply alter_is_Some, inv_alloc.
    + intros q' ph Hq'. by apply ID_alter.
    + intros q' n stm Hq'. apply request_alter_ne. intros ->.
      apply (inv_running _ Hinv) in Hq' as [Hst _]. by rewrite Hst in Hpend.
  - apply inv_same_table; try done. apply (inv_alloc _ Hinv).
  - apply inv_same_table; try done. apply (inv_alloc _ Hinv).
Qed.

Lemma proxy_steps_inv ls S S' : steps ls S S' → inv S → inv S'.
Proof. induction 1; eauto using proxy_step_inv. Qed.

Lemma proxy_initial_inv S : initial S → inv S.
Proof.
  intros (Hi & Ha & _). split; rewrite ?Hi, ?Ha.
  - by intros p ph ?%lookup_empty_Some.
  - by intros p q ph ph' ?%lookup_empty_Some.
  - intros i p. rewrite lookup_empty. split; [done|]. intros (n & stm & ?%lookup_empty_Some & _). done.
  - by intros p n stm ?%lookup_empty_Some.
Qed.

End interleaving.

(** ** Lemmas: queue length, history, outcome *)

Lemma step_queue `{GoSort} l S S' :
  step l S S' → l ≠ LCancel →
  Queue.Len (queue (st S')) = Queue.Len (queue (st S)) + (if is_admit l then 1 else 0) ∧
  Queue.maxSize (queue (st S')) = Queue.maxSize (queue (st S)).
Proof.
  intros Hstep Hl. unfold Queue.Len. destruct Hstep as
    [S p body parsed n1 n2 n3 s' m stm Hf Ha Hid|S p body parsed n1 n2 n3 s' resp Hf Ha
    |S p m stm sel now s' resp Hp Hd|S p m stm sel now s' n Hp Hd|S p n stm fl u now s' Hp Hd
    |S body s' resp Hc|S e|S str]; simpl; try (by split; [lia|]).
  - apply admit_accepted in Ha. tauto.
  - apply admit_refused in Ha as [-> _]. simpl. split; [lia|done].
  - apply dispatch_no_node in Hd as (_ & _ & b & h & _ & ->). simpl. split; [lia|done].
  - apply dispatch_started in Hd as (_ & b & ->). simpl. split; [lia|done].
  - apply finish_spec in Hd as (h & _ & ->). simpl. split; [lia|done].
  - done.
Qed.

Lemma steps_queue `{GoSort} ls S S' :
  steps ls S S' → LCancel ∉ ls →
  Queue.Len (queue (st S')) = Queue.Len (queue (st S)) + Z.of_nat (count_if is_admit ls) ∧
  Queue.maxSize (queue (st S')) = Queue.maxSize (queue (st S)).
Proof.
  induction 1 as [S|l ls S1 S2 S3 Hstep Hsteps IH]; intros Hc.
  - unfold count_if. simpl. split; [lia|done].
  - apply not_elem_of_cons in Hc as [Hl Hc].
    destruct (step_queue _ _ _ Hstep (not_eq_sym Hl)) as [H1 H2]. destruct (IH Hc) as [H3 H4].
    rewrite H3, H1, H4, H2, count_if_cons. split; [|done]. destruct (is_admit l); lia.
Qed.

Lemma History_Add_total (h : History.t) p :
  0 <= History.maxSize h →
  ∃ h', History.Add h p = Some h' ∧ History.maxSize h' = History.maxSize h ∧
        (0 < History.maxSize h → last (History.requests h') = Some p).
Proof.
  intros Hm. unfold History.Add.
  destruct (Z.ltb_spec (History.maxSize h) (go_len (History.requests h ++ [p]))) as [Hlt|Hge].
  - rewrite HistoryFacts.slice_from_ok by len_lia. simpl. eexists. split_and!; [done..|].
    intros Hpos. simpl. rewrite drop_app_le.
    + by rewrite last_snoc.
    + rewrite go_len_app in *. unfold go_len in *. simpl in *. lia.
  - eexists. split_and!; [done..|]. intros _. simpl. by rewrite last_snoc.
Qed.

Lemma admit_ok s body m p now1 now2 now3 :
  Queue.Len (queue s) < Queue.maxSize (queue s) →
  ∃ s', enqueue_request s (Ok body) (Ok m) p now1 now2 now3 = (s', inr (req_model m, req_stream m)) ∧
    cluster s' = cluster s ∧ balancer s' = balancer s ∧ history s' = history s ∧
    active s' = active s ∧ is_Some (hp s' !! p) ∧
    ReqQueue.ID (deref (hp s') p) = ReqQueue.ID (new_request body m now1 now2).
Proof.
  intros Hlt. unfold enqueue_request, Queue.Enqueue, Queue.Len in *.
  rewrite (proj2 (Z.leb_gt _ _)) by lia. eexists. split_and!; [done..| |]; simpl.
  - rewrite lookup_alter_eq, lookup_insert_eq. by eexists.
  - rewrite request_alter_eq by (rewrite lookup_insert_eq; by eexists).
    unfold deref. by rewrite lookup_insert_eq.
Qed.

Lemma exchange_final stream flusher u r :
  ReqQueue.Status r = StatusRunning →
  ReqQueue.Status ((exchange stream flusher u).1 r) = final_status stream flusher u ∧
  NodeID ((exchange stream flusher u).1 r) = NodeID r.
Proof. by destruct stream, flusher, u. Qed.

Lemma finish_total s p now :
  0 <= History.maxSize (history s) →
  ∃ s', finish s p now = Some s' ∧
    active s' = delete (ReqQueue.ID (deref (hp s) p)) (active s) ∧
    hp s' = alter (set_CompletedAt now) p (hp s) ∧ queue s' = queue s ∧
    (0 < History.maxSize (history s) → last (History.requests (history s')) = Some p).
Proof.
  intros Hm. destruct (History_Add_total (history s) p Hm) as (h & Hh & _ & Hlast).
  unfold finish. simpl. rewrite Hh. simpl. by eexists.
Qed.

(** A response handler for an allocated request, run to the end. *)
Lemma handleResponse_spec `{GoSort} s p model stream flusher sel u now1 now2 :
  is_Some (hp s !! p) → active s !! ReqQueue.ID (deref (hp s) p) = None →
  0 <= History.maxSize (history s) →
  match (select_node s model sel).1 with
  | None => handleResponse s p model stream flusher sel u now1 now2 = None
  | Some None => ∃ s', handleResponse s p model stream flusher sel u now1 now2 =
        Some (s', http_Error (json_error "no available nodes in cluster") StatusServiceUnavailable) ∧
      active s' = active s ∧
      (0 < History.maxSize (history s) → last (History.requests (history s')) = Some p) ∧
      ReqQueue.Status (deref (hp s') p) = StatusFailed
  | Some (Some n) => ∃ s', handleResponse s p model stream flusher sel u now1 now2 =
        Some (s', (exchange stream flusher u).2) ∧
      active s' = active s ∧
      (0 < History.maxSize (history s) → last (History.requests (history s')) = Some p) ∧
      ReqQueue.Status (deref (hp s') p) = final_status stream flusher u ∧
      NodeID (deref (hp s') p) = Cluster.ID n ∧ CompletedAt (deref (hp s') p) = Some now2
  end.
Proof.
  intros Hp Hid Hm. unfold handleResponse, dispatch.
  destruct (select_node s model sel) as [[[n|]|] b] eqn:Hsel; simpl; [| |done].
  - destruct (exchange stream flusher u) as [f resp] eqn:Hx.
    assert (∀ r, ReqQueue.ID (f r) = ReqQueue.ID r) as HfID
      by (intros r; rewrite <-(exchange_ID stream flusher u r); by rewrite Hx).
    set (s1 := write p f _).
    destruct (finish_total s1 p now2 Hm) as (s' & -> & Hact & Hhp & _ & Hlast). simpl.
    exists s'. split; [done|]. 
    assert (is_Some (hp s1 !! p)) as Hs1 by by apply alter_is_Some, alter_is_Some.
    rewrite Hhp, request_alter_eq by done. simpl.
    rewrite !request_alter_eq by (try apply alter_is_Some; done).
    destruct (exchange_final stream flusher u (start_on n now1 (deref (hp s) p)) eq_refl) as [Hst Hn].
    rewrite Hx in Hst, Hn. split_and!; [|done|done|done|done].
    rewrite Hact. simpl. rewrite !ID_alter by done. by apply delete_insert_id.
  - destruct (History_Add_total (history s) p Hm) as (h & Hh & _ & Hlast). rewrite Hh. simpl.
    eexists. split_and!; try done. simpl. by rewrite request_alter_eq.
Qed.

(** ** Properties *)

Section properties.
Context `{GoSortSpec}.

(** Requests that reach the proxy are never taken out of the queue: while
    no client cancels one, any interleaving of any number of handlers leaves
    the queue longer by exactly the number of admissions.  So once as many
    requests as the queue holds have been admitted, every later inference
    request is refused with 503, even when all the others have finished. *)
Theorem queue_fills_up S0 ls S body m p now1 now2 now3 :
  initial S0 → steps ls S0 S → LCancel ∉ ls →
  Z.of_nat (count_if is_admit ls) = Queue.maxSize (queue (st S0)) →
  Queue.Len (queue (st S)) = Queue.maxSize (queue (st S)) ∧
  (enqueue_request (st S) (Ok body) (Ok m) p now1 now2 now3).2 =
  inl (http_Error (json_error "queue full") StatusServiceUnavailable).
Proof.
  intros (_ & _ & Hempty & _) Hsteps Hc Hcount.
  destruct (steps_queue _ _ _ Hsteps Hc) as [Hlen Hmax].
  assert (Queue.Len (queue (st S)) = Queue.maxSize (queue (st S))) as Hfull.
  { rewrite Hlen, Hmax. unfold Queue.Len. rewrite Hempty, go_len_nil. lia. }
  split; [done|]. unfold enqueue_request.
  by rewrite QueueFacts.Enqueue_full by (rewrite <-Hfull; done).
Qed.


(** A request is only ever sent to a node that is registered and online,
    whose last heartbeat is younger than both the cluster's timeout and ten
    seconds, and that has a free slot. *)
Theorem dispatch_target_eligible s p model sel now s' n :
  manager_wf (cluster s) → map_range (nodes (cluster s)) (sel_ord sel) →
  0 <= rrIndex (balancer s) → intn_ok (sel_intn sel) →
  dispatch s p model sel now = Some (s', inr n) →
  nodes (cluster s) !! Cluster.ID n = Some n ∧ Cluster.Status n = NodeOnline ∧
  time_Since (sel_rd sel (Cluster.ID n)) (LastHeartbeat n) < heartbeatTimeout (cluster s) ∧
  time_Since (sel_rd' sel (Cluster.ID n)) (LastHeartbeat n) < 10 * Second ∧
  0 < AvailableSlots n.
Proof.
  intros Hwf Hord Hrr Hintn Hd. apply dispatch_started in Hd as [Hsel _].
  unfold select_node in Hsel.
  destruct (SelectNode_cases (balancer s) model
              (GetHealthyNodes (cluster s) (sel_ord sel) (sel_rd sel)) (sel_rd' sel)
              (sel_intn sel) Hrr Hintn) as [[_ Hno]|(_ & n' & Hn' & Hel)].
  - by rewrite Hno in Hsel.
  - rewrite Hsel in Hn'. injection Hn' as <-.
    apply eligible_spec in Hel as (Hn & Hst & Hfresh & Hslots).
    apply (elem_of_GetHealthyNodes _ _ _ _ Hwf Hord) in Hn. tauto.
Qed.


(** Cancelling does not stop a request.  The cancellation of a queued
    request is acknowledged and the request leaves the queue marked failed,
    but its handler then sends it to a node all the same, replies with the
    node's answer and marks the request complete. *)
Theorem cancelled_request_still_runs s i s1 p model stream sel code reads now1 now2 n :
  (∀ q, is_Some (hp s !! q) → ReqQueue.ID (deref (hp s) q) = i → q = p) →
  Queue.valid (hp s) (queue s) → is_Some (hp s !! p) →
  active s !! i = None → 0 <= History.maxSize (history s) →
  (select_node s model sel).1 = Some (Some n) →
  HandleCancel s (Ok i) = (s1, write_json (jobj [("status", JStr "cancelled")])) →
  ReqQueue.Status (deref (hp s1) p) = StatusFailed ∧
  ∃ s2, handleResponse s1 p model stream true sel (UReply code reads) now1 now2 =
          Some (s2, (exchange stream true (UReply code reads)).2) ∧
        ReqQueue.Status (deref (hp s2) p) = StatusComplete.
Proof.
  intros Huniq Hv Hp Hact Hm Hsel Hc. unfold HandleCancel in Hc.
  destruct (QueueFacts.Cancel_spec (hp s) (queue s) i)
    as [(l1 & q & l2 & Hitems & Hq & _ & _ & Hr)|[_ Hr]]; rewrite Hr in Hc; [|by inversion Hc].
  injection Hc as <-.
  assert (q = p) as ->.
  { apply Huniq; [|done]. unfold Queue.valid in Hv. rewrite Hitems, Forall_app, Forall_cons in Hv.
    tauto. }
  simpl. split; [by rewrite request_alter_eq|].
  match goal with |- context [handleResponse ?x] => set (s1 := x) end.
  pose proof (handleResponse_spec s1 p model stream true sel (UReply code reads) now1 now2) as Hspec.
  change (select_node s1 model sel) with (select_node s model sel) in Hspec. rewrite Hsel in Hspec.
  destruct Hspec as (s2 & -> & _ & _ & Hst & _).
  - simpl. by apply alter_is_Some.
  - simpl. rewrite ID_alter by done. by rewrite Hq.
  - done.
  - exists s2. split; [done|]. rewrite Hst. by destruct stream.
Qed.

End properties.

(** ** Witnesses: a cluster of one node and a queue of one place. *)

Definition example_proxy : Proxy :=
  New example_manager (Balancer.New "") (Queue.mk [] 1 false) (History.mk [] 10) ∅.

Definition example_sel : selection :=
  mk_selection [("n1", example_node)] (λ _, 6 * Second) (λ _, 6 * Second) (λ _, 0).

Definition example_reply : upstream := UReply 200 [("{}", Some "EOF")].

(** One request admitted, sent and finished. *)
Definition example_S0 : sys := mk_sys example_proxy ∅.
Definition example_S1 : sys :=
  mk_sys (enqueue_request example_proxy (Ok "{}") (Ok ∅) 1%nat unix_epoch unix_epoch unix_epoch).1
    {[1%nat := Queued "" false]}.
Definition example_s2 : Proxy :=
  match dispatch (st example_S1) 1%nat "" example_sel unix_epoch with
  | Some (s, _) => s
  | None => st example_S1
  end.
Definition example_S2 : sys :=
  mk_sys example_s2 (<[1%nat := Running example_node false]> (inflight example_S1)).
Definition example_s3 : Proxy :=
  from_opt example_s2
    (finish (write 1%nat (exchange false true example_reply).1 example_s2) 1%nat 1).
Definition example_S3 : sys := mk_sys example_s3 (delete 1%nat (inflight example_S2)).

Lemma example_step1 : step LAdmit example_S0 example_S1.
Proof.
  apply (step_admit example_S0 1%nat (Ok "{}") (Ok ∅) unix_epoch unix_epoch unix_epoch).
  - reflexivity.
  - vm_compute. reflexivity.
  - intros q ph Hq. by apply (lookup_empty_Some q ph) in Hq.
Qed.

Lemma example_step2 : step LStart example_S1 example_S2.
Proof.
  apply (step_start example_S1 1%nat "" false example_sel unix_epoch _ example_node);
    vm_compute; reflexivity.
Qed.

Lemma example_step3 : step LFinish example_S2 example_S3.
Proof.
  apply (step_finish example_S2 1%nat example_node false true example_reply 1);
    vm_compute; reflexivity.
Qed.

Lemma proxy_example_initial : initial example_S0.
Proof. by vm_compute. Qed.

Lemma queue_fills_up_witness :
  inflight example_S3 = ∅ ∧
  (enqueue_request (st example_S3) (Ok "{}") (Ok ∅) 2%nat 0 0 0).2 =
  inl (http_Error (json_error "queue full") StatusServiceUnavailable).
Proof.
  split; [by vm_compute|].
  apply (queue_fills_up example_S0 [LAdmit; LStart; LFinish] example_S3).
  - apply proxy_example_initial.
  - eauto using steps_cons, steps_nil, example_step1, example_step2, example_step3.
  - vm_compute. by intros Hin; repeat (apply elem_of_cons in Hin as [?|Hin]; [done|]); apply not_elem_of_nil in Hin.
  - by vm_compute.
Defined.


Lemma dispatch_target_eligible_witness : 0 < AvailableSlots example_node.
Proof.
  apply (dispatch_target_eligible (st example_S1) 1%nat "" example_sel unix_epoch
           (st example_S2) example_node).
  - apply run_wf.
  - unfold map_range. by vm_compute.
  - done.
  - by intros n Hn.
  - vm_compute. reflexivity.
Defined.


Lemma cancelled_request_still_runs_witness :
  ∃ s2, handleResponse (HandleCancel (st example_S1) (Ok "0-0")).1 1%nat "" false true example_sel
          example_reply 1 2 = Some (s2, mk_response 200 (BText "{}")) ∧
        ReqQueue.Status (deref (hp s2) 1%nat) = StatusComplete.
Proof.
  apply (cancelled_request_still_runs (st example_S1) "0-0" _ 1%nat "" false example_sel 200
           [("{}", Some "EOF")] 1 2 example_node).
  - intros q Hq%elem_of_dom _.
    assert (dom (hp (st example_S1)) = {[1%nat]}) as Hdom by by vm_compute. set_solver.
  - vm_compute. repeat constructor. by eexists.
  - by eexists.
  - done.
  - done.
  - vm_compute. reflexivity.
  - vm_compute. reflexivity.
Defined.
