(* ===== verification/Api.v ===== *)
(** * The dashboard API ([internal/api/handlers.go]) and the node's start-up
    ([config/config.go], [config/nodeid.go], [main.go])

    The handlers read the cluster, the queue, the history and the proxy and
    render them; [HandleAPIStrategy] and [HandleAPICancel] are the only ones
    that write.  Go maps are encoded in no particular order, so a rendered
    map is a [gmap]. *)

From S2P Require Import Prelude GoFloat GoText GoHttp GoSort ReqQueue Cluster Balancer Proxy.

Local Open Scope string_scope.
Local Open Scope Z_scope.

(** ** Aggregates *)

(** The summing loop over the nodes. *)
Definition add_slots (acc : Z * Z) (n : Node) : Z * Z :=
  (int_add acc.1 (Capacity n), int_add acc.2 (GetActiveConns n)).
Definition slot_totals (ns : list Node) : Z * Z := foldl add_slots (0, 0) ns.

(** The set of the models the healthy nodes have. *)
Definition model_set (healthy : list Node) : gset string :=
  foldl (λ s n, foldl (λ s m, {[m]} ∪ s) s (GetModels n)) ∅ healthy.

(** [modelNodes]: the names of the healthy nodes by model. *)
Definition add_model_node (name : string) (mn : gmap string (list string)) (m : string)
    : gmap string (list string) :=
  <[m := (from_opt [] (mn !! m) ++ [name])%list]> mn.
Definition model_nodes (healthy : list Node) : gmap string (list string) :=
  foldl (λ mn n, foldl (add_model_node (Name n)) mn (GetModels n)) ∅ healthy.

(** ** Handlers *)

Record inputs := mk_inputs {
  in_ord : list (string * Node);      (** [GetNodes] *)
  in_ord' : list (string * Node);     (** [GetHealthyNodes] *)
  in_rd : string → Time;
  in_active : list (string * nat) }.

Section handlers.
Variable time_json : Time → json.
Variable request_json : Request → json.

Definition HandleAPINodes (ord : list (string * Node)) : response :=
  write_json (JArr (MarshalJSON time_json <$> GetNodes ord)).

(** [models] is the enumeration of [modelSet] the handler ranges over. *)
Definition HandleAPIClusterStatus (s : Proxy) (i : inputs) (models : list string) (now : Time)
    : response :=
  let nodes := GetNodes (in_ord i) in
  let healthy := GetHealthyNodes (cluster s) (in_ord' i) (in_rd i) in
  let '(totalSlots, usedSlots) := slot_totals nodes in
  let historyStats := History.get_Stats (hp s) (history s) in
  let queueLen := Queue.Len (queue s) in
  let activeReqs := GetActiveRequests (in_active i) in
  write_json (jobj [
    ("cluster", jobj [
      ("total_nodes", JInt (go_len nodes)); ("online_nodes", JInt (go_len healthy));
      ("total_slots", JInt totalSlots); ("used_slots", JInt usedSlots);
      ("queue_depth", JInt queueLen); ("active_requests", JInt (go_len activeReqs));
      ("strategy", JStr (GetStrategy (balancer s)))]);
    ("models", JArr (JStr <$> models));
    ("queue", jobj [
      ("depth", JInt queueLen); ("max_size", JInt 1000);
      ("pending", JInt (History.Pending historyStats));
      ("completed", JInt (History.Completed historyStats));
      ("failed", JInt (History.Failed historyStats))]);
    ("timestamp", time_json now)]).

Definition requests_json (s : Proxy) (ps : list nat) : json :=
  JArr ((λ p, request_json (deref (hp s) p)) <$> ps).

Definition HandleAPIQueue (s : Proxy) : response :=
  write_json (requests_json s (Queue.List (queue s))).

Definition HandleAPIHistory (s : Proxy) : panics response :=
  ps ← History.List (history s) 50; Some (write_json (requests_json s ps)).

Definition HandleAPIActive (s : Proxy) (ord : list (string * nat)) : response :=
  write_json (requests_json s (GetActiveRequests ord)).

Definition HandleAPIModels (s : Proxy) (i : inputs) : response :=
  let healthy := GetHealthyNodes (cluster s) (in_ord' i) (in_rd i) in
  write_json (JObj ((λ names, JArr (JStr <$> names)) <$> model_nodes healthy)).

(** One event of the stream [HandleSSE] sends at the start and at every
    tick. *)
Definition sse_data (s : Proxy) (i : inputs) (now : Time) : panics json :=
  let nodes := GetNodes (in_ord i) in
  let healthy := GetHealthyNodes (cluster s) (in_ord' i) (in_rd i) in
  let '(totalSlots, usedSlots) := slot_totals nodes in
  ps ← History.List (history s) 20;
  Some (jobj [
    ("nodes", JArr (MarshalJSON time_json <$> nodes));
    ("total_nodes", JInt (go_len nodes)); ("online_nodes", JInt (go_len healthy));
    ("total_slots", JInt totalSlots); ("used_slots", JInt usedSlots);
    ("queue_depth", JInt (Queue.Len (queue s)));
    ("active", requests_json s (GetActiveRequests (in_active i)));
    ("history", requests_json s ps);
    ("strategy", JStr (GetStrategy (balancer s)));
    ("timestamp", time_json now)]).
End handlers.

Definition HandleAPIStrategy (s : Proxy) (meth : string) (payload : result string)
    : Proxy * response :=
  if String.eqb meth "POST" then
    match payload with
    | Err _ => (s, http_Error "bad json" StatusBadRequest)
    | Ok str => (set_balancer (SetStrategy str (balancer s)) s,
                 write_json (jobj [("strategy", JStr str)]))
    end
  else (s, write_json (jobj [("strategy", JStr (GetStrategy (balancer s)))])).

Definition HandleAPICancel (s : Proxy) (body : result string) : Proxy * response :=
  HandleCancel s body.

(** ** Start-up *)

(** [os.Getenv] returns the empty string for a variable that is not set. *)
Definition envOr (getenv : string → string) (key fallback : string) : string :=
  if String.eqb (getenv key) "" then fallback else getenv key.

(** [atoi] is [strconv.Atoi]. *)
Definition envIntOr (getenv : string → string) (atoi : string → result Z) (key : string)
    (fallback : Z) : Z :=
  if String.eqb (getenv key) "" then fallback
  else match atoi (getenv key) with Ok n => n | Err _ => fallback end.

Record Config := mk_Config {
  cfg_NodeID : string; cfg_ListenAddr : string; cfg_OllamaAddr : string;
  cfg_HeartbeatTimeout : Duration; cfg_HeartbeatInterval : Duration;
  cfg_MaxQueueSize : Z; cfg_MaxConcurrent : Z; cfg_RequestTimeout : Duration;
  cfg_NodeCapacity : Z; cfg_WebDir : string }.

(** The configuration before the flags are parsed. *)
Definition defaults (getenv : string → string) : Config :=
  mk_Config (envOr getenv "NODE_ID" "") (envOr getenv "LISTEN_ADDR" ":8080")
    (envOr getenv "OLLAMA_ADDR" "http://127.0.0.1:11434") (10 * Second) (3 * Second)
    1000 10 (300 * Second) 5 (envOr getenv "WEB_DIR" "./web").

(** [flag.Parse] is the function [flags]; [hostname-hex] is the generated id. *)
Definition generateNodeID (hostname hex : string) : string := hostname +:+ "-" +:+ hex.

Definition Load (getenv : string → string) (flags : Config → Config) (hostname hex : string)
    : Config :=
  let cfg := flags (defaults getenv) in
  if String.eqb (cfg_NodeID cfg) "" then
    mk_Config (generateNodeID hostname hex) (cfg_ListenAddr cfg) (cfg_OllamaAddr cfg)
      (cfg_HeartbeatTimeout cfg) (cfg_HeartbeatInterval cfg) (cfg_MaxQueueSize cfg)
      (cfg_MaxConcurrent cfg) (cfg_RequestTimeout cfg) (cfg_NodeCapacity cfg) (cfg_WebDir cfg)
  else cfg.

(** The services [main] builds; a negative queue size panics. *)
Definition start (cfg : Config) : panics Proxy :=
  q ← Queue.New (cfg_MaxQueueSize cfg);
  h ← History.NewHistory 500;
  Some (Proxy.New (NewManager (cfg_HeartbeatTimeout cfg) false)
          (Balancer.New StrategyLeastLoad) q h ∅).

(** The middleware of [main]: every reply has the CORS headers, and an
    [OPTIONS] request is answered here. *)
Definition corsMiddleware (meth : string) (next : response) : response :=
  if String.eqb meth "OPTIONS" then mk_response StatusNoContent BNone else next.

(** ** Lemmas *)

Lemma slot_totals_exact ns t u :
  Forall (λ n, 0 <= Capacity n ∧ 0 <= ActiveConns n) ns →
  0 <= t → 0 <= u →
  t + foldr Z.add 0 (Capacity <$> ns) <= int64_max →
  u + foldr Z.add 0 (ActiveConns <$> ns) <= int64_max →
  foldl add_slots (t, u) ns =
  (t + foldr Z.add 0 (Capacity <$> ns), u + foldr Z.add 0 (ActiveConns <$> ns)).
Proof.
  intros Hns. revert t u. induction Hns as [|n ns [Hc Ha] Hns IH]; intros t u Ht Hu Hmt Hmu; csimpl in *.
  - f_equal; lia.
  - assert (0 <= foldr Z.add 0 (Capacity <$> ns) ∧ 0 <= foldr Z.add 0 (ActiveConns <$> ns)) as [H1 H2].
    { clear -Hns. induction Hns as [|n ns [? ?] _ [? ?]]; csimpl; lia. }
    unfold add_slots at 2. simpl. unfold GetActiveConns.
    rewrite !int_add_id by (unfold int64_range, int64_min, int64_max in *; lia).
    rewrite IH by lia. f_equal; lia.
Qed.

Lemma add_models_spec ms s m :
  m ∈ foldl (λ s m, {[m]} ∪ s) s ms ↔ m ∈ ms ∨ m ∈@{gset string} s.
Proof. revert s. induction ms as [|m' ms IH]; intros s; simpl; [set_solver|]. rewrite IH. set_solver. Qed.

Lemma model_set_from healthy s m :
  m ∈ foldl (λ s n, foldl (λ s m, {[m]} ∪ s) s (GetModels n)) s healthy ↔
  (∃ n, n ∈ healthy ∧ m ∈ Models n) ∨ m ∈@{gset string} s.
Proof.
  revert s. induction healthy as [|n ns IH]; intros s; simpl.
  - set_solver.
  - rewrite IH, add_models_spec. unfold GetModels. set_solver.
Qed.

Lemma add_model_nodes_lookup name ms mn m :
  from_opt [] (foldl (add_model_node name) mn ms !! m) =
  (from_opt [] (mn !! m) ++ replicate (count_if (String.eqb m) ms) name)%list.
Proof.
  revert mn. induction ms as [|m' ms IH]; intros mn; simpl; [by rewrite app_nil_r|].
  rewrite IH, count_if_cons. unfold add_model_node.
  destruct (String.eqb_spec m m') as [->|Hne]; simpl.
  - rewrite lookup_insert_eq. simpl. by rewrite <-app_assoc.
  - by rewrite lookup_insert_ne by done.
Qed.

Lemma model_nodes_from healthy mn m :
  from_opt [] (foldl (λ mn n, foldl (add_model_node (Name n)) mn (GetModels n)) mn healthy !! m) =
  (from_opt [] (mn !! m) ++
   (healthy ≫= λ n, replicate (count_if (String.eqb m) (Models n)) (Name n)))%list.
Proof.
  revert mn. induction healthy as [|n ns IH]; intros mn; simpl; [by rewrite app_nil_r|].
  by rewrite IH, add_model_nodes_lookup, <-app_assoc.
Qed.

(** ** Properties *)

(** The status page counts right: with capacities and connection counts
    that are not negative and sums that fit an [int], the slot totals are the
    sums over all registered nodes, and a model is listed exactly when a
    healthy node has it. *)
Theorem cluster_status_aggregates m ord ord' rd :
  manager_wf m → map_range (nodes m) ord → map_range (nodes m) ord' →
  Forall (λ n, 0 <= Capacity n ∧ 0 <= ActiveConns n) (GetNodes ord) →
  foldr Z.add 0 (Capacity <$> GetNodes ord) <= int64_max →
  foldr Z.add 0 (ActiveConns <$> GetNodes ord) <= int64_max →
  slot_totals (GetNodes ord) =
    (foldr Z.add 0 (Capacity <$> GetNodes ord), foldr Z.add 0 (ActiveConns <$> GetNodes ord)) ∧
  ∀ model, model ∈ model_set (GetHealthyNodes m ord' rd) ↔
    ∃ n, nodes m !! Cluster.ID n = Some n ∧ Cluster.Status n = NodeOnline ∧
         time_Since (rd (Cluster.ID n)) (LastHeartbeat n) < heartbeatTimeout m ∧
         model ∈ Models n.
Proof.
  intros Hwf Hord Hord' Hns Hc Ha. split.
  - unfold slot_totals. by rewrite slot_totals_exact.
  - intros model. unfold model_set. rewrite model_set_from. split.
    + intros [(n & Hn & Hm)|?%not_elem_of_empty]; [|done]. exists n.
      apply (elem_of_GetHealthyNodes _ _ _ _ Hwf Hord') in Hn. tauto.
    + intros (n & Hn & Hs & Ht & Hm). left. exists n. split; [|done].
      by apply (elem_of_GetHealthyNodes _ _ _ _ Hwf Hord').
Qed.

(** The model index lists, for every model, the healthy nodes that have
    it, in enumeration order and once per occurrence in the node's list; a
    model no healthy node has is not in it. *)
Theorem model_nodes_exact healthy m :
  from_opt [] (model_nodes healthy !! m) =
  (healthy ≫= λ n, replicate (count_if (String.eqb m) (Models n)) (Name n)).
Proof. apply model_nodes_from. Qed.

Lemma cluster_status_aggregates_witness :
  slot_totals (GetNodes [("n1", example_node)]) = (4, 0) ∧
  "llama3:latest" ∈ model_set (GetHealthyNodes example_manager [("n1", example_node)]
                                 (λ _, 6 * Second)).
Proof.
  destruct (cluster_status_aggregates example_manager [("n1", example_node)]
              [("n1", example_node)] (λ _, 6 * Second)) as [Hsum Hmodels].
  - apply run_wf.
  - unfold map_range. by vm_compute.
  - unfold map_range. by vm_compute.
  - by repeat constructor.
  - by vm_compute.
  - by vm_compute.
  - split; [exact Hsum|]. apply Hmodels. exists example_node. split_and!; try by vm_compute.
    by left.
Defined.
