(* ===== verification/Job.v ===== *)
(** * Jobs ([hive-server-go/queue.go], the data; [helpers.go])

    The record both job queues of the hive server hold, and the small
    helpers.  Jobs are shared by pointer between a queue, its workers and the
    handlers, so they live in a store. *)

From S2P Require Import Prelude GoFloat GoText GoHttp.

Local Open Scope string_scope.
Local Open Scope Z_scope.

Definition JobPending : string := "pending".
Definition JobRunning : string := "running".
Definition JobCompleted : string := "completed".
Definition JobFailed : string := "failed".

Record Job := mk_Job {
  ID : string;
  ClientID : string;
  JobType : string;
  Payload : string;
  PayloadMap : gmap string json;
  Status : string;
  Result : json;  (** [JNull] is [nil] *)
  Error : string;
  CreatedAt : f64;
  StartedAt : option f64;
  CompletedAt : option f64;
  QueuePosition : Z;
  Model : string;
  PromptTokens : Z;
  EvalTokens : Z;
  TotalTokens : Z;
  EvalDuration : f64;
  Priority : Z;
  Deadline : Time;
  RetryCount : Z;
  MaxRetries : Z }.

(** [float64(time.Now().UnixMilli()) / 1000]. *)
Definition UnixMilli (t : Time) : Z := wrap64 (Z.div (t - unix_epoch) Millisecond).
Definition now_f (t : Time) : f64 := f64_div (f64_of_Z (UnixMilli t)) (f64_of_Z 1000).

Definition NewJob (id clientID jobType : string) (payload : gmap string json) (now : Time) : Job :=
  mk_Job id clientID jobType "" payload JobPending JNull "" (now_f now) None None 0 "" 0 0 0
    f64_zero 0 0 0 0.

Definition zero_Job : Job :=
  mk_Job "" "" "" "" ∅ "" JNull "" f64_zero None None 0 "" 0 0 0 f64_zero 0 0 0 0.

(** The writes the sources make to a job. *)
Definition set_Priority (p : Z) (j : Job) : Job :=
  mk_Job (ID j) (ClientID j) (JobType j) (Payload j) (PayloadMap j) (Status j) (Result j)
    (Error j) (CreatedAt j) (StartedAt j) (CompletedAt j) (QueuePosition j) (Model j)
    (PromptTokens j) (EvalTokens j) (TotalTokens j) (EvalDuration j) p (Deadline j)
    (RetryCount j) (MaxRetries j).
Definition set_QueuePosition (q : Z) (j : Job) : Job :=
  mk_Job (ID j) (ClientID j) (JobType j) (Payload j) (PayloadMap j) (Status j) (Result j)
    (Error j) (CreatedAt j) (StartedAt j) (CompletedAt j) q (Model j)
    (PromptTokens j) (EvalTokens j) (TotalTokens j) (EvalDuration j) (Priority j) (Deadline j)
    (RetryCount j) (MaxRetries j).
Definition set_running (started : f64) (j : Job) : Job :=
  mk_Job (ID j) (ClientID j) (JobType j) (Payload j) (PayloadMap j) JobRunning (Result j)
    (Error j) (CreatedAt j) (Some started) (CompletedAt j) (QueuePosition j) (Model j)
    (PromptTokens j) (EvalTokens j) (TotalTokens j) (EvalDuration j) (Priority j) (Deadline j)
    (RetryCount j) (MaxRetries j).
Definition set_completed (finished : f64) (j : Job) : Job :=
  mk_Job (ID j) (ClientID j) (JobType j) (Payload j) (PayloadMap j) (Status j) (Result j)
    (Error j) (CreatedAt j) (StartedAt j) (Some finished) (QueuePosition j) (Model j)
    (PromptTokens j) (EvalTokens j) (TotalTokens j) (EvalDuration j) (Priority j) (Deadline j)
    (RetryCount j) (MaxRetries j).
Definition set_failed (e : string) (j : Job) : Job :=
  mk_Job (ID j) (ClientID j) (JobType j) (Payload j) (PayloadMap j) JobFailed (Result j)
    e (CreatedAt j) (StartedAt j) (CompletedAt j) (QueuePosition j) (Model j)
    (PromptTokens j) (EvalTokens j) (TotalTokens j) (EvalDuration j) (Priority j) (Deadline j)
    (RetryCount j) (MaxRetries j).
Definition set_result (r : json) (j : Job) : Job :=
  mk_Job (ID j) (ClientID j) (JobType j) (Payload j) (PayloadMap j) JobCompleted r
    (Error j) (CreatedAt j) (StartedAt j) (CompletedAt j) (QueuePosition j) (Model j)
    (PromptTokens j) (EvalTokens j) (TotalTokens j) (EvalDuration j) (Priority j) (Deadline j)
    (RetryCount j) (MaxRetries j).
Definition set_metrics (model : string) (prompt eval total : Z) (dur : f64) (j : Job) : Job :=
  mk_Job (ID j) (ClientID j) (JobType j) (Payload j) (PayloadMap j) (Status j) (Result j)
    (Error j) (CreatedAt j) (StartedAt j) (CompletedAt j) (QueuePosition j) model
    prompt eval total dur (Priority j) (Deadline j) (RetryCount j) (MaxRetries j).

(** The store of jobs. *)
Abbreviation jobs := (gmap nat Job) (only parsing).
Definition deref (h : gmap nat Job) (p : nat) : Job := from_opt zero_Job (h !! p).

(** ** Helpers ([helpers.go]) *)

Definition maxInt (a b : Z) : Z := if b <? a then a else b.
Definition minInt (a b : Z) : Z := if a <? b then a else b.
Definition estimateTokensHelper (text : string) : Z :=
  int_quot (Z.of_nat (String.length text)) 4.

(** [time.Duration(estimatedTokens/20) * time.Second] added to a base, capped. *)
Definition deadline_after (baseTimeout : Duration) (estimatedTokens : Z) (maxTimeout : Duration)
    (now : Time) : Time :=
  let tokenTime := int_mul (int_quot estimatedTokens 20) Second in
  let total := int_add baseTimeout tokenTime in
  time_Add now (if maxTimeout <? total then maxTimeout else total).

Definition calculateDeadline (jobType : string) (estimatedTokens : Z) (maxTimeout : Duration)
    (now : Time) : Time :=
  let baseTimeout :=
    if String.eqb jobType "chat_stream" || String.eqb jobType "agent" then 120 * Second
    else if String.eqb jobType "generate" then 60 * Second
    else if String.eqb jobType "embed" then 30 * Second
    else 30 * Second in
  deadline_after baseTimeout estimatedTokens maxTimeout now.

(** ** Lemmas *)

Lemma maxInt_max a b : maxInt a b = Z.max a b.
Proof. unfold maxInt. destruct (Z.ltb_spec b a); lia. Qed.

Lemma minInt_min a b : minInt a b = Z.min a b.
Proof. unfold minInt. destruct (Z.ltb_spec a b); lia. Qed.

(** A deadline never exceeds the maximal timeout, whatever the estimate; for
    an estimate whose time fits 64 bits it is the base plus one second for
    every twenty tokens, capped. *)
Lemma deadline_after_bound base tokens maxT now :
  deadline_after base tokens maxT now <= now + maxT.
Proof.
  unfold deadline_after, time_Add. destruct (Z.ltb_spec maxT (int_add base (int_mul (int_quot tokens 20) Second))); lia.
Qed.

Lemma deadline_after_exact base tokens maxT now :
  0 <= base <= 120 * Second → 0 <= tokens <= 10 ^ 11 →
  deadline_after base tokens maxT now = now + Z.min maxT (base + tokens / 20 * Second).
Proof.
  intros Hb Ht. unfold deadline_after, int_add, int_mul, int_quot, time_Add.
  assert (0 <= tokens / 20 <= 5 * 10 ^ 9) as Hq.
  { split; [apply Z.div_pos; lia|]. apply Z.div_le_upper_bound; lia. }
  rewrite Z.quot_div_nonneg by lia.
  rewrite (wrap64_id (tokens / 20)) by (unfold int64_range, int64_min, int64_max; lia).
  unfold Second in *.
  rewrite (wrap64_id (tokens / 20 * _)) by (unfold int64_range, int64_min, int64_max; lia).
  rewrite wrap64_id by (unfold int64_range, int64_min, int64_max; lia).
  destruct (Z.ltb_spec maxT (base + tokens / 20 * 1000000000)); lia.
Qed.

Lemma deref_alter_ne f (h : gmap nat Job) p q : p ≠ q → deref (alter f p h) q = deref h q.
Proof. intros Hne. unfold deref. by rewrite lookup_alter_ne. Qed.

Lemma deref_alter_eq f (h : gmap nat Job) p :
  is_Some (h !! p) → deref (alter f p h) p = f (deref h p).
Proof. intros [r Hr]. unfold deref. by rewrite lookup_alter_eq, Hr. Qed.

(** A write that keeps a projection keeps it everywhere. *)
Lemma proj_alter {A} (proj : Job → A) f (h : gmap nat Job) p q :
  (∀ j, proj (f j) = proj j) → proj (deref (alter f p h) q) = proj (deref h q).
Proof.
  intros Hf. unfold deref. rewrite lookup_alter. case_decide; [subst|done].
  destruct (h !! q); simpl; [apply Hf|done].
Qed.
