(* ===== verification/PrioQueue.v ===== *)
(** * The multi-tier priority queue ([hive-server-go/priority_queue.go])

    Four deques of job pointers, served by priority unless a job's deadline
    is close.  Every method holds the queue's mutex for its whole body, so a
    method is one atomic step; the mutex itself appears where the code takes
    it twice ([Len] inside [Stats]), and the deque's read lock where the
    deadline scan unlocks and relocks it.  [Dequeue] blocks on a condition
    variable: [sys] models the threads inside it. *)

From S2P Require Import Prelude GoFloat GoText GoHttp Job.

Local Open Scope string_scope.
Local Open Scope Z_scope.

Definition PriorityRealtime : Z := 0.
Definition PriorityHigh : Z := 1.
Definition PriorityNormal : Z := 2.
Definition PriorityLow : Z := 3.

Definition JobPriority_String (p : Z) : string :=
  if p =? PriorityRealtime then "realtime"
  else if p =? PriorityHigh then "high"
  else if p =? PriorityNormal then "normal"
  else if p =? PriorityLow then "low"
  else "unknown".

(** ** Deques *)

Definition pushBack (p : nat) (d : list nat) : list nat := (d ++ [p])%list.
Definition pushFront (p : nat) (d : list nat) : list nat := p :: d.
Definition popFront (d : list nat) : option nat * list nat :=
  match d with [] => (None, []) | p :: d => (Some p, d) end.
Definition peekFront (d : list nat) : option nat := head d.

(** [remove]: the first item with the id goes. *)
Definition remove (h : gmap nat Job) (jobID : string) (d : list nat) : option (list nat) :=
  match find_first (λ p, String.eqb (ID (Job.deref h p)) jobID) d with
  | Some (i, _) => Some (go_remove_at i d)
  | None => None
  end.

(** ** The queue *)

(** [queues] has four elements, indexed by priority. *)
Record PriorityQueue := mk_PQ {
  queues : list (list nat);
  closed : bool;
  enqueued : Z;
  dequeued : Z;
  dropped : Z }.

Definition NewPriorityQueue : PriorityQueue := mk_PQ [[]; []; []; []] false 0 0 0.

Definition get_queue (pq : PriorityQueue) (p : Z) : list nat :=
  from_opt [] (queues pq !! Z.to_nat p).
Definition set_queues (qs : list (list nat)) (pq : PriorityQueue) : PriorityQueue :=
  mk_PQ qs (closed pq) (enqueued pq) (dequeued pq) (dropped pq).
Definition count_enqueued (pq : PriorityQueue) : PriorityQueue :=
  mk_PQ (queues pq) (closed pq) (int_incr (enqueued pq)) (dequeued pq) (dropped pq).
Definition count_dequeued (pq : PriorityQueue) : PriorityQueue :=
  mk_PQ (queues pq) (closed pq) (enqueued pq) (int_incr (dequeued pq)) (dropped pq).

(** [Enqueue]: the priority a job out of range gets is written into it. *)
Definition clamp_priority (j : Job) : Job :=
  if (Priority j <? PriorityRealtime) || (PriorityLow <? Priority j)
  then set_Priority PriorityNormal j else j.

Definition Enqueue (h : gmap nat Job) (pq : PriorityQueue) (job : nat)
    : bool * gmap nat Job * PriorityQueue :=
  if closed pq then (false, h, pq)
  else
    let h := alter clamp_priority job h in
    let p := Priority (Job.deref h job) in
    (true, h,
     count_enqueued (set_queues (alter (pushBack job) (Z.to_nat p) (queues pq)) pq)).

(** The deadline scan.  A clock reading [rd] is taken at every job with a
    deadline.  [held] is the read lock of the deque being scanned: unlocking
    it twice is a fatal error ([LockFault]). *)
Inductive scan_result :=
  | Found (job : nat) (d : list nat)
  | NotFound
  | LockFault.

Definition urgencyThreshold : Duration := 5 * Second.

Fixpoint scan (h : gmap nat Job) (rd : nat → Time) (held : bool) (items d : list nat)
    : scan_result :=
  match items with
  | [] => if held then NotFound else LockFault
  | p :: items =>
      let job := Job.deref h p in
      if negb (IsZero (Deadline job)) then
        let timeUntilDeadline := time_Until (Deadline job) (rd p) in
        if (timeUntilDeadline <=? urgencyThreshold) && (0 <? timeUntilDeadline) then
          if negb held then LockFault
          else match remove h (ID job) d with
               | Some d => Found p d
               | None => scan h rd false items d
               end
        else if timeUntilDeadline <=? 0 then
          if negb held then LockFault
          else match remove h (ID job) d with
               | Some d => Found p d
               | None => scan h rd false items d
               end
        else scan h rd held items d
      else scan h rd held items d
  end.

(** [findUrgentDeadlineJob] over the deques from the first priority on; the
    outer option is the fatal error. *)
Fixpoint find_urgent (h : gmap nat Job) (rd : nat → Time) (qs : list (list nat))
    : panics (option (nat * list (list nat))) :=
  match qs with
  | [] => Some None
  | d :: qs =>
      match scan h rd true d d with
      | LockFault => None
      | Found p d => Some (Some (p, d :: qs))
      | NotFound =>
          r ← find_urgent h rd qs;
          Some (match r with Some (p, qs) => Some (p, d :: qs) | None => None end)
      end
  end.

(** The loop over the priorities. *)
Fixpoint pop_by_priority (qs : list (list nat)) : option (nat * list (list nat)) :=
  match qs with
  | [] => None
  | d :: qs =>
      match popFront d with
      | (Some p, d) => Some (p, d :: qs)
      | (None, _) =>
          match pop_by_priority qs with Some (p, qs) => Some (p, d :: qs) | None => None end
      end
  end.

(** One round of the loop of [Dequeue]: the job it returns, or [None] when
    it goes on to wait. *)
Definition try_dequeue (h : gmap nat Job) (rd : nat → Time) (pq : PriorityQueue)
    : panics (option nat * PriorityQueue) :=
  u ← find_urgent h rd (queues pq);
  Some match u with
  | Some (p, qs) => (Some p, count_dequeued (set_queues qs pq))
  | None =>
      match pop_by_priority (queues pq) with
      | Some (p, qs) => (Some p, count_dequeued (set_queues qs pq))
      | None => (None, pq)
      end
  end.

Fixpoint peek_by_priority (qs : list (list nat)) : option nat :=
  match qs with
  | [] => None
  | d :: qs => match peekFront d with Some p => Some p | None => peek_by_priority qs end
  end.

Definition Peek (h : gmap nat Job) (rd : nat → Time) (pq : PriorityQueue)
    : panics (option nat * PriorityQueue) :=
  u ← find_urgent h rd (queues pq);
  Some match u with
  | Some (p, qs) => (Some p, set_queues qs pq)
  | None => (peek_by_priority (queues pq), pq)
  end.

(** The mutex: a method that finds it held by its own caller never returns
    ([None]). *)
Definition with_lock {A} (held : bool) (body : option A) : option A :=
  if held then None else body.

Definition total_len (pq : PriorityQueue) : Z :=
  foldl (λ total d, int_add total (go_len d)) 0 (queues pq).

Definition Len (held : bool) (pq : PriorityQueue) : option Z :=
  with_lock held (Some (total_len pq)).

Definition LenByPriority (pq : PriorityQueue) (priority : Z) : Z :=
  if (priority <? PriorityRealtime) || (PriorityLow <? priority) then 0
  else go_len (get_queue pq priority).

Fixpoint cancel_in (h : gmap nat Job) (jobID : string) (qs : list (list nat))
    : option (list (list nat)) :=
  match qs with
  | [] => None
  | d :: qs =>
      match remove h jobID d with
      | Some d => Some (d :: qs)
      | None => match cancel_in h jobID qs with Some qs => Some (d :: qs) | None => None end
      end
  end.

Definition Cancel (h : gmap nat Job) (pq : PriorityQueue) (jobID : string)
    : bool * PriorityQueue :=
  match cancel_in h jobID (queues pq) with
  | Some qs => (true, set_queues qs pq)
  | None => (false, pq)
  end.

Definition Close (pq : PriorityQueue) : PriorityQueue :=
  mk_PQ (queues pq) true (enqueued pq) (dequeued pq) (dropped pq).

(** [Stats] calls [Len] with the mutex held. *)
Definition Stats (held : bool) (pq : PriorityQueue) : option (gmap string json) :=
  with_lock held
    (total ← Len true pq;
     Some (jmap [
       ("total", JInt total);
       ("realtime", JInt (go_len (get_queue pq PriorityRealtime)));
       ("high", JInt (go_len (get_queue pq PriorityHigh)));
       ("normal", JInt (go_len (get_queue pq PriorityNormal)));
       ("low", JInt (go_len (get_queue pq PriorityLow)));
       ("enqueued", JInt (enqueued pq)); ("dequeued", JInt (dequeued pq));
       ("dropped", JInt (dropped pq))])).

Record QueueStats := mk_QueueStats {
  RealtimeDepth : Z; HighDepth : Z; NormalDepth : Z; LowDepth : Z;
  TotalEnqueued : Z; TotalDequeued : Z; TotalDropped : Z }.

Definition GetStats (held : bool) (pq : PriorityQueue) : option QueueStats :=
  with_lock held
    (Some (mk_QueueStats (go_len (get_queue pq PriorityRealtime))
       (go_len (get_queue pq PriorityHigh)) (go_len (get_queue pq PriorityNormal))
       (go_len (get_queue pq PriorityLow)) (enqueued pq) (dequeued pq) (dropped pq))).

(** ** Classification of jobs *)

Definition one_of (s : string) (l : list string) : bool := existsb (String.eqb s) l.

Definition DetermineJobPriority (jobType : string) (stream hasInteractiveClient : bool) : Z :=
  if stream && hasInteractiveClient then PriorityRealtime
  else if one_of jobType ["chat"; "chat_stream"] then
    if stream then PriorityRealtime else PriorityHigh
  else if one_of jobType ["coding_agent_chat"; "agent_message"] then PriorityHigh
  else if one_of jobType ["generate"; "generate_stream"] then
    if stream then PriorityRealtime else PriorityNormal
  else if one_of jobType ["embed"; "get_embedding"] then PriorityNormal
  else if one_of jobType ["list_models"; "pull_model"] then PriorityLow
  else PriorityNormal.

Definition CalculateDeadline (jobType : string) (estimatedTokens : Z) (maxTimeout : Duration)
    (now : Time) : Time :=
  let baseTimeout :=
    if one_of jobType ["chat"; "chat_stream"] then 60 * Second
    else if String.eqb jobType "coding_agent_chat" then 120 * Second
    else if String.eqb jobType "generate" then 90 * Second
    else if String.eqb jobType "embed" then 30 * Second
    else 60 * Second in
  deadline_after baseTimeout estimatedTokens maxTimeout now.

(** ** The threads inside [Dequeue]

    A thread that finds nothing sleeps on the condition variable
    ([waiting]); a signal moves one sleeper, a broadcast all of them, to
    [ready], and a ready thread takes the mutex again, returns [nil] when the
    queue is closed and otherwise goes round the loop.  Jobs are enqueued with
    ids no queued job has. *)

Record sys := mk_sys {
  pq : PriorityQueue;
  heap : gmap nat Job;
  waiting : gset nat;
  ready : gset nat;
  returned : list (nat * option nat) }.

(** [cond.Signal]: some sleeper, if there is one. *)
Inductive signal : gset nat → gset nat → gset nat → gset nat → Prop :=
  | signal_none r : signal ∅ r ∅ r
  | signal_one w r t : t ∈ w → signal w r (w ∖ {[t]}) ({[t]} ∪ r).

(** A round of the loop by thread [t], which holds the mutex. *)
Definition round (t : nat) (rd : nat → Time) (S : sys) : panics sys :=
  '(o, q) ← try_dequeue (heap S) rd (pq S);
  Some match o with
  | Some p => mk_sys q (heap S) (waiting S) (ready S) (returned S ++ [(t, Some p)])
  | None => mk_sys q (heap S) ({[t]} ∪ waiting S) (ready S) (returned S)
  end.

(** [OpEnqueue] carries the job when it is accepted. *)
Inductive op :=
  | OpEnqueue (accepted : option nat)
  | OpEnter (t : nat)
  | OpWake (t : nat)
  | OpClose
  | OpCancel
  | OpPeek.

Inductive step : op → sys → sys → Prop :=
  | step_enqueue S job h q w r :
      is_Some (heap S !! job) →
      ID (Job.deref (heap S) job) ∉ (λ p, ID (Job.deref (heap S) p)) <$> concat (queues (pq S)) →
      Enqueue (heap S) (pq S) job = (true, h, q) →
      signal (waiting S) (ready S) w r →
      step (OpEnqueue (Some job)) S (mk_sys q h w r (returned S))
  | step_enqueue_closed S job h q :
      Enqueue (heap S) (pq S) job = (false, h, q) →
      step (OpEnqueue None) S (mk_sys q h (waiting S) (ready S) (returned S))
  | step_enter S t rd S' :
      t ∉ waiting S → t ∉ ready S → round t rd S = Some S' → step (OpEnter t) S S'
  | step_wake_closed S t :
      t ∈ ready S → closed (pq S) = true →
      step (OpWake t) S
        (mk_sys (pq S) (heap S) (waiting S) (ready S ∖ {[t]}) (returned S ++ [(t, None)]))
  | step_wake S t rd S' :
      t ∈ ready S → closed (pq S) = false →
      round t rd (mk_sys (pq S) (heap S) (waiting S) (ready S ∖ {[t]}) (returned S)) = Some S' →
      step (OpWake t) S S'
  | step_close S :
      step OpClose S
        (mk_sys (Close (pq S)) (heap S) ∅ (waiting S ∪ ready S) (returned S))
  | step_cancel S jobID b q :
      Cancel (heap S) (pq S) jobID = (b, q) →
      step OpCancel S (mk_sys q (heap S) (waiting S) (ready S) (returned S))
  | step_peek S rd o q :
      Peek (heap S) rd (pq S) = Some (o, q) →
      step OpPeek S (mk_sys q (heap S) (waiting S) (ready S) (returned S)).

Inductive steps : list op → sys → sys → Prop :=
  | steps_nil S : steps [] S S
  | steps_cons o os S1 S2 S3 : step o S1 S2 → steps os S2 S3 → steps (o :: os) S1 S3.

(** ** Specification

    One list holds all the jobs, higher priority first and older first within
    a priority. *)
Definition flat (pq : PriorityQueue) : list nat := concat (queues pq).

(** A deadline is set and at most five seconds away, or past. *)
Definition urgent (h : gmap nat Job) (rd : nat → Time) (p : nat) : bool :=
  negb (IsZero (Deadline (Job.deref h p))) &&
  (time_Until (Deadline (Job.deref h p)) (rd p) <=? urgencyThreshold).

(** What a dequeue takes: the first urgent job, or else the first job. *)
Definition take_spec (h : gmap nat Job) (rd : nat → Time) (l : list nat)
    : option (nat * list nat) :=
  match find_first (urgent h rd) l with
  | Some (i, p) => Some (p, go_remove_at i l)
  | None => match l with [] => None | p :: l => Some (p, l) end
  end.

(** Jobs in the queue have distinct ids. *)
Definition ids_unique (h : gmap nat Job) (l : list nat) : Prop :=
  NoDup ((λ p, ID (Job.deref h p)) <$> l).

(** Jobs sit in the deque of their priority. *)
Definition in_place (h : gmap nat Job) (qs : list (list nat)) : Prop :=
  ∀ k d p, qs !! k = Some d → p ∈ d → Priority (Job.deref h p) = Z.of_nat k.

(** The part of the invariant that is about the jobs. *)
Definition store_inv (h : gmap nat Job) (q : PriorityQueue) : Prop :=
  length (queues q) = 4%nat ∧ ids_unique h (flat q) ∧ in_place h (queues q) ∧
  (∀ p, p ∈ flat q → is_Some (h !! p)).

(** Deques that only lose items keep it. *)
Definition sub_queues (qs' qs : list (list nat)) : Prop := Forall2 (λ d' d, ∀ p, p ∈ d' → p ∈ d) qs' qs.

(** The invariant of the threads: a job that is queued while a thread sleeps
    has a woken thread coming for it. *)
Record inv (S : sys) : Prop := mk_inv {
  inv_len : length (queues (pq S)) = 4%nat;
  inv_ids : ids_unique (heap S) (flat (pq S));
  inv_place : in_place (heap S) (queues (pq S));
  inv_alloc : ∀ p, p ∈ flat (pq S) → is_Some (heap S !! p);
  inv_wake : waiting S = ∅ ∨ (length (flat (pq S)) ≤ size (ready S))%nat;
  inv_closed : closed (pq S) = true → waiting S = ∅ ∨ flat (pq S) = [];
  inv_disj : waiting S ## ready S }.

Definition initial (S : sys) : Prop :=
  pq S = NewPriorityQueue ∧ waiting S = ∅ ∧ ready S = ∅ ∧ returned S = [].

(** Jobs accepted and jobs delivered. *)
Definition accepted (os : list op) : list nat :=
  omap (λ o, match o with OpEnqueue a => a | _ => None end) os.
Definition delivered (S : sys) : list nat := omap snd (returned S).

(** ** Lemmas *)

Lemma remove_elem h d p :
  p ∈ d → is_Some (remove h (ID (Job.deref h p)) d).
Proof.
  intros Hp. unfold remove. destruct (find_first _ d) as [[i q]|] eqn:Hf; [by eexists|].
  apply find_first_None in Hf. rewrite Forall_forall in Hf. specialize (Hf p Hp).
  by rewrite String.eqb_refl in Hf.
Qed.

(** With distinct ids, removing by id removes the pointer itself. *)
Lemma remove_unique h d i p :
  ids_unique h d → d !! i = Some p →
  remove h (ID (Job.deref h p)) d = Some (go_remove_at i d).
Proof.
  intros Hu Hp. unfold remove.
  destruct (find_first _ d) as [[j q]|] eqn:Hf.
  - apply find_first_lookup in Hf as [Hq Hid]. apply String.eqb_eq in Hid.
    assert (j = i) as ->; [|done]. unfold ids_unique in Hu.
    eapply NoDup_lookup; [exact Hu|..]; rewrite list_lookup_fmap; [by rewrite Hq|].
    rewrite Hp. simpl. by rewrite Hid.
  - apply find_first_None in Hf. rewrite Forall_forall in Hf.
    specialize (Hf p (list_elem_of_lookup_2 _ _ _ Hp)). by rewrite String.eqb_refl in Hf.
Qed.

Lemma ids_unique_app h l k : ids_unique h (l ++ k) → ids_unique h l ∧ ids_unique h k.
Proof. unfold ids_unique. rewrite fmap_app, NoDup_app. tauto. Qed.

(** The two branches of the scan test the two sides of zero. *)
Lemma scan_cons h rd held p items d :
  scan h rd held (p :: items) d =
  if urgent h rd p then
    if negb held then LockFault
    else match remove h (ID (Job.deref h p)) d with
         | Some d => Found p d
         | None => scan h rd false items d
         end
  else scan h rd held items d.
Proof.
  cbn [scan]. unfold urgent. destruct (IsZero _); [done|]. simpl.
  set (dt := time_Until _ _).
  destruct (Z.leb_spec dt urgencyThreshold), (Z.ltb_spec 0 dt), (Z.leb_spec dt 0);
    simpl; try done; unfold urgencyThreshold, Second in *; lia.
Qed.

(** The read lock is never released twice. *)
Lemma scan_no_fault h rd items d :
  (∀ p, p ∈ items → p ∈ d) → scan h rd true items d ≠ LockFault.
Proof.
  intros Hsub. induction items as [|p items IH]; [done|]. rewrite scan_cons.
  destruct (urgent h rd p).
  - simpl. destruct (remove_elem h d p) as [d' ->]; [|done]. apply Hsub. by left.
  - apply IH. intros q Hq. apply Hsub. by right.
Qed.

Lemma scan_spec h rd pre items :
  ids_unique h (pre ++ items) →
  scan h rd true items (pre ++ items) =
  match find_first (urgent h rd) items with
  | Some (i, p) => Found p (pre ++ go_remove_at i items)
  | None => NotFound
  end.
Proof.
  revert pre. induction items as [|p items IH]; intros pre Hu; [done|].
  rewrite scan_cons. cbn [find_first]. destruct (urgent h rd p) eqn:Hp.
  - simpl. rewrite (remove_unique h _ (length pre) p Hu) by (by rewrite list_lookup_middle).
    rewrite <-(Nat.add_0_r (length pre)). by rewrite go_remove_at_app.
  - rewrite (cons_middle p pre items), app_assoc in *. rewrite IH by done.
    destruct (find_first (urgent h rd) items) as [[i q]|]; [|done].
    by rewrite <-app_assoc.
Qed.

Lemma find_urgent_spec h rd qs :
  ids_unique h (concat qs) →
  match find_first (urgent h rd) (concat qs) with
  | Some (i, p) => ∃ qs', find_urgent h rd qs = Some (Some (p, qs')) ∧
      concat qs' = go_remove_at i (concat qs) ∧ length qs' = length qs
  | None => find_urgent h rd qs = Some None
  end.
Proof.
  induction qs as [|d qs IH]; intros Hu; simpl in *; [done|].
  apply ids_unique_app in Hu as [Hd Hqs]. specialize (IH Hqs).
  pose proof (scan_spec h rd [] d Hd) as Hs. simpl in Hs. rewrite Hs, find_first_app.
  destruct (find_first (urgent h rd) d) as [[i p]|] eqn:Hf.
  - exists (go_remove_at i d :: qs). split_and!; [done| |done]. simpl.
    apply find_first_lookup in Hf as [Hl%lookup_lt_Some _]. by rewrite go_remove_at_app_l.
  - destruct (find_first (urgent h rd) (concat qs)) as [[i p]|].
    + destruct IH as (qs' & -> & Hc & Hlen). simpl. exists (d :: qs'). simpl.
      by rewrite Hc, go_remove_at_app, Hlen.
    + by rewrite IH.
Qed.

Lemma find_urgent_total h rd qs : is_Some (find_urgent h rd qs).
Proof.
  induction qs as [|d qs [r IH]]; simpl; [by eexists|].
  destruct (scan h rd true d d) eqn:Hs; [by eexists| |].
  - rewrite IH. by eexists.
  - by destruct (scan_no_fault h rd d d (λ _ H, H)).
Qed.

Lemma pop_by_priority_spec qs :
  match concat qs with
  | [] => pop_by_priority qs = None
  | p :: l => ∃ qs', pop_by_priority qs = Some (p, qs') ∧ concat qs' = l ∧ length qs' = length qs
  end.
Proof.
  induction qs as [|[|p d] qs IH]; simpl; [done| |by eexists].
  destruct (concat qs) as [|p l]; [by rewrite IH|].
  destruct IH as (qs' & -> & Hc & Hlen). exists ([] :: qs'). simpl. by rewrite Hlen.
Qed.

Lemma try_dequeue_spec h rd q :
  ids_unique h (flat q) →
  ∃ q', try_dequeue h rd q = Some (fst <$> take_spec h rd (flat q), q') ∧
    flat q' = match take_spec h rd (flat q) with Some (_, l) => l | None => flat q end ∧
    closed q' = closed q ∧ length (queues q') = length (queues q) ∧
    enqueued q' = enqueued q ∧
    dequeued q' = match take_spec h rd (flat q) with
                  | Some _ => int_incr (dequeued q) | None => dequeued q end.
Proof.
  intros Hu. unfold try_dequeue, take_spec. unfold flat in *.
  pose proof (find_urgent_spec h rd (queues q) Hu) as Hurg.
  destruct (find_first (urgent h rd) (concat (queues q))) as [[i p]|].
  - destruct Hurg as (qs' & -> & Hc & Hlen). simpl. by eexists.
  - rewrite Hurg. simpl. pose proof (pop_by_priority_spec (queues q)) as Hpop.
    destruct (concat (queues q)) as [|p l] eqn:Hcc.
    + rewrite Hpop. eexists. by split_and!.
    + destruct Hpop as (qs' & -> & Hc & Hlen). by eexists.
Qed.

Lemma concat_alter_pushBack job i (qs : list (list nat)) :
  (i < length qs)%nat →
  concat (alter (pushBack job) i qs) =
  (concat (take (S i) qs) ++ job :: concat (drop (S i) qs))%list.
Proof.
  revert i. induction qs as [|d qs IH]; intros i Hi; simpl in *; [lia|].
  destruct i as [|i]; simpl.
  - unfold pushBack. rewrite drop_0, app_nil_r. by rewrite <-app_assoc.
  - rewrite <-app_assoc. f_equal. apply IH. lia.
Qed.

Lemma clamp_priority_range j : 0 <= Priority (clamp_priority j) <= 3.
Proof.
  unfold clamp_priority. destruct (_ || _) eqn:Ho; simpl; [unfold PriorityNormal; lia|].
  zbool. unfold PriorityRealtime, PriorityLow in *. lia.
Qed.

Lemma clamp_priority_ID j : ID (clamp_priority j) = ID j.
Proof. unfold clamp_priority. by destruct (_ || _). Qed.

Lemma Enqueue_flat h q job :
  closed q = false → length (queues q) = 4%nat → is_Some (h !! job) →
  let p := Z.to_nat (Priority (clamp_priority (Job.deref h job))) in
  ∃ q', Enqueue h q job = (true, alter clamp_priority job h, q') ∧
    flat q' = (concat (take (S p) (queues q)) ++ job :: concat (drop (S p) (queues q)))%list ∧
    closed q' = false ∧ length (queues q') = 4%nat ∧ enqueued q' = int_incr (enqueued q) ∧
    dequeued q' = dequeued q.
Proof.
  intros Hc Hlen Hj p. unfold Enqueue. rewrite Hc, Job.deref_alter_eq by done.
  eexists. split; [done|]. unfold flat. simpl.
  pose proof (clamp_priority_range (Job.deref h job)).
  rewrite concat_alter_pushBack by (rewrite Hlen; lia). split_and!; try done.
  by rewrite length_alter.
Qed.

Lemma cancel_in_spec h i qs :
  match cancel_in h i qs with
  | Some qs' => ∃ n p, concat qs !! n = Some p ∧ ID (Job.deref h p) = i ∧
      concat qs' = go_remove_at n (concat qs) ∧ length qs' = length qs
  | None => ∀ p, p ∈ concat qs → ID (Job.deref h p) ≠ i
  end.
Proof.
  induction qs as [|d qs IH]; simpl; [by intros p ?%not_elem_of_nil|].
  unfold remove. destruct (find_first _ d) as [[n p]|] eqn:Hf.
  - apply find_first_lookup in Hf as [Hl Hid]. apply String.eqb_eq in Hid.
    exists n, p. pose proof (lookup_lt_Some _ _ _ Hl).
    rewrite lookup_app_l, go_remove_at_app_l by done. done.
  - destruct (cancel_in h i qs) as [qs'|].
    + destruct IH as (n & p & Hl & Hid & Hc & Hlen). exists (length d + n)%nat, p.
      rewrite lookup_app_r, go_remove_at_app by lia.
      replace (length d + n - length d)%nat with n by lia. simpl. by rewrite Hc, Hlen.
    + intros p [Hp|Hp]%elem_of_app; [|by apply IH].
      apply find_first_None in Hf. rewrite Forall_forall in Hf. specialize (Hf p Hp).
      by apply String.eqb_neq in Hf.
Qed.

Lemma Cancel_length h q i b q' :
  Cancel h q i = (b, q') → (length (flat q') ≤ length (flat q))%nat ∧ closed q' = closed q.
Proof.
  unfold Cancel, flat. pose proof (cancel_in_spec h i (queues q)) as Hs.
  destruct (cancel_in h i (queues q)) as [qs|]; intros; simplify_eq/=; [|done].
  destruct Hs as (n & p & Hl & _ & -> & _). split; [|done].
  rewrite (go_remove_at_perm _ _ _ Hl) at 2. simpl. lia.
Qed.

Lemma take_spec_perm h rd l p k : take_spec h rd l = Some (p, k) → l ≡ₚ p :: k.
Proof.
  unfold take_spec. destruct (find_first _ l) as [[i q]|] eqn:Hf.
  - intros [= <- <-]. apply find_first_lookup in Hf as [Hl _]. by apply go_remove_at_perm.
  - destruct l; [done|]. by intros [= <- <-].
Qed.

Lemma take_spec_None h rd l : take_spec h rd l = None → l = [].
Proof. unfold take_spec. destruct (find_first _ l) as [[]|]; [done|]. by destruct l. Qed.

Lemma ids_unique_perm h l k : l ≡ₚ k → ids_unique h l → ids_unique h k.
Proof. unfold ids_unique. by intros ->. Qed.

Lemma ids_unique_ext h h' l :
  (∀ p, ID (Job.deref h' p) = ID (Job.deref h p)) → ids_unique h l → ids_unique h' l.
Proof.
  intros He Hu. unfold ids_unique in *.
  rewrite (list_fmap_ext _ (λ p, ID (Job.deref h p)) l); [done|]. intros. apply He.
Qed.

Lemma sub_queues_refl qs : sub_queues qs qs.
Proof. apply Forall2_same_length_lookup. split; [done|]. intros; simplify_eq; auto. Qed.

Lemma in_place_sub h qs' qs : sub_queues qs' qs → in_place h qs → in_place h qs'.
Proof.
  intros Hs Hp k d p Hd Hin.
  destruct (Forall2_lookup_l _ _ _ _ _ Hs Hd) as (d0 & Hd0 & Hsub). eauto.
Qed.

Lemma go_remove_at_subset {A} (l : list A) i x : x ∈ go_remove_at i l → x ∈ l.
Proof.
  unfold go_remove_at. intros [Hx|Hx]%elem_of_app.
  - rewrite <-(take_drop i l). apply elem_of_app. by left.
  - rewrite <-(take_drop (S i) l). apply elem_of_app. by right.
Qed.

Lemma remove_subset h i d d' p : remove h i d = Some d' → p ∈ d' → p ∈ d.
Proof.
  unfold remove. destruct (find_first _ d) as [[n q]|]; [|done]. intros [= <-].
  apply go_remove_at_subset.
Qed.

Lemma scan_subset h rd held items d p d' q :
  scan h rd held items d = Found p d' → q ∈ d' → q ∈ d.
Proof.
  revert held. induction items as [|x items IH]; intros held; [by destruct held|].
  rewrite scan_cons. destruct (urgent h rd x); [|apply IH]. destruct held; [|done]. simpl.
  destruct (remove h _ d) as [d0|] eqn:Hr; [|apply IH]. intros [= <- <-]. by eapply remove_subset.
Qed.

Lemma find_urgent_sub h rd qs p qs' :
  find_urgent h rd qs = Some (Some (p, qs')) → sub_queues qs' qs.
Proof.
  revert qs'. induction qs as [|d qs IH]; intros qs'; simpl; [done|].
  destruct (scan h rd true d d) as [q d'| |] eqn:Hs; [| |done].
  - intros [= <- <-]. constructor; [intros x; by eapply scan_subset|apply sub_queues_refl].
  - destruct (find_urgent h rd qs) as [[[q qs0]|]|]; simpl; [|done..].
    intros [= <- <-]. constructor; [auto|]. by apply IH.
Qed.

Lemma pop_by_priority_sub qs p qs' : pop_by_priority qs = Some (p, qs') → sub_queues qs' qs.
Proof.
  revert qs'. induction qs as [|[|x d] qs IH]; intros qs'; simpl; [done| |].
  - destruct (pop_by_priority qs) as [[q qs0]|]; [|done]. intros [= <- <-].
    constructor; [auto|]. by apply IH.
  - intros [= <- <-]. constructor; [|apply sub_queues_refl]. intros y Hy. by right.
Qed.

Lemma cancel_in_sub h i qs qs' : cancel_in h i qs = Some qs' → sub_queues qs' qs.
Proof.
  revert qs'. induction qs as [|d qs IH]; intros qs'; simpl; [done|].
  destruct (remove h i d) as [d'|] eqn:Hr.
  - intros [= <-]. constructor; [intros x; by eapply remove_subset|apply sub_queues_refl].
  - destruct (cancel_in h i qs) as [qs0|]; [|done]. intros [= <-].
    constructor; [auto|]. by apply IH.
Qed.

Lemma try_dequeue_sub h rd q o q' :
  try_dequeue h rd q = Some (o, q') → sub_queues (queues q') (queues q).
Proof.
  unfold try_dequeue. destruct (find_urgent h rd (queues q)) as [[[p qs]|]|] eqn:Hf; simpl; [| |done].
  - intros [= <- <-]. by eapply find_urgent_sub.
  - destruct (pop_by_priority (queues q)) as [[p qs]|] eqn:Hp; intros [= <- <-]; simpl.
    + by eapply pop_by_priority_sub.
    + apply sub_queues_refl.
Qed.

(** A queue whose flat list shrank by removal keeps the store invariants. *)
Lemma store_inv_shrink h (q q' : PriorityQueue) l :
  flat q ≡ₚ l ++ flat q' → sub_queues (queues q') (queues q) →
  length (queues q') = length (queues q) →
  length (queues q) = 4%nat ∧ ids_unique h (flat q) ∧ in_place h (queues q) ∧
    (∀ p, p ∈ flat q → is_Some (h !! p)) →
  length (queues q') = 4%nat ∧ ids_unique h (flat q') ∧ in_place h (queues q') ∧
    (∀ p, p ∈ flat q' → is_Some (h !! p)).
Proof.
  intros Hperm Hsub Hlen (H4 & Hids & Hpl & Hal). split_and!.
  - by rewrite Hlen.
  - apply (ids_unique_perm _ _ _ Hperm) in Hids. by apply ids_unique_app in Hids as [_ ?].
  - by eapply in_place_sub.
  - intros p Hp. apply Hal. rewrite Hperm. by apply elem_of_app; right.
Qed.

Lemma size_ready_minus (r : gset nat) t : t ∈ r → size r = S (size (r ∖ {[t]})).
Proof.
  intros Ht. assert ({[t]} ⊆ r) as Hsub by set_solver.
  rewrite size_difference, size_singleton by done.
  apply subseteq_size in Hsub. rewrite size_singleton in Hsub. lia.
Qed.

Lemma size_ready_plus (r : gset nat) t : t ∉ r → size ({[t]} ∪ r) = S (size r).
Proof. intros Ht. by rewrite size_union, size_singleton by set_solver. Qed.

Lemma inv_store S : inv S → store_inv (heap S) (pq S).
Proof. by intros []. Qed.

Lemma Enqueue_store h q job h' q' :
  store_inv h q → is_Some (h !! job) →
  ID (Job.deref h job) ∉ (λ p, ID (Job.deref h p)) <$> flat q →
  Enqueue h q job = (true, h', q') →
  store_inv h' q' ∧ flat q' ≡ₚ job :: flat q ∧ closed q = false ∧ closed q' = false.
Proof.
  intros (H4 & Hids & Hpl & Hal) Hj Hfresh He.
  destruct (closed q) eqn:Hc; [unfold Enqueue in He; by rewrite Hc in He|].
  destruct (Enqueue_flat h q job Hc H4 Hj) as (q0 & He' & Hflat & Hc' & Hlen & _).
  rewrite He in He'. injection He' as -> <-.
  assert (flat q' ≡ₚ job :: flat q) as Hperm.
  { rewrite Hflat, <-Permutation_middle. constructor. rewrite <-concat_app.
    by rewrite take_drop. }
  assert (∀ p, ID (Job.deref (alter clamp_priority job h) p) = ID (Job.deref h p)) as HID.
  { intros p. apply Job.proj_alter, clamp_priority_ID. }
  assert (job ∉ flat q) as Hnotin.
  { intros Hin. apply Hfresh. apply list_elem_of_fmap. eauto. }
  split; [split; [done|split_and!]|done].
  - apply (ids_unique_ext h); [done|]. eapply ids_unique_perm; [symmetry; exact Hperm|].
    unfold ids_unique. rewrite fmap_cons. by constructor.
  - intros k d p Hk Hp. unfold Enqueue in He. rewrite Hc, Job.deref_alter_eq in He by done.
    injection He as <-. simpl in Hk.
    assert (∀ x, x ≠ job → Job.deref (alter clamp_priority job h) x = Job.deref h x) as Hold
      by (intros; by apply Job.deref_alter_ne).
    rewrite list_lookup_alter in Hk. case_decide as Hkk.
    + subst k. apply fmap_Some in Hk as (d0 & Hd0 & ->). unfold pushBack in Hp.
      apply elem_of_app in Hp as [Hp| ->%list_elem_of_singleton].
      * rewrite Hold; [exact (Hpl _ _ _ Hd0 Hp)|]. intros ->. apply Hnotin.
        apply elem_of_concat. exists d0. split; [done|]. by eapply list_elem_of_lookup_2.
      * rewrite Job.deref_alter_eq by done.
        pose proof (clamp_priority_range (Job.deref h job)). lia.
    + rewrite Hold; [exact (Hpl _ _ _ Hk Hp)|]. intros ->. apply Hnotin.
      apply elem_of_concat. exists d. split; [done|]. by eapply list_elem_of_lookup_2.
  - intros p Hp. rewrite lookup_alter_is_Some. rewrite Hperm in Hp.
    apply elem_of_cons in Hp as [->|Hp]; [done|by apply Hal].
Qed.

Lemma try_dequeue_store h q rd o q' :
  store_inv h q → try_dequeue h rd q = Some (o, q') →
  store_inv h q' ∧ closed q' = closed q ∧
  match o with
  | Some p => flat q ≡ₚ p :: flat q'
  | None => flat q = [] ∧ flat q' = []
  end.
Proof.
  intros Hst Hd. pose proof Hst as (_ & Hids & _).
  destruct (try_dequeue_spec h rd q Hids) as (q0 & Hd' & Hflat & Hc & Hlen & _).
  rewrite Hd in Hd'. injection Hd' as -> <-.
  destruct (take_spec h rd (flat q)) as [[p l]|] eqn:Ht; simpl.
  - apply take_spec_perm in Ht. rewrite Hflat. split_and!; [|done|done].
    apply (store_inv_shrink h q q' [p]); [by rewrite Hflat|by eapply try_dequeue_sub|done|done].
  - apply take_spec_None in Ht. rewrite Hflat, Ht. split_and!; try done.
    apply (store_inv_shrink h q q' []); [by rewrite Hflat, Ht|by eapply try_dequeue_sub|done|done].
Qed.

Lemma Cancel_store h q i b q' :
  store_inv h q → Cancel h q i = (b, q') →
  store_inv h q' ∧ closed q' = closed q ∧ (length (flat q') ≤ length (flat q))%nat.
Proof.
  intros Hst Hc. destruct (Cancel_length _ _ _ _ _ Hc) as [Hlen Hcl]. split_and!; [|done..].
  unfold Cancel in Hc. pose proof (cancel_in_spec h i (queues q)) as Hs.
  destruct (cancel_in h i (queues q)) as [qs|] eqn:Hcc; simplify_eq/=; [|done].
  destruct Hs as (n & p & Hl & _ & Hcat & Hlen').
  apply (store_inv_shrink h q _ [p]); [|by eapply cancel_in_sub|done|done].
  unfold flat. simpl. rewrite Hcat. by apply go_remove_at_perm.
Qed.

Lemma Peek_store h q rd o q' :
  store_inv h q → Peek h rd q = Some (o, q') →
  store_inv h q' ∧ closed q' = closed q ∧ (length (flat q') ≤ length (flat q))%nat.
Proof.
  intros Hst Hp. pose proof Hst as (_ & Hids & _). unfold Peek in Hp.
  pose proof (find_urgent_spec h rd (queues q) Hids) as Hurg. fold (flat q) in Hurg.
  destruct (find_first (urgent h rd) (flat q)) as [[n p]|] eqn:Hf.
  - destruct Hurg as (qs & Hu & Hcat & Hlen). rewrite Hu in Hp. simpl in Hp. simplify_eq.
    apply find_first_lookup in Hf as [Hl _].
    assert (flat q ≡ₚ p :: flat (set_queues qs q)) as Hperm.
    { unfold flat at 2. simpl. rewrite Hcat. by apply go_remove_at_perm. }
    split_and!; [|done|].
    + apply (store_inv_shrink h q _ [p]); [done|by eapply find_urgent_sub|done|done].
    + rewrite Hperm. simpl. lia.
  - rewrite Hurg in Hp. simpl in Hp. by simplify_eq.
Qed.

Lemma inv_intro S :
  store_inv (heap S) (pq S) →
  (waiting S = ∅ ∨ (length (flat (pq S)) ≤ size (ready S))%nat) →
  (closed (pq S) = true → waiting S = ∅ ∨ flat (pq S) = []) →
  waiting S ## ready S → inv S.
Proof. intros (? & ? & ? & ?) ? ? ?. by split. Qed.

(** A round of the loop, by a thread outside both sets that leaves enough
    ready threads behind. *)
Lemma round_inv t rd S S' :
  store_inv (heap S) (pq S) →
  (waiting S = ∅ ∨ (length (flat (pq S)) ≤ 1 + size (ready S))%nat) →
  (closed (pq S) = true → waiting S = ∅ ∨ flat (pq S) = []) →
  waiting S ## ready S → t ∉ waiting S → t ∉ ready S →
  round t rd S = Some S' → inv S'.
Proof.
  intros Hst Hw Hcl Hdisj Htw Htr Hr. unfold round in Hr.
  destruct (try_dequeue (heap S) rd (pq S)) as [[o q]|] eqn:Hd; simpl in Hr; [|done].
  destruct (try_dequeue_store _ _ _ _ _ Hst Hd) as (Hst' & Hc & Ho).
  destruct o as [p|]; simplify_eq; apply inv_intro; simpl; try done.
  - destruct Hw as [|Hw]; [by left|right]. rewrite Ho in Hw. simpl in Hw. lia.
  - rewrite Hc. intros Hcc. destruct (Hcl Hcc) as [|Hf]; [by left|].
    rewrite Hf in Ho. by apply Permutation_nil_cons in Ho.
  - destruct Ho as [_ ->]. right. simpl. lia.
  - intros _. right. apply Ho.
  - set_solver.
Qed.

Lemma signal_inv n w r w' r' :
  signal w r w' r' → (w = ∅ ∨ (n ≤ size r)%nat) → w ## r →
  (w' = ∅ ∨ (S n ≤ size r')%nat) ∧ w' ## r'.
Proof.
  intros Hs Hw Hd. destruct Hs as [r|w r t Ht]; [by split; [left|]|].
  split; [|set_solver]. destruct Hw as [->|Hw]; [set_solver|].
  right. rewrite size_ready_plus by set_solver. lia.
Qed.

Lemma prio_step_inv o S S' : step o S S' → inv S → inv S'.
Proof.
  intros Hstep Hinv. pose proof (inv_store _ Hinv) as Hst.
  pose proof (inv_wake _ Hinv) as Hw. pose proof (inv_disj _ Hinv) as Hd.
  pose proof (inv_closed _ Hinv) as Hcl.
  destruct Hstep as [S job h q w r Hj Hf He Hs|S job h q He|S t rd S' Htw Htr Hr|S t Ht Hc
    |S t rd S' Ht Hc Hr|S|S i b q Hc|S rd o q Hp].
  - destruct (Enqueue_store _ _ _ _ _ Hst Hj Hf He) as (Hst' & Hperm & _ & Hc).
    destruct (signal_inv _ _ _ _ _ Hs Hw Hd) as [Hw' Hd'].
    apply inv_intro; simpl; [done| |by rewrite Hc|done]. by rewrite Hperm.
  - assert (h = heap S ∧ q = pq S) as [-> ->]; [|by apply inv_intro].
    unfold Enqueue in He. by destruct (closed (pq S)); simplify_eq.
  - eapply (round_inv t rd S); [done| |done..]. destruct Hw; [by left|right; lia].
  - apply inv_intro; simpl; [done| |done|set_solver].
    destruct (Hcl Hc) as [|Hf]; [by left|right]. rewrite Hf. simpl. lia.
  - pose proof (size_ready_minus _ _ Ht) as Hsz.
    eapply (round_inv t rd (mk_sys (pq S) (heap S) (waiting S) (ready S ∖ {[t]}) (returned S)));
      [exact Hst| |exact Hcl| | | |exact Hr]; simpl.
    + destruct Hw; [by left|right; lia].
    + clear -Hd. set_solver.
    + clear -Hd Ht. set_solver.
    + clear. set_solver.
  - apply inv_intro; simpl; [done|by left|by left|set_solver].
  - destruct (Cancel_store _ _ _ _ _ Hst Hc) as (Hst' & Hcc & Hlen).
    apply inv_intro; simpl; [done| | |done]; [destruct Hw; [by left|right; lia]|].
    rewrite Hcc. intros Hx. destruct (Hcl Hx) as [|Hf]; [by left|right].
    rewrite Hf in Hlen. by apply nil_length_inv, Nat.le_0_r.
  - destruct (Peek_store _ _ _ _ _ Hst Hp) as (Hst' & Hcc & Hlen).
    apply inv_intro; simpl; [done| | |done]; [destruct Hw; [by left|right; lia]|].
    rewrite Hcc. intros Hx. destruct (Hcl Hx) as [|Hf]; [by left|right].
    rewrite Hf in Hlen. by apply nil_length_inv, Nat.le_0_r.
Qed.

Lemma new_store_inv h : store_inv h NewPriorityQueue.
Proof.
  split; [done|split_and!].
  - apply NoDup_nil_2.
  - intros k d p Hk Hp. assert (p ∈ flat NewPriorityQueue) as Hin.
    { apply elem_of_concat. exists d. split; [done|]. by eapply list_elem_of_lookup_2. }
    by apply not_elem_of_nil in Hin.
  - by intros p ?%not_elem_of_nil.
Qed.

Lemma prio_initial_inv S : initial S → inv S.
Proof.
  intros (Hpq & Hw & Hr & _). apply inv_intro; rewrite ?Hpq, ?Hw, ?Hr; try by left.
  - apply new_store_inv.
  - done.
Qed.

Lemma prio_steps_inv os S S' : steps os S S' → inv S → inv S'.
Proof. induction 1; eauto using prio_step_inv. Qed.

Lemma steps_app os os' S1 S2 S3 : steps os S1 S2 → steps os' S2 S3 → steps (os ++ os') S1 S3.
Proof. induction 1; simpl; eauto using steps_cons. Qed.

(** The flat list is in priority order. *)
Lemma flat_sorted_from h qs n :
  (∀ k d p, qs !! k = Some d → p ∈ d → Priority (Job.deref h p) = Z.of_nat (n + k)) →
  StronglySorted (λ p q, Priority (Job.deref h p) <= Priority (Job.deref h q)) (concat qs) ∧
  ∀ p, p ∈ concat qs → Z.of_nat n <= Priority (Job.deref h p).
Proof.
  revert n. induction qs as [|d qs IH]; intros n Hpl; simpl.
  { split; [constructor|by intros p ?%not_elem_of_nil]. }
  destruct (IH (S n)) as [Hs Hge].
  { intros k d' p Hk Hp. rewrite (Hpl (S k) d' p Hk Hp). lia. }
  assert (∀ p, p ∈ d → Priority (Job.deref h p) = Z.of_nat n) as Hd.
  { intros p Hp. rewrite (Hpl 0%nat d p eq_refl Hp). lia. }
  split.
  - apply StronglySorted_app_intro; [|done|].
    + clear -Hd. induction d as [|x d IH]; constructor.
      * apply IH. intros p Hp. apply Hd. by right.
      * apply Forall_forall. intros y Hy. rewrite !Hd; [done|by right|by left].
    + intros x y Hx Hy. rewrite (Hd x Hx). specialize (Hge y Hy). lia.
  - intros p [Hp|Hp]%elem_of_app; [rewrite (Hd p Hp); lia|]. specialize (Hge p Hp). lia.
Qed.

Lemma flat_sorted h q :
  in_place h (queues q) →
  StronglySorted (λ p q, Priority (Job.deref h p) <= Priority (Job.deref h q)) (flat q).
Proof. intros Hpl. by apply (flat_sorted_from h (queues q) 0). Qed.

(** One step's contribution to the jobs in and out. *)
Lemma round_delivers t rd S S' :
  store_inv (heap S) (pq S) → round t rd S = Some S' →
  delivered S' ++ flat (pq S') ≡ₚ delivered S ++ flat (pq S).
Proof.
  intros Hst Hr. unfold round in Hr.
  destruct (try_dequeue (heap S) rd (pq S)) as [[o q]|] eqn:Hd; simpl in Hr; [|done].
  destruct (try_dequeue_store _ _ _ _ _ Hst Hd) as (_ & _ & Ho).
  destruct o as [p|]; simplify_eq; unfold delivered; simpl.
  - rewrite omap_app. simpl. rewrite <-app_assoc. simpl. by rewrite Ho.
  - destruct Ho as [-> ->]. done.
Qed.

Definition loses (o : op) : bool := match o with OpCancel | OpPeek => true | _ => false end.

Lemma step_conserves o S S' :
  step o S S' → inv S → loses o = false →
  delivered S' ++ flat (pq S') ≡ₚ accepted [o] ++ delivered S ++ flat (pq S).
Proof.
  intros Hstep Hinv Ho. pose proof (inv_store _ Hinv) as Hst.
  destruct Hstep as [S job h q w r Hj Hf He Hs|S job h q He|S t rd S' Htw Htr Hr|S t Ht Hc
    |S t rd S' Ht Hc Hr|S|S i b q Hc|S rd o q Hp]; simpl in *; try done.
  - destruct (Enqueue_store _ _ _ _ _ Hst Hj Hf He) as (_ & Hperm & _ & _).
    unfold delivered. simpl. rewrite Hperm. by rewrite <-Permutation_middle.
  - unfold Enqueue in He. by destruct (closed (pq S)); simplify_eq.
  - by eapply round_delivers.
  - unfold delivered. simpl. rewrite omap_app. simpl. by rewrite app_nil_r.
  - by eapply (round_delivers _ _ (mk_sys _ _ _ _ _)) in Hr.
Qed.

Lemma steps_conserve os S S' :
  steps os S S' → inv S → Forall (λ o, loses o = false) os →
  delivered S' ++ flat (pq S') ≡ₚ accepted os ++ delivered S ++ flat (pq S).
Proof.
  induction 1 as [S|o os S1 S2 S3 Hstep Hsteps IH]; intros Hinv Hl; [done|].
  apply Forall_cons in Hl as [Ho Hl].
  rewrite (IH (prio_step_inv _ _ _ Hstep Hinv) Hl), (step_conserves _ _ _ Hstep Hinv Ho).
  unfold accepted. simpl. destruct o as [[j|]| | | | |]; simpl; try done.
  by rewrite <-Permutation_middle.
Qed.

Lemma step_closed_waits t o S S' :
  step o S S' → o ≠ OpClose → closed (pq S) = true → t ∈ waiting S →
  closed (pq S') = true ∧ t ∈ waiting S'.
Proof.
  intros Hstep Ho Hc Ht.
  assert (∀ u rd S0 S1, closed (pq S0) = true → t ∈ waiting S0 → round u rd S0 = Some S1 →
            closed (pq S1) = true ∧ t ∈ waiting S1) as Hround.
  { intros u rd S0 S1 Hc0 Ht0 Hr. unfold round in Hr.
    destruct (try_dequeue (heap S0) rd (pq S0)) as [[x q]|] eqn:Hd; simpl in Hr; [|done].
    assert (closed q = closed (pq S0)) as Hq.
    { unfold try_dequeue in Hd. destruct (find_urgent _ _ _) as [[[]|]|]; simplify_eq/=; [done|].
      by destruct (pop_by_priority _) as [[]|]; simplify_eq. }
    destruct x; simplify_eq; simpl; rewrite Hq; set_solver. }
  destruct Hstep as [S job h q w r Hj Hf He Hs|S job h q He|S u rd S' Htw Htr Hr|S u Hu Hcc
    |S u rd S' Hu Hcc Hr|S|S i b q Hcn|S rd x q Hp]; simpl in *; try done.
  - unfold Enqueue in He. by rewrite Hc in He.
  - unfold Enqueue in He. rewrite Hc in He. by simplify_eq.
  - eauto.
  - congruence.
  - apply Cancel_length in Hcn as [_ ->]. done.
  - unfold Peek in Hp. by destruct (find_urgent _ _ _) as [[[]|]|]; simplify_eq/=.
Qed.

(** ** Properties *)


(** An accepted job goes to the end of its priority class, in front of
    every class after it; a priority out of range counts as normal. *)
Theorem enqueue_refines_flat os S0 S job :
  initial S0 → steps os S0 S → closed (pq S) = false → is_Some (heap S !! job) →
  let pr := Priority (clamp_priority (Job.deref (heap S) job)) in
  ∃ h' q', Enqueue (heap S) (pq S) job = (true, h', q') ∧
    flat q' = (filter (λ p, (Priority (Job.deref (heap S) p) <=? pr) = true) (flat (pq S)) ++
               job :: filter (λ p, (Priority (Job.deref (heap S) p) <=? pr) = false) (flat (pq S)))%list ∧
    enqueued q' = int_incr (enqueued (pq S)).
Proof.
  intros Hi Hs Hc Hj pr. pose proof (prio_steps_inv _ _ _ Hs (prio_initial_inv _ Hi)) as Hinv.
  destruct (Enqueue_flat _ _ _ Hc (inv_len _ Hinv) Hj) as (q' & He & Hf & _ & _ & Hn & _).
  do 2 eexists. split; [exact He|]. split; [|exact Hn]. rewrite Hf.
  fold pr. assert (0 <= pr <= 3) as Hpr by apply clamp_priority_range.
  set (k := Datatypes.S (Z.to_nat pr)).
  assert (flat (pq S) = (concat (take k (queues (pq S))) ++ concat (drop k (queues (pq S))))%list)
    as Hsplit by (by rewrite <-concat_app, take_drop).
  rewrite Hsplit, !filter_app.
  assert (∀ p, p ∈ concat (take k (queues (pq S))) → (Priority (Job.deref (heap S) p) <=? pr) = true) as H1.
  { intros p (d & Hp & Hd)%elem_of_concat. apply list_elem_of_lookup_1 in Hd as [i Hi'].
    apply lookup_take_Some in Hi' as [Hi' Hlt].
    rewrite (inv_place _ Hinv _ _ _ Hi' Hp). apply Z.leb_le. lia. }
  assert (∀ p, p ∈ concat (drop k (queues (pq S))) → (Priority (Job.deref (heap S) p) <=? pr) = false) as H2.
  { intros p (d & Hp & Hd)%elem_of_concat. apply list_elem_of_lookup_1 in Hd as [i Hi'].
    rewrite lookup_drop in Hi'.
    rewrite (inv_place _ Hinv _ _ _ Hi' Hp). apply Z.leb_gt. lia. }
  rewrite (filter_all _ (concat (take k _))) by done.
  rewrite (filter_none _ (concat (drop k _))) by (intros p Hp; rewrite (H2 p Hp); congruence).
  rewrite (filter_none _ (concat (take k _))) by (intros p Hp; rewrite (H1 p Hp); congruence).
  rewrite (filter_all _ (concat (drop k _))) by done.
  by rewrite app_nil_r.
Qed.


(** C38: no wake-up is lost: in every reachable state, cancellations and peeks
    included, a worker that sleeps while jobs are queued has at least as many
    woken workers on their way as there are jobs. *)
Theorem no_lost_wakeup os S0 S :
  initial S0 → steps os S0 S →
  waiting S = ∅ ∨ (length (flat (pq S)) ≤ size (ready S))%nat.
Proof. intros Hi Hs. by apply inv_wake, (prio_steps_inv _ _ _ Hs), prio_initial_inv. Qed.

(** A worker that enters [Dequeue] after the queue was closed and drained
    sleeps for good: nothing short of a second [Close] wakes it, whatever the
    other threads do. *)
Theorem dequeue_after_close_sleeps os0 S0 S t S' os S'' :
  initial S0 → steps os0 S0 S → closed (pq S) = true → flat (pq S) = [] →
  step (OpEnter t) S S' → steps os S' S'' → OpClose ∉ os →
  t ∈ waiting S''.
Proof.
  intros Hi Hs0 Hc Hf Hstep Hs Hno.
  pose proof (inv_store _ (prio_steps_inv _ _ _ Hs0 (prio_initial_inv _ Hi))) as Hst.
  assert (closed (pq S') = true ∧ t ∈ waiting S') as [Hc' Ht'].
  { inversion Hstep as [| |S1 t' rd S1' Htw Htr Hr| | | | |]; simplify_eq. unfold round in Hr.
    destruct (try_dequeue (heap S) rd (pq S)) as [[o q]|] eqn:Hd; simpl in Hr; [|done].
    destruct (try_dequeue_store _ _ _ _ _ Hst Hd) as (_ & Hq & Ho).
    destruct o as [p|]; [rewrite Hf in Ho; by apply Permutation_nil_cons in Ho|].
    simplify_eq/=. rewrite Hq. set_solver. }
  clear Hstep Hf Hi Hs0 Hst Hc. induction Hs as [|o os S1 S2 S3 Hstep Hsteps IH]; [done|].
  apply not_elem_of_cons in Hno as [Ho Hno].
  destruct (step_closed_waits t o S1 S2 Hstep (not_eq_sym Ho) Hc' Ht'). by apply IH.
Qed.

(** [Peek] is not read-only: a peek that finds an urgent job takes it out
    of the queue without counting it, so no later dequeue delivers it. *)
Theorem Peek_removes_urgent h rd q i p :
  ids_unique h (flat q) →
  find_first (urgent h rd) (flat q) = Some (i, p) →
  ∃ q', Peek h rd q = Some (Some p, q') ∧ flat q' = go_remove_at i (flat q) ∧ (p ∉ flat q') ∧
        dequeued q' = dequeued q.
Proof.
  intros Hu Hf. pose proof (find_urgent_spec h rd (queues q) Hu) as Hs. fold (flat q) in Hs.
  rewrite Hf in Hs. destruct Hs as (qs' & Hfu & Hc & _).
  exists (set_queues qs' q). unfold Peek. rewrite Hfu. simpl.
  assert (flat (set_queues qs' q) = go_remove_at i (flat q)) as Hflat by done.
  split_and!; [done|done| |done]. rewrite Hflat. intros Hin.
  apply find_first_lookup in Hf as [Hl _]. apply go_remove_at_perm in Hl.
  apply (ids_unique_perm _ _ _ Hl) in Hu. unfold ids_unique in Hu. rewrite fmap_cons in Hu.
  apply NoDup_cons in Hu as [Hn _]. apply Hn. apply list_elem_of_fmap. eauto.
Qed.

(** [Stats] never returns, in any state of the queue: it takes the mutex
    and then calls [Len], which takes it again; [Len] and [GetStats] alone do
    return. *)
Theorem Stats_deadlocks q :
  Stats false q = None ∧ Len false q = Some (total_len q) ∧ is_Some (GetStats false q).
Proof. split_and!; [done|done|by eexists]. Qed.

(** Every job the server classifies gets one of the four priorities, and
    its deadline is the base time of its type plus one second for every twenty
    tokens of the estimate, never later than the maximal timeout. *)
Theorem classification_in_range jobType stream interactive tokens maxT now :
  0 <= tokens <= 10 ^ 11 →
  PriorityRealtime <= DetermineJobPriority jobType stream interactive <= PriorityLow ∧
  (stream = true → interactive = true →
   DetermineJobPriority jobType stream interactive = PriorityRealtime) ∧
  ∃ base, 30 * Second <= base <= 120 * Second ∧
    CalculateDeadline jobType tokens maxT now = now + Z.min maxT (base + tokens / 20 * Second).
Proof.
  intros Ht. split_and!.
  - unfold DetermineJobPriority, PriorityRealtime, PriorityHigh, PriorityNormal, PriorityLow.
    repeat case_match; lia.
  - unfold DetermineJobPriority, PriorityRealtime, PriorityHigh, PriorityNormal, PriorityLow.
    repeat case_match; lia.
  - by intros -> ->.
  - unfold CalculateDeadline.
    match goal with |- context [deadline_after ?b] => exists b end.
    assert (∀ b c d e : bool, 30 * Second <= (if b then 60 * Second else if c then 120 * Second
              else if d then 90 * Second else if e then 30 * Second else 60 * Second)
              <= 120 * Second) as Hb by (by intros [] [] [] []; unfold Second; lia).
    split; [apply Hb|]. apply deadline_after_exact; [|done].
    match goal with |- 0 <= ?b <= _ => pose proof (Hb (one_of jobType ["chat"; "chat_stream"])
      (String.eqb jobType "coding_agent_chat") (String.eqb jobType "generate")
      (String.eqb jobType "embed")) end. unfold Second in *. lia.
Qed.

(** ** Witnesses: two jobs, the second with a deadline 3s away. *)

Definition example_job (i : string) (pr : Z) (deadline : Time) : Job :=
  mk_Job i "client" "chat" "" ∅ JobPending JNull "" f64_zero None None 0 "" 0 0 0 f64_zero pr
    deadline 0 3.

Definition example_heap : gmap nat Job :=
  {[1%nat := example_job "j1" 0 0; 2%nat := example_job "j2" 9 (10 * Second)]}.

Definition example_S0 : sys := mk_sys NewPriorityQueue example_heap ∅ ∅ [].
Definition enqueue_of (S : sys) (job : nat) : sys :=
  let '(_, h, q) := Enqueue (heap S) (pq S) job in
  mk_sys q h (waiting S) (ready S) (returned S).
Definition example_S1 : sys := enqueue_of example_S0 1%nat.
Definition example_S2 : sys := enqueue_of example_S1 2%nat.
Definition example_S3 : sys := from_opt example_S2 (round 7%nat (λ _, 7 * Second) example_S2).

Definition example_ops : list op := [OpEnqueue (Some 1%nat); OpEnqueue (Some 2%nat)].

Lemma prio_example_steps : initial example_S0 ∧ steps example_ops example_S0 example_S2.
Proof.
  split; [done|]. eapply steps_cons; [|eapply steps_cons; [|apply steps_nil]].
  - eapply (step_enqueue example_S0 1%nat).
    + by eexists.
    + by apply not_elem_of_nil.
    + vm_compute. reflexivity.
    + apply signal_none.
  - eapply (step_enqueue example_S1 2%nat).
    + by eexists.
    + vm_compute. by intros [?|?%not_elem_of_nil]%elem_of_cons.
    + vm_compute. reflexivity.
    + apply signal_none.
Qed.

Lemma example_enter : step (OpEnter 7%nat) example_S2 example_S3.
Proof. apply (step_enter example_S2 7%nat (λ _, 7 * Second)); [set_solver..|]. by vm_compute. Qed.


Lemma enqueue_refines_flat_witness :
  ∃ h' q', Enqueue (heap example_S2) (pq example_S2) 2%nat = (true, h', q') ∧
           enqueued q' = 3.
Proof.
  destruct (enqueue_refines_flat example_ops example_S0 example_S2 2%nat
              (proj1 prio_example_steps) (proj2 prio_example_steps)) as (h' & q' & He & _ & Hn).
  - by vm_compute.
  - by eexists.
  - exists h', q'. split; [exact He|]. rewrite Hn. by vm_compute.
Defined.


Lemma no_lost_wakeup_witness : waiting example_S2 = ∅ ∨ (2 ≤ size (ready example_S2))%nat.
Proof.
  apply (no_lost_wakeup example_ops example_S0 example_S2); apply prio_example_steps.
Defined.

Definition example_closed : sys :=
  mk_sys (Close NewPriorityQueue) example_heap ∅ (∅ ∪ ∅) [].
Definition example_asleep : sys :=
  mk_sys (Close NewPriorityQueue) example_heap {[3%nat]} (∅ ∪ ∅) [].

Lemma dequeue_after_close_sleeps_witness : 3%nat ∈ waiting example_asleep.
Proof.
  apply (dequeue_after_close_sleeps [OpClose] example_S0 example_closed 3%nat example_asleep []
           example_asleep).
  - done.
  - eapply steps_cons; [apply (step_close example_S0)|apply steps_nil].
  - done.
  - done.
  - apply (step_enter example_closed 3%nat (λ _, 0)); [set_solver..|].
    vm_compute. reflexivity.
  - apply steps_nil.
  - by apply not_elem_of_nil.
Defined.

Lemma Peek_removes_urgent_witness :
  ∃ q', Peek (heap example_S2) (λ _, 7 * Second) (pq example_S2) = Some (Some 2%nat, q') ∧
        2%nat ∉ flat q'.
Proof.
  destruct (Peek_removes_urgent (heap example_S2) (λ _, 7 * Second) (pq example_S2) 1%nat 2%nat)
    as (q' & Hp & _ & Hn & _).
  - apply inv_ids, (prio_steps_inv _ _ _ (proj2 prio_example_steps)), prio_initial_inv, prio_example_steps.
  - by vm_compute.
  - by exists q'.
Defined.

Lemma classification_in_range_witness :
  DetermineJobPriority "chat" true true = PriorityRealtime.
Proof.
  apply (classification_in_range "chat" true true 100 (60 * Second) 0); [lia|done|done].
Defined.
