(* ===== verification/Circuit.v ===== *)
(** * Circuit breakers ([hive-server-go/circuit_breaker.go])

    One breaker is a state machine guarded by its mutex, so each method is an
    atomic step; the manager owns the breakers by name.  [Execute] releases
    the locks while the protected call runs: its two halves are separate
    steps, and a run of a breaker is any sequence of them. *)

From S2P Require Import Prelude GoFloat GoText GoHttp.

Local Open Scope string_scope.
Local Open Scope Z_scope.

(** ** Data *)

Inductive CircuitState := CircuitClosed | CircuitOpen | CircuitHalfOpen.

#[global] Instance CircuitState_eq_dec : EqDecision CircuitState.
Proof. solve_decision. Defined.

Definition CircuitState_String (s : CircuitState) : string :=
  match s with
  | CircuitClosed => "closed"
  | CircuitOpen => "open"
  | CircuitHalfOpen => "half-open"
  end.

Record CircuitBreakerConfig := mk_Config {
  FailureThreshold : Z; SuccessThreshold : Z; Timeout : Duration; Interval : Duration }.

Definition DefaultCircuitBreakerConfig : CircuitBreakerConfig :=
  mk_Config 5 3 (30 * Second) (60 * Second).

Record CircuitBreaker := mk_CB {
  state : CircuitState;
  failures : Z;
  successes : Z;
  lastFailure : Time;
  lastStateChange : Time;
  config : CircuitBreakerConfig;
  name : string }.

Definition NewCircuitBreaker (nm : string) (cfg : option CircuitBreakerConfig) (now : Time)
    : CircuitBreaker :=
  mk_CB CircuitClosed 0 0 0 now (from_opt DefaultCircuitBreakerConfig cfg) nm.

(** ** Operations *)

Definition transitionTo (newState : CircuitState) (now : Time) (cb : CircuitBreaker)
    : CircuitBreaker :=
  match newState with
  | CircuitClosed => mk_CB newState 0 0 (lastFailure cb) now (config cb) (name cb)
  | CircuitHalfOpen => mk_CB newState (failures cb) 0 (lastFailure cb) now (config cb) (name cb)
  | CircuitOpen =>
      mk_CB newState (failures cb) (successes cb) (lastFailure cb) now (config cb) (name cb)
  end.

(** [now] is read by [time.Since], [now'] by the transition. *)
Definition Allow (cb : CircuitBreaker) (now now' : Time) : bool * CircuitBreaker :=
  match state cb with
  | CircuitClosed => (true, cb)
  | CircuitOpen =>
      if Timeout (config cb) <? time_Since now (lastFailure cb)
      then (true, transitionTo CircuitHalfOpen now' cb)
      else (false, cb)
  | CircuitHalfOpen => (true, cb)
  end.

Definition RecordSuccess (cb : CircuitBreaker) (now : Time) : CircuitBreaker :=
  match state cb with
  | CircuitHalfOpen =>
      let cb := mk_CB (state cb) (failures cb) (int_incr (successes cb)) (lastFailure cb)
                  (lastStateChange cb) (config cb) (name cb) in
      if SuccessThreshold (config cb) <=? successes cb
      then transitionTo CircuitClosed now cb else cb
  | CircuitClosed =>
      mk_CB (state cb) 0 (successes cb) (lastFailure cb) (lastStateChange cb) (config cb) (name cb)
  | CircuitOpen => cb
  end.

Definition RecordFailure (cb : CircuitBreaker) (now now' : Time) : CircuitBreaker :=
  let cb := mk_CB (state cb) (int_incr (failures cb)) (successes cb) now (lastStateChange cb)
              (config cb) (name cb) in
  match state cb with
  | CircuitClosed =>
      if FailureThreshold (config cb) <=? failures cb
      then transitionTo CircuitOpen now' cb else cb
  | CircuitHalfOpen => transitionTo CircuitOpen now' cb
  | CircuitOpen => cb
  end.

Definition State (cb : CircuitBreaker) : CircuitState := state cb.

Definition Reset (cb : CircuitBreaker) (now : Time) : CircuitBreaker :=
  transitionTo CircuitClosed now cb.

Definition Stats (cb : CircuitBreaker) : gmap string json :=
  jmap [("name", JStr (name cb)); ("state", JStr (CircuitState_String (state cb)));
        ("failures", JInt (failures cb)); ("successes", JInt (successes cb));
        ("last_failure", JInt (Unix (lastFailure cb)));
        ("last_state_change", JInt (Unix (lastStateChange cb)));
        ("failure_threshold", JInt (FailureThreshold (config cb)));
        ("success_threshold", JInt (SuccessThreshold (config cb)));
        ("timeout_seconds", JNum (Seconds (Timeout (config cb))))].

(** ** The manager *)

Record CircuitBreakerManager := mk_Manager {
  breakers : gmap string CircuitBreaker;
  defaultConfig : CircuitBreakerConfig }.

Definition NewCircuitBreakerManager : CircuitBreakerManager :=
  mk_Manager ∅ DefaultCircuitBreakerConfig.

Definition set_breaker (nm : string) (cb : CircuitBreaker) (m : CircuitBreakerManager)
    : CircuitBreakerManager :=
  mk_Manager (<[nm := cb]> (breakers m)) (defaultConfig m).

(** The double-checked creation, with any configuration. *)
Definition GetWithConfig (m : CircuitBreakerManager) (nm : string)
    (cfg : option CircuitBreakerConfig) (now : Time) : CircuitBreaker * CircuitBreakerManager :=
  match breakers m !! nm with
  | Some cb => (cb, m)
  | None => let cb := NewCircuitBreaker nm cfg now in (cb, set_breaker nm cb m)
  end.

Definition Get (m : CircuitBreakerManager) (nm : string) (now : Time)
    : CircuitBreaker * CircuitBreakerManager :=
  GetWithConfig m nm (Some (defaultConfig m)) now.

Definition GetAll (m : CircuitBreakerManager) : gmap string CircuitBreaker := breakers m.

Definition Remove (m : CircuitBreakerManager) (nm : string) : CircuitBreakerManager :=
  mk_Manager (delete nm (breakers m)) (defaultConfig m).

Definition ErrCircuitOpen : string := "circuit breaker is open".

(** [Execute] when nothing interleaves: the outcome [fn] of the protected call
    is an input, and the flag says whether it was made. *)
Record clock := mk_clock { t_get : Time; t_since : Time; t_half : Time; t_fail : Time; t_trans : Time }.

Definition Execute (m : CircuitBreakerManager) (nm : string) (fn : result unit) (c : clock)
    : result unit * bool * CircuitBreakerManager :=
  let (cb, m) := Get m nm (t_get c) in
  match Allow cb (t_since c) (t_half c) with
  | (false, cb) => (Err ErrCircuitOpen, false, set_breaker nm cb m)
  | (true, cb) =>
      match fn with
      | Err e => (Err e, true, set_breaker nm (RecordFailure cb (t_fail c) (t_trans c)) m)
      | Ok tt => (Ok tt, true, set_breaker nm (RecordSuccess cb (t_trans c)) m)
      end
  end.

(** ** Runs of one breaker *)

Inductive event :=
  | EAllow (now now' : Time)
  | ESuccess (now : Time)
  | EFailure (now now' : Time)
  | EReset (now : Time).

Definition apply_event (cb : CircuitBreaker) (e : event) : CircuitBreaker :=
  match e with
  | EAllow now now' => (Allow cb now now').2
  | ESuccess now => RecordSuccess cb now
  | EFailure now now' => RecordFailure cb now now'
  | EReset now => Reset cb now
  end.

Definition run (cb : CircuitBreaker) (es : list event) : CircuitBreaker := foldl apply_event cb es.

(** ** Specification

    The breaker as its documentation describes it: closed with a number of
    consecutive failures, open since a failure, or half open with a number of
    successes. *)
Inductive spec :=
  | SClosed (n : Z)
  | SOpen (since : Time)
  | SHalf (n : Z).

Definition spec_allow (cfg : CircuitBreakerConfig) (s : spec) (now : Time) : bool * spec :=
  match s with
  | SOpen t => if decide (Timeout cfg < time_Since now t) then (true, SHalf 0) else (false, s)
  | _ => (true, s)
  end.

Definition spec_step (cfg : CircuitBreakerConfig) (s : spec) (e : event) : spec :=
  match e, s with
  | EAllow now _, _ => (spec_allow cfg s now).2
  | ESuccess _, SClosed _ => SClosed 0
  | ESuccess _, SHalf n =>
      if decide (SuccessThreshold cfg <= n + 1) then SClosed 0 else SHalf (n + 1)
  | ESuccess _, SOpen _ => s
  | EFailure now _, SClosed n =>
      if decide (FailureThreshold cfg <= n + 1) then SOpen now else SClosed (n + 1)
  | EFailure now _, _ => SOpen now
  | EReset _, _ => SClosed 0
  end.

Definition abs (cb : CircuitBreaker) : spec :=
  match state cb with
  | CircuitClosed => SClosed (failures cb)
  | CircuitOpen => SOpen (lastFailure cb)
  | CircuitHalfOpen => SHalf (successes cb)
  end.

(** What holds in every reachable state; [k] bounds the number of events so
    far, which keeps the counters inside [int]. *)
Record wf (k : Z) (cb : CircuitBreaker) : Prop := mk_wf {
  wf_failures : 0 <= failures cb <= k;
  wf_successes : 0 <= successes cb <= k;
  wf_closed : state cb = CircuitClosed →
    (failures cb = 0 ∨ failures cb < FailureThreshold (config cb)) ∧ successes cb = 0;
  wf_half : state cb = CircuitHalfOpen →
    successes cb = 0 ∨ successes cb < SuccessThreshold (config cb) }.

(** ** Lemmas *)

Lemma apply_event_config cb e : config (apply_event cb e) = config cb ∧ name (apply_event cb e) = name cb.
Proof.
  destruct e; simpl; unfold Allow, RecordSuccess, RecordFailure, Reset, transitionTo; simpl;
    by repeat case_match.
Qed.

Lemma breaker_event_wf k cb e : wf k cb → 0 <= k < int64_max → wf (k + 1) (apply_event cb e).
Proof.
  intros [Hf Hs Hc Hh] Hk.
  assert (int_incr (failures cb) = failures cb + 1) as Hif by (apply int_incr_id; lia).
  assert (int_incr (successes cb) = successes cb + 1) as His by (apply int_incr_id; lia).
  destruct e; simpl; unfold Allow, RecordSuccess, RecordFailure, Reset, transitionTo;
    destruct (state cb) eqn:Hst; simpl; rewrite ?Hst, ?Hif, ?His; repeat case_match;
    zbool; split; simpl; rewrite ?Hif, ?His; intros; simplify_eq; try done; try lia;
    try congruence; try (by apply Hc); try (by apply Hh); try (destruct (Hc eq_refl)); lia.
Qed.

Lemma breaker_run_wf k cb es :
  wf k cb → 0 <= k → k + Z.of_nat (length es) <= int64_max → wf (k + Z.of_nat (length es)) (run cb es).
Proof.
  revert k cb. induction es as [|e es IH]; intros k cb Hwf Hk Hlen; simpl in *.
  - by rewrite Z.add_0_r.
  - replace (k + Z.of_nat (S (length es))) with (k + 1 + Z.of_nat (length es)) by lia.
    apply IH; [apply breaker_event_wf; [done|lia]|lia..].
Qed.

Lemma new_breaker_wf nm cfg now : wf 0 (NewCircuitBreaker nm cfg now).
Proof. split; simpl; intros; try done; try lia; auto. Qed.

Lemma abs_step k cb e :
  wf k cb → 0 <= k < int64_max → abs (apply_event cb e) = spec_step (config cb) (abs cb) e.
Proof.
  intros [Hf Hs Hc Hh] Hk.
  assert (int_incr (failures cb) = failures cb + 1) as Hif by (apply int_incr_id; lia).
  assert (int_incr (successes cb) = successes cb + 1) as His by (apply int_incr_id; lia).
  destruct e; simpl; unfold Allow, RecordSuccess, RecordFailure, Reset, transitionTo, abs;
    destruct (state cb) eqn:Hst; simpl; rewrite ?Hst, ?Hif, ?His; simpl;
    repeat (case_match || case_decide); simpl in *; simplify_eq; zbool; rewrite ?Hst in *;
    try done; lia.
Qed.

Lemma run_config cb es : config (run cb es) = config cb.
Proof.
  revert cb. induction es as [|e es IH]; intros cb; simpl; [done|].
  rewrite IH. apply apply_event_config.
Qed.

Lemma abs_run k cb es :
  wf k cb → 0 <= k → k + Z.of_nat (length es) <= int64_max →
  abs (run cb es) = foldl (spec_step (config cb)) (abs cb) es.
Proof.
  revert k cb. induction es as [|e es IH]; intros k cb Hwf Hk Hlen; simpl in *; [done|].
  rewrite (IH (k + 1)); [|by apply breaker_event_wf; [|lia]|lia..].
  rewrite (abs_step k) by (done || lia). by rewrite (proj1 (apply_event_config cb e)).
Qed.

(** A failing call against a closed breaker, below and at the threshold. *)
Lemma Execute_failing m nm e c cb :
  breakers m !! nm = Some cb → state cb = CircuitClosed →
  Execute m nm (Err e) c =
  (Err e, true, set_breaker nm (RecordFailure cb (t_fail c) (t_trans c)) m).
Proof. intros Hcb Hst. unfold Execute, Get, GetWithConfig, Allow. by rewrite Hcb, Hst. Qed.

Lemma Get_created m nm now :
  ∃ cb, Get m nm now = (cb, set_breaker nm cb m) ∧
    (breakers m !! nm = Some cb ∨
     breakers m !! nm = None ∧ cb = NewCircuitBreaker nm (Some (defaultConfig m)) now).
Proof.
  unfold Get, GetWithConfig. destruct (breakers m !! nm) as [cb|] eqn:Hcb.
  - exists cb. split; [|by left]. unfold set_breaker. rewrite insert_id by done. by destruct m.
  - eexists. split; [done|]. by right.
Qed.

Lemma Execute_via_Get m nm fn c cb :
  Get m nm (t_get c) = (cb, set_breaker nm cb m) →
  Execute m nm fn c = Execute (set_breaker nm cb m) nm fn c.
Proof.
  intros Hg. unfold Execute. rewrite Hg. unfold Get, GetWithConfig. simpl.
  by rewrite lookup_insert_eq.
Qed.

Lemma set_breaker_set nm cb cb' m : set_breaker nm cb' (set_breaker nm cb m) = set_breaker nm cb' m.
Proof. unfold set_breaker. simpl. by rewrite insert_insert_eq. Qed.

(** Failing calls in a row, against a breaker that has seen some already. *)
Lemma failing_run m nm e cs cb :
  breakers m !! nm = Some cb → state cb = CircuitClosed → 0 <= failures cb →
  cs ≠ [] → failures cb + Z.of_nat (length cs) = FailureThreshold (config cb) →
  FailureThreshold (config cb) <= int64_max →
  ∃ cb', breakers (foldl (λ m c, (Execute m nm (Err e) c).2) m cs) !! nm = Some cb' ∧
    state cb' = CircuitOpen ∧ config cb' = config cb ∧
    Some (lastFailure cb') = t_fail <$> last cs.
Proof.
  revert m cb. induction cs as [|c cs IH]; intros m cb Hcb Hst Hf Hne Hsum Hmax; [done|].
  simpl in Hsum. cbn [foldl]. rewrite (Execute_failing _ _ _ _ _ Hcb Hst). cbn [snd].
  assert (int_incr (failures cb) = failures cb + 1) as Hincr by (apply int_incr_id; lia).
  destruct cs as [|c' cs].
  - simpl. eexists. rewrite lookup_insert_eq. split; [done|].
    unfold RecordFailure. simpl. rewrite Hst, Hincr. simpl in Hsum.
    by rewrite (proj2 (Z.leb_le _ _)) by lia.
  - assert (RecordFailure cb (t_fail c) (t_trans c) =
            mk_CB CircuitClosed (failures cb + 1) (successes cb) (t_fail c) (lastStateChange cb)
              (config cb) (name cb)) as Hrf.
    { unfold RecordFailure. simpl in *. rewrite Hst, Hincr.
      by rewrite (proj2 (Z.leb_gt _ _)) by lia. }
    rewrite Hrf. set (cb1 := mk_CB _ _ _ _ _ _ _).
    apply (IH (set_breaker nm cb1 m) cb1); simpl in *; [|done|lia|done|lia|done].
    by rewrite lookup_insert_eq.
Qed.

(** ** Properties *)


(** After as many failing calls in a row as the threshold says, [Execute]
    refuses with the circuit-open error, without making the call, until more
    than the timeout has passed since the last failure. *)
Theorem Execute_trips m nm e cs c fn :
  breakers m !! nm = None → cs ≠ [] →
  FailureThreshold (defaultConfig m) = Z.of_nat (length cs) →
  FailureThreshold (defaultConfig m) <= int64_max →
  let m' := foldl (λ m c, (Execute m nm (Err e) c).2) m cs in
  from_opt False ((λ t, time_Since (t_since c) t <= Timeout (defaultConfig m)) <$> (t_fail <$> last cs)) →
  (Execute m' nm fn c).1 = (Err ErrCircuitOpen, false).
Proof.
  intros Hnone Hne Hth Hmax m' Htime. subst m'. destruct cs as [|c0 cs]; [done|].
  destruct (Get_created m nm (t_get c0)) as (cb & Hg & [Hcb|[_ ->]]); [congruence|].
  assert (foldl (λ m c, (Execute m nm (Err e) c).2) m (c0 :: cs) =
          foldl (λ m c, (Execute m nm (Err e) c).2)
            (set_breaker nm (NewCircuitBreaker nm (Some (defaultConfig m)) (t_get c0)) m) (c0 :: cs)) as ->.
  { cbn [foldl]. by rewrite (Execute_via_Get _ _ _ _ _ Hg). }
  destruct (failing_run (set_breaker nm (NewCircuitBreaker nm (Some (defaultConfig m)) (t_get c0)) m)
              nm e (c0 :: cs) (NewCircuitBreaker nm (Some (defaultConfig m)) (t_get c0)))
    as (cb' & Hcb' & Hst & Hcfg & Hlast); try done.
  { simpl. by rewrite lookup_insert_eq. }
  rewrite <-Hlast in Htime. simpl in Htime. revert Hcb'.
  generalize (foldl (λ m c, (Execute m nm (Err e) c).2)
    (set_breaker nm (NewCircuitBreaker nm (Some (defaultConfig m)) (t_get c0)) m) (c0 :: cs)).
  intros m' Hcb'. unfold Execute, Get, GetWithConfig. rewrite Hcb'. unfold Allow. rewrite Hst, Hcfg. simpl.
  by rewrite (proj2 (Z.ltb_ge _ _)) by lia.
Qed.

(** [Execute] is transparent and isolated: it either makes the call and
    returns its outcome, or returns the circuit-open error without making it;
    a breaker of another name is never touched. *)
Theorem Execute_isolated m nm fn c :
  let '(r, called, m') := Execute m nm fn c in
  (if called then r = fn else r = Err ErrCircuitOpen) ∧
  ∀ nm', nm' ≠ nm → breakers m' !! nm' = breakers m !! nm'.
Proof.
  destruct (Get_created m nm (t_get c)) as (cb & Hg & _). unfold Execute. rewrite Hg.
  destruct (Allow cb (t_since c) (t_half c)) as [[] cb'].
  - destruct fn as [[]|e]; split; try done; intros; simpl; by rewrite !lookup_insert_ne.
  - split; [done|]. intros; simpl; by rewrite !lookup_insert_ne.
Qed.

(** ** Witnesses *)

Definition example_clock (t : Time) : clock := mk_clock t t t t t.


Lemma Execute_trips_witness :
  (Execute (foldl (λ m c, (Execute m "node" (Err "refused") c).2) NewCircuitBreakerManager
              (repeat (example_clock Second) 5)) "node" (Ok tt) (example_clock (31 * Second))).1 =
  (Err ErrCircuitOpen, false).
Proof.
  apply (Execute_trips NewCircuitBreakerManager "node" "refused"
           (repeat (example_clock Second) 5) (example_clock (31 * Second)) (Ok tt)); by vm_compute.
Defined.
