(* ===== verification/RateLimit.v ===== *)
(** * Rate limiting and authentication ([hive-server-go/auth.go])

    Buckets are owned by the limiter's map and every access holds its mutex,
    so a bucket is a value and [Allow] and one pass of [cleanup] are atomic
    steps.  [AuthMiddleware] decides from a few parts of the request whether
    the next handler runs. *)

From S2P Require Import Prelude GoFloat GoText GoHttp.

Local Open Scope string_scope.
Local Open Scope Z_scope.

(** ** The limiter *)

Record rateBucket := mk_bucket { count : Z; resetAt : Time }.

Record RateLimiter := mk_RL {
  clients : gmap string rateBucket;
  rate : Z;
  window : Duration }.

Definition NewRateLimiter (rate : Z) (window : Duration) : RateLimiter := mk_RL ∅ rate window.

Definition set_clients (cs : gmap string rateBucket) (rl : RateLimiter) : RateLimiter :=
  mk_RL cs (rate rl) (window rl).

Definition fresh_bucket (rl : RateLimiter) (clientID : string) (now : Time) : RateLimiter :=
  set_clients (<[clientID := mk_bucket 1 (time_Add now (window rl))]> (clients rl)) rl.

(** [now] is read only for a bucket that exists, [now'] when one is made. *)
Definition Allow (rl : RateLimiter) (clientID : string) (now now' : Time) : bool * RateLimiter :=
  match clients rl !! clientID with
  | None => (true, fresh_bucket rl clientID now')
  | Some bucket =>
      if time_After now (resetAt bucket) then (true, fresh_bucket rl clientID now')
      else if rate rl <=? count bucket then (false, rl)
      else (true, set_clients (<[clientID := mk_bucket (int_incr (count bucket)) (resetAt bucket)]>
                                 (clients rl)) rl)
  end.

(** One tick of [cleanup]. *)
Definition cleanup_tick (rl : RateLimiter) (now : Time) : RateLimiter :=
  set_clients (filter (λ e, time_After now (resetAt e.2) = false) (clients rl)) rl.

Inductive event :=
  | EAllow (clientID : string) (now now' : Time)
  | ECleanup (now : Time).

Definition apply_event (rl : RateLimiter) (e : event) : RateLimiter :=
  match e with
  | EAllow c now now' => (Allow rl c now now').2
  | ECleanup now => cleanup_tick rl now
  end.

(** The requests of a client that a run lets through. *)
Fixpoint admitted (c : string) (rl : RateLimiter) (es : list event) : Z :=
  match es with
  | [] => 0
  | e :: es =>
      (match e with
       | EAllow c' now now' =>
           if String.eqb c c' && (Allow rl c' now now').1 then 1 else 0
       | ECleanup _ => 0
       end) + admitted c (apply_event rl e) es
  end.

(** All clock readings of an event lie in an interval. *)
Definition within (lo hi : Time) (e : event) : Prop :=
  match e with
  | EAllow _ now now' => lo <= now <= hi ∧ lo <= now' <= hi
  | ECleanup now => lo <= now <= hi
  end.

(** ** The middleware *)

Record Request := mk_Request {
  Path : string;
  Method : string;
  RemoteAddr : string;
  XForwardedFor : string;
  Authorization : string;
  api_key : string }.

Definition exempt (r : Request) : bool :=
  String.eqb (Path r) "/" || String.eqb (Path r) "/v1/health" || String.eqb (Method r) "OPTIONS".

Definition clientIP (r : Request) : string :=
  if String.eqb (XForwardedFor r) "" then RemoteAddr r
  else from_opt "" (head (split (XForwardedFor r) ",")).

Definition keyless (path : string) : bool :=
  has_prefix path "/api/peers" || has_prefix path "/api/logs" ||
  String.eqb path "/api/status" || String.eqb path "/v1/health".

Definition presented_key (r : Request) : string :=
  let key := trim_prefix (Authorization r) "Bearer " in
  if String.eqb key "" then api_key r else key.

Definition json_error (msg : string) : string :=
  "{" +:+ dq +:+ "error" +:+ dq +:+ ":" +:+ dq +:+ msg +:+ dq +:+ "}".

(** [None]: the next handler runs. *)
Definition AuthMiddleware (apiKey : string) (rl : RateLimiter) (r : Request) (now now' : Time)
    : option response * RateLimiter :=
  if exempt r then (None, rl)
  else
    match Allow rl (clientIP r) now now' with
    | (false, rl) =>
        (Some (http_Error (json_error "rate limit exceeded") StatusTooManyRequests), rl)
    | (true, rl) =>
        if negb (String.eqb apiKey "") then
          if keyless (Path r) then (None, rl)
          else if negb (String.eqb (presented_key r) apiKey) then
            (Some (http_Error (json_error "unauthorized") StatusUnauthorized), rl)
          else (None, rl)
        else (None, rl)
    end.

(** ** Lemmas *)

Definition counts_ok (rl : RateLimiter) : Prop :=
  map_Forall (λ _ b, 1 <= count b <= Z.max 1 (rate rl)) (clients rl).

(** What a client can still be admitted before [hi]: the rest of its bucket,
    and a whole new bucket unless this one outlives [hi]. *)
Definition allowance (hi : Time) (c : string) (rl : RateLimiter) : Z :=
  match clients rl !! c with
  | None => rate rl
  | Some b => rate rl - count b + (if hi <=? resetAt b then 0 else rate rl)
  end.

Lemma apply_event_rate rl e : rate (apply_event rl e) = rate rl ∧ window (apply_event rl e) = window rl.
Proof. destruct e; simpl; unfold Allow; [|done]. by repeat case_match. Qed.

Lemma apply_event_counts rl e :
  1 <= rate rl <= int64_max → counts_ok rl → counts_ok (apply_event rl e).
Proof.
  intros Hr Hok. destruct e as [c now now'|now]; simpl.
  - unfold Allow. destruct (clients rl !! c) as [b|] eqn:Hb.
    + pose proof (Hok _ _ Hb) as Hc. simpl in Hc.
      destruct (time_After now (resetAt b)).
      * apply map_Forall_insert_2; [simpl; lia|done].
      * destruct (Z.leb_spec (rate rl) (count b)); [done|].
        apply map_Forall_insert_2; [|done]. simpl. rewrite int_incr_id by lia. lia.
    + apply map_Forall_insert_2; [simpl; lia|done].
  - intros i b. simpl. intros [Hb _]%map_lookup_filter_Some. by apply Hok in Hb.
Qed.

Lemma allowance_nonneg hi c rl : 1 <= rate rl → counts_ok rl → 0 <= allowance hi c rl.
Proof.
  intros Hr Hok. unfold allowance. destruct (clients rl !! c) as [b|] eqn:Hb; [|lia].
  pose proof (Hok _ _ Hb) as Hc. simpl in Hc. case_match; lia.
Qed.

Lemma allowance_step lo hi c rl e :
  1 <= rate rl <= int64_max → counts_ok rl → hi <= lo + window rl → within lo hi e →
  (match e with
   | EAllow c' now now' => if String.eqb c c' && (Allow rl c' now now').1 then 1 else 0
   | ECleanup _ => 0
   end) + allowance hi c (apply_event rl e) <= allowance hi c rl.
Proof.
  intros Hr Hok Hwin Hin. destruct e as [c' now now'|now]; simpl in *.
  - destruct (String.eqb_spec c c') as [<-|Hne]; simpl.
    + unfold allowance, Allow. destruct (clients rl !! c) as [b|] eqn:Hb.
      * pose proof (Hok _ _ Hb) as Hc. simpl in Hc. unfold time_After.
        destruct (Z.ltb_spec (resetAt b) now) as [Hlt|Hge].
        -- simpl. rewrite lookup_insert_eq. simpl. unfold time_Add.
           rewrite (proj2 (Z.leb_le _ _)) by lia. rewrite (proj2 (Z.leb_gt _ _)) by lia. lia.
        -- destruct (Z.leb_spec (rate rl) (count b)); simpl; [by rewrite Hb|].
           rewrite lookup_insert_eq. simpl. rewrite int_incr_id by lia. lia.
      * simpl. rewrite lookup_insert_eq. simpl. unfold time_Add.
        rewrite (proj2 (Z.leb_le _ _)) by lia. lia.
    + unfold allowance. assert (clients (Allow rl c' now now').2 !! c = clients rl !! c) as ->.
      { unfold Allow. repeat case_match; simpl; rewrite ?lookup_insert_ne; done. }
      pose proof (proj1 (apply_event_rate rl (EAllow c' now now'))) as Hre. simpl in Hre.
      rewrite Hre. lia.
  - unfold allowance. simpl. rewrite map_lookup_filter.
    destruct (clients rl !! c) as [b|] eqn:Hb; simpl; [|lia].
    pose proof (Hok _ _ Hb) as Hc. simpl in Hc. unfold time_After.
    destruct (Z.ltb_spec (resetAt b) now).
    + rewrite option_guard_False by done. simpl. rewrite (proj2 (Z.leb_gt _ _)) by lia. lia.
    + rewrite option_guard_True by done. simpl. lia.
Qed.

Lemma admitted_allowance lo hi c rl es :
  1 <= rate rl <= int64_max → counts_ok rl → hi <= lo + window rl → Forall (within lo hi) es →
  admitted c rl es <= allowance hi c rl.
Proof.
  revert rl. induction es as [|e es IH]; intros rl Hr Hok Hwin Hes; cbn [admitted].
  - apply allowance_nonneg; [lia|done].
  - apply Forall_cons in Hes as [He Hes]. destruct (apply_event_rate rl e) as [Hre Hwe].
    pose proof (allowance_step lo hi c rl e Hr Hok Hwin He).
    assert (admitted c (apply_event rl e) es <= allowance hi c (apply_event rl e)); [|lia].
    apply IH; rewrite ?Hre, ?Hwe; [done|by apply apply_event_counts|done|done].
Qed.

Lemma run_counts rl es :
  1 <= rate rl <= int64_max → counts_ok rl →
  counts_ok (foldl apply_event rl es) ∧ rate (foldl apply_event rl es) = rate rl ∧
  window (foldl apply_event rl es) = window rl.
Proof.
  revert rl. induction es as [|e es IH]; intros rl Hr Hok; simpl; [done|].
  destruct (apply_event_rate rl e) as [Hre Hwe].
  destruct (IH (apply_event rl e)) as (H1 & H2 & H3);
    [by rewrite Hre|by apply apply_event_counts|]. by rewrite H2, H3.
Qed.

Lemma Allow_new_client rl c now now' : clients rl !! c = None → (Allow rl c now now').1 = true.
Proof. intros Hc. unfold Allow. by rewrite Hc. Qed.

(** ** Properties *)

(** C34: the limiter bounds every client.  After any history of requests and
    cleanups, in any span of time no longer than the window a client is let
    through at most twice the rate, whatever the other clients and the
    cleanup do in between. *)
Theorem rate_limit_bound r w hist es lo hi c :
  1 <= r <= int64_max → hi <= lo + w → Forall (within lo hi) es →
  admitted c (foldl apply_event (NewRateLimiter r w) hist) es <= 2 * r.
Proof.
  intros Hr Hwin Hes.
  destruct (run_counts (NewRateLimiter r w) hist Hr) as (Hok & Hrate & Hw).
  { apply map_Forall_empty. }
  set (rl := foldl apply_event _ hist) in *. simpl in Hrate, Hw.
  pose proof (admitted_allowance lo hi c rl es) as Hbound. rewrite Hrate, Hw in Hbound.
  specialize (Hbound Hr Hok Hwin Hes).
  assert (allowance hi c rl <= 2 * r); [|lia].
  unfold allowance. rewrite Hrate. destruct (clients rl !! c) as [b|] eqn:Hb; [|lia].
  pose proof (Hok _ _ Hb) as Hc. simpl in Hc. case_match; lia.
Qed.

(** With an API key configured, the protected handler runs only for the
    dashboard, the health check, an [OPTIONS] request, the paths that are open
    without a key, or a request that presents exactly the key; otherwise the
    reply is 401, or 429 when the limiter refused first. *)
Theorem auth_required apiKey rl r now now' :
  apiKey ≠ "" →
  match (AuthMiddleware apiKey rl r now now').1 with
  | None => exempt r = true ∨ keyless (Path r) = true ∨ presented_key r = apiKey
  | Some resp =>
      exempt r = false ∧
      (rs_code resp = StatusTooManyRequests ∧ (Allow rl (clientIP r) now now').1 = false ∨
       rs_code resp = StatusUnauthorized ∧ presented_key r ≠ apiKey ∧ keyless (Path r) = false)
  end.
Proof.
  intros Hkey. unfold AuthMiddleware. destruct (exempt r); [by left|].
  destruct (Allow rl (clientIP r) now now') as [[] rl']; simpl; [|by split; [|left]].
  destruct (String.eqb_spec apiKey ""); [done|]. simpl.
  destruct (keyless (Path r)) eqn:Hk; simpl; [by right; left|].
  destruct (String.eqb_spec (presented_key r) apiKey); simpl; [by right; right|].
  split; [done|]. by right.
Qed.

(** The limit is keyed by what the client says it is: whatever the state
    of the limiter and however small the rate, a request that forwards for an
    address the limiter has no bucket for passes the limiter, so a client that
    varies the header is never limited. *)
Theorem forwarded_for_evades_limit apiKey rl r now now' :
  XForwardedFor r ≠ "" →
  clients rl !! from_opt "" (head (split (XForwardedFor r) ",")) = None →
  match (AuthMiddleware apiKey rl r now now').1 with
  | Some resp => rs_code resp ≠ StatusTooManyRequests
  | None => True
  end.
Proof.
  intros Hf Hc. unfold AuthMiddleware. destruct (exempt r); [done|].
  assert ((Allow rl (clientIP r) now now').1 = true) as Hallow.
  { apply Allow_new_client. unfold clientIP. by apply String.eqb_neq in Hf as ->. }
  destruct (Allow rl (clientIP r) now now') as [[] rl']; simpl in *; [|done].
  by repeat case_match; simplify_eq/=.
Qed.

(** ** Witnesses *)

Lemma rate_limit_bound_witness :
  admitted "10.0.0.1:999" (foldl apply_event (NewRateLimiter 2 (60 * Second)) [])
    (repeat (EAllow "10.0.0.1:999" Second Second) 5) <= 4.
Proof.
  apply (rate_limit_bound 2 (60 * Second) [] (repeat (EAllow "10.0.0.1:999" Second Second) 5)
           0 (60 * Second) "10.0.0.1:999").
  - unfold int64_max. lia.
  - lia.
  - repeat constructor; unfold Second; lia.
Defined.

Definition example_request : Request :=
  mk_Request "/v1/chat/completions" "POST" "10.0.0.1:999" "1.2.3.4, 10.0.0.1" "Bearer guess" "".

Lemma auth_required_witness :
  match (AuthMiddleware "secret" (NewRateLimiter 2 (60 * Second)) example_request 0 0).1 with
  | None => False
  | Some resp => rs_code resp = StatusUnauthorized
  end.
Proof.
  pose proof (auth_required "secret" (NewRateLimiter 2 (60 * Second)) example_request 0 0
                ltac:(done)) as H.
  vm_compute in H. destruct H as [_ [[H _]|[H _]]]; [done|]. vm_compute. exact H.
Defined.

Lemma forwarded_for_evades_limit_witness :
  match (AuthMiddleware "" (mk_RL {["10.0.0.1" := mk_bucket 2 Second]} 2 Second)
           example_request 0 0).1 with
  | Some resp => rs_code resp ≠ StatusTooManyRequests
  | None => True
  end.
Proof.
  apply (forwarded_for_evades_limit "" (mk_RL {["10.0.0.1" := mk_bucket 2 Second]} 2 Second)
           example_request 0 0); [done|by vm_compute].
Defined.
