(* ===== verification/Cache.v ===== *)
(** * The response cache ([hive-server-go/cache.go])

    The values live in a ristretto cache, a third-party library; the sources
    keep the entries' addresses in a second map for the periodic cleanup.
    [CacheLib] is the library's interface as the sources use it and
    [CacheLibSpec] what they can rely on: the library may drop a set, evict or
    apply a set late, but it only returns values that were set under the key.
    SHA-256 is the parameter [sha256_hex]. *)

From S2P Require Import Prelude GoFloat GoText GoHttp.

Local Open Scope string_scope.
Local Open Scope list_scope.
Local Open Scope Z_scope.

(** ** The library *)

Class CacheLib := {
  cstate : Type;
  c_new : cstate;
  c_get : cstate → string → option nat;
  c_set : cstate → string → nat → cstate;
  c_del : cstate → string → cstate;
  c_clear : cstate → cstate;
  c_tick : cstate → cstate  (** buffered sets applied, entries evicted *) }.

(** [c_may s k v]: [v] is stored under [k], or a set of it is still buffered. *)
Class CacheLibSpec (L : CacheLib) := {
  c_may : cstate → string → nat → Prop;
  c_get_may s k v : c_get s k = Some v → c_may s k v;
  c_new_may k v : ¬ c_may c_new k v;
  c_set_may s k v k' v' : c_may (c_set s k v) k' v' → (k' = k ∧ v' = v) ∨ c_may s k' v';
  c_del_may s k k' v' : c_may (c_del s k) k' v' → c_may s k' v';
  c_clear_may s k v : ¬ c_may (c_clear s) k v;
  c_tick_may s k v : c_may (c_tick s) k v → c_may s k v }.

(** ** Data *)

Record CacheEntry := mk_Entry {
  Response : string; Model : string; Tokens : Z;
  CreatedAt : Time; LastAccessed : Time; AccessCount : Z }.

Record CacheConfig := mk_Config { MaxEntries : Z; EnableSemantic : bool; TTLDuration : Duration }.

Record CacheStats := mk_Stats { Hits : Z; Misses : Z; SemanticHits : Z; Size : Z; Cost : Z }.

Record ResponseCache `{CacheLib} := mk_RC {
  cache : cstate;
  config : CacheConfig;
  stats : CacheStats;
  items : gmap string nat;
  heap : gmap nat CacheEntry }.

Section cache.
Context `{L : CacheLib}.
Variable sha256_hex : string → string.

Definition NewResponseCache (cfg : CacheConfig) : ResponseCache :=
  mk_RC _ c_new cfg (mk_Stats 0 0 0 0 0) ∅ ∅.

Definition set_cache (c : cstate) (rc : ResponseCache) : ResponseCache :=
  mk_RC _ c (config rc) (stats rc) (items rc) (heap rc).
Definition set_stats (st : CacheStats) (rc : ResponseCache) : ResponseCache :=
  mk_RC _ (cache rc) (config rc) st (items rc) (heap rc).
Definition set_items (its : gmap string nat) (rc : ResponseCache) : ResponseCache :=
  mk_RC _ (cache rc) (config rc) (stats rc) its (heap rc).
Definition set_heap (h : gmap nat CacheEntry) (rc : ResponseCache) : ResponseCache :=
  mk_RC _ (cache rc) (config rc) (stats rc) (items rc) h.

(** [rc.stats.Misses++] and the others. *)
Definition add_miss (f : Z → Z) (rc : ResponseCache) : ResponseCache :=
  set_stats (mk_Stats (Hits (stats rc)) (f (Misses (stats rc))) (SemanticHits (stats rc))
               (Size (stats rc)) (Cost (stats rc))) rc.
Definition add_hit (rc : ResponseCache) : ResponseCache :=
  set_stats (mk_Stats (int_incr (Hits (stats rc))) (Misses (stats rc)) (SemanticHits (stats rc))
               (Size (stats rc)) (Cost (stats rc))) rc.

(** ** Operations *)

Definition key_text (model systemPrompt userMessage : string) : string :=
  model +:+ "|" +:+ systemPrompt +:+ "|" +:+ userMessage.

Definition GenerateCacheKey (model systemPrompt userMessage : string) : string :=
  sha256_hex (key_text model systemPrompt userMessage).

(** Every value the library holds is an entry pointer, so the type assertion
    succeeds. *)
Definition touch (now : Time) (e : CacheEntry) : CacheEntry :=
  mk_Entry (Response e) (Model e) (Tokens e) (CreatedAt e) now (int_incr (AccessCount e)).

Definition Get (rc : ResponseCache) (model systemPrompt userMessage : string) (now : Time)
    : option nat * ResponseCache :=
  let key := GenerateCacheKey model systemPrompt userMessage in
  let rc := add_miss int_incr rc in
  match c_get (cache rc) key with
  | None => (None, add_miss int_decr rc)
  | Some entry => (Some entry, add_hit (set_heap (alter (touch now) entry (heap rc)) rc))
  end.

(** [p] is the address of the new entry. *)
Definition Set_ (rc : ResponseCache) (model systemPrompt userMessage response : string)
    (tokens : Z) (p : nat) (now now' : Time) : ResponseCache :=
  let key := GenerateCacheKey model systemPrompt userMessage in
  let entry := mk_Entry response model tokens now now' 1 in
  let rc := set_heap (<[p := entry]> (heap rc)) rc in
  let rc := set_cache (c_set (cache rc) key p) rc in
  set_items (<[key := p]> (items rc)) rc.

Definition Delete (rc : ResponseCache) (model systemPrompt userMessage : string) : ResponseCache :=
  let key := GenerateCacheKey model systemPrompt userMessage in
  let rc := set_cache (c_del (cache rc) key) rc in
  set_items (delete key (items rc)) rc.

Definition Stats (rc : ResponseCache) : CacheStats * ResponseCache :=
  let size := Z.of_nat (size (items rc)) in
  let st := mk_Stats (Hits (stats rc)) (Misses (stats rc)) (SemanticHits (stats rc)) size size in
  (st, set_stats st rc).

Definition Clear (rc : ResponseCache) : ResponseCache :=
  set_items ∅ (set_cache (c_clear (cache rc)) rc).

Definition expired (rc : ResponseCache) (now : Time) (p : nat) : bool :=
  match heap rc !! p with
  | Some e => TTLDuration (config rc) <? time_Sub now (CreatedAt e)
  | None => false
  end.

(** One pass of the cleanup, in the order the map is ranged over. *)
Definition cleanup_one (now : Time) (rc : ResponseCache) (e : string * nat) : ResponseCache :=
  if expired rc now e.2 then
    set_items (delete e.1 (items rc)) (set_cache (c_del (cache rc) e.1) rc)
  else rc.

Definition cleanupExpired (rc : ResponseCache) (ord : list (string * nat)) (now : Time)
    : ResponseCache :=
  foldl (cleanup_one now) rc ord.

(** ** Runs *)

Record set_call := mk_set_call {
  sc_model : string; sc_system : string; sc_user : string; sc_response : string; sc_tokens : Z }.

Inductive event :=
  | EGet (model system user : string) (now : Time)
  | ESet (c : set_call) (p : nat) (now now' : Time)
  | EDelete (model system user : string)
  | EStats
  | EClear
  | ECleanup (ord : list (string * nat)) (now : Time)
  | ETick.

Definition apply_event (rc : ResponseCache) (e : event) : ResponseCache :=
  match e with
  | EGet m s u now => (Get rc m s u now).2
  | ESet c p now now' =>
      Set_ rc (sc_model c) (sc_system c) (sc_user c) (sc_response c) (sc_tokens c) p now now'
  | EDelete m s u => Delete rc m s u
  | EStats => (Stats rc).2
  | EClear => Clear rc
  | ECleanup ord now => cleanupExpired rc ord now
  | ETick => set_cache (c_tick (cache rc)) rc
  end.

(** Entries are allocated at fresh addresses. *)
Fixpoint well_allocated (rc : ResponseCache) (es : list event) : Prop :=
  match es with
  | [] => True
  | e :: es =>
      match e with ESet _ p _ _ => heap rc !! p = None | _ => True end ∧
      well_allocated (apply_event rc e) es
  end.

Definition run (rc : ResponseCache) (es : list event) : ResponseCache := foldl apply_event rc es.

Definition sets (es : list event) : list set_call :=
  omap (λ e, match e with ESet c _ _ _ => Some c | _ => None end) es.

(** The lookups of a run that find something. *)
Fixpoint hits (rc : ResponseCache) (es : list event) : nat :=
  match es with
  | [] => 0%nat
  | e :: es =>
      (match e with
       | EGet m s u now => match (Get rc m s u now).1 with Some _ => 1 | None => 0 end
       | _ => 0
       end + hits (apply_event rc e) es)%nat
  end.

(** Every value the library may return is an entry made by a [Set] whose key
    has the same hash. *)
Definition sound `{!CacheLibSpec L} (log : list set_call) (rc : ResponseCache) : Prop :=
  ∀ k v, c_may (cache rc) k v → ∃ e c, heap rc !! v = Some e ∧ c ∈ log ∧
    GenerateCacheKey (sc_model c) (sc_system c) (sc_user c) = k ∧
    Response e = sc_response c ∧ Model e = sc_model c ∧ Tokens e = sc_tokens c.

(** ** Lemmas *)

Section facts.
Context `{!CacheLibSpec L}.

Lemma sound_weaken log log' rc : (∀ c, c ∈ log → c ∈ log') → sound log rc → sound log' rc.
Proof. intros Hsub Hs k v Hm. destruct (Hs k v Hm) as (e & c & ? & ? & ?). exists e, c. auto. Qed.

Lemma sound_shrink log rc c' its :
  (∀ k v, c_may c' k v → c_may (cache rc) k v) → sound log rc →
  sound log (set_items its (set_cache c' rc)).
Proof. intros Hsub Hs k v Hm. simpl in *. apply Hs, Hsub, Hm. Qed.

Lemma cleanup_sound log ord now rc : sound log rc → sound log (cleanupExpired rc ord now).
Proof.
  unfold cleanupExpired. revert rc. induction ord as [|e ord IH]; intros rc Hs; simpl; [done|].
  apply IH. unfold cleanup_one. destruct (expired rc now e.2); [|done].
  apply (sound_shrink log rc); [|done]. intros k v. apply c_del_may.
Qed.

Lemma sound_step log rc e :
  match e with ESet _ p _ _ => heap rc !! p = None | _ => True end →
  sound log rc → sound (log ++ sets [e]) (apply_event rc e).
Proof.
  intros Hfresh Hs. destruct e as [m s u now|c p now now'|m s u| | |ord now|]; simpl; rewrite ?app_nil_r.
  - unfold Get. simpl. destruct (c_get (cache rc) _) as [q|]; simpl; [|exact Hs].
    intros k v Hm. simpl in *. destruct (Hs k v Hm) as (e & c & He & Hc & Hrest).
    destruct (decide (q = v)) as [->|Hne].
    + exists (touch now e), c. rewrite lookup_alter_eq, He. done.
    + exists e, c. by rewrite lookup_alter_ne.
  - intros k v Hm. simpl in *. apply c_set_may in Hm as [[-> ->]|Hm].
    + eexists _, c. rewrite lookup_insert_eq. split; [done|]. split; [|done].
      apply elem_of_app. right. by left.
    + destruct (Hs k v Hm) as (e & c' & He & Hc & Hrest). exists e, c'.
      rewrite lookup_insert_ne by congruence. split; [done|]. split; [|done].
      apply elem_of_app. by left.
  - apply sound_shrink; [|done]. intros k v. apply c_del_may.
  - exact Hs.
  - intros k v Hm. simpl in Hm. by apply c_clear_may in Hm.
  - by apply cleanup_sound.
  - apply (sound_shrink log rc _ (items rc)); [|done]. intros k v. apply c_tick_may.
Qed.

Lemma sets_app es es' : sets (es ++ es') = (sets es ++ sets es')%list.
Proof. apply omap_app. Qed.

Lemma sound_run log rc es :
  well_allocated rc es → sound log rc → sound (log ++ sets es) (run rc es).
Proof.
  revert log rc. induction es as [|e es IH]; intros log rc Hw Hs.
  - by rewrite app_nil_r.
  - destruct Hw as [He Hw]. change (e :: es) with ([e] ++ es). rewrite sets_app, app_assoc.
    apply IH; [done|]. by apply sound_step.
Qed.

Lemma new_sound cfg : sound [] (NewResponseCache cfg).
Proof. intros k v Hm. by apply c_new_may in Hm. Qed.

End facts.

Lemma cleanup_stats ord now rc : stats (cleanupExpired rc ord now) = stats rc.
Proof.
  unfold cleanupExpired. revert rc. induction ord as [|e ord IH]; intros rc; simpl; [done|].
  rewrite IH. unfold cleanup_one. by destruct (expired rc now e.2).
Qed.

Lemma int_decr_incr z : int64_range z → int_decr (int_incr z) = z.
Proof.
  intros Hz. unfold int_decr, int_incr, int_sub, int_add, wrap64.
  unfold int64_range, int64_min, int64_max in Hz.
  replace ((z + 1 + 2 ^ 63) mod 2 ^ 64 - 2 ^ 63 - 1 + 2 ^ 63) with ((z + 1 + 2 ^ 63) mod 2 ^ 64 - 1) by lia.
  rewrite Zminus_mod_idemp_l. replace (z + 1 + 2 ^ 63 - 1) with (z + 2 ^ 63) by lia.
  rewrite Z.mod_small by lia. lia.
Qed.

Lemma stats_step rc e n :
  Hits (stats rc) = n → Misses (stats rc) = n → 0 <= n < int64_max →
  let n' := n + Z.of_nat (hits rc [e]) in
  Hits (stats (apply_event rc e)) = n' ∧ Misses (stats (apply_event rc e)) = n'.
Proof.
  intros Hh Hm Hn. assert (int64_range n) as Hr by (unfold int64_range, int64_min; lia).
  destruct e as [m s u now|c p now now'|m s u| | |ord now|]; simpl; rewrite ?Z.add_0_r; try done.
  - unfold Get. simpl. destruct (c_get (cache rc) _) as [q|]; simpl; rewrite ?Hh, ?Hm.
    + rewrite int_incr_id by lia. lia.
    + rewrite int_decr_incr by done. lia.
  - by rewrite cleanup_stats.
Qed.

Lemma hits_cons rc e es : hits rc (e :: es) = (hits rc [e] + hits (apply_event rc e) es)%nat.
Proof. simpl. lia. Qed.

Lemma stats_run rc es n :
  Hits (stats rc) = n → Misses (stats rc) = n → 0 <= n →
  n + Z.of_nat (length es) <= int64_max →
  Hits (stats (run rc es)) = n + Z.of_nat (hits rc es) ∧
  Misses (stats (run rc es)) = n + Z.of_nat (hits rc es).
Proof.
  revert rc n. induction es as [|e es IH]; intros rc n Hh Hm Hn Hlen.
  - simpl. by rewrite Z.add_0_r.
  - rewrite hits_cons. simpl in Hlen.
    destruct (stats_step rc e n Hh Hm) as [Hh' Hm']; [lia|].
    assert (hits rc [e] ≤ 1)%nat as H1.
    { destruct e as [m s u now| | | | | |]; simpl; try lia. destruct (Get rc m s u now).1; lia. }
    destruct (IH (apply_event rc e) (n + Z.of_nat (hits rc [e])) Hh' Hm') as [H2 H3]; [lia..|].
    change (run rc (e :: es)) with (run (apply_event rc e) es).
    rewrite H2, H3, Nat2Z.inj_add. lia.
Qed.

Lemma cleanup_items ord now rc :
  (∀ k p, (k, p) ∈ ord → items rc !! k = Some p) → NoDup (fst <$> ord) →
  ∀ k, items (cleanupExpired rc ord now) !! k =
    match items rc !! k with
    | Some p => if bool_decide ((k, p) ∈ ord) && expired rc now p then None else Some p
    | None => None
    end.
Proof.
  unfold cleanupExpired. revert rc. induction ord as [|[k0 p0] ord IH]; intros rc Hin Hnd k.
  - simpl. by destruct (items rc !! k).
  - apply NoDup_cons in Hnd as [Hni Hnd]. cbn [foldl].
    assert (items rc !! k0 = Some p0) as H0 by (apply Hin; by left).
    assert (∀ k p, (k, p) ∈ ord → k ≠ k0) as Hne.
    { intros k1 p1 H1 ->. apply Hni. apply list_elem_of_fmap. by exists (k0, p1). }
    assert (∀ p, expired (cleanup_one now rc (k0, p0)) now p = expired rc now p) as Hexp.
    { intros p. unfold cleanup_one. by destruct (expired rc now _). }
    rewrite IH; [|intros k1 p1 H1|done].
    + destruct (decide (k = k0)) as [->|Hk].
      * rewrite H0. unfold cleanup_one at 1. simpl. destruct (expired rc now p0) eqn:He; simpl.
        -- rewrite lookup_delete_eq, bool_decide_eq_true_2 by (by left). done.
        -- rewrite H0, Hexp, He. by rewrite !andb_false_r.
      * assert (items (cleanup_one now rc (k0, p0)) !! k = items rc !! k) as ->.
        { unfold cleanup_one. simpl.
          destruct (expired rc now p0); simpl; [by rewrite lookup_delete_ne|done]. }
        destruct (items rc !! k) as [p|]; [|done]. rewrite Hexp.
        rewrite (bool_decide_ext ((k, p) ∈ (k0, p0) :: ord) ((k, p) ∈ ord)); [done|].
        rewrite elem_of_cons. naive_solver.
    + unfold cleanup_one. simpl. specialize (Hne _ _ H1).
      destruct (expired rc now p0); simpl; [rewrite lookup_delete_ne by done|];
        apply Hin; by right.
Qed.

(** ** Properties *)

(** The cache never makes up an answer.  After any sequence of operations,
    evictions and cleanups, a lookup that finds an entry returns the response,
    the model and the token count of an earlier [Set] whose key text has the
    same hash; so with a hash that does not collide on the texts in use, of a
    [Set] with the same key text. *)
Theorem cache_get_sound `{!CacheLibSpec L} cfg es m s u now p rc' :
  (∀ c, c ∈ sets es → sha256_hex (key_text (sc_model c) (sc_system c) (sc_user c)) =
                      sha256_hex (key_text m s u) →
                      key_text (sc_model c) (sc_system c) (sc_user c) = key_text m s u) →
  well_allocated (NewResponseCache cfg) es →
  Get (run (NewResponseCache cfg) es) m s u now = (Some p, rc') →
  ∃ e c, heap rc' !! p = Some e ∧ c ∈ sets es ∧
    key_text (sc_model c) (sc_system c) (sc_user c) = key_text m s u ∧
    Response e = sc_response c ∧ Model e = sc_model c ∧ Tokens e = sc_tokens c.
Proof.
  intros Hinj Hw Hget. pose proof (sound_run [] _ es Hw (new_sound cfg)) as Hs.
  set (rc := run _ es) in *. unfold Get in Hget. simpl in Hget.
  destruct (c_get (cache rc) (GenerateCacheKey m s u)) as [q|] eqn:Hq; simplify_eq/=.
  apply c_get_may, Hs in Hq as (e & c & He & Hc & Hkey & Hrest).
  exists (touch now e), c. rewrite lookup_alter_eq, He. simpl. split_and!; try tauto.
  by apply Hinj.
Qed.

(** The statistics count the wrong way round.  After any run from an empty
    cache the number of misses reported equals the number of hits: every hit
    is counted as a miss too, and a lookup that finds nothing is not counted. *)
Theorem stats_count_hits_as_misses cfg es :
  Z.of_nat (length es) <= int64_max →
  let rc := run (NewResponseCache cfg) es in
  Hits (stats rc) = Z.of_nat (hits (NewResponseCache cfg) es) ∧
  Misses (stats rc) = Z.of_nat (hits (NewResponseCache cfg) es).
Proof. intros Hlen. by apply (stats_run (NewResponseCache cfg) es 0). Qed.

(** The key does not determine the request: text moved across the
    separator between system prompt and user message gives the same key, with
    any hash, so the two requests share their cached answer. *)
Theorem cache_key_ambiguous rc m s x u now :
  Get rc m (s +:+ "|" +:+ x) u now = Get rc m s (x +:+ "|" +:+ u) now.
Proof.
  unfold Get, GenerateCacheKey, key_text. by rewrite <-!str_app_assoc.
Qed.

(** A cleanup pass over the whole map drops exactly the entries older than
    the time to live, in whatever order the map is ranged over. *)
Theorem cleanup_exact rc ord now k :
  map_range (items rc) ord →
  items (cleanupExpired rc ord now) !! k =
  match items rc !! k with
  | Some p => if expired rc now p then None else Some p
  | None => None
  end.
Proof.
  intros Hord. rewrite cleanup_items.
  - destruct (items rc !! k) as [p|] eqn:Hp; [|done].
    rewrite bool_decide_eq_true_2; [done|]. by apply (map_range_elem _ _ _ _ Hord).
  - intros k0 p0 H0. by apply (map_range_elem _ _ _ _ Hord).
  - by eapply map_range_keys_NoDup.
Qed.

End cache.

(** ** An implementation: a cache that keeps everything *)

#[global] Instance map_cache : CacheLib := {|
  cstate := gmap string nat;
  c_new := ∅;
  c_get s k := s !! k;
  c_set s k v := <[k := v]> s;
  c_del s k := delete k s;
  c_clear _ := ∅;
  c_tick s := s |}.

#[global] Instance map_cache_spec : CacheLibSpec map_cache.
Proof.
  refine {| c_may := λ s k v, (s : gmap string nat) !! k = Some v |}; simpl.
  - done.
  - intros k v Hl. by apply (lookup_empty_Some k v) in Hl.
  - intros s k v k' v' [[? ?]|[? ?]]%lookup_insert_Some; auto.
  - intros s k k' v' [_ ?]%lookup_delete_Some. done.
  - intros s k v Hl. by apply (lookup_empty_Some k v) in Hl.
  - done.
Defined.

Definition example_set : event :=
  ESet (mk_set_call "llama3" "be brief" "hi" "hello" 2) 1%nat Second Second.
Definition example_cfg : CacheConfig := mk_Config 10 false (60 * Second).

Lemma cache_get_sound_witness :
  ∃ p rc', Get (λ t, t) (run (λ t, t) (NewResponseCache example_cfg) [example_set])
             "llama3" "be brief" "hi" (2 * Second) = (Some p, rc') ∧
    ∃ e, heap rc' !! p = Some e ∧ Response e = "hello".
Proof.
  destruct (Get (λ t, t) (run (λ t, t) (NewResponseCache example_cfg) [example_set])
             "llama3" "be brief" "hi" (2 * Second)) as [o rc'] eqn:Hg.
  assert (o = Some 1%nat) as -> by (pose proof (f_equal fst Hg) as H; vm_compute in H; congruence).
  exists 1%nat, rc'. split; [done|].
  destruct (cache_get_sound (λ t, t) example_cfg [example_set] "llama3" "be brief" "hi" (2 * Second)
              1%nat rc') as (e & c & He & Hc & _ & Hr & _).
  - by intros c _ ?.
  - by vm_compute.
  - exact Hg.
  - exists e. split; [exact He|]. rewrite Hr. vm_compute in Hc.
    by apply list_elem_of_singleton in Hc as ->.
Defined.

Lemma stats_count_hits_as_misses_witness :
  Misses (stats (run (λ t, t) (NewResponseCache example_cfg)
    [example_set; EGet "llama3" "be brief" "hi" 0; EGet "m" "" "" 0])) = 1.
Proof.
  destruct (stats_count_hits_as_misses (λ t, t) example_cfg
    [example_set; EGet "llama3" "be brief" "hi" 0; EGet "m" "" "" 0]) as [_ Hm]; [by vm_compute|].
  rewrite Hm. by vm_compute.
Defined.

Lemma cleanup_exact_witness :
  let rc := run (λ t, t) (NewResponseCache example_cfg) [example_set] in
  items (cleanupExpired rc [("llama3|be brief|hi", 1%nat)] (62 * Second)) !! "llama3|be brief|hi" = None.
Proof.
  intros rc. rewrite (cleanup_exact (λ t, t) rc [("llama3|be brief|hi", 1%nat)] (62 * Second)).
  - by vm_compute.
  - unfold map_range. by vm_compute.
Defined.
