(* ===== verification/CacheUse.v ===== *)
(** * The response cache in concurrent use ([hive-server-go/cache.go])

    [Cache] has the methods as whole operations.  The source holds the mutex
    only for the statistics and the second map: the calls of the library are
    made outside it.  Here a method is cut at the mutex and at the library's
    calls, any number of calls run at a time, and the background loop and
    [Close] take part.  A pass of the cleanup holds the mutex throughout, so
    that only steps which do not need it come in between. *)

From S2P Require Import Prelude GoFloat GoText GoHttp Cache.

Local Open Scope string_scope.
Local Open Scope list_scope.
Local Open Scope Z_scope.

(** ** State *)

(** A call that has not returned: a lookup before the library is asked, and
    after it; a [Set] before and after the library's; a [Delete] and a [Clear]
    after the library's. *)
Inductive pending :=
  | PGet (key : string)
  | PMiss
  | PHit (key : string) (p : nat)
  | PSetLib (key : string) (p : nat)
  | PSetItem (key : string) (p : nat)
  | PDelItem (key : string)
  | PClearItems.

(** The background loop: at its [select], in a pass, or returned, which closes
    [cleanupDone]. *)
Inductive loop_pc := LSelect | LPass (left : list (string * nat)) (now : Time) | LDone.

(** The call of [Close]: none yet, waiting for the loop, returned. *)
Inductive close_pc := CNone | CWait | CReturned.

(** [u_log] notes the calls of [Set] begun. *)
Record use `{CacheLib} := mk_use {
  u_cache : ResponseCache;
  u_pending : list pending;
  u_loop : loop_pc;
  u_stop : bool;
  u_close : close_pc;
  u_log : list set_call }.

Section use.
Context `{L : CacheLib}.
Variable sha256_hex : string → string.
Implicit Types U : use.

Definition set_u (rc : ResponseCache) (ps : list pending) U : use :=
  mk_use _ rc ps (u_loop U) (u_stop U) (u_close U) (u_log U).
Definition set_u_loop (l : loop_pc) U : use :=
  mk_use _ (u_cache U) (u_pending U) l (u_stop U) (u_close U) (u_log U).
Definition set_u_close (stop : bool) (c : close_pc) U : use :=
  mk_use _ (u_cache U) (u_pending U) (u_loop U) stop c (u_log U).

(** The mutex is free unless a pass is going on. *)
Definition unlocked U : Prop := match u_loop U with LPass _ _ => False | _ => True end.

Definition call_key (c : set_call) : string := GenerateCacheKey sha256_hex (sc_model c) (sc_system c) (sc_user c).

(** The new cache with its loop. *)
Definition start (cfg : CacheConfig) : use := mk_use _ (NewResponseCache cfg) [] LSelect false CNone [].

(** ** The halves of a method *)

(** What a pending call does next: the call that remains, if any. *)
Definition advance (now : Time) (c : pending) (rc : ResponseCache) : ResponseCache * option pending :=
  match c with
  | PGet key => (rc, Some match c_get (cache rc) key with Some p => PHit key p | None => PMiss end)
  | PMiss => (add_miss int_decr rc, None)
  | PHit _ p => (add_hit (set_heap (alter (touch now) p (heap rc)) rc), None)
  | PSetLib key p => (set_cache (c_set (cache rc) key p) rc, Some (PSetItem key p))
  | PSetItem key p => (set_items (<[key := p]> (items rc)) rc, None)
  | PDelItem key => (set_items (delete key (items rc)) rc, None)
  | PClearItems => (set_items ∅ rc, None)
  end.

(** The steps that take the mutex. *)
Definition locks (c : pending) : bool := match c with PGet _ | PSetLib _ _ => false | _ => true end.

(** ** Steps *)

Inductive ustep : use → use → Prop :=
  | us_get U key :
      unlocked U → ustep U (set_u (add_miss int_incr (u_cache U)) (PGet key :: u_pending U) U)
  | us_set U c p now now' :
      heap (u_cache U) !! p = None →
      ustep U (mk_use _ (set_heap (<[p := mk_Entry (sc_response c) (sc_model c) (sc_tokens c) now now' 1]> (heap (u_cache U)))
                           (u_cache U))
                 (PSetLib (call_key c) p :: u_pending U) (u_loop U) (u_stop U) (u_close U) (c :: u_log U))
  | us_delete U key :
      ustep U (set_u (set_cache (c_del (cache (u_cache U)) key) (u_cache U)) (PDelItem key :: u_pending U) U)
  | us_clear U : ustep U (set_u (set_cache (c_clear (cache (u_cache U))) (u_cache U)) (PClearItems :: u_pending U) U)
  | us_advance U l1 c l2 now :
      u_pending U = l1 ++ c :: l2 → (locks c = true → unlocked U) →
      ustep U (set_u (advance now c (u_cache U)).1
                 (l1 ++ option_list (advance now c (u_cache U)).2 ++ l2) U)
  | us_stats U : unlocked U → ustep U (set_u (Stats (u_cache U)).2 (u_pending U) U)
  | us_library U : ustep U (set_u (set_cache (c_tick (cache (u_cache U))) (u_cache U)) (u_pending U) U)
  | us_pass U ord now :
      u_loop U = LSelect → map_range (items (u_cache U)) ord → ustep U (set_u_loop (LPass ord now) U)
  | us_clean U e left now :
      u_loop U = LPass (e :: left) now →
      ustep U (set_u_loop (LPass left now) (set_u (cleanup_one now (u_cache U) e) (u_pending U) U))
  | us_passed U now : u_loop U = LPass [] now → ustep U (set_u_loop LSelect U)
  | us_loop_returns U : u_loop U = LSelect → u_stop U = true → ustep U (set_u_loop LDone U)
  | us_close U : u_stop U = false → ustep U (set_u_close true CWait U)
  | us_closed U : u_close U = CWait → u_loop U = LDone → ustep U (set_u_close (u_stop U) CReturned U).

(** [Close]: its first statement panics when the channel is closed. *)
Definition Close U : panics use := if u_stop U then None else Some (set_u_close true CWait U).

(** ** Notions of the properties *)

(** The entry at [p] is one that some [Set] under the key made. *)
Definition made (key : string) (p : nat) U : Prop :=
  ∃ e c, heap (u_cache U) !! p = Some e ∧ c ∈ u_log U ∧ call_key c = key ∧
    Response e = sc_response c ∧ Model e = sc_model c ∧ Tokens e = sc_tokens c.

Definition holds (key : string) (p : nat) (c : pending) : Prop := c = PHit key p ∨ c = PSetLib key p.

(** Every value the library has or may get, and every value a lookup is about
    to return, was made by a [Set] of its key. *)
Record uinv `{!CacheLibSpec L} U : Prop := mk_uinv {
  ui_library k v : c_may (cache (u_cache U)) k v → made k v U;
  ui_pending k v c : c ∈ u_pending U → holds k v c → made k v U }.

(** A lookup that has not returned, and the number of them. *)
Definition is_lookup (c : pending) : bool := match c with PGet _ | PMiss | PHit _ _ => true | _ => false end.

Definition lookups (ps : list pending) : Z := Z.of_nat (length (filter (λ c, is_lookup c = true) ps)).

(** Only lookups are running, the loop apart. *)
Definition quiet U : Prop := Forall (λ c, is_lookup c = true) (u_pending U).
Definition quiet_step U U' : Prop := ustep U U' ∧ quiet U'.

(** The library returns the entry, and neither the second map nor the rest of
    a pass has its key. *)
Record orphan (key : string) (p : nat) U : Prop := mk_orphan {
  or_get : c_get (cache (u_cache U)) key = Some p;
  or_items : items (u_cache U) !! key = None;
  or_pass left now : u_loop U = LPass left now → key ∉ left.*1 }.

(** How far [Close] and the loop are. *)
Record shut U : Prop := mk_shut {
  sh_stop : u_stop U = true ↔ u_close U ≠ CNone;
  sh_loop : u_loop U = LDone → u_stop U = true;
  sh_returned : u_close U = CReturned → u_loop U = LDone }.

(** Misses and hits differ by the lookups in flight, up to the wrap-around of
    the counters. *)
Definition miss_gap U : Prop :=
  ∃ k, Misses (stats (u_cache U)) = Hits (stats (u_cache U)) + lookups (u_pending U) + k * 2 ^ 64.

(** ** Soundness *)

Section sound.
Context `{!CacheLibSpec L}.

Lemma start_uinv cfg : uinv (start cfg).
Proof. split; simpl; [intros k v H; by apply c_new_may in H|intros k v c H; by apply not_elem_of_nil in H]. Qed.

(** A step that leaves what an entry says alone. *)
Definition same_entries U U' : Prop := ∀ k p, made k p U → made k p U'.

Lemma uinv_step U U' :
  uinv U → same_entries U U' →
  (∀ k v, c_may (cache (u_cache U')) k v → c_may (cache (u_cache U)) k v ∨ made k v U') →
  (∀ k v c, c ∈ u_pending U' → holds k v c → made k v U' ∨ c ∈ u_pending U) → uinv U'.
Proof.
  intros [H1 H2] Hs Hl Hp. split.
  - intros k v [Hm|Hm]%Hl; [|done]. by apply Hs, H1.
  - intros k v c Hc Hh. destruct (Hp k v c Hc Hh) as [?|Hold]; [done|]. by eapply Hs, H2.
Qed.

Lemma same_entries_heap U U' :
  heap (u_cache U') = heap (u_cache U) → u_log U' = u_log U → same_entries U U'.
Proof. intros Hh Hl k p (e & c & He & Hc & Hr). exists e, c. by rewrite Hh, Hl. Qed.

Lemma cleanup_one_heap now rc e : heap (cleanup_one now rc e) = heap rc.
Proof. unfold cleanup_one. by case_match. Qed.

Lemma cleanup_one_may now rc e k v : c_may (cache (cleanup_one now rc e)) k v → c_may (cache rc) k v.
Proof. unfold cleanup_one. case_match; [|done]. simpl. by apply c_del_may. Qed.

Lemma advance_entries now c U ps : same_entries U (set_u (advance now c (u_cache U)).1 ps U).
Proof.
  destruct c; try (by apply same_entries_heap). intros k q (e & c & He & Hc & Hk & Hr).
  destruct (decide (q = p)) as [->|Hne].
  - exists (touch now e), c. simpl. rewrite lookup_alter_eq, He. by split_and!; try apply Hr.
  - exists e, c. simpl. by rewrite lookup_alter_ne by done.
Qed.

(** A step that leaves the entries and the log alone, only takes values out of
    the library, and starts no call about a value. *)
Lemma uinv_local U U' :
  uinv U → heap (u_cache U') = heap (u_cache U) → u_log U' = u_log U →
  (∀ k v, c_may (cache (u_cache U')) k v → c_may (cache (u_cache U)) k v) →
  (∀ k v c, c ∈ u_pending U' → holds k v c → c ∈ u_pending U) → uinv U'.
Proof.
  intros HI Hh Hl Hm Hp. apply (uinv_step _ _ HI); [by apply same_entries_heap| |];
    intros; [left|right]; eauto.
Qed.

Lemma holds_call k v c c' ps : (∀ k v, ¬ holds k v c') → c ∈ c' :: ps → holds k v c → c ∈ ps.
Proof. intros Hn Hc Hh. apply elem_of_cons in Hc as [->|Hc]; [by edestruct Hn|done]. Qed.

Lemma set_uinv U c p now now' ps :
  uinv U → heap (u_cache U) !! p = None → ps = PSetLib (call_key c) p :: u_pending U →
  uinv (mk_use _ (set_heap (<[p := mk_Entry (sc_response c) (sc_model c) (sc_tokens c) now now' 1]>
                              (heap (u_cache U))) (u_cache U))
          ps (u_loop U) (u_stop U) (u_close U) (c :: u_log U)).
Proof.
  intros HI Hp ->. apply (uinv_step _ _ HI); [| |].
  - intros k q (e & c' & He & Hc' & Hr). exists e, c'. simpl.
    rewrite lookup_insert_ne by congruence. split; [done|]. split; [by right|done].
  - intros k v Hm. by left.
  - intros k v c' Hc Hh. apply elem_of_cons in Hc as [->|Hc]; [left|by right].
    destruct Hh as [?|[= <- <-]]; [done|]. eexists _, c. simpl. rewrite lookup_insert_eq.
    split; [done|]. split; [by left|done].
Qed.

Lemma advance_uinv U l1 c l2 now :
  uinv U → u_pending U = l1 ++ c :: l2 →
  uinv (set_u (advance now c (u_cache U)).1 (l1 ++ option_list (advance now c (u_cache U)).2 ++ l2) U).
Proof.
  intros HI Hc. pose proof HI as [H1 H2].
  assert (c ∈ u_pending U) as Hin by (rewrite Hc, elem_of_app, elem_of_cons; auto).
  apply (uinv_step _ _ HI); [apply advance_entries| |].
  - intros k v Hm. destruct c as [key| |key q|key q|key q|key|]; try (by left). simpl in Hm.
    destruct (c_set_may _ _ _ _ _ Hm) as [[-> ->]|]; [right|by left].
    apply (advance_entries now (PSetLib key q) U). apply (H2 key q (PSetLib key q)); [done|by right].
  - intros k v c' Hin' Hh. simpl in Hin'. rewrite !elem_of_app in Hin'.
    rewrite Hc, elem_of_app, elem_of_cons. destruct Hin' as [?|[Hn|?]]; [auto| |auto].
    left. apply (advance_entries now c U).
    destruct c as [key| |key q|key q|key q|key|]; simpl in Hn; try (by apply not_elem_of_nil in Hn);
      apply list_elem_of_singleton in Hn as ->; [|by destruct Hh].
    destruct (c_get (cache (u_cache U)) key) as [q|] eqn:Hg; [|by destruct Hh].
    destruct Hh as [[= -> ->]|?]; [|done]. by apply H1, c_get_may.
Qed.

Lemma ustep_uinv U U' : uinv U → ustep U U' → uinv U'.
Proof.
  intros HI Hstep.
  destruct Hstep as [U key _|U c p now now' Hp|U key|U|U l1 c l2 now Hc _|U _|U|U ord now _ _
                    |U e left now _|U now _|U _ _|U _|U _ _];
    try (by apply set_uinv); try (by apply advance_uinv); (apply (uinv_local _ _ HI); [try done| |simpl|simpl]);
    try done; try (intros k v c Hc; eapply holds_call, Hc; by intros ? ? [|]).
  - intros k v. apply c_del_may.
  - intros k v Hm. by apply c_clear_may in Hm.
  - intros k v. apply c_tick_may.
  - apply cleanup_one_heap.
  - intros k v. apply cleanup_one_may.
Qed.

Lemma usteps_uinv cfg U : rtc ustep (start cfg) U → uinv U.
Proof. intros Hr. pose proof (start_uinv cfg) as HI. induction Hr; eauto using ustep_uinv. Qed.

(** C33: whatever the interleaving of the calls, the loop and [Close], an entry
    that a lookup is about to return is one that a [Set] with the same hash of
    model, system prompt and message made. *)
Theorem concurrent_get_sound cfg U key p :
  rtc ustep (start cfg) U → PHit key p ∈ u_pending U →
  ∃ e c, heap (u_cache U) !! p = Some e ∧ c ∈ u_log U ∧ call_key c = key ∧
    Response e = sc_response c ∧ Model e = sc_model c ∧ Tokens e = sc_tokens c.
Proof. intros Hr Hin. eapply (ui_pending _ (usteps_uinv _ _ Hr)); [exact Hin|by left]. Qed.

End sound.

(** ** Statistics *)

Lemma int_incr_wrap z : ∃ k, int_incr z = z + 1 + k * 2 ^ 64.
Proof. unfold int_incr, int_add, wrap64. exists (- ((z + 1 + 2 ^ 63) / 2 ^ 64)). Z.to_euclidean_division_equations; lia. Qed.

Lemma int_decr_wrap z : ∃ k, int_decr z = z - 1 + k * 2 ^ 64.
Proof. unfold int_decr, int_sub, wrap64. exists (- ((z - 1 + 2 ^ 63) / 2 ^ 64)). Z.to_euclidean_division_equations; lia. Qed.

Lemma lookups_cons c ps : lookups (c :: ps) = (if is_lookup c then 1 else 0) + lookups ps.
Proof. unfold lookups. rewrite filter_cons. destruct (is_lookup c); simpl; lia. Qed.

Lemma lookups_app l1 l2 : lookups (l1 ++ l2) = lookups l1 + lookups l2.
Proof. unfold lookups. rewrite filter_app, length_app. lia. Qed.

Lemma cleanup_one_stats now rc e : stats (cleanup_one now rc e) = stats rc.
Proof. unfold cleanup_one. by case_match. Qed.

Lemma advance_gap U l1 c l2 now :
  miss_gap U → u_pending U = l1 ++ c :: l2 →
  miss_gap (set_u (advance now c (u_cache U)).1 (l1 ++ option_list (advance now c (u_cache U)).2 ++ l2) U).
Proof.
  intros [k Hk] Hc. rewrite Hc, lookups_app, lookups_cons in Hk. unfold miss_gap. cbn [u_pending set_u].
  rewrite !lookups_app. assert (lookups [] = 0) as H0 by done.
  destruct c as [key| |key q|key q|key q|key|]; simpl in *; rewrite ?lookups_cons, ?H0; simpl; try (exists k; lia).
  - destruct (c_get (cache (u_cache U)) key); simpl; exists k; lia.
  - destruct (int_decr_wrap (Misses (stats (u_cache U)))) as [k' ->]. exists (k + k'). lia.
  - destruct (int_incr_wrap (Hits (stats (u_cache U)))) as [k' ->]. exists (k - k'). lia.
Qed.

Lemma ustep_gap U U' : miss_gap U → ustep U U' → miss_gap U'.
Proof.
  intros HI Hstep. pose proof HI as [k Hk].
  destruct Hstep as [U key _|U c p now now' Hp|U key|U|U l1 c l2 now Hc _|U _|U|U ord now _ _
                    |U e left now _|U now _|U _ _|U _|U _ _];
    try (by apply advance_gap); try exact HI.
  - destruct (int_incr_wrap (Misses (stats (u_cache U)))) as [k' Hk']. exists (k + k').
    simpl. rewrite Hk', lookups_cons. simpl. lia.
  - exists k. simpl. rewrite cleanup_one_stats. exact Hk.
Qed.

(** Whatever the interleaving, the misses reported are the hits and the lookups
    in flight: when none is in flight the two counters are equal. *)
Theorem misses_are_hits_in_flight cfg U :
  rtc ustep (start cfg) U →
  ∃ k, Misses (stats (u_cache U)) = Hits (stats (u_cache U)) + lookups (u_pending U) + k * 2 ^ 64.
Proof.
  intros Hr. change (miss_gap U). assert (miss_gap (start cfg)) as HI by by exists 0.
  induction Hr; eauto using ustep_gap.
Qed.

(** ** Entries the cleanup cannot see *)

Section orphans.
Hypothesis del_ne : ∀ s k k', k ≠ k' → c_get (c_del s k') k = c_get s k.
Hypothesis tick_get : ∀ s k, c_get (c_tick s) k = c_get s k.

Lemma orphan_clean key p now rc e :
  c_get (cache rc) key = Some p → items rc !! key = None → key ≠ e.1 →
  c_get (cache (cleanup_one now rc e)) key = Some p ∧ items (cleanup_one now rc e) !! key = None.
Proof.
  intros Hg Hi Hne. unfold cleanup_one. case_match; [|done]. simpl.
  by rewrite del_ne, lookup_delete_ne by done.
Qed.

Lemma orphan_step key p U U' : quiet U → quiet_step U U' → orphan key p U → orphan key p U'.
Proof.
  intros Hq [Hstep Hq'] HI. pose proof HI as [Hg Hi Hp]. unfold quiet in *.
  destruct Hstep as [U k _|U c q now now' _|U k|U|U l1 c l2 now Hc _|U _|U|U ord now _ Ho
                    |U e left now Hl|U now _|U _ _|U _|U _ _]; try (by split);
    try (by apply Forall_cons in Hq' as [? _]).
  - rewrite Hc, Forall_app, Forall_cons in Hq. destruct Hq as (_ & Hl & _).
    destruct c; try done; by split.
  - split; simpl; [by rewrite tick_get|done|done].
  - split; simpl; [done|done|]. intros l n [= <- <-] ([k v] & -> & Hin)%list_elem_of_fmap.
    apply (map_range_elem _ _ _ _ Ho) in Hin. simpl in *. congruence.
  - specialize (Hp _ _ Hl). apply not_elem_of_cons in Hp as [Hne Hni].
    destruct (orphan_clean key p now (u_cache U) e Hg Hi Hne). split; simpl; [done|done|].
    by intros l n [= <- <-].
Qed.

(** An entry the library has and the second map has not is served for good:
    whatever passes the loop makes, at whatever times, a lookup finds it, and
    no pass will visit it, unless the library evicts it or a call sets,
    deletes or clears. *)
Theorem cleared_entry_outlives_ttl key p U U' now ord :
  quiet U → orphan key p U → rtc quiet_step U U' → map_range (items (u_cache U')) ord →
  (advance now (PGet key) (u_cache U')).2 = Some (PHit key p) ∧ key ∉ ord.*1.
Proof.
  intros Hq HI Hr Ho. assert (orphan key p U') as [Hg Hi _].
  { clear Ho. induction Hr as [|U V U' Hs _ IH]; [done|].
    apply IH; [by destruct Hs|by eapply orphan_step]. }
  simpl. rewrite Hg. split; [done|]. intros ([k v] & -> & Hin)%list_elem_of_fmap.
  apply (map_range_elem _ _ _ _ Ho) in Hin. simpl in *. congruence.
Qed.

End orphans.

(** ** Close *)

Lemma start_shut cfg : shut (start cfg).
Proof. by split. Qed.

Lemma ustep_shut U U' : shut U → ustep U U' → shut U'.
Proof.
  intros [H1 H2 H3] Hstep. destruct Hstep; try (by split); split; simpl in *; intuition congruence.
Qed.

Lemma usteps_shut cfg U : rtc ustep (start cfg) U → shut U.
Proof. intros Hr. pose proof (start_shut cfg) as HI. induction Hr; eauto using ustep_shut. Qed.

(** The rest of a pass can always be finished. *)
Lemma pass_ends U left now :
  u_loop U = LPass left now →
  ∃ U', rtc ustep U U' ∧ u_loop U' = LSelect ∧ u_stop U' = u_stop U ∧ u_close U' = u_close U ∧
    u_pending U' = u_pending U.
Proof.
  revert U. induction left as [|e left IH]; intros U Hl.
  - exists (set_u_loop LSelect U). split; [|done]. by eapply rtc_once, us_passed.
  - destruct (IH (set_u_loop (LPass left now) (set_u (cleanup_one now (u_cache U) e) (u_pending U) U)))
      as (U' & Hr & ?); [done|]. exists U'. split; [|done]. eapply rtc_l, Hr. by eapply us_clean.
Qed.

(** [Close] can always return, without any pending call having to finish
    first, however much of a pass is left; and the loop has returned then. *)
Theorem close_returns cfg U U1 :
  rtc ustep (start cfg) U → Close U = Some U1 →
  ∃ U2, rtc ustep U1 U2 ∧ u_close U2 = CReturned ∧ u_loop U2 = LDone ∧ u_pending U2 = u_pending U.
Proof.
  intros Hr Hclose. unfold Close in Hclose. destruct (u_stop U) eqn:Hs; simplify_eq.
  pose proof (usteps_shut _ _ Hr) as [_ Hd _].
  assert (∃ V, rtc ustep (set_u_close true CWait U) V ∧ u_loop V = LSelect ∧ u_stop V = true ∧
               u_close V = CWait ∧ u_pending V = u_pending U) as (V & HV & Hl & Hst & Hc & Hp).
  { destruct (u_loop U) as [|left now|] eqn:Hl.
    - by exists (set_u_close true CWait U).
    - by apply (pass_ends (set_u_close true CWait U) left now).
    - specialize (Hd eq_refl). congruence. }
  exists (set_u_close true CReturned (set_u_loop LDone V)). split; [|by rewrite <-Hp].
  etrans; [exact HV|]. eapply rtc_l; [by apply us_loop_returns|].
  eapply rtc_once. rewrite <-Hst. by apply (us_closed (set_u_loop LDone V)).
Qed.

(** Once [Close] has been called, another call panics; and once it has
    returned, no pass of the cleanup ever starts. *)
Theorem close_is_final cfg U U' :
  rtc ustep (start cfg) U → u_close U ≠ CNone → rtc ustep U U' →
  Close U' = None ∧ (u_close U = CReturned → u_loop U' = LDone).
Proof.
  intros Hr Hc Hr'. pose proof (usteps_shut _ _ Hr) as HI.
  assert (shut U' ∧ u_close U' ≠ CNone ∧ (u_close U = CReturned → u_close U' = CReturned)) as ([H1 H2 H3] & H4 & H5).
  { clear Hr. induction Hr' as [U|U V U' Hs _ IH]; [done|].
    assert (u_close V ≠ CNone ∧ (u_close U = CReturned → u_close V = CReturned)) as [Hc' Hcc].
    { destruct HI as [H1 H2 H3]. destruct Hs; simpl in *; intuition congruence. }
    destruct IH as (? & ? & ?); [done|by eapply ustep_shut|auto]. }
  split; [|auto]. unfold Close. by rewrite (proj2 H1 H4).
Qed.

End use.

(** ** A run: a [Clear] and a [Set] at a time *)

Definition ex_call : set_call := mk_set_call "llama3" "be brief" "hi" "hello" 2.
Definition ex_key : string := "llama3|be brief|hi".
Definition ex_start : use (H := map_cache) := start example_cfg.

(** The newest call goes on. *)
Definition ex_go (U : use (H := map_cache)) : use :=
  match u_pending U with
  | c :: ps => set_u (advance 0 c (u_cache U)).1 (option_list (advance 0 c (u_cache U)).2 ++ ps) U
  | [] => U
  end.

Lemma ex_go_run (U V : use (H := map_cache)) :
  u_loop V = LSelect → rtc (ustep (λ t, t)) U V → rtc (ustep (λ t, t)) U (ex_go V).
Proof.
  intros Hl Hr. unfold ex_go. destruct (u_pending V) as [|c ps] eqn:Hp; [done|]. eapply rtc_r; [exact Hr|].
  apply (us_advance _ V [] c ps 0 Hp). intros _. unfold unlocked. by rewrite Hl.
Qed.

(** The library is cleared, a set is done, then the second map is emptied. *)
Definition ex_cleared : use := set_u (set_cache (c_clear (cache (u_cache ex_start))) (u_cache ex_start)) [PClearItems] ex_start.
Definition ex_set : use :=
  mk_use _ (set_heap {[1%nat := mk_Entry "hello" "llama3" 2 0 0 1]} (u_cache ex_cleared))
    [PSetLib ex_key 1; PClearItems] LSelect false CNone [ex_call].
Definition ex_orphan : use := ex_go (ex_go (ex_go ex_set)).

(** A lookup that has found the entry, before it takes the mutex again. *)
Definition ex_hit : use := ex_go (set_u (add_miss int_incr (u_cache ex_orphan)) [PGet ex_key] ex_orphan).

Lemma ex_orphan_run : rtc (ustep (λ t, t)) ex_start ex_orphan.
Proof.
  do 3 (apply ex_go_run; [done|]). eapply rtc_l; [apply us_clear|]. eapply rtc_once.
  by apply (us_set (λ t, t) ex_cleared ex_call 1 0 0).
Qed.

Lemma ex_hit_run : rtc (ustep (λ t, t)) ex_start ex_hit.
Proof. apply ex_go_run; [done|]. eapply rtc_r; [exact ex_orphan_run|]. by apply us_get. Qed.

Lemma concurrent_get_sound_witness :
  ∃ e c, heap (u_cache ex_hit) !! 1%nat = Some e ∧ c ∈ u_log ex_hit ∧ Response e = sc_response c.
Proof.
  destruct (concurrent_get_sound (λ t, t) example_cfg ex_hit ex_key 1 ex_hit_run) as (e & c & He & Hc & _ & Hresp & _).
  - by left.
  - by exists e, c.
Defined.

Lemma misses_are_hits_in_flight_witness :
  ∃ k, Misses (stats (u_cache ex_hit)) = Hits (stats (u_cache ex_hit)) + 1 + k * 2 ^ 64.
Proof. exact (misses_are_hits_in_flight (λ t, t) example_cfg ex_hit ex_hit_run). Defined.

(** A year after, the lookup finds the entry, though the time to live is a
    minute. *)
Lemma cleared_entry_outlives_ttl_witness :
  rtc (ustep (λ t, t)) ex_start ex_orphan ∧ TTLDuration (config (u_cache ex_orphan)) = 60 * Second ∧
  (advance (365 * 24 * 3600 * Second) (PGet ex_key) (u_cache ex_orphan)).2 = Some (PHit ex_key 1).
Proof.
  split; [exact ex_orphan_run|]. split; [done|].
  destruct (cleared_entry_outlives_ttl (L := map_cache) (λ t, t)
    (λ s k k' H, lookup_delete_ne s k' k (not_eq_sym H)) (λ s k, eq_refl) ex_key 1 ex_orphan ex_orphan
    (365 * 24 * 3600 * Second) []) as [H _]; [by constructor|by split|by apply rtc_refl| |exact H].
  unfold map_range. by vm_compute.
Defined.

Lemma close_returns_witness :
  ∃ U2 : use (H := map_cache), u_close U2 = CReturned ∧ u_loop U2 = LDone.
Proof.
  destruct (close_returns (λ t, t) example_cfg ex_start (set_u_close true CWait ex_start)) as (U2 & _ & ? & ? & _);
    [by apply rtc_refl|done|by exists U2].
Defined.

Lemma close_is_final_witness : Close (set_u_close true CWait ex_start) = None.
Proof.
  destruct (close_is_final (λ t, t) example_cfg (set_u_close true CWait ex_start)
              (set_u_close true CWait ex_start)) as [H _];
    [eapply rtc_once; by apply us_close|done|by apply rtc_refl|exact H].
Defined.
