(* ===== verification/ModelRegistry.v ===== *)
(** * The model registry ([hive-server-go/model_registry.go])

    Which models are loaded, here and on the peers.  Every method holds the
    registry's lock for its whole body and is one atomic step; the maps own
    their entries.  The enumeration of a map is an explicit order [ord]. *)

From S2P Require Import Prelude GoFloat GoText GoHttp.

Local Open Scope string_scope.
Local Open Scope list_scope.
Local Open Scope Z_scope.

(** ** Data *)

Definition ModelLoaded : string := "loaded".
Definition ModelLoading : string := "loading".
Definition ModelUnloading : string := "unloading".
Definition ModelNotLoaded : string := "not_loaded".
Definition ModelFailed : string := "failed".

Record LoadedModelInfo := mk_Info {
  Name : string; Provider : string; NodeID : string; Endpoint : string;
  State : string; LoadedAt : Time; LastUsed : Time; RefCount : Z;
  SizeBytes : Z; ContextLen : Z; Family : string; Quantization : string }.

Definition set_usage (lastUsed : Time) (refCount : Z) (i : LoadedModelInfo) : LoadedModelInfo :=
  mk_Info (Name i) (Provider i) (NodeID i) (Endpoint i) (State i) (LoadedAt i) lastUsed refCount
    (SizeBytes i) (ContextLen i) (Family i) (Quantization i).

Record ModelRegistry := mk_MR {
  localModels : gmap string LoadedModelInfo;
  peerModels : gmap string (gmap string LoadedModelInfo);
  modelFamilyGroups : gmap string (list string);
  totalLoads : Z; totalUnloads : Z; loadFailures : Z }.

Definition NewModelRegistry : ModelRegistry := mk_MR ∅ ∅ ∅ 0 0 0.

Definition set_local (ms : gmap string LoadedModelInfo) (mr : ModelRegistry) : ModelRegistry :=
  mk_MR ms (peerModels mr) (modelFamilyGroups mr) (totalLoads mr) (totalUnloads mr) (loadFailures mr).
Definition set_peers (ms : gmap string (gmap string LoadedModelInfo)) (mr : ModelRegistry)
    : ModelRegistry :=
  mk_MR (localModels mr) ms (modelFamilyGroups mr) (totalLoads mr) (totalUnloads mr) (loadFailures mr).
Definition set_groups (gs : gmap string (list string)) (mr : ModelRegistry) : ModelRegistry :=
  mk_MR (localModels mr) (peerModels mr) gs (totalLoads mr) (totalUnloads mr) (loadFailures mr).

(** ** Names *)

Definition families : list string :=
  ["llama3.2"; "llama3.1"; "llama3"; "llama2";
   "qwen2.5"; "qwen2"; "qwen1.5"; "qwen";
   "gemma2"; "gemma";
   "mistral"; "mixtral";
   "phi3"; "phi2";
   "codellama"; "codeqwen"].

(** The text before the first colon or dash; bytes of a longer rune are
    neither. *)
Fixpoint before_sep (name : string) : string :=
  match name with
  | "" => ""
  | String c rest =>
      if (Ascii.eqb c ":" || Ascii.eqb c "-")%char%bool then "" else String c (before_sep rest)
  end.

Definition extractModelFamily (name : string) : string :=
  match find_first (λ f, has_prefix name f) families with
  | Some (_, f) => f
  | None => before_sep name
  end.

(** The window loop over [s[i : i+len(substr)]]. *)
Definition contains (s substr : string) : bool :=
  if (String.length s <? String.length substr)%nat then false
  else existsb (λ i, String.eqb (str_take (String.length substr) (str_drop i s)) substr)
         (seq 0 (S (String.length s - String.length substr))).

Definition quantPatterns : list string :=
  ["q4_k_m"; "q4_0"; "q5_k_m"; "q5_0"; "q8_0"; "fp16"; "fp8"; "bf16"].

Definition extractQuantization (name : string) : string :=
  match find_first (contains name) quantPatterns with
  | Some (_, q) => q
  | None => ""
  end.

Definition formatSize (bytes : Z) : string :=
  if 1073741824 <=? bytes then "large"
  else if 1048576 <=? bytes then "medium"
  else "small".

(** ** Local models *)

Definition addToFamilyGroup (groupKey modelName : string) (mr : ModelRegistry) : ModelRegistry :=
  match modelFamilyGroups mr !! groupKey with
  | None => set_groups (<[groupKey := [modelName]]> (modelFamilyGroups mr)) mr
  | Some group =>
      if existsb (String.eqb modelName) group then mr
      else set_groups (<[groupKey := group ++ [modelName]]> (modelFamilyGroups mr)) mr
  end.

Definition new_info (serverID name provider endpoint : string) (sizeBytes contextLen : Z)
    (now : Time) : LoadedModelInfo :=
  mk_Info name provider serverID endpoint ModelLoaded now now 0 sizeBytes contextLen
    (extractModelFamily name) (extractQuantization name).

Definition RegisterLocalModel (serverID : string) (mr : ModelRegistry)
    (name provider endpoint : string) (sizeBytes contextLen : Z) (now : Time) : ModelRegistry :=
  let info := new_info serverID name provider endpoint sizeBytes contextLen now in
  let mr := match localModels mr !! name with
            | None => mk_MR (localModels mr) (peerModels mr) (modelFamilyGroups mr)
                        (int_incr (totalLoads mr)) (totalUnloads mr) (loadFailures mr)
            | Some _ => mr
            end in
  let mr := set_local (<[name := info]> (localModels mr)) mr in
  if negb (String.eqb (Family info) "") then
    let key := if 0 <? sizeBytes then Family info +:+ ":" +:+ formatSize sizeBytes
               else Family info in
    addToFamilyGroup key name mr
  else mr.

Definition UnregisterLocalModel (mr : ModelRegistry) (name : string) : ModelRegistry :=
  match localModels mr !! name with
  | Some _ => mk_MR (delete name (localModels mr)) (peerModels mr) (modelFamilyGroups mr)
                (totalLoads mr) (int_incr (totalUnloads mr)) (loadFailures mr)
  | None => mr
  end.

(** A write to the entry of a model, local or of a peer. *)
Definition update_info (f : LoadedModelInfo → LoadedModelInfo) (mr : ModelRegistry)
    (name : string) (isLocal : bool) (nodeID : string) : ModelRegistry :=
  if isLocal then
    match localModels mr !! name with
    | Some info => set_local (<[name := f info]> (localModels mr)) mr
    | None => mr
    end
  else
    match peerModels mr !! nodeID with
    | Some models =>
        match models !! name with
        | Some info => set_peers (<[nodeID := <[name := f info]> models]> (peerModels mr)) mr
        | None => mr
        end
    | None => mr
    end.

Definition MarkModelUsed (mr : ModelRegistry) (name : string) (isLocal : bool) (nodeID : string)
    (now : Time) : ModelRegistry :=
  update_info (λ info, set_usage now (int_incr (RefCount info)) info) mr name isLocal nodeID.

Definition decrement (info : LoadedModelInfo) : LoadedModelInfo :=
  if 0 <? RefCount info then set_usage (LastUsed info) (int_decr (RefCount info)) info else info.

Definition DecrementRefCount (mr : ModelRegistry) (name : string) (isLocal : bool)
    (nodeID : string) : ModelRegistry :=
  update_info decrement mr name isLocal nodeID.

Definition is_loaded (info : LoadedModelInfo) : bool := String.eqb (State info) ModelLoaded.

Definition IsLoadedLocally (mr : ModelRegistry) (name : string) : bool :=
  match localModels mr !! name with Some info => is_loaded info | None => false end.

Definition GetLocalModel (mr : ModelRegistry) (name : string) : option LoadedModelInfo :=
  match localModels mr !! name with
  | Some info => if is_loaded info then Some info else None
  | None => None
  end.

(** One iteration of the search for a compatible model. *)
Definition better (bestMatch : option LoadedModelInfo) (info : LoadedModelInfo)
    : option LoadedModelInfo :=
  match bestMatch with
  | None => Some info
  | Some best =>
      if negb (String.eqb (Quantization info) "") && String.eqb (Quantization best) ""
      then Some info
      else if time_After (LastUsed info) (LastUsed best) then Some info
      else Some best
  end.

Definition compatible_step (requestedFamily : string) (bestMatch : option LoadedModelInfo)
    (info : LoadedModelInfo) : option LoadedModelInfo :=
  if negb (is_loaded info) then bestMatch
  else if String.eqb (Family info) requestedFamily then better bestMatch info
  else bestMatch.

Definition FindCompatibleLocalModel (ord : list (string * LoadedModelInfo))
    (requestedModel : string) : option LoadedModelInfo :=
  let requestedFamily := extractModelFamily requestedModel in
  if String.eqb requestedFamily "" then None
  else foldl (compatible_step requestedFamily) None (snd <$> ord).

(** ** Peer models *)

Definition RegisterPeerModels (mr : ModelRegistry) (nodeID : string)
    (models : list LoadedModelInfo) : ModelRegistry :=
  let old := from_opt ∅ (peerModels mr !! nodeID) in
  set_peers (<[nodeID := foldl (λ m i, <[Name i := i]> m) old models]> (peerModels mr)) mr.

Definition RemovePeerModels (mr : ModelRegistry) (nodeID : string) : ModelRegistry :=
  set_peers (delete nodeID (peerModels mr)) mr.

Definition FindPeerWithLoadedModel (ord : list (string * gmap string LoadedModelInfo))
    (modelName : string) : option (string * LoadedModelInfo) :=
  match find_first (λ e, match e.2 !! modelName with
                         | Some info => is_loaded info | None => false end) ord with
  | Some (_, (nodeID, models)) => info ← models !! modelName; Some (nodeID, info)
  | None => None
  end.

(** [ords] gives the order of each peer's own map. *)
Definition FindPeerWithCompatibleModel (ord : list (string * gmap string LoadedModelInfo))
    (ords : string → list (string * LoadedModelInfo)) (requestedModel : string)
    : option (string * LoadedModelInfo) :=
  let requestedFamily := extractModelFamily requestedModel in
  if String.eqb requestedFamily "" then None
  else
    match find_first (λ x, is_loaded x.2 && String.eqb (Family x.2) requestedFamily)
            (ord ≫= λ e, (λ i, (e.1, i.2)) <$> ords e.1) with
    | Some (_, r) => Some r
    | None => None
    end.

Definition GetAllLocalModels (ord : list (string * LoadedModelInfo)) : list LoadedModelInfo :=
  snd <$> ord.

Definition GetStats (mr : ModelRegistry) (ord : list (string * LoadedModelInfo))
    (ordp : list (string * gmap string LoadedModelInfo)) : gmap string json :=
  let localCount := foldl (λ n e, if is_loaded (snd e) then int_incr n else n) 0 ord in
  let peerCount := foldl (λ n e, int_add n (Z.of_nat (size (snd e)))) 0 ordp in
  jmap [("local_models_loaded", JInt localCount); ("peer_models_tracked", JInt peerCount);
        ("total_loads", JInt (totalLoads mr)); ("total_unloads", JInt (totalUnloads mr));
        ("load_failures", JInt (loadFailures mr));
        ("family_groups", JInt (Z.of_nat (size (modelFamilyGroups mr))))].

(** ** Runs *)

Inductive event :=
  | ERegister (name provider endpoint : string) (sizeBytes contextLen : Z) (now : Time)
  | EUnregister (name : string)
  | EUse (name : string) (isLocal : bool) (nodeID : string) (now : Time)
  | ERelease (name : string) (isLocal : bool) (nodeID : string)
  | EPeer (nodeID : string) (models : list LoadedModelInfo)
  | ERemovePeer (nodeID : string).

Definition apply_event (serverID : string) (mr : ModelRegistry) (e : event) : ModelRegistry :=
  match e with
  | ERegister n p ep sz cl now => RegisterLocalModel serverID mr n p ep sz cl now
  | EUnregister n => UnregisterLocalModel mr n
  | EUse n l node now => MarkModelUsed mr n l node now
  | ERelease n l node => DecrementRefCount mr n l node
  | EPeer node ms => RegisterPeerModels mr node ms
  | ERemovePeer node => RemovePeerModels mr node
  end.

Definition run (serverID : string) (mr : ModelRegistry) (es : list event) : ModelRegistry :=
  foldl (apply_event serverID) mr es.

(** A well-formed registry: a local model sits under its name, is loaded, has
    the family and quantization of its name and a count between zero and the
    number [k] of events so far; a family group lists every model once. *)
Definition info_ok (k : Z) (name : string) (i : LoadedModelInfo) : Prop :=
  Name i = name ∧ State i = ModelLoaded ∧ Family i = extractModelFamily name ∧
  Quantization i = extractQuantization name ∧ 0 <= RefCount i <= k.

Definition wf (k : Z) (mr : ModelRegistry) : Prop :=
  map_Forall (info_ok k) (localModels mr) ∧
  map_Forall (λ _ g, NoDup g ∧ g ≠ []) (modelFamilyGroups mr).

(** The uses of a local model that are still open after some events, when no
    release comes before its use. *)
Fixpoint open_uses (name : string) (z : Z) (es : list event) : option Z :=
  match es with
  | [] => Some z
  | e :: es =>
      let z := match e with
               | EUse n true _ _ => if String.eqb name n then z + 1 else z
               | ERelease n true _ => if String.eqb name n then z - 1 else z
               | _ => z
               end in
      if z <? 0 then None else open_uses name z es
  end.

(** Events that do not register or unregister the model itself. *)
Definition quiet (name : string) (e : event) : bool :=
  match e with
  | ERegister n _ _ _ _ _ | EUnregister n => negb (String.eqb name n)
  | _ => true
  end.

(** A model's entry and its count. *)
Definition at_count (name : string) (z : Z) (mr : ModelRegistry) : Prop :=
  ∃ i, localModels mr !! name = Some i ∧ RefCount i = z.

(** ** Lemmas *)

Lemma str_drop_length n s : String.length (str_drop n s) = (String.length s - n)%nat.
Proof. revert s. induction n as [|n IH]; intros [|c s]; simpl; [done..|]. apply IH. Qed.

Lemma contains_spec s sub : contains s sub = true ↔ ∃ r t, s = (r +:+ sub +:+ t)%string.
Proof.
  unfold contains. destruct (Nat.ltb_spec (String.length s) (String.length sub)) as [Hlt|Hge].
  - split; [done|]. intros (r & t & ->). rewrite !str_length_app in Hlt. lia.
  - rewrite existsb_exists. split.
    + intros (i & _ & Heq%String.eqb_eq). exists (str_take i s), (str_drop (String.length sub) (str_drop i s)).
      rewrite <-Heq at 1. by rewrite !str_take_drop.
    + intros (r & t & ->). exists (String.length r). split.
      * apply in_seq. rewrite !str_length_app. lia.
      * rewrite str_drop_app, str_take_app. apply String.eqb_refl.
Qed.

Lemma before_sep_prefix name : has_prefix name (before_sep name) = true.
Proof.
  induction name as [|c name IH]; simpl; [done|]. destruct (_ || _); [done|].
  simpl. by rewrite Ascii.eqb_refl.
Qed.

Lemma extractModelFamily_prefix name : has_prefix name (extractModelFamily name) = true.
Proof.
  unfold extractModelFamily. destruct (find_first _ families) as [[i f]|] eqn:Hf.
  - by apply find_first_lookup in Hf as [_ ?].
  - apply before_sep_prefix.
Qed.

(** In the table a family comes before every proper prefix of it. *)
Lemma families_longest_first :
  Forall (λ i, Forall (λ j, match families !! i, families !! j with
    | Some f, Some g => has_prefix g f = true → f ≠ g → (j < i)%nat
    | _, _ => True end) (seq 0 16)) (seq 0 16).
Proof. repeat constructor; vm_compute; intros; try done; lia. Qed.

Lemma families_order i j f g :
  families !! i = Some f → families !! j = Some g → has_prefix g f = true → f ≠ g → (j < i)%nat.
Proof.
  intros Hi Hj. pose proof families_longest_first as H. rewrite Forall_forall in H.
  assert (i ∈ seq 0 16) as Hi16 by (apply lookup_lt_Some in Hi; apply elem_of_seq; simpl in *; lia).
  assert (j ∈ seq 0 16) as Hj16 by (apply lookup_lt_Some in Hj; apply elem_of_seq; simpl in *; lia).
  specialize (H i Hi16). rewrite Forall_forall in H. specialize (H j Hj16).
  by rewrite Hi, Hj in H.
Qed.

Lemma update_info_local f mr name nodeID :
  localModels (update_info f mr name true nodeID) = alter f name (localModels mr) ∧
  modelFamilyGroups (update_info f mr name true nodeID) = modelFamilyGroups mr.
Proof.
  unfold update_info. destruct (localModels mr !! name) as [i|] eqn:Hi; simpl.
  - split; [|done]. apply map_eq. intros k. rewrite lookup_insert, lookup_alter.
    case_decide; subst; by rewrite ?Hi.
  - split; [|done]. apply map_eq. intros k. rewrite lookup_alter. case_decide; subst; by rewrite ?Hi.
Qed.

Lemma update_info_peer f mr name nodeID :
  localModels (update_info f mr name false nodeID) = localModels mr ∧
  modelFamilyGroups (update_info f mr name false nodeID) = modelFamilyGroups mr.
Proof. unfold update_info. by repeat case_match. Qed.

Lemma RegisterLocalModel_local sid mr n p ep sz cl now :
  localModels (RegisterLocalModel sid mr n p ep sz cl now) =
  <[n := new_info sid n p ep sz cl now]> (localModels mr).
Proof.
  unfold RegisterLocalModel, addToFamilyGroup.
  destruct (localModels mr !! n); simpl; by repeat case_match.
Qed.

Lemma addToFamilyGroup_wf key n mr :
  map_Forall (λ _ g, NoDup g ∧ g ≠ []) (modelFamilyGroups mr) →
  map_Forall (λ _ g, NoDup g ∧ g ≠ []) (modelFamilyGroups (addToFamilyGroup key n mr)).
Proof.
  intros Hg. unfold addToFamilyGroup. destruct (modelFamilyGroups mr !! key) as [g|] eqn:Hk.
  - destruct (existsb (String.eqb n) g) eqn:Hex; [done|]. simpl.
    apply map_Forall_insert_2; [|done]. destruct (Hg _ _ Hk) as [Hnd _]. split.
    + apply NoDup_app. split_and!; [done| |apply NoDup_singleton].
      intros x Hx ->%list_elem_of_singleton. apply not_true_iff_false in Hex. apply Hex.
      apply existsb_exists. exists n. split; [by apply list_elem_of_In|apply String.eqb_refl].
    + by destruct g.
  - simpl. apply map_Forall_insert_2; [|done]. split; [apply NoDup_singleton|done].
Qed.

Lemma RegisterLocalModel_groups sid mr n p ep sz cl now :
  map_Forall (λ _ g, NoDup g ∧ g ≠ []) (modelFamilyGroups mr) →
  map_Forall (λ _ g, NoDup g ∧ g ≠ []) (modelFamilyGroups (RegisterLocalModel sid mr n p ep sz cl now)).
Proof.
  intros Hg. unfold RegisterLocalModel.
  destruct (negb _); [apply addToFamilyGroup_wf|]; by destruct (localModels mr !! n).
Qed.

Lemma usage_ok k k' name i now r :
  info_ok k name i → 0 <= r <= k' → info_ok k' name (set_usage now r i).
Proof. intros (?&?&?&?&?) ?. unfold info_ok. simpl. split_and!; (done || lia). Qed.

Lemma info_ok_weaken k k' name i : k <= k' → info_ok k name i → info_ok k' name i.
Proof. intros ? (?&?&?&?&?). unfold info_ok. split_and!; (done || lia). Qed.

Lemma decrement_spec k name i :
  info_ok k name i → k <= int64_max →
  info_ok k name (decrement i) ∧ RefCount (decrement i) = Z.max 0 (RefCount i - 1).
Proof.
  intros Hi Hk. unfold decrement. pose proof Hi as (_ & _ & _ & _ & Hr).
  destruct (Z.ltb_spec 0 (RefCount i)) as [Hpos|]; [|split; [done|lia]].
  assert (int_decr (RefCount i) = RefCount i - 1) as Hd.
  { apply int_sub_id. unfold int64_range, int64_min. lia. }
  rewrite Hd. split; [|simpl; lia]. eapply usage_ok; [done|lia].
Qed.

Lemma map_Forall_weaken k k' (m : gmap string LoadedModelInfo) :
  k <= k' → map_Forall (info_ok k) m → map_Forall (info_ok k') m.
Proof. intros Hk Hm. eapply map_Forall_impl; [exact Hm|]. intros. by eapply info_ok_weaken. Qed.

Lemma registry_event_wf sid k mr e :
  wf k mr → 0 <= k < int64_max → wf (k + 1) (apply_event sid mr e).
Proof.
  intros [Hl Hg] Hk.
  pose proof (map_Forall_weaken k (k + 1) _ ltac:(lia) Hl) as Hl'.
  destruct e as [n p ep sz cl now|n|n [] node now|n [] node|node ms|node]; cbn [apply_event].
  - split; [|by apply RegisterLocalModel_groups]. rewrite RegisterLocalModel_local.
    apply map_Forall_insert_2; [|done]. unfold info_ok, new_info. simpl. split_and!; (done || lia).
  - unfold UnregisterLocalModel. destruct (localModels mr !! n); [|by split].
    split; simpl; [by apply map_Forall_delete|done].
  - unfold MarkModelUsed, wf.
    destruct (update_info_local (λ info, set_usage now (int_incr (RefCount info)) info) mr n node) as [-> ->].
    split; [|done]. intros x i [(-> & j & Hj & ->)|[_ Hj]]%lookup_alter_Some; [|by apply Hl'].
    pose proof (Hl _ _ Hj) as Hok. eapply usage_ok; [exact Hok|].
    destruct Hok as (_ & _ & _ & _ & Hr). rewrite int_incr_id by lia. lia.
  - unfold MarkModelUsed, wf.
    destruct (update_info_peer (λ info, set_usage now (int_incr (RefCount info)) info) mr n node) as [-> ->].
    by split.
  - unfold DecrementRefCount, wf. destruct (update_info_local decrement mr n node) as [-> ->].
    split; [|done]. intros x i [(-> & j & Hj & ->)|[_ Hj]]%lookup_alter_Some; [|by apply Hl'].
    apply (info_ok_weaken k); [lia|]. apply decrement_spec; [by apply Hl|lia].
  - unfold DecrementRefCount, wf. destruct (update_info_peer decrement mr n node) as [-> ->].
    by split.
  - by split.
  - by split.
Qed.

Lemma registry_run_wf sid k mr es :
  wf k mr → 0 <= k → k + Z.of_nat (length es) <= int64_max →
  wf (k + Z.of_nat (length es)) (run sid mr es).
Proof.
  revert k mr. induction es as [|e es IH]; intros k mr Hwf Hk Hlen; simpl in *.
  - by rewrite Z.add_0_r.
  - replace (k + Z.of_nat (S (length es))) with (k + 1 + Z.of_nat (length es)) by lia.
    apply IH; [apply registry_event_wf; [done|lia]|lia..].
Qed.

Lemma new_registry_wf : wf 0 NewModelRegistry.
Proof. split; apply map_Forall_empty. Qed.

(** The search keeps a loaded model of the family, and finds one if there is
    one. *)
Lemma compatible_fold fam best l :
  (∀ b, best = Some b → is_loaded b = true ∧ Family b = fam) →
  match foldl (compatible_step fam) best l with
  | Some b => (best = Some b ∨ b ∈ l) ∧ is_loaded b = true ∧ Family b = fam
  | None => best = None ∧ ∀ i, i ∈ l → is_loaded i = true → Family i ≠ fam
  end.
Proof.
  revert best. induction l as [|i l IH]; intros best Hb; simpl.
  - destruct best as [b|]; [|by split; [|intros ? ?%not_elem_of_nil]]. split; [by left|]. by apply Hb.
  - assert (∀ b, compatible_step fam best i = Some b → is_loaded b = true ∧ Family b = fam) as Hb'.
    { unfold compatible_step, better. intros b. destruct (is_loaded i) eqn:Hl; simpl; [|apply Hb].
      destruct (String.eqb_spec (Family i) fam); [|apply Hb].
      repeat case_match; intros; simplify_eq; auto. }
    specialize (IH _ Hb'). destruct (foldl _ _ l) as [b|].
    + destruct IH as [[Hs|Hin] Hok]; (split; [|done]); [|by right; right].
      unfold compatible_step, better in Hs. repeat case_match; simplify_eq; auto; by right; left.
    + destruct IH as [Hs Hall].
      assert (best = None ∧ (is_loaded i = true → Family i ≠ fam)) as [-> Hi].
      { unfold compatible_step, better in Hs. destruct (is_loaded i); simpl in *; [|done].
        destruct (String.eqb_spec (Family i) fam); [|by split].
        destruct best; repeat case_match; simplify_eq. }
      split; [done|]. intros j [->|Hj]%elem_of_cons; auto.
Qed.

Lemma update_info_other f mr name name' nodeID :
  name ≠ name' → localModels (update_info f mr name' true nodeID) !! name = localModels mr !! name.
Proof. intros Hne. rewrite (proj1 (update_info_local f mr name' nodeID)). by rewrite lookup_alter_ne. Qed.

(** One event's effect on the count of a model. *)
Lemma count_step sid name z k mr e z' :
  wf k mr → 0 <= k < int64_max → at_count name z mr → quiet name e = true →
  z' = match e with
       | EUse n true _ _ => if String.eqb name n then z + 1 else z
       | ERelease n true _ => if String.eqb name n then z - 1 else z
       | _ => z
       end → 0 <= z' →
  at_count name z' (apply_event sid mr e).
Proof.
  intros [Hl _] Hk (i & Hi & Hz) Hq Hz' Hpos.
  pose proof (Hl _ _ Hi) as Hok. pose proof Hok as (_ & _ & _ & _ & Hr).
  destruct e as [n p ep sz cl now|n|n [] node now|n [] node|node ms|node];
    cbn [apply_event quiet] in *; unfold at_count.
  - apply negb_true_iff in Hq. zbool. rewrite RegisterLocalModel_local, lookup_insert_ne by done.
    subst. eauto.
  - apply negb_true_iff in Hq. zbool. unfold UnregisterLocalModel.
    exists i. subst. destruct (localModels mr !! n); simpl; [rewrite lookup_delete_ne by done|]; done.
  - unfold MarkModelUsed. rewrite (proj1 (update_info_local _ mr n node)).
    destruct (String.eqb_spec name n) as [<-|Hne].
    + rewrite lookup_alter_eq, Hi. eexists. split; [done|]. simpl. subst.
      by rewrite int_incr_id by lia.
    + rewrite lookup_alter_ne by done. subst. eauto.
  - unfold MarkModelUsed. rewrite (proj1 (update_info_peer _ mr n node)). subst. eauto.
  - unfold DecrementRefCount. rewrite (proj1 (update_info_local _ mr n node)).
    destruct (String.eqb_spec name n) as [<-|Hne].
    + rewrite lookup_alter_eq, Hi. eexists. split; [done|].
      destruct (decrement_spec k name i Hok) as [_ ->]; lia.
    + rewrite lookup_alter_ne by done. subst. eauto.
  - unfold DecrementRefCount. rewrite (proj1 (update_info_peer _ mr n node)). subst. eauto.
  - subst. eauto.
  - subst. eauto.
Qed.

Lemma count_run sid name z k mr es z' :
  wf k mr → 0 <= k → k + Z.of_nat (length es) <= int64_max → at_count name z mr →
  Forall (λ e, quiet name e = true) es → open_uses name z es = Some z' →
  at_count name z' (run sid mr es).
Proof.
  revert z k mr. induction es as [|e es IH]; intros z k mr Hwf Hk Hlen Hat Hq Ho; simpl in *.
  - by simplify_eq.
  - apply Forall_cons in Hq as [He Hq]. case_match eqn:Hneg; [done|]. zbool.
    eapply (IH _ (k + 1)); [apply registry_event_wf; [done|lia]|lia|lia| |done|exact Ho].
    eapply count_step; [done|lia|done|done|reflexivity|done].
Qed.

(** The search in a well-formed registry. *)
Lemma find_compatible_spec k mr ord requested :
  wf k mr → map_range (localModels mr) ord → extractModelFamily requested ≠ "" →
  match FindCompatibleLocalModel ord requested with
  | Some i => GetLocalModel mr (Name i) = Some i ∧
              extractModelFamily (Name i) = extractModelFamily requested
  | None => ∀ n, IsLoadedLocally mr n = true → extractModelFamily n ≠ extractModelFamily requested
  end.
Proof.
  intros [Hl _] Hord Hfam. unfold FindCompatibleLocalModel. apply String.eqb_neq in Hfam as ->.
  pose proof (compatible_fold (extractModelFamily requested) None (snd <$> ord) ltac:(done)) as Hf.
  destruct (foldl _ None _) as [i|].
  - destruct Hf as ([?|Hin] & Hload & Hi); [done|].
    apply list_elem_of_fmap in Hin as ([n j] & -> & Hin). simpl in *.
    apply (map_range_elem _ _ _ _ Hord) in Hin.
    destruct (Hl _ _ Hin) as (HN & _ & HF & _). unfold GetLocalModel. rewrite HN, Hin, Hload.
    split; [done|congruence].
  - destruct Hf as [_ Hall]. intros n Hn Hcontra. unfold IsLoadedLocally in Hn.
    destruct (localModels mr !! n) as [i|] eqn:Hi; [|done].
    apply (Hall i); [|done|].
    + apply list_elem_of_fmap. exists (n, i). split; [done|]. by apply (map_range_elem _ _ _ _ Hord).
    + destruct (Hl _ _ Hi) as (_ & _ & -> & _). done.
Qed.

(** ** Properties *)

(** The reference count of a model is exact.  From its registration on,
    while it is not registered again or removed and releases follow their
    uses, the count is the number of uses not yet released, whatever happens
    to other models and peers in between. *)
Theorem refcount_exact sid hist name p ep sz cl now es z :
  Z.of_nat (length hist) + 1 + Z.of_nat (length es) <= int64_max →
  Forall (λ e, quiet name e = true) es →
  open_uses name 0 es = Some z →
  ∃ i, localModels (run sid NewModelRegistry (hist ++ ERegister name p ep sz cl now :: es)) !! name = Some i ∧
       RefCount i = z.
Proof.
  intros Hlen Hq Ho. unfold run. rewrite foldl_app. cbn [foldl].
  pose proof (registry_run_wf sid 0 NewModelRegistry hist new_registry_wf ltac:(lia) ltac:(lia)) as Hwf.
  set (mr := run sid NewModelRegistry hist) in *. change (foldl _ _ hist) with mr.
  eapply (count_run sid name 0 (Z.of_nat (length hist) + 1)).
  - by apply registry_event_wf; [|lia].
  - lia.
  - lia.
  - cbn [apply_event]. eexists. by rewrite RegisterLocalModel_local, lookup_insert_eq.
  - done.
  - done.
Qed.

(** The search for a compatible local model, in whatever order the map is
    ranged over, returns a loaded model of the requested family, and returns
    none only if no loaded model has that family. *)
Theorem FindCompatibleLocalModel_sound_complete sid es ord requested :
  Z.of_nat (length es) <= int64_max → extractModelFamily requested ≠ "" →
  map_range (localModels (run sid NewModelRegistry es)) ord →
  match FindCompatibleLocalModel ord requested with
  | Some i => GetLocalModel (run sid NewModelRegistry es) (Name i) = Some i ∧
              extractModelFamily (Name i) = extractModelFamily requested
  | None => ∀ n, IsLoadedLocally (run sid NewModelRegistry es) n = true →
                 extractModelFamily n ≠ extractModelFamily requested
  end.
Proof.
  intros Hlen Hfam Hord.
  apply (find_compatible_spec (0 + Z.of_nat (length es))); [|done..].
  apply registry_run_wf; [apply new_registry_wf|lia..].
Qed.

(** The family of a model name is a prefix of the name, and when the name
    begins with families of the table it is the longest of them, although the
    table is searched in order. *)
Theorem extractModelFamily_longest name :
  has_prefix name (extractModelFamily name) = true ∧
  ∀ f, f ∈ families → has_prefix name f = true →
    extractModelFamily name ∈ families ∧ has_prefix (extractModelFamily name) f = true.
Proof.
  split; [apply extractModelFamily_prefix|]. intros f Hf Hp. unfold extractModelFamily.
  destruct (find_first (λ g, has_prefix name g) families) as [[i g]|] eqn:Hfind.
  - pose proof Hfind as (l1 & l2 & Heq & Hlen & Hg & Hl1)%find_first_Some.
    apply find_first_lookup in Hfind as [Hi _].
    split; [by eapply list_elem_of_lookup_2|].
    destruct (decide (String.length f ≤ String.length g)%nat) as [Hle|Hgt];
      [by eapply has_prefix_comparable|]. exfalso.
    apply list_elem_of_lookup_1 in Hf as [j Hj].
    assert (has_prefix f g = true) as Hgf by (eapply has_prefix_comparable; [exact Hg|exact Hp|lia]).
    assert (j < i)%nat as Hji by (eapply families_order; [exact Hi|exact Hj|done|]; intros ->; lia).
    rewrite Forall_forall in Hl1. specialize (Hl1 f). rewrite Hp in Hl1.
    assert (f ∈ l1) as Hin; [|by specialize (Hl1 Hin)].
    rewrite Heq, lookup_app_l in Hj by lia. by eapply list_elem_of_lookup_2.
  - apply find_first_None in Hfind. rewrite Forall_forall in Hfind.
    specialize (Hfind f Hf). simpl in Hfind. congruence.
Qed.

(** ** Witnesses *)

Definition example_register : event :=
  ERegister "llama3.1:8b" "ollama" "http://localhost:11434" 4700000000 8192 Second.

Lemma refcount_exact_witness :
  ∃ i, localModels (run "s1" NewModelRegistry
         ([] ++ example_register :: [EUse "llama3.1:8b" true "" 0; EUse "llama3.1:8b" true "" 0;
                                     ERelease "llama3.1:8b" true ""])) !! "llama3.1:8b" = Some i ∧
       RefCount i = 1.
Proof.
  apply (refcount_exact "s1" [] "llama3.1:8b" "ollama" "http://localhost:11434" 4700000000 8192
           Second).
  - by vm_compute.
  - by repeat constructor.
  - by vm_compute.
Defined.

Lemma FindCompatibleLocalModel_sound_complete_witness :
  extractModelFamily "llama3.1:8b" = "llama3.1" ∧
  ∃ i, FindCompatibleLocalModel
         (map_to_list (localModels (run "s1" NewModelRegistry [example_register])))
         "llama3.1:70b-q4_0" = Some i ∧ extractModelFamily (Name i) = "llama3.1".
Proof.
  split; [by vm_compute|].
  pose proof (FindCompatibleLocalModel_sound_complete "s1" [example_register]
    (map_to_list (localModels (run "s1" NewModelRegistry [example_register]))) "llama3.1:70b-q4_0"
    ltac:(by vm_compute) ltac:(by vm_compute) (map_range_self _)) as H.
  destruct (FindCompatibleLocalModel _ _) as [i|] eqn:Hf.
  - exists i. split; [done|]. destruct H as [_ ->]. by vm_compute.
  - exfalso. apply (H "llama3.1:8b"); by vm_compute.
Defined.

Lemma extractModelFamily_longest_witness :
  extractModelFamily "llama3.1:8b-instruct-q4_k_m" ∈ families.
Proof.
  apply (extractModelFamily_longest "llama3.1:8b-instruct-q4_k_m") with (f := "llama3").
  - by right; right; left.
  - by vm_compute.
Defined.
