(* ===== verification/ModelContext.v ===== *)
(** * Context windows of models ([hive-server-go/model_context.go])

    The detector asks Ollama, then the table of known models, then the table
    of name patterns, and remembers the answer.  The tables are the source's,
    entry by entry.  The reply of [/api/show] is an input.  The detector is
    read and written under its lock in two steps; two first detections of one
    model may overlap, which [detect_finish] allows for. *)

From S2P Require Import Prelude GoFloat GoText GoHttp.

Local Open Scope string_scope.
Local Open Scope list_scope.
Local Open Scope Z_scope.

Record ModelContextWindow := mk_Window {
  Model : string; ContextLength : Z; MaxOutput : Z; Source : string }.

(** ** The tables *)

(** The map literal in two halves: Qwen to Mistral, and the rest. *)
Definition knownContextWindows1 : list (string * Z) :=
  [("qwen2.5-coder:0.5b", 32768); ("qwen2.5-coder:1.5b", 32768); ("qwen2.5-coder:3b", 32768);
    ("qwen2.5-coder:7b", 32768); ("qwen2.5-coder:14b", 131072); ("qwen2.5-coder:32b", 131072);
    ("qwen2.5-coder:72b", 131072); ("qwen2.5:0.5b", 32768); ("qwen2.5:1.5b", 32768);
    ("qwen2.5:3b", 32768); ("qwen2.5:7b", 131072); ("qwen2.5:14b", 131072);
    ("qwen2.5:32b", 131072); ("qwen2.5:72b", 131072); ("qwen3:0.6b", 32768);
    ("qwen3:1.7b", 32768); ("qwen3:4b", 32768); ("qwen3:8b", 32768); ("qwen3:14b", 131072);
    ("qwen3:30b", 131072); ("qwen3:32b", 131072); ("qwen3:235b", 131072);
    ("qwen3-coder:0.6b", 32768); ("qwen3-coder:1.7b", 32768); ("qwen3-coder:4b", 32768);
    ("qwen3-coder:8b", 32768); ("qwen3-coder:14b", 131072); ("qwen3-coder:30b", 131072);
    ("qwen3-coder:32b", 131072); ("qwen3-coder:235b", 131072); ("deepseek-coder:1.3b", 16384);
    ("deepseek-coder:6.7b", 16384); ("deepseek-coder:33b", 16384);
    ("deepseek-coder-v2:16b", 128000); ("deepseek-coder-v2:236b", 128000);
    ("deepseek-v2:16b", 128000); ("deepseek-v2:236b", 128000); ("deepseek-v3", 128000);
    ("deepseek-r1:1.5b", 65536); ("deepseek-r1:7b", 65536); ("deepseek-r1:8b", 65536);
    ("deepseek-r1:14b", 65536); ("deepseek-r1:32b", 65536); ("deepseek-r1:70b", 65536);
    ("codellama:7b", 16384); ("codellama:13b", 16384); ("codellama:34b", 16384);
    ("codellama:70b", 16384); ("codellama:7b-code", 16384); ("codellama:13b-code", 16384);
    ("codellama:34b-code", 16384); ("starcoder2:3b", 16384); ("starcoder2:7b", 16384);
    ("starcoder2:15b", 16384); ("llama3:8b", 8192); ("llama3:70b", 8192); ("llama3.1:8b", 131072);
    ("llama3.1:70b", 131072); ("llama3.1:405b", 131072); ("llama3.2:1b", 131072);
    ("llama3.2:3b", 131072); ("llama3.3:70b", 131072); ("mistral:7b", 32768);
    ("mistral-nemo:12b", 131072); ("mixtral:8x7b", 32768); ("mixtral:8x22b", 65536)].

Definition knownContextWindows2 : list (string * Z) :=
  [("gemma2:2b", 8192); ("gemma2:9b", 8192); ("gemma2:27b", 8192); ("gemma3:1b", 131072);
    ("gemma3:4b", 131072); ("gemma3:12b", 131072); ("gemma3:27b", 131072); ("phi3:3.8b", 131072);
    ("phi3:14b", 131072); ("phi4:14b", 16384); ("yi:6b", 204800); ("yi:9b", 204800);
    ("yi:34b", 204800); ("yi-coder:1.5b", 4096); ("yi-coder:6b", 204800); ("yi-coder:9b", 204800);
    ("yi-coder:34b", 204800); ("glm-4", 131072); ("glm-4-flash", 131072);
    ("glm-4.7-flash", 200000); ("glm-4.7-flash:bf16", 200000); ("glm-4.7-flash:q4_0", 200000);
    ("glm-4.7-flash:q8_0", 200000); ("glm-4-plus", 131072); ("glm-4-air", 131072);
    ("glm-4-airx", 131072); ("glm-4-long", 1048576); ("glm-4v", 8192); ("glm-4v-flash", 8192);
    ("glm-4v-plus", 8192); ("command-r:35b", 131072); ("command-r-plus:104b", 131072);
    ("codegemma:2b", 8192); ("codegemma:7b", 8192); ("codeqwen:7b", 32768);
    ("magicoder:7b", 8192); ("neural-chat:7b", 8192); ("openhermes:7b", 8192);
    ("nous-hermes:7b", 8192); ("nous-hermes:13b", 8192); ("nous-hermes2:7b", 8192);
    ("nous-hermes2-mixtral:8x7b", 32768); ("nous-hermes2-yi:34b", 204800);
    ("hermes-2-pro:7b", 4096); ("hermes-2-pro:13b", 4096); ("hermes-2-pro:70b", 4096);
    ("openchat:7b", 8192); ("zephyr:7b", 8192); ("vicuna:7b", 4096); ("vicuna:13b", 4096);
    ("vicuna:33b", 4096); ("wizard-coder:7b", 8192); ("wizard-coder:13b", 8192);
    ("wizard-coder:34b", 8192); ("wizard-coder:33b", 8192); ("wizard-coder-python:7b", 8192);
    ("mlx-community/Qwen2.5-Coder-7B-Instruct-4bit", 32768);
    ("mlx-community/Qwen2.5-Coder-14B-Instruct-4bit", 131072);
    ("mlx-community/DeepSeek-Coder-V2-Instruct-16B", 128000);
    ("mlx-community/Llama-3.1-8B-Instruct", 131072);
    ("mlx-community/Mistral-7B-Instruct-v0.3", 32768)].

Definition knownContextWindows : gmap string Z :=
  list_to_map (knownContextWindows1 ++ knownContextWindows2).

Definition contextPatterns : list (string * Z) :=
  [("qwen2.5-coder", 32768); ("qwen2.5", 131072); ("qwen3-coder", 32768); ("qwen3", 131072);
    ("qwen-coder", 32768); ("qwen", 32768); ("deepseek-coder-v2", 128000);
    ("deepseek-coder", 16384); ("deepseek-r1", 65536); ("deepseek", 128000); ("codellama", 16384);
    ("codegemma", 8192); ("codeqwen", 32768); ("magicoder", 8192); ("starcoder2", 16384);
    ("starcoder", 16384); ("llama3.1", 131072); ("llama3.2", 131072); ("llama3.3", 131072);
    ("llama3", 8192); ("mistral-nemo", 131072); ("mistral", 32768); ("mixtral", 32768);
    ("gemma3", 131072); ("gemma2", 8192); ("gemma", 8192); ("phi-4", 16384); ("phi4", 16384);
    ("phi-3", 131072); ("phi3", 131072); ("yi-coder", 204800); ("yi", 204800);
    ("hermes-2", 32768); ("hermes", 8192); ("command-r", 131072); ("glm-4.7", 200000);
    ("glm-4", 131072); ("glm", 131072); ("openchat", 8192); ("zephyr", 8192); ("vicuna", 4096);
    ("wizard-coder", 8192); ("wizard", 8192); ("neural-chat", 8192); ("openhermes", 8192);
    ("mlx", 32768)].

(** The budget constants of [coding_agent.go]. *)
Definition DefaultTokenBudget : Z := 32000.
Definition MinTokenBudget : Z := 4096.
Definition MaxTokenBudget : Z := 200000.

(** ** Detection *)

(** What the decoded reply of [/api/show] says: the context length of the
    model information and [num_ctx]; a missing field is zero.  [None]: no URL,
    a failed request, a status of 400 or more, or a body that is not JSON. *)
Definition queryOllamaShow (model : string) (reply : option (Z * Z)) : option ModelContextWindow :=
  match reply with
  | None => None
  | Some (context_length, num_ctx) =>
      let ctxLen := if context_length <=? 0 then num_ctx else context_length in
      if 0 <? ctxLen then Some (mk_Window model ctxLen 0 "api") else None
  end.

Abbreviation Detector := (gmap string ModelContextWindow) (only parsing).

Definition effective_model (model : string) : string :=
  if String.eqb model "" then "unknown" else model.

(** The static part: registry, patterns, default. *)
Definition detect_static (model : string) : ModelContextWindow :=
  match knownContextWindows !! model with
  | Some tokens => mk_Window model tokens 0 "registry"
  | None =>
      let lower := to_lower model in
      match find_first (λ p, strings_Contains lower p.1) contextPatterns with
      | Some (_, p) => mk_Window model p.2 0 "pattern"
      | None => mk_Window model DefaultTokenBudget 0 "default"
      end
  end.

(** What a detection that found nothing in the cache computes and stores. *)
Definition detect_finish (mcd : Detector) (model : string) (reply : option (Z * Z))
    : ModelContextWindow * Detector :=
  let result := match queryOllamaShow model reply with
                | Some r => r
                | None => detect_static model
                end in
  (result, <[model := result]> mcd).

Definition DetectContextWindow (mcd : Detector) (model : string) (reply : option (Z * Z))
    : ModelContextWindow * Detector :=
  let model := effective_model model in
  match mcd !! model with
  | Some cached => (cached, mcd)
  | None => detect_finish mcd model reply
  end.

Definition GetContextBudgetForModel (mcd : Detector) (model : string) (explicitBudget : Z)
    (reply : option (Z * Z)) : Z * Detector :=
  if 0 <? explicitBudget then
    (if explicitBudget <? MinTokenBudget then MinTokenBudget
     else if MaxTokenBudget <? explicitBudget then MaxTokenBudget
     else explicitBudget, mcd)
  else
    let '(detected, mcd) := DetectContextWindow mcd model reply in
    let budget := f64_to_int (f64_mul (f64_of_Z (ContextLength detected)) (f64_lit 4 5)) in
    let budget := if budget <? MinTokenBudget then MinTokenBudget else budget in
    let budget := if MaxTokenBudget <? budget then MaxTokenBudget else budget in
    (budget, mcd).

(** [ord] is the order the table is ranged over. *)
Definition GetAllKnownModels (ord : list (string * Z)) : list ModelContextWindow :=
  (λ e, mk_Window e.1 e.2 0 "registry") <$> ord.

Definition NormalizeModelName (model : string) : string :=
  let model := trim_space model in
  let model := trim_prefix model "ollama:" in
  let model := trim_prefix model "ollama/" in
  match splitN 2 model "/" with
  | [p0; p1] => p0 +:+ "/" +:+ to_lower p1
  | _ => to_lower model
  end.

(** [fmt_1f] renders a double with one decimal. *)
Definition FormatContextWindow (fmt_1f : f64 → string) (tokens : Z) : string :=
  if 1000000 <=? tokens then fmt_1f (f64_div (f64_of_Z tokens) (f64_of_Z 1000000)) +:+ "M"
  else if 1000 <=? tokens then fmt_d (int_quot tokens 1000) +:+ "K"
  else fmt_d tokens.

(** ** Runs of a detector *)

Definition detect_all (mcd : Detector) (qs : list (string * option (Z * Z))) : Detector :=
  foldl (λ mcd q, (DetectContextWindow mcd q.1 q.2).2) mcd qs.

Definition clamp (z : Z) : Z := Z.max MinTokenBudget (Z.min MaxTokenBudget z).

(** The lengths the static tables can give. *)
Definition static_lengths : list Z :=
  DefaultTokenBudget :: (knownContextWindows1 ++ knownContextWindows2).*2 ++ contextPatterns.*2.

(** A usable window. *)
Definition window_ok (model : string) (w : ModelContextWindow) : Prop :=
  Model w = model ∧ 0 < ContextLength w ∧ Source w ∈ ["api"; "registry"; "pattern"; "default"].

(** ** Lemmas *)

Lemma detect_static_length model : ContextLength (detect_static model) ∈ static_lengths.
Proof.
  unfold detect_static, static_lengths, knownContextWindows.
  destruct (list_to_map _ !! model) as [t|] eqn:Ht.
  - apply elem_of_list_to_map_2 in Ht. right. apply elem_of_app. left.
    apply list_elem_of_fmap. by exists (model, t).
  - destruct (find_first _ contextPatterns) as [[i p]|] eqn:Hf; [|by left].
    apply find_first_lookup in Hf as [Hl _]. right. apply elem_of_app. right.
    apply list_elem_of_fmap. exists p. split; [done|]. by eapply list_elem_of_lookup_2.
Qed.

(** Computed for every length of the tables: the double multiplication and
    truncation give four fifths, rounded down. *)
Lemma static_lengths_budget :
  Forall (λ n, 0 < n ∧ f64_to_int (f64_mul (f64_of_Z n) (f64_lit 4 5)) = 4 * n / 5) static_lengths.
Proof.
  apply Forall_forall. intros n Hn.
  assert (forallb (λ n, (0 <? n) && (f64_to_int (f64_mul (f64_of_Z n) (f64_lit 4 5)) =? 4 * n / 5))
            static_lengths = true) as H by by vm_compute.
  rewrite forallb_forall in H. specialize (H n (proj1 (list_elem_of_In _ _) Hn)). zbool. by split.
Qed.

Lemma clamp_code budget :
  (let budget := if budget <? MinTokenBudget then MinTokenBudget else budget in
   if MaxTokenBudget <? budget then MaxTokenBudget else budget) = clamp budget.
Proof.
  unfold clamp. simpl. unfold MinTokenBudget, MaxTokenBudget.
  destruct (Z.ltb_spec budget 4096); [simpl; lia|].
  destruct (Z.ltb_spec 200000 budget); lia.
Qed.

Lemma detect_static_shape model :
  ∃ t src, detect_static model = mk_Window model t 0 src ∧
    src ∈ ["api"; "registry"; "pattern"; "default"].
Proof.
  unfold detect_static. generalize knownContextWindows, contextPatterns. intros known pats.
  destruct (known !! model) as [t|]; [|destruct (find_first _ pats) as [[i p]|]];
    do 2 eexists; (split; [reflexivity|]); rewrite !elem_of_cons; tauto.
Qed.

Lemma detect_static_ok model : window_ok model (detect_static model).
Proof.
  pose proof static_lengths_budget as H. rewrite Forall_forall in H.
  pose proof (detect_static_length model) as Hl. specialize (H _ Hl). clear Hl.
  destruct (detect_static_shape model) as (t & src & Hd & Hs). rewrite Hd in H |- *.
  clear Hd. destruct H as [Hpos _]. exact (conj eq_refl (conj Hpos Hs)).
Qed.

Lemma detect_finish_ok mcd model reply : window_ok model (detect_finish mcd model reply).1.
Proof.
  unfold detect_finish, queryOllamaShow. destruct reply as [[c n]|]; [|apply detect_static_ok].
  destruct (Z.ltb_spec 0 (if c <=? 0 then n else c)) as [Hc|Hc]; simpl; [|apply detect_static_ok].
  split_and!; simpl; [done|done|set_solver].
Qed.

Lemma detect_cached mcd model reply :
  (DetectContextWindow mcd model reply).2 !! effective_model model =
  Some (DetectContextWindow mcd model reply).1.
Proof.
  unfold DetectContextWindow. destruct (mcd !! effective_model model) eqn:Hm; [done|].
  unfold detect_finish. cbv zeta. cbn [fst snd]. by rewrite lookup_insert_eq.
Qed.

Lemma detect_keeps mcd model reply m w :
  mcd !! m = Some w → (DetectContextWindow mcd model reply).2 !! m = Some w.
Proof.
  intros Hm. unfold DetectContextWindow.
  destruct (mcd !! effective_model model) eqn:He; [done|].
  unfold detect_finish. cbv zeta. cbn [fst snd]. by rewrite lookup_insert_ne by congruence.
Qed.

Lemma detect_all_keeps mcd qs m w : mcd !! m = Some w → detect_all mcd qs !! m = Some w.
Proof.
  unfold detect_all. revert mcd. induction qs as [|q qs IH]; intros mcd Hm; simpl; [done|].
  by apply IH, detect_keeps.
Qed.

Lemma detect_all_ok qs mcd :
  map_Forall window_ok mcd → map_Forall window_ok (detect_all mcd qs).
Proof.
  unfold detect_all. revert mcd. induction qs as [|q qs IH]; intros mcd Hm; simpl; [done|].
  apply IH. unfold DetectContextWindow.
  destruct (mcd !! effective_model q.1); [done|]. simpl.
  apply map_Forall_insert_2; [|done]. apply (detect_finish_ok mcd).
Qed.

Lemma pattern_table :
  Forall (λ i, Forall (λ j, match contextPatterns !! i, contextPatterns !! j with
    | Some p, Some q => strings_Contains q.1 p.1 = true → (i < j)%nat → p.2 = q.2 ∨ p.1 = q.1
    | _, _ => True end) (seq 0 46)) (seq 0 46).
Proof.
  assert (forallb (λ i, forallb (λ j, match contextPatterns !! i, contextPatterns !! j with
    | Some p, Some q => implb (strings_Contains q.1 p.1 && Nat.ltb i j) (p.2 =? q.2)
    | _, _ => true end) (seq 0 46)) (seq 0 46) = true) as H by by vm_compute.
  apply Forall_forall. intros i Hi. apply Forall_forall. intros j Hj.
  rewrite forallb_forall in H. specialize (H i (proj1 (list_elem_of_In _ _) Hi)).
  rewrite forallb_forall in H. specialize (H j (proj1 (list_elem_of_In _ _) Hj)). cbv beta in H.
  destruct (contextPatterns !! i) as [p|]; [|done]. destruct (contextPatterns !! j) as [q|]; [|done].
  intros Hc Hij. left. rewrite Hc, (proj2 (Nat.ltb_lt i j) Hij) in H. simpl in H. by zbool.
Qed.

(** ** Properties *)

(** A token budget is always between the minimum and the maximum; an
    explicit one is only clamped; and for a model Ollama does not describe and
    the detector has not seen, the budget is four fifths of the window of the
    tables, rounded down and clamped. *)
Theorem budget_bounds mcd model explicit reply :
  let b := (GetContextBudgetForModel mcd model explicit reply).1 in
  MinTokenBudget <= b <= MaxTokenBudget ∧
  (0 < explicit → b = clamp explicit) ∧
  (explicit <= 0 → mcd !! effective_model model = None → reply = None →
   b = clamp (4 * ContextLength (detect_static (effective_model model)) / 5)).
Proof.
  assert (∀ z, MinTokenBudget <= clamp z <= MaxTokenBudget) as Hclamp
    by (intros z; unfold clamp, MinTokenBudget, MaxTokenBudget; lia).
  assert (0 < explicit → GetContextBudgetForModel mcd model explicit reply = (clamp explicit, mcd)) as He.
  { intros Hpos. unfold GetContextBudgetForModel. rewrite (proj2 (Z.ltb_lt _ _) Hpos). f_equal.
    unfold clamp, MinTokenBudget, MaxTokenBudget.
    destruct (Z.ltb_spec explicit 4096); [lia|]. destruct (Z.ltb_spec 200000 explicit); lia. }
  assert (explicit <= 0 → (GetContextBudgetForModel mcd model explicit reply).1 =
    clamp (f64_to_int (f64_mul (f64_of_Z (ContextLength (DetectContextWindow mcd model reply).1))
                         (f64_lit 4 5)))) as Ha.
  { intros Hneg. unfold GetContextBudgetForModel. rewrite (proj2 (Z.ltb_ge _ _) Hneg).
    destruct (DetectContextWindow mcd model reply) as [d mcd']. apply clamp_code. }
  intros b. subst b. split; [|split].
  - destruct (Z.lt_ge_cases 0 explicit) as [Hp|Hp]; [rewrite (He Hp)|rewrite (Ha Hp)]; apply Hclamp.
  - intros Hpos. by rewrite (He Hpos).
  - intros Hneg Hnone ->. rewrite (Ha Hneg). unfold DetectContextWindow. rewrite Hnone.
    unfold detect_finish, queryOllamaShow. cbv zeta. cbn [fst snd]. f_equal. pose proof static_lengths_budget as H. rewrite Forall_forall in H.
    apply (H _ (detect_static_length (effective_model model))).
Qed.

(** A detection is stable and usable: whatever other models are detected
    in between and whatever Ollama answers later, a model keeps the window of
    its first detection, which names the model and has a positive length. *)
Theorem detection_stable qs1 model reply qs2 reply' :
  let mcd := detect_all ∅ qs1 in
  let '(w, mcd') := DetectContextWindow mcd model reply in
  (DetectContextWindow (detect_all mcd' qs2) model reply').1 = w ∧
  window_ok (effective_model model) w.
Proof.
  intros mcd. destruct (DetectContextWindow mcd model reply) as [w mcd'] eqn:Hd.
  pose proof (detect_cached mcd model reply) as Hc. rewrite Hd in Hc. simpl in Hc. split.
  - unfold DetectContextWindow. by rewrite (detect_all_keeps _ qs2 _ _ Hc).
  - assert (map_Forall window_ok mcd') as Hok; [|by apply Hok].
    change mcd' with (w, mcd').2. rewrite <-Hd.
    apply (detect_all_ok [(model, reply)]), detect_all_ok, map_Forall_empty.
Qed.

(** The order of the patterns is harmless: when the search stops at a
    pattern, every later pattern that refines it (contains its text) and also
    matches has the same window. *)
Theorem pattern_order_harmless lower i p j q :
  find_first (λ p, strings_Contains lower p.1) contextPatterns = Some (i, p) →
  contextPatterns !! j = Some q → strings_Contains lower q.1 = true →
  strings_Contains q.1 p.1 = true → p.1 ≠ q.1 → p.2 = q.2.
Proof.
  intros Hf Hj Hm Hc Hne.
  pose proof Hf as (l1 & l2 & Heq & Hlen & _ & Hl1)%find_first_Some.
  apply find_first_lookup in Hf as [Hi _].
  assert (i < j)%nat as Hij.
  { destruct (decide (i < j)%nat) as [|Hge]; [done|]. exfalso.
    destruct (decide (i = j)) as [->|Hnij]; [rewrite Hi in Hj; by simplify_eq|].
    rewrite Forall_forall in Hl1. specialize (Hl1 q). rewrite Hm in Hl1.
    assert (q ∈ l1); [|by specialize (Hl1 ltac:(done))].
    rewrite Heq, lookup_app_l in Hj by lia. by eapply list_elem_of_lookup_2. }
  pose proof pattern_table as H. rewrite Forall_forall in H.
  assert (i ∈ seq 0 46) as Hi46 by (apply lookup_lt_Some in Hi; apply elem_of_seq; simpl in *; lia).
  assert (j ∈ seq 0 46) as Hj46 by (apply lookup_lt_Some in Hj; apply elem_of_seq; simpl in *; lia).
  specialize (H i Hi46). rewrite Forall_forall in H. specialize (H j Hj46). cbv beta in H.
  rewrite Hi, Hj in H. by destruct (H Hc Hij).
Qed.

(** ** Witnesses *)

Lemma budget_bounds_witness :
  (GetContextBudgetForModel ∅ "qwen2.5-coder:7b" 0 None).1 = 26214 ∧
  (GetContextBudgetForModel ∅ "glm-4-long" 0 None).1 = 200000.
Proof.
  split.
  - rewrite (proj2 (proj2 (budget_bounds ∅ "qwen2.5-coder:7b" 0 None))); [by vm_compute|done..].
  - rewrite (proj2 (proj2 (budget_bounds ∅ "glm-4-long" 0 None))); [by vm_compute|done..].
Defined.

Lemma pattern_order_harmless_witness :
  (32768 = 32768) ∧ find_first (λ p, strings_Contains "codeqwen:7b" p.1) contextPatterns = Some (5%nat, ("qwen", 32768)).
Proof.
  split; [|by vm_compute].
  apply (pattern_order_harmless "codeqwen:7b" 5 ("qwen", 32768) 12 ("codeqwen", 32768)); by vm_compute.
Defined.
