(* ===== verification/JobQueue.v ===== *)
(** * The Ollama job queue ([hive-server-go/queue.go], [reporting.go])

    Jobs go through a buffered channel to a fixed number of workers, each of
    which calls Ollama and files the job as completed.  [Execute] models what
    a worker does with one job; [sys] the workers, the channel and the two
    maps, interleaved at the points where the code takes or releases the
    queue's lock.  Ollama, JSON text and the regular expressions are
    parameters. *)

From S2P Require Import Prelude GoFloat GoText GoHttp Job.

Local Open Scope string_scope.
Local Open Scope list_scope.
Local Open Scope Z_scope.

(** ** Requests to Ollama *)

(** [client.Post] or [client.Get]: it fails, or the status and the decoded
    body arrive. *)
Inductive http_outcome :=
  | HFailed (e : string)
  | HReply (status : Z) (body : result json).

Record config := mk_config {
  cfg_ollamaURL : string;
  cfg_ollamaModel : string;
  cfg_maxConcurrent : Z }.

(** Parts of the standard library the calls go through: [json.Marshal] of a
    map, [%v] of a decoded value, [json.Unmarshal] into a map (a JSON [null]
    gives the nil map), and the three regular expressions'
    [FindStringSubmatch]. *)
Record text_lib := mk_text_lib {
  marshal : gmap string json → result string;
  fmt_v : result json → string;
  unmarshal : string → result (option (gmap string json));
  submatch : nat → string → option string }.

Section calls.
Variable lib : text_lib.
Variable cfg : config.
(** The server at [url], given the request's body. *)
Variable http_post : string → string → http_outcome.
Variable http_get : string → http_outcome.

Definition postOllama (path : string) (body : gmap string json) : result json :=
  match marshal lib body with
  | Err e => Err ("marshal failed: " +:+ e)
  | Ok data =>
      match http_post (cfg_ollamaURL cfg +:+ path) data with
      | HFailed e => Err ("ollama request failed: " +:+ e)
      | HReply status b =>
          if 400 <=? status then
            Err ("ollama error (status " +:+ fmt_d status +:+ "): " +:+ fmt_v lib b)
          else match b with
               | Err e => Err ("ollama decode failed: " +:+ e)
               | Ok r => Ok r
               end
      end
  end.

Definition getOllama (path : string) : result json :=
  match http_get (cfg_ollamaURL cfg +:+ path) with
  | HFailed e => Err ("ollama request failed: " +:+ e)
  | HReply status b =>
      if 400 <=? status then Err ("ollama error status " +:+ fmt_d status)
      else match b with
           | Err e => Err ("ollama decode failed: " +:+ e)
           | Ok r => Ok r
           end
  end.

(** [if m, ok := payload["model"].(string); ok && m != "" { model = m }]. *)
Definition model_or (default : string) (payload : gmap string json) : string :=
  if String.eqb (obj_str payload "model") "" then default else obj_str payload "model".

Definition generate_body (payload : gmap string json) : gmap string json :=
  let body := jmap [
    ("model", JStr (model_or (cfg_ollamaModel cfg) payload));
    ("prompt", JStr (obj_str payload "prompt"));
    ("stream", JBool (from_opt false (obj_get as_bool payload "stream")));
    ("temperature", JNum (from_opt (f64_lit 1 10) (obj_get as_num payload "temperature")))] in
  let system := obj_str payload "system" in
  if negb (String.eqb system "") then <["system" := JStr system]> body else body.

Definition callOllamaGenerate (payload : gmap string json) : result json :=
  postOllama "/api/generate" (generate_body payload).

(** A nil slice is encoded as [null]. *)
Definition messages_of (payload : gmap string json) : json :=
  match obj_get as_arr payload "messages" with Some l => JArr l | None => JNull end.

Definition callOllamaChat (payload : gmap string json) : result json :=
  postOllama "/api/chat" (jmap [
    ("model", JStr (model_or (cfg_ollamaModel cfg) payload));
    ("messages", messages_of payload);
    ("stream", JBool (from_opt false (obj_get as_bool payload "stream")))]).

Definition callOllamaChatPayload (payload : gmap string json) : result json :=
  postOllama "/api/chat" (jmap [
    ("model", from_opt JNull (payload !! "model"));
    ("messages", from_opt JNull (payload !! "messages"));
    ("stream", JBool false)]).

Definition callOllamaEmbed (payload : gmap string json) : result json :=
  let prompt := obj_str payload "prompt" in
  let prompt := if String.eqb prompt "" then obj_str payload "text" else prompt in
  postOllama "/api/embeddings" (jmap [
    ("model", JStr (model_or "nomic-embed-text" payload)); ("prompt", JStr prompt)]).

Definition callOllamaListModels : result json := getOllama "/api/tags".

Definition callOllamaPullModel (payload : gmap string json) : result json :=
  let name := obj_str payload "name" in
  if String.eqb name "" then Err "model name required"
  else postOllama "/api/pull" (jmap [("name", JStr name); ("stream", JBool false)]).

(** The path is taken out of the caller's payload; no job type leads here. *)
Definition callOllamaCustom (payload : gmap string json) : result json * gmap string json :=
  let path := obj_str payload "path" in
  let path := if String.eqb path "" then "/api/generate" else path in
  let payload := delete "path" payload in
  (postOllama path payload, payload).

Definition truncStr (s : string) (maxLen : Z) : string :=
  if Z.of_nat (String.length s) <=? maxLen then s else str_take (Z.to_nat maxLen) s.

(** [data, _ := json.Marshal(cleaned)]. *)
Definition truncPayload (payload : gmap string json) : string :=
  let cleaned := (λ v, match as_str v with
                       | Some s => if 200 <? Z.of_nat (String.length s)
                                   then JStr (truncStr s 200) else v
                       | None => v
                       end) <$> payload in
  match marshal lib cleaned with Ok s => s | Err _ => "" end.

Definition nl : string := String (Ascii.ascii_of_nat 10) "".

Definition generic_prompt (payload : gmap string json) (jobType : string) : string :=
  let text := obj_str payload "text" in
  let text := if String.eqb text "" then obj_str payload "prompt" else text in
  if negb (String.eqb text "") then
    "Job type: " +:+ jobType +:+ nl +:+ nl +:+ "Text:" +:+ nl +:+ truncStr text 16000 +:+ nl +:+ nl
    +:+ "Analyze the above text and return a structured JSON response according to the job type."
  else
    "Job type: " +:+ jobType +:+ nl +:+ nl +:+ "Payload: " +:+ truncPayload payload +:+ nl +:+ nl
    +:+ "Please process this request and return a structured JSON response.".

(** The map extracted from a reply: the reply's text parsed as a JSON object,
    whole or as matched by the patterns in turn, or the reply itself.  [None]
    is the nil map. *)
Fixpoint try_patterns (pats : list nat) (response : string) : option (option (gmap string json)) :=
  match pats with
  | [] => None
  | p :: pats =>
      match submatch lib p response with
      | Some m => match unmarshal lib m with
                  | Ok parsed => Some parsed
                  | Err _ => try_patterns pats response
                  end
      | None => try_patterns pats response
      end
  end.

Definition extractJSONFromResponse (resp : gmap string json) : option (gmap string json) :=
  let response := obj_str resp "response" in
  if String.eqb response "" then Some resp
  else match unmarshal lib response with
       | Ok parsed => parsed
       | Err _ =>
           match try_patterns [0; 1; 2]%nat response with
           | Some parsed => parsed
           | None => Some (<["raw_response" := JStr response]> resp)
           end
       end.

(** [extracted[key] = v] panics on the nil map. *)
Definition copy_key {A} (as_T : json → option A) (key : string) (from : gmap string json)
    (to : option (gmap string json)) : panics (option (gmap string json)) :=
  match obj_get as_T from key with
  | None => Some to
  | Some _ =>
      match to, from !! key with
      | Some m, Some v => Some (Some (<[key := v]> m))
      | _, _ => None
      end
  end.

Definition callOllamaGeneric (payload : gmap string json) (jobType : string)
    : panics (result json) :=
  match postOllama "/api/generate" (jmap [
          ("model", JStr (cfg_ollamaModel cfg)); ("prompt", JStr (generic_prompt payload jobType));
          ("stream", JBool false); ("temperature", JNum (f64_lit 1 10))]) with
  | Err e => Some (Err e)
  | Ok (JObj respMap) =>
      extracted ← copy_key as_num "eval_count" respMap (extractJSONFromResponse respMap);
      extracted ← copy_key as_num "prompt_eval_count" respMap extracted;
      extracted ← copy_key as_num "eval_duration" respMap extracted;
      extracted ← copy_key as_str "model" respMap extracted;
      Some (Ok (JObj (from_opt ∅ extracted)))
  | Ok resp => Some (Ok resp)
  end.

(** The dispatch of [executeJob]: the listed generic types and all others go
    to the same call. *)
Definition call (job : Job) : panics (result json) :=
  if String.eqb (JobType job) "generate" then Some (callOllamaGenerate (PayloadMap job))
  else if String.eqb (JobType job) "chat" then Some (callOllamaChat (PayloadMap job))
  else if String.eqb (JobType job) "coding_agent_chat" then
    Some (callOllamaChatPayload (PayloadMap job))
  else if String.eqb (JobType job) "embed" || String.eqb (JobType job) "get_embedding" then
    Some (callOllamaEmbed (PayloadMap job))
  else if String.eqb (JobType job) "list_models" then Some callOllamaListModels
  else if String.eqb (JobType job) "pull_model" then Some (callOllamaPullModel (PayloadMap job))
  else callOllamaGeneric (PayloadMap job) (JobType job).

End calls.

(** ** Metrics of a result *)

Definition parseTokenMetrics (job : Job) (res : json) : Job :=
  match as_obj res with
  | None => job
  | Some resMap =>
      let model := if String.eqb (obj_str resMap "model") "" then Model job
                   else obj_str resMap "model" in
      let prompt := match obj_get as_num resMap "prompt_eval_count" with
                    | Some pc => f64_to_int pc | None => PromptTokens job end in
      let eval := match obj_get as_num resMap "eval_count" with
                  | Some ec => f64_to_int ec | None => EvalTokens job end in
      let total := int_add prompt eval in
      let dur := match obj_get as_num resMap "eval_duration" with
                 | Some ed => ed | None => EvalDuration job end in
      let job := set_metrics model prompt eval total dur job in
      if (PromptTokens job =? 0) && (EvalTokens job =? 0) then
        match obj_get as_obj resMap "usage" with
        | None => job
        | Some usage =>
            let prompt := match obj_get as_num usage "prompt_tokens" with
                          | Some pt => f64_to_int pt | None => PromptTokens job end in
            let eval := match obj_get as_num usage "completion_tokens" with
                        | Some ct => f64_to_int ct | None => EvalTokens job end in
            set_metrics model prompt eval (int_add prompt eval) dur job
        end
      else job
  end.

Definition calcTPS (job : Job) : f64 :=
  let by_eval :=
    if f64_ltb f64_zero (EvalDuration job) && (0 <? EvalTokens job) then
      f64_div (f64_of_Z (EvalTokens job)) (f64_div (EvalDuration job) (f64_of_Z 1000000000))
    else f64_zero in
  match StartedAt job, CompletedAt job with
  | Some s, Some c =>
      let dur := f64_sub c s in
      if f64_ltb f64_zero dur && (0 <? TotalTokens job) then f64_div (f64_of_Z (TotalTokens job)) dur
      else by_eval
  | _, _ => by_eval
  end.

(** [executeJob] once the call has returned: the clock reading, the status and
    the metrics. *)
Definition record_result (job : Job) (r : result json) (now : Time) : Job :=
  let job := set_completed (now_f now) job in
  match r with
  | Err e =>
      let job := set_failed e job in
      mk_Job (ID job) (ClientID job) (JobType job) (Payload job) (PayloadMap job) (Status job) JNull
        (Error job) (CreatedAt job) (StartedAt job) (CompletedAt job) (QueuePosition job)
        (Model job) (PromptTokens job) (EvalTokens job) (TotalTokens job) (EvalDuration job)
        (Priority job) (Deadline job) (RetryCount job) (MaxRetries job)
  | Ok res => parseTokenMetrics (set_result res job) res
  end.

Record TokenRecord := mk_TokenRecord {
  tr_Provider : string; tr_Model : string; tr_PromptTokens : Z; tr_CompletionTokens : Z;
  tr_TotalTokens : Z; tr_DurationSeconds : f64; tr_TokensPerSecond : f64; tr_JobType : string;
  tr_ClientID : string; tr_JobID : string; tr_ServingNode : string; tr_ServingType : string;
  tr_Timestamp : f64 }.

Definition recordFromResult (servingNodeID servingType : string) (job : Job) (res : json)
    (now : Time) : option TokenRecord :=
  m ← as_obj res;
  let model := if String.eqb (obj_str m "model") "" then "unknown" else obj_str m "model" in
  let promptTokens := match obj_get as_num m "prompt_eval_count" with
                      | Some v => f64_to_int v | None => 0 end in
  let completionTokens := match obj_get as_num m "eval_count" with
                          | Some v => f64_to_int v | None => 0 end in
  if (promptTokens =? 0) && (completionTokens =? 0) then None
  else
    let totalTokens := int_add promptTokens completionTokens in
    let duration := match StartedAt job, CompletedAt job with
                    | Some s, Some c => f64_sub c s | _, _ => f64_zero end in
    let tps := if f64_ltb f64_zero duration then f64_div (f64_of_Z totalTokens) duration
               else f64_zero in
    Some (mk_TokenRecord "ollama" model promptTokens completionTokens totalTokens duration tps
            (JobType job) (ClientID job) (ID job) servingNodeID servingType (now_f now)).

(** ** The queue *)

Record OllamaQueue := mk_OQ {
  jobCh : list nat;
  stopped : bool;
  running : gmap string nat;
  completed : gmap string nat;
  oq_config : config;
  heap : gmap nat Job }.

Definition jobCh_cap : Z := 1000.

Definition NewOllamaQueue (cfg : config) (h : gmap nat Job) : OllamaQueue :=
  mk_OQ [] false ∅ ∅ cfg h.

Definition set_jobCh (ch : list nat) (q : OllamaQueue) : OllamaQueue :=
  mk_OQ ch (stopped q) (running q) (completed q) (oq_config q) (heap q).
Definition set_running_map (m : gmap string nat) (q : OllamaQueue) : OllamaQueue :=
  mk_OQ (jobCh q) (stopped q) m (completed q) (oq_config q) (heap q).
Definition set_completed_map (m : gmap string nat) (q : OllamaQueue) : OllamaQueue :=
  mk_OQ (jobCh q) (stopped q) (running q) m (oq_config q) (heap q).
Definition write (p : nat) (f : Job → Job) (q : OllamaQueue) : OllamaQueue :=
  mk_OQ (jobCh q) (stopped q) (running q) (completed q) (oq_config q) (alter f p (heap q)).
Definition job_of (q : OllamaQueue) (p : nat) : Job := Job.deref (heap q) p.

Definition Submit (q : OllamaQueue) (job : nat) : bool * OllamaQueue :=
  if go_len (jobCh q) <? jobCh_cap then (true, set_jobCh (jobCh q ++ [job]) q) else (false, q).

(** The four parts of a worker's round: receive and mark, enter the running
    map, execute, move to the completed map. *)
Definition worker_take (q : OllamaQueue) (now : Time) : option (nat * OllamaQueue) :=
  match jobCh q with
  | [] => None
  | job :: rest => Some (job, write job (set_running (now_f now)) (set_jobCh rest q))
  end.

Definition worker_enter (job : nat) (q : OllamaQueue) : OllamaQueue :=
  set_running_map (<[ID (job_of q job) := job]> (running q)) q.

Definition worker_execute (job : nat) (r : result json) (now : Time) (q : OllamaQueue)
    : OllamaQueue :=
  write job (λ j, record_result j r now) q.

Definition worker_file (job : nat) (q : OllamaQueue) : OllamaQueue :=
  let i := ID (job_of q job) in
  set_completed_map (<[i := job]> (completed q)) (set_running_map (delete i (running q)) q).

Definition Stop (q : OllamaQueue) : OllamaQueue :=
  mk_OQ (jobCh q) true (running q) (completed q) (oq_config q) (heap q).

Definition GetAvailableCapacity (q : OllamaQueue) : Z :=
  maxInt 0 (int_sub (cfg_maxConcurrent (oq_config q)) (Z.of_nat (size (running q)))).

Definition GetJob (q : OllamaQueue) (jobID : string) : option nat :=
  match running q !! jobID with
  | Some j => Some j
  | None => completed q !! jobID
  end.

(** Completed less than an hour before the reading taken at the job. *)
Definition is_recent (q : OllamaQueue) (rd : nat → Time) (p : nat) : bool :=
  match CompletedAt (job_of q p) with
  | Some c => f64_ltb (f64_sub (now_f (rd p)) c) (f64_of_Z 3600)
  | None => false
  end.

Definition GetQueueStatus (q : OllamaQueue) (ord : list (string * nat)) (rd : nat → Time)
    : gmap string json :=
  jmap [("pending", JInt (go_len (jobCh q))); ("running", JInt (Z.of_nat (size (running q))));
        ("completed_recent",
         JInt (foldl (λ n e, if is_recent q rd (snd e) then int_incr n else n) 0 ord));
        ("max_concurrent", JInt (cfg_maxConcurrent (oq_config q)));
        ("ollama_url", JStr (cfg_ollamaURL (oq_config q)));
        ("ollama_model", JStr (cfg_ollamaModel (oq_config q)))].

Definition opt_num (o : option f64) : json := match o with Some f => JNum f | None => JNull end.

Definition jobToMap (j : Job) : gmap string json :=
  let m := jmap [
    ("job_id", JStr (ID j)); ("client_id", JStr (ClientID j)); ("job_type", JStr (JobType j));
    ("payload", JObj (PayloadMap j)); ("status", JStr (Status j)); ("result", Result j);
    ("error", JStr (Error j)); ("created_at", JNum (CreatedAt j));
    ("started_at", opt_num (StartedAt j)); ("completed_at", opt_num (CompletedAt j));
    ("queue_position", JInt 0)] in
  let m := if negb (String.eqb (Model j) "") then <["model" := JStr (Model j)]> m else m in
  let pt := PromptTokens j in
  let ct := EvalTokens j in
  let m := if 0 <? pt then <["prompt_tokens" := JInt pt]> m else m in
  let m := if 0 <? ct then <["completion_tokens" := JInt ct]> m else m in
  let m := if (0 <? pt) || (0 <? ct) then <["total_tokens" := JInt (int_add pt ct)]> m else m in
  let tps := calcTPS j in
  let m := if f64_ltb f64_zero tps then <["tokens_per_second" := JNum tps]> m else m in
  match StartedAt j, CompletedAt j with
  | Some s, Some c => <["duration_seconds" := JNum (f64_sub c s)]> m
  | _, _ => m
  end.

Definition GetAllJobs (q : OllamaQueue) (ordr ordc : list (string * nat)) (rd : nat → Time)
    : list (gmap string json) :=
  ((λ e, jobToMap (job_of q e.2)) <$> ordr) ++
  ((λ e, jobToMap (job_of q e.2)) <$> filter (λ e, is_recent q rd e.2 = true) ordc).

Definition is_old (q : OllamaQueue) (cutoff : f64) (p : nat) : bool :=
  match CompletedAt (job_of q p) with Some c => f64_ltb c cutoff | None => false end.

Definition CleanupOldJobs (q : OllamaQueue) (maxAgeHours : Z) (now : Time) : OllamaQueue :=
  let cutoff := f64_sub (now_f now) (f64_of_Z (int_mul maxAgeHours 3600)) in
  set_completed_map (filter (λ e, is_old q cutoff e.2 = false) (completed q)) q.

(** ** The workers *)

Inductive phase := Idle | Taken (job : nat) | Entered (job : nat) | Executed (job : nat) | Exited.

Definition held (ph : phase) : option nat :=
  match ph with Taken j | Entered j | Executed j => Some j | _ => None end.

(** [started] and [finished] record the order of the two events. *)
Record sys := mk_sys {
  oq : OllamaQueue;
  workers : list phase;
  started : list nat;
  finished : list nat }.

(** [Start] launches [maxConcurrent] workers. *)
Definition Start (q : OllamaQueue) : sys :=
  mk_sys q (replicate (Z.to_nat (cfg_maxConcurrent (oq_config q))) Idle) [] [].

(** All jobs the queue has accepted, and their ids. *)
Definition all_jobs (S : sys) : list nat :=
  jobCh (oq S) ++ omap held (workers S) ++ finished S.
Definition known_ids (S : sys) : list string :=
  (λ p, ID (job_of (oq S) p)) <$> all_jobs S.

Inductive op := OSubmit (accepted : option nat) | OWorker | OStop | OCleanup.

(** Jobs are submitted with ids the queue has not seen. *)
Inductive step : op → sys → sys → Prop :=
  | step_submit S job q :
      is_Some (heap (oq S) !! job) → ID (job_of (oq S) job) ∉ known_ids S →
      Submit (oq S) job = (true, q) →
      step (OSubmit (Some job)) S (mk_sys q (workers S) (started S) (finished S))
  | step_submit_full S job q :
      Submit (oq S) job = (false, q) →
      step (OSubmit None) S (mk_sys q (workers S) (started S) (finished S))
  | step_take S w job now q :
      workers S !! w = Some Idle → worker_take (oq S) now = Some (job, q) →
      step OWorker S (mk_sys q (<[w := Taken job]> (workers S)) (started S ++ [job]) (finished S))
  | step_enter S w job :
      workers S !! w = Some (Taken job) →
      step OWorker S (mk_sys (worker_enter job (oq S)) (<[w := Entered job]> (workers S))
                        (started S) (finished S))
  | step_execute S w job r now :
      workers S !! w = Some (Entered job) →
      step OWorker S (mk_sys (worker_execute job r now (oq S)) (<[w := Executed job]> (workers S))
                        (started S) (finished S))
  | step_file S w job :
      workers S !! w = Some (Executed job) →
      step OWorker S (mk_sys (worker_file job (oq S)) (<[w := Idle]> (workers S))
                        (started S) (finished S ++ [job]))
  | step_stop S :
      step OStop S (mk_sys (Stop (oq S)) (workers S) (started S) (finished S))
  | step_exit S w :
      workers S !! w = Some Idle → stopped (oq S) = true →
      step OWorker S (mk_sys (oq S) (<[w := Exited]> (workers S)) (started S) (finished S))
  | step_cleanup S hours now :
      step OCleanup S (mk_sys (CleanupOldJobs (oq S) hours now) (workers S) (started S) (finished S)).

Inductive steps : list op → sys → sys → Prop :=
  | steps_nil S : steps [] S S
  | steps_cons o os S1 S2 S3 : step o S1 S2 → steps os S2 S3 → steps (o :: os) S1 S3.

Definition accepted (os : list op) : list nat :=
  omap (λ o, match o with OSubmit a => a | _ => None end) os.

Definition in_map (ph : phase) : option nat :=
  match ph with Entered j | Executed j => Some j | _ => None end.
Definition done_by (ph : phase) : option nat :=
  match ph with Executed j => Some j | _ => None end.

(** A job that has been executed. *)
Definition settled (j : Job) : Prop :=
  (Status j = JobCompleted ∨ Status j = JobFailed ∧ Result j = JNull) ∧ is_Some (CompletedAt j).

Record inv (S : sys) : Prop := mk_inv {
  inv_ids : NoDup (known_ids S);
  inv_alloc : ∀ p, p ∈ all_jobs S → is_Some (heap (oq S) !! p);
  inv_running : ∀ i p, running (oq S) !! i = Some p ↔
    ID (job_of (oq S) p) = i ∧ p ∈ omap in_map (workers S);
  inv_completed : ∀ i p, completed (oq S) !! i = Some p →
    p ∈ finished S ∧ ID (job_of (oq S) p) = i;
  inv_settled : ∀ p, p ∈ finished S ∨ p ∈ omap done_by (workers S) → settled (job_of (oq S) p);
  inv_started : started S ≡ₚ omap held (workers S) ++ finished S }.

(** ** Lemmas *)

Lemma parseTokenMetrics_same job res :
  ID (parseTokenMetrics job res) = ID job ∧ Status (parseTokenMetrics job res) = Status job ∧
  CompletedAt (parseTokenMetrics job res) = CompletedAt job.
Proof.
  unfold parseTokenMetrics. destruct (as_obj res) as [m|]; [|done].
  destruct (_ && _); [|done]. by destruct (obj_get as_obj m "usage").
Qed.

Lemma record_result_ID job r now : ID (record_result job r now) = ID job.
Proof.
  destruct r as [res|e]; simpl; [|done].
  by rewrite (proj1 (parseTokenMetrics_same _ res)).
Qed.

Lemma record_result_settled job r now : settled (record_result job r now).
Proof.
  unfold settled. destruct r as [res|e]; simpl.
  - destruct (parseTokenMetrics_same (set_result res (set_completed (now_f now) job)) res)
      as (_ & -> & ->). split; [by left|by eexists].
  - split; [by right|by eexists].
Qed.

(** The token count after a successful result is the sum of its parts. *)
Lemma parseTokenMetrics_total job res m :
  res = JObj m →
  TotalTokens (parseTokenMetrics job res) =
  int_add (PromptTokens (parseTokenMetrics job res)) (EvalTokens (parseTokenMetrics job res)).
Proof.
  intros ->. unfold parseTokenMetrics. simpl. destruct (_ && _); [|done].
  by destruct (obj_get as_obj m "usage").
Qed.

Lemma job_of_write q p f p' :
  job_of (write p f q) p' = if decide (p = p' ∧ is_Some (heap q !! p)) then f (job_of q p') else job_of q p'.
Proof.
  unfold job_of, write, Job.deref. simpl. rewrite lookup_alter.
  case_decide as H1; case_decide as H2; subst.
  - by destruct H2 as [_ [j ->]].
  - destruct (heap q !! p'); [|done]. destruct H2. by split.
  - by destruct H2.
  - done.
Qed.

Lemma ID_write q p f p' :
  (∀ j, ID (f j) = ID j) → ID (job_of (write p f q) p') = ID (job_of q p').
Proof. intros Hf. rewrite job_of_write. case_decide; [apply Hf|done]. Qed.

Lemma known_ids_perm S S' :
  all_jobs S' ≡ₚ all_jobs S →
  (∀ p, ID (job_of (oq S') p) = ID (job_of (oq S) p)) →
  NoDup (known_ids S) → NoDup (known_ids S').
Proof.
  intros Hp Hid Hnd. unfold known_ids in *. rewrite Hp.
  assert ((λ p, ID (job_of (oq S') p)) <$> all_jobs S = (λ p, ID (job_of (oq S) p)) <$> all_jobs S)
    as ->; [|done]. apply list_fmap_ext. intros. apply Hid.
Qed.

Lemma held_in_map ph p : in_map ph = Some p → held ph = Some p.
Proof. by destruct ph. Qed.

Lemma in_map_NoDup S : NoDup (known_ids S) → NoDup (omap in_map (workers S)).
Proof.
  intros Hnd%NoDup_fmap_inv. unfold all_jobs in Hnd.
  apply NoDup_app in Hnd as (_ & _ & Hnd). apply NoDup_app in Hnd as (Hnd & _ & _).
  eapply sublist_NoDup; [exact Hnd|]. apply omap_sublist, held_in_map.
Qed.

Lemma in_map_all S p : p ∈ omap in_map (workers S) → p ∈ all_jobs S.
Proof.
  intros Hp. unfold all_jobs. apply elem_of_app. right. apply elem_of_app. left.
  eapply elem_of_sublist; [exact Hp|]. apply omap_sublist, held_in_map.
Qed.

Lemma held_all S w ph p : workers S !! w = Some ph → held ph = Some p → p ∈ all_jobs S.
Proof.
  intros Hw Hh. unfold all_jobs. apply elem_of_app. right. apply elem_of_app. left.
  apply list_elem_of_omap. exists ph. split; [by eapply list_elem_of_lookup_2|done].
Qed.

Lemma alter_is_Some_job (h : gmap nat Job) f p p' :
  is_Some (h !! p') → is_Some (alter f p h !! p').
Proof. intros Hp. by apply lookup_alter_is_Some. Qed.

(** ** The invariant, step by step *)

Lemma step_submit_inv S job q :
  inv S → is_Some (heap (oq S) !! job) → ID (job_of (oq S) job) ∉ known_ids S →
  Submit (oq S) job = (true, q) →
  inv (mk_sys q (workers S) (started S) (finished S)).
Proof.
  intros Hinv Hj Hf Hs. unfold Submit in Hs. case_match; simplify_eq.
  assert (all_jobs (mk_sys (set_jobCh (jobCh (oq S) ++ [job]) (oq S)) (workers S) (started S)
            (finished S)) ≡ₚ job :: all_jobs S) as Hperm.
  { unfold all_jobs. simpl. rewrite <-app_assoc. simpl. by rewrite <-Permutation_middle. }
  split; simpl; try apply Hinv.
  - unfold known_ids. rewrite Hperm. rewrite fmap_cons. constructor; [exact Hf|apply Hinv].
  - intros p Hp. rewrite Hperm in Hp. apply elem_of_cons in Hp as [->|Hp]; [done|by apply Hinv].
Qed.

Lemma step_take_inv S w job now q :
  inv S → workers S !! w = Some Idle → worker_take (oq S) now = Some (job, q) →
  inv (mk_sys q (<[w := Taken job]> (workers S)) (started S ++ [job]) (finished S)).
Proof.
  intros Hinv Hw Ht. unfold worker_take in Ht.
  destruct (jobCh (oq S)) as [|j rest] eqn:Hch; simplify_eq.
  set (q' := write job _ _).
  pose proof (omap_insert_perm held _ _ _ (Taken job) Hw) as Hh. simpl in Hh. rewrite app_nil_r in Hh.
  pose proof (omap_insert_perm in_map _ _ _ (Taken job) Hw) as Hm. simpl in Hm. rewrite app_nil_r in Hm.
  pose proof (omap_insert_perm done_by _ _ _ (Taken job) Hw) as Hd. simpl in Hd. rewrite app_nil_r in Hd.
  assert (∀ p, ID (job_of q' p) = ID (job_of (oq S) p)) as Hid.
  { intros p. unfold q'. by rewrite ID_write. }
  assert (all_jobs (mk_sys q' (<[w := Taken job]> (workers S)) (started S ++ [job]) (finished S))
            ≡ₚ all_jobs S) as Hperm.
  { unfold all_jobs. simpl. rewrite Hh, Hch. simpl. by rewrite <-Permutation_middle. }
  pose proof (NoDup_fmap_inv _ _ (inv_ids _ Hinv)) as Hnd. unfold all_jobs in Hnd.
  rewrite Hch in Hnd. simpl in Hnd. apply NoDup_cons in Hnd as [Hni _].
  split; simpl.
  - by eapply known_ids_perm, Hinv.
  - intros p Hp. rewrite Hperm in Hp. unfold q', write. simpl. by apply alter_is_Some_job, Hinv.
  - intros i p. rewrite Hm, Hid. apply (inv_running _ Hinv).
  - intros i p Hc. rewrite Hid. by apply (inv_completed _ Hinv).
  - intros p Hp. rewrite Hd in Hp. unfold q'. rewrite job_of_write.
    rewrite decide_False; [by apply (inv_settled _ Hinv)|]. intros [-> _]. apply Hni.
    rewrite !elem_of_app. destruct Hp as [Hp|Hp]; [by right; right|right; left].
    eapply elem_of_sublist; [exact Hp|]. apply omap_sublist. by intros [].
  - rewrite Hh, (inv_started _ Hinv). by rewrite Permutation_app_comm.
Qed.

Lemma step_enter_inv S w job :
  inv S → workers S !! w = Some (Taken job) →
  inv (mk_sys (worker_enter job (oq S)) (<[w := Entered job]> (workers S)) (started S) (finished S)).
Proof.
  intros Hinv Hw.
  pose proof (omap_insert_perm held _ _ _ (Entered job) Hw) as Hh. simpl in Hh.
  rewrite Permutation_app_comm in Hh. simpl in Hh. apply Permutation_cons_inv in Hh.
  pose proof (omap_insert_perm in_map _ _ _ (Entered job) Hw) as Hm. simpl in Hm. rewrite app_nil_r in Hm.
  pose proof (omap_insert_perm done_by _ _ _ (Entered job) Hw) as Hd. simpl in Hd. rewrite app_nil_r in Hd.
  assert (all_jobs (mk_sys (worker_enter job (oq S)) (<[w := Entered job]> (workers S)) (started S)
            (finished S)) ≡ₚ all_jobs S) as Hperm by (unfold all_jobs; simpl; by rewrite Hh).
  split; simpl.
  - by eapply known_ids_perm, Hinv.
  - intros p Hp. rewrite Hperm in Hp. by apply Hinv.
  - intros i p. rewrite lookup_insert_Some, (inv_running _ Hinv), Hm, elem_of_cons.
    change (job_of (worker_enter job (oq S)) p) with (job_of (oq S) p). split.
    + intros [[<- <-]|(_ & Hi & Hp)]; [by split; [|left]|by split; [|right]].
    + intros [Hi [->|Hp]]; [by left|]. destruct (decide (job = p)) as [->|Hne]; [by left|right].
      split_and!; [|done..]. intros Heq. apply Hne.
      eapply NoDup_fmap_inj; [apply Hinv|by eapply held_all|by apply in_map_all|]. simpl. congruence.
  - intros i p Hc. by apply (inv_completed _ Hinv).
  - intros p Hp. rewrite Hd in Hp. by apply (inv_settled _ Hinv).
  - rewrite Hh. apply Hinv.
Qed.

Lemma step_execute_inv S w job r now :
  inv S → workers S !! w = Some (Entered job) →
  inv (mk_sys (worker_execute job r now (oq S)) (<[w := Executed job]> (workers S))
         (started S) (finished S)).
Proof.
  intros Hinv Hw. unfold worker_execute. set (q' := write job _ _).
  pose proof (omap_insert_perm held _ _ _ (Executed job) Hw) as Hh. simpl in Hh.
  rewrite Permutation_app_comm in Hh. simpl in Hh. apply Permutation_cons_inv in Hh.
  pose proof (omap_insert_perm in_map _ _ _ (Executed job) Hw) as Hm. simpl in Hm.
  rewrite Permutation_app_comm in Hm. simpl in Hm. apply Permutation_cons_inv in Hm.
  pose proof (omap_insert_perm done_by _ _ _ (Executed job) Hw) as Hd. simpl in Hd. rewrite app_nil_r in Hd.
  assert (∀ p, ID (job_of q' p) = ID (job_of (oq S) p)) as Hid.
  { intros p. unfold q'. rewrite ID_write; [done|]. intros. apply record_result_ID. }
  assert (all_jobs (mk_sys q' (<[w := Executed job]> (workers S)) (started S) (finished S))
            ≡ₚ all_jobs S) as Hperm by (unfold all_jobs; simpl; by rewrite Hh).
  split; simpl.
  - by eapply known_ids_perm, Hinv.
  - intros p Hp. rewrite Hperm in Hp. by apply alter_is_Some_job, Hinv.
  - intros i p. rewrite Hm, Hid. apply (inv_running _ Hinv).
  - intros i p Hc. rewrite Hid. by apply (inv_completed _ Hinv).
  - intros p Hp. rewrite Hd, elem_of_cons in Hp. unfold q'. rewrite job_of_write. case_decide as Hc.
    + apply record_result_settled.
    + apply (inv_settled _ Hinv). destruct Hp as [Hp|[->|Hp]]; [by left| |by right].
      destruct Hc. split; [done|]. apply Hinv. by eapply held_all.
  - rewrite Hh. apply Hinv.
Qed.

Lemma step_file_inv S w job :
  inv S → workers S !! w = Some (Executed job) →
  inv (mk_sys (worker_file job (oq S)) (<[w := Idle]> (workers S)) (started S) (finished S ++ [job])).
Proof.
  intros Hinv Hw.
  pose proof (omap_insert_perm held _ _ _ Idle Hw) as Hh. simpl in Hh.
  pose proof (omap_insert_perm in_map _ _ _ Idle Hw) as Hm. simpl in Hm.
  pose proof (omap_insert_perm done_by _ _ _ Idle Hw) as Hd. simpl in Hd.
  assert (all_jobs (mk_sys (worker_file job (oq S)) (<[w := Idle]> (workers S)) (started S)
            (finished S ++ [job])) ≡ₚ all_jobs S) as Hperm.
  { unfold all_jobs. simpl. rewrite <-Hh, <-app_assoc.
    by rewrite (Permutation_app_comm (finished S) [job]). }
  pose proof (in_map_NoDup _ (inv_ids _ Hinv)) as Hndm. rewrite <-Hm in Hndm.
  apply NoDup_app in Hndm as (_ & Hjob & _).
  split; simpl.
  - by eapply known_ids_perm, Hinv.
  - intros p Hp. rewrite Hperm in Hp. by apply Hinv.
  - intros i p. rewrite lookup_delete_Some, (inv_running _ Hinv), <-Hm, elem_of_app, list_elem_of_singleton.
    change (job_of (worker_file job (oq S)) p) with (job_of (oq S) p). split.
    + intros (Hne & Hi & [Hp| ->]); [done|]. by destruct Hne.
    + intros [Hi Hp]. split_and!; [|done|by left]. intros Heq.
      assert (p = job) as ->; [|by apply (Hjob _ Hp), list_elem_of_singleton].
      eapply NoDup_fmap_inj; [apply Hinv| |by eapply held_all|simpl; congruence].
      apply in_map_all. rewrite <-Hm. apply elem_of_app. by left.
  - intros i p. rewrite elem_of_app, list_elem_of_singleton.
    change (job_of (worker_file job (oq S)) p) with (job_of (oq S) p).
    intros [[<- <-]|[Hne Hc]]%lookup_insert_Some; [by split; [right|]|].
    apply (inv_completed _ Hinv) in Hc as [??]. by split; [left|].
  - intros p Hp. change (job_of (worker_file job (oq S)) p) with (job_of (oq S) p).
    apply (inv_settled _ Hinv). rewrite <-Hd. rewrite !elem_of_app, list_elem_of_singleton in *. tauto.
  - rewrite (inv_started _ Hinv), <-Hh, <-app_assoc.
    by rewrite (Permutation_app_comm (finished S) [job]).
Qed.

Lemma jobs_step_inv o S S' : step o S S' → inv S → inv S'.
Proof.
  intros Hstep Hinv. destruct Hstep as [S job q Hj Hf Hs|S job q Hs|S w job now q Hw Ht|S w job Hw
    |S w job r now Hw|S w job Hw|S|S w Hw Hst|S hours now].
  - by eapply step_submit_inv.
  - assert (q = oq S) as ->; [|by destruct S]. unfold Submit in Hs. by case_match; simplify_eq.
  - by eapply step_take_inv.
  - by apply step_enter_inv.
  - by apply step_execute_inv.
  - by apply step_file_inv.
  - destruct Hinv. by split.
  - assert (∀ f : phase → option nat, f Idle = None → f Exited = None →
              omap f (<[w := Exited]> (workers S)) ≡ₚ omap f (workers S)) as Hf.
    { intros f Hi He. pose proof (omap_insert_perm f _ _ _ Exited Hw) as Hp.
      rewrite Hi, He in Hp. simpl in Hp. by rewrite app_nil_r in Hp. }
    destruct Hinv as [H1 H2 H3 H4 H5 H6].
    assert (all_jobs (mk_sys (oq S) (<[w := Exited]> (workers S)) (started S) (finished S))
              ≡ₚ all_jobs S) as Hperm by (unfold all_jobs; simpl; by rewrite Hf).
    split; simpl.
    + by eapply known_ids_perm.
    + intros p Hp. rewrite Hperm in Hp. auto.
    + intros i p. rewrite Hf by done. apply H3.
    + done.
    + intros p. rewrite Hf by done. apply H5.
    + by rewrite Hf by done.
  - destruct Hinv as [H1 H2 H3 H4 H5 H6]. split; simpl; try done.
    intros i p [Hc _]%map_lookup_filter_Some. by apply H4.
Qed.

Definition initial (S : sys) : Prop := ∃ cfg h, S = Start (NewOllamaQueue cfg h).

Lemma omap_replicate_Idle {A} (f : phase → option A) n : f Idle = None → omap f (replicate n Idle) = [].
Proof. intros Hf. induction n as [|n IH]; simpl; [done|]. by rewrite Hf. Qed.

Lemma jobs_initial_inv S : initial S → inv S.
Proof.
  intros (cfg & h & ->).
  assert (all_jobs (Start (NewOllamaQueue cfg h)) = []) as Hall.
  { unfold all_jobs. simpl. by rewrite omap_replicate_Idle. }
  split.
  - unfold known_ids. rewrite Hall. constructor.
  - rewrite Hall. by intros p ?%not_elem_of_nil.
  - intros i p. simpl. rewrite omap_replicate_Idle, lookup_empty by done. split; [done|].
    by intros [_ ?%not_elem_of_nil].
  - intros i p Hc. by apply (lookup_empty_Some i p) in Hc.
  - intros p. simpl. rewrite omap_replicate_Idle by done.
    by intros [?%not_elem_of_nil|?%not_elem_of_nil].
  - simpl. by rewrite omap_replicate_Idle.
Qed.

Lemma jobs_steps_inv os S S' : steps os S S' → inv S → inv S'.
Proof. induction 1; eauto using jobs_step_inv. Qed.

Lemma step_static o S S' :
  step o S S' → length (workers S') = length (workers S) ∧ oq_config (oq S') = oq_config (oq S).
Proof.
  intros Hstep. destruct Hstep as [S job q Hj Hf Hs|S job q Hs|S w job now q Hw Ht|S w job Hw
    |S w job r now Hw|S w job Hw|S|S w Hw Hst|S hours now]; simpl; rewrite ?length_insert; try done.
  - unfold Submit in Hs. by case_match; simplify_eq.
  - unfold Submit in Hs. by case_match; simplify_eq.
  - unfold worker_take in Ht. by case_match; simplify_eq.
Qed.

Lemma steps_workers os S S' cfg :
  steps os S S' → oq_config (oq S) = cfg → length (workers S) = Z.to_nat (cfg_maxConcurrent cfg) →
  oq_config (oq S') = cfg ∧ length (workers S') = Z.to_nat (cfg_maxConcurrent cfg).
Proof.
  induction 1 as [|o os S1 S2 S3 Hstep Hsteps IH]; intros Hc Hl; [done|].
  destruct (step_static _ _ _ Hstep) as [H1 H2]. apply IH; congruence.
Qed.

Lemma step_fifo o S S' :
  step o S S' → started S' ++ jobCh (oq S') = (started S ++ jobCh (oq S)) ++ accepted [o].
Proof.
  intros Hstep. destruct Hstep as [S job q Hj Hf Hs|S job q Hs|S w job now q Hw Ht|S w job Hw
    |S w job r now Hw|S w job Hw|S|S w Hw Hst|S hours now]; simpl; rewrite ?app_nil_r; try done.
  - unfold Submit in Hs. case_match; simplify_eq. simpl. by rewrite app_assoc.
  - unfold Submit in Hs. by case_match; simplify_eq.
  - unfold worker_take in Ht. destruct (jobCh (oq S)); simplify_eq. simpl. by rewrite <-app_assoc.
Qed.

Lemma steps_fifo os S S' :
  steps os S S' → started S' ++ jobCh (oq S') = (started S ++ jobCh (oq S)) ++ accepted os.
Proof.
  induction 1 as [S|o os S1 S2 S3 Hstep Hsteps IH]; [by rewrite app_nil_r|].
  rewrite IH, (step_fifo _ _ _ Hstep), <-app_assoc. f_equal.
  unfold accepted. by rewrite <-omap_app.
Qed.

(** The running map has one entry for every worker inside a job. *)
Lemma running_size S : inv S → size (running (oq S)) = length (omap in_map (workers S)).
Proof.
  intros Hinv. set (l := (λ p, (ID (job_of (oq S) p), p)) <$> omap in_map (workers S)).
  assert (NoDup l.*1) as Hnd.
  { unfold l. rewrite <-list_fmap_compose. apply NoDup_fmap_2_strong; [|by apply in_map_NoDup, Hinv].
    intros p p' Hp Hp' Heq. simpl in Heq.
    eapply NoDup_fmap_inj; [apply Hinv|by apply in_map_all|by apply in_map_all|done]. }
  assert (running (oq S) = list_to_map l) as ->.
  { apply map_eq. intros i. apply option_eq. intros p.
    rewrite (inv_running _ Hinv), <-elem_of_list_to_map by done. unfold l.
    rewrite list_elem_of_fmap. naive_solver. }
  rewrite <-length_map_to_list, map_to_list_to_map by done. unfold l. by rewrite length_fmap.
Qed.

Lemma omap_length {A B} (f : A → option B) l : (length (omap f l) ≤ length l)%nat.
Proof.
  induction l as [|x l IH]; [done|]. change (x :: l) with ([x] ++ l).
  rewrite omap_app, !length_app. apply Nat.add_le_mono; [|done]. simpl. by destruct (f x); simpl; lia.
Qed.

(** *** Draining *)

(** The worker steps ahead of a phase, and of a state. *)
Definition weight (ph : phase) : nat :=
  match ph with Idle => 1 | Taken _ => 4 | Entered _ => 3 | Executed _ => 2 | Exited => 0 end.
Definition work_left (S : sys) : nat :=
  (4 * length (jobCh (oq S)) + sum_list_with weight (workers S))%nat.

Lemma sum_with_insert {A} (f : A → nat) l i x y :
  l !! i = Some x → (sum_list_with f (<[i:=y]> l) + f x = sum_list_with f l + f y)%nat.
Proof.
  revert i. induction l as [|z l IH]; intros [|i] Hl; simplify_eq/=; [lia|]. specialize (IH i Hl). lia.
Qed.

Lemma worker_step_work S S' : step OWorker S S' → work_left S = Datatypes.S (work_left S').
Proof.
  intros Hstep. remember OWorker as o eqn:Ho.
  destruct Hstep as [| |S w job now q Hw Ht|S w job Hw|S w job r now Hw|S w job Hw| |S w Hw Hst|];
    try discriminate Ho; unfold work_left; simpl.
  1: unfold worker_take in Ht; destruct (jobCh (oq S)) eqn:Hch; simplify_eq/=; rewrite ?Hch.
  all: match goal with |- context [<[_ := ?y]> _] =>
         pose proof (sum_with_insert weight _ _ _ y Hw) as Hsum end; simpl in *; lia.
Qed.

Lemma worker_steps_work n S S' : steps (replicate n OWorker) S S' → (n + work_left S' = work_left S)%nat.
Proof.
  revert S. induction n as [|n IH]; intros S Hs; simpl in Hs; inversion Hs as [|? ? ? S2 ? Hst Hrest]; subst; [done|].
  apply worker_step_work in Hst. apply IH in Hrest. lia.
Qed.

Lemma work_left_le S : (work_left S ≤ 4 * length (jobCh (oq S)) + 4 * length (workers S))%nat.
Proof.
  unfold work_left. assert (sum_list_with weight (workers S) ≤ 4 * length (workers S))%nat; [|lia].
  induction (workers S) as [|ph l IH]; simpl; [lia|]. assert (weight ph ≤ 4)%nat by (destruct ph; simpl; lia). lia.
Qed.

(** No worker leaves before [Stop]. *)
Definition all_in (S : sys) : Prop := stopped (oq S) = false → Forall (λ ph, ph ≠ Exited) (workers S).

Lemma step_all_in o S S' : step o S S' → all_in S → all_in S'.
Proof.
  intros Hstep HS. unfold all_in in *. destruct Hstep as [S job q Hj Hf Hs|S job q Hs|S w job now q Hw Ht|S w job Hw
    |S w job r now Hw|S w job Hw|S|S w Hw Hst|S hours now]; simpl; try done.
  - unfold Submit in Hs. by case_match; simplify_eq.
  - unfold Submit in Hs. by case_match; simplify_eq.
  - unfold worker_take in Ht. destruct (jobCh (oq S)); simplify_eq/=. intros. apply Forall_insert; auto.
  - intros. apply Forall_insert; auto.
  - intros. apply Forall_insert; auto.
  - intros. apply Forall_insert; auto.
  - intros. congruence.
Qed.

Lemma steps_all_in os S S' : steps os S S' → all_in S → all_in S'.
Proof. induction 1; eauto using step_all_in. Qed.

Lemma worker_steps_stopped n S S' : steps (replicate n OWorker) S S' → stopped (oq S') = stopped (oq S).
Proof.
  revert S. induction n as [|n IH]; intros S Hs; simpl in Hs; inversion Hs as [|? ? ? S2 ? Hst Hrest]; subst; [done|].
  rewrite (IH _ Hrest). clear - Hst. remember OWorker as o eqn:Ho. destruct Hst; try discriminate Ho; try done.
  match goal with H : worker_take _ _ = _ |- _ => unfold worker_take in H end. by case_match; simplify_eq.
Qed.

(** A worker with a job can always go on. *)
Lemma busy_steps S w ph p : workers S !! w = Some ph → held ph = Some p → ∃ S', step OWorker S S'.
Proof.
  intros Hw Hh. destruct ph; simplify_eq/=; eexists;
    [by eapply step_enter|by eapply (step_execute _ _ _ (Err "") 0)|by eapply step_file].
Qed.

(** Some worker can go on, or there is nothing to do. *)
Lemma worker_progress S :
  all_in S → stopped (oq S) = false → workers S ≠ [] →
  (∃ S', step OWorker S S') ∨ jobCh (oq S) = [] ∧ omap held (workers S) = [].
Proof.
  intros Hin Hst Hne. destruct (omap held (workers S)) as [|p l] eqn:Hh.
  - destruct (jobCh (oq S)) as [|job ch] eqn:Hch; [by right|]. left.
    destruct (workers S) as [|ph ws] eqn:Hws; [done|].
    assert (ph = Idle) as ->.
    { specialize (Hin Hst). rewrite Hws in Hin. apply Forall_cons in Hin as [Hx _].
      destruct ph; simpl in Hh; done. }
    eexists. eapply (step_take S 0 job 0); [by rewrite Hws|]. unfold worker_take. by rewrite Hch.
  - left. assert (p ∈ omap held (workers S)) as Hp by (rewrite Hh; by left).
    apply list_elem_of_omap in Hp as (ph & [w Hw]%list_elem_of_lookup & Hph). by eapply busy_steps.
Qed.

Lemma job_steps_app os1 os2 S1 S2 S3 : steps os1 S1 S2 → steps os2 S2 S3 → steps (os1 ++ os2) S1 S3.
Proof. induction 1; simpl; [done|]. intros. econstructor; eauto. Qed.

Lemma accepted_workers n : accepted (replicate n OWorker) = [].
Proof. by induction n. Qed.

(** ** Properties *)



(** C11: the workers drain the queue.  As long as [Stop] is not called, no run of
    worker steps is longer than four steps for each waiting job and each
    worker; and a run that cannot go on has finished every job the queue has
    accepted, whatever the calls to Ollama return, unless one panics. *)
Theorem workers_drain os S0 S n S' :
  initial S0 → steps os S0 S → stopped (oq S) = false → 0 < cfg_maxConcurrent (oq_config (oq S0)) →
  steps (replicate n OWorker) S S' →
  (n ≤ 4 * length (jobCh (oq S)) + 4 * length (workers S))%nat ∧
  ((∃ S'', step OWorker S' S'') ∨ finished S' ≡ₚ accepted os).
Proof.
  intros Hi Hs Hst Hm Hw. pose proof (worker_steps_work _ _ _ Hw). pose proof (work_left_le S).
  split; [lia|]. pose proof (job_steps_app _ _ _ _ _ Hs Hw) as Hall.
  pose proof (jobs_steps_inv _ _ _ Hall (jobs_initial_inv _ Hi)) as Hinv.
  destruct Hi as (cfg & h & ->). destruct (worker_progress S') as [?|[Hch Hheld]]; [| | |by left|].
  - eapply steps_all_in; [done|]. intros _. simpl. by apply Forall_replicate.
  - by rewrite (worker_steps_stopped _ _ _ Hw).
  - destruct (steps_workers _ _ _ cfg Hall) as [_ Hl]; [done|simpl; by rewrite length_replicate|].
    intros Hnil. rewrite Hnil in Hl. simpl in Hl, Hm. lia.
  - right. pose proof (steps_fifo _ _ _ Hall) as Hf. simpl in Hf.
    rewrite Hch, app_nil_r in Hf. unfold accepted in *. rewrite omap_app in Hf.
    change (omap _ (replicate n OWorker)) with (accepted (replicate n OWorker)) in Hf.
    rewrite accepted_workers, app_nil_r in Hf. rewrite <- Hf, (inv_started _ Hinv), Hheld. done.
Qed.

(** A job that waits in the channel cannot be found: the look-up by its id
    that the job page and the event stream make returns nothing, although the
    job was accepted. *)
Theorem pending_job_not_found os S0 S p :
  initial S0 → steps os S0 S → p ∈ jobCh (oq S) → GetJob (oq S) (ID (job_of (oq S) p)) = None.
Proof.
  intros Hi Hs Hp. pose proof (jobs_steps_inv _ _ _ Hs (jobs_initial_inv _ Hi)) as Hinv.
  pose proof (NoDup_fmap_inv _ _ (inv_ids _ Hinv)) as Hnd.
  assert (p ∈ all_jobs S) as Hall by (unfold all_jobs; apply elem_of_app; by left).
  assert (∀ q, q ∈ omap held (workers S) ++ finished S →
            ID (job_of (oq S) q) = ID (job_of (oq S) p) → False) as Hno.
  { intros q Hq Hid. assert (q = p) as ->.
    { eapply NoDup_fmap_inj; [apply Hinv| |done|done]. unfold all_jobs. apply elem_of_app. by right. }
    unfold all_jobs in Hnd. apply NoDup_app in Hnd as (_ & Hd & _). by apply (Hd p). }
  unfold GetJob. destruct (running (oq S) !! _) as [q|] eqn:Hr.
  - apply (inv_running _ Hinv) in Hr as [Hid Hq]. exfalso. eapply Hno; [|exact Hid].
    apply elem_of_app. left. eapply elem_of_sublist; [exact Hq|]. apply omap_sublist, held_in_map.
  - destruct (completed (oq S) !! _) as [q|] eqn:Hc; [|done].
    apply (inv_completed _ Hinv) in Hc as [Hq Hid]. exfalso. eapply Hno; [|exact Hid].
    apply elem_of_app. by right.
Qed.

(** One reply crashes the server: a job of any generic type whose reply
    text is the JSON value null while the reply carries an evaluation count
    makes the worker write into a nil map. *)
Theorem null_reply_panics lib cfg http_post job respMap data n :
  (∀ body, marshal lib body = Ok data) →
  (∀ url, http_post url data = HReply 200 (Ok (JObj respMap))) →
  unmarshal lib "null" = Ok None →
  obj_str respMap "response" = "null" → obj_get as_num respMap "eval_count" = Some n →
  JobType job = "analyze_paper" →
  call lib cfg http_post (λ _, HFailed "") job = None.
Proof.
  intros Hm Hh Hu Hr He Hj. unfold call. rewrite Hj. simpl.
  unfold callOllamaGeneric, postOllama. rewrite Hm, Hh. simpl.
  unfold extractJSONFromResponse. rewrite Hr. simpl. rewrite Hu.
  assert (copy_key as_num "eval_count" respMap None = None) as -> by (unfold copy_key; by rewrite He).
  done.
Qed.

(** ** Witnesses *)

Definition example_cfg : config := mk_config "http://localhost:11434" "llama3" 1.
Definition example_heap : gmap nat Job :=
  {[1%nat := NewJob "j1" "c" "chat" ∅ 0; 2%nat := NewJob "j2" "c" "chat" ∅ 0]}.
Definition example_S0 : sys := Start (NewOllamaQueue example_cfg example_heap).
Definition example_submit (S : sys) (p : nat) : sys :=
  mk_sys (set_jobCh (jobCh (oq S) ++ [p]) (oq S)) (workers S) (started S) (finished S).
Definition example_S1 : sys := example_submit example_S0 1%nat.
Definition example_S2 : sys := example_submit example_S1 2%nat.
Definition example_S3 : sys :=
  mk_sys (write 1%nat (set_running (now_f 0)) (set_jobCh [2%nat] (oq example_S2))) [Taken 1%nat]
    [1%nat] [].
Definition example_ops : list op := [OSubmit (Some 1%nat); OSubmit (Some 2%nat); OWorker].

Lemma jobs_example_initial : initial example_S0.
Proof. by exists example_cfg, example_heap. Qed.

Lemma jobs_example_steps : steps example_ops example_S0 example_S3.
Proof.
  eapply (steps_cons _ _ _ example_S1).
  { apply (step_submit example_S0 1%nat); [by eexists|by apply not_elem_of_nil|reflexivity]. }
  eapply (steps_cons _ _ _ example_S2).
  { apply (step_submit example_S1 2%nat); [by eexists| |reflexivity].
    vm_compute. by intros [?|?%not_elem_of_nil]%elem_of_cons. }
  eapply (steps_cons _ _ _ example_S3); [|apply steps_nil].
  apply (step_take example_S2 0%nat 1%nat 0); reflexivity.
Qed.



Lemma workers_drain_witness :
  (1 ≤ 4 * length (jobCh (oq example_S3)) + 4 * length (workers example_S3))%nat.
Proof.
  eapply (workers_drain example_ops example_S0 example_S3 1 _ jobs_example_initial jobs_example_steps);
    [done|by vm_compute|].
  eapply steps_cons; [|apply steps_nil]. by apply (step_enter example_S3 0%nat 1%nat).
Defined.

Lemma pending_job_not_found_witness : GetJob (oq example_S3) "j2" = None.
Proof.
  apply (pending_job_not_found example_ops example_S0 example_S3 2%nat jobs_example_initial jobs_example_steps).
  by left.
Defined.

Definition example_lib : text_lib :=
  mk_text_lib (λ _, Ok "{}") (λ _, "") (λ _, Ok None) (λ _ _, None).

Lemma null_reply_panics_witness :
  call example_lib example_cfg
    (λ _ _, HReply 200 (Ok (jobj [("response", JStr "null"); ("eval_count", JNum (f64_of_Z 3))])))
    (λ _, HFailed "") (NewJob "j3" "c" "analyze_paper" ∅ 0) = None.
Proof.
  apply (null_reply_panics example_lib example_cfg
    (λ _ _, HReply 200 (Ok (jobj [("response", JStr "null"); ("eval_count", JNum (f64_of_Z 3))])))
    (NewJob "j3" "c" "analyze_paper" ∅ 0)
    (jmap [("response", JStr "null"); ("eval_count", JNum (f64_of_Z 3))]) "{}" (f64_of_Z 3));
    by vm_compute.
Defined.
