(* ===== verification/JobStream.v ===== *)
(** * Job event streams ([hive-server-go/stream.go])

    Subscribers of a job are channels held in a slice per job.  Slices are
    headers over shared backing arrays, as Go's are, because [Publish] ranges
    over a header it read under the lock while [Unsubscribe] shifts the same
    array; a publication is therefore a sequence of steps, one per send. *)

From S2P Require Import Prelude GoFloat GoText GoHttp Job.

Local Open Scope string_scope.
Local Open Scope list_scope.
Local Open Scope nat_scope.

Record JobEvent := mk_JobEvent {
  ev_JobID : string;
  ev_Status : string;
  ev_Result : json;
  ev_Error : string;
  ev_Progress : f64 }.

(** A buffered channel of capacity 10. *)
Record chan := mk_chan { buf : list JobEvent; closed : bool }.
Definition chan_cap : nat := 10.

(** A slice header: the backing array, the length and the capacity (every
    slice of this file starts at the array's first cell). *)
Record slice := mk_slice { s_arr : nat; s_len : nat; s_cap : nat }.
Definition nil_slice : slice := mk_slice 0 0 0.

(** [clients] and the heap: backing arrays, whose cells are pointers to
    channels (0 is nil), and channels. *)
Record JobStream := mk_JobStream {
  clients : gmap string slice;
  arrays : gmap nat (list nat);
  chans : gmap nat chan;
  next_arr : nat;
  next_chan : nat }.

Definition globalJobStream : JobStream := mk_JobStream ∅ ∅ ∅ 1 1.

Definition cells (js : JobStream) (a : nat) : list nat := from_opt [] (arrays js !! a).
Definition elems (js : JobStream) (s : slice) : list nat := take (s_len s) (cells js (s_arr s)).
Definition slice_of (js : JobStream) (jobID : string) : slice := from_opt nil_slice (clients js !! jobID).
Definition subscribers (js : JobStream) (jobID : string) : list nat := elems js (slice_of js jobID).

Definition set_clients (m : gmap string slice) (js : JobStream) : JobStream :=
  mk_JobStream m (arrays js) (chans js) (next_arr js) (next_chan js).
Definition set_cells (a : nat) (l : list nat) (js : JobStream) : JobStream :=
  mk_JobStream (clients js) (<[a := l]> (arrays js)) (chans js) (next_arr js) (next_chan js).
Definition set_chan (c : nat) (ch : chan) (js : JobStream) : JobStream :=
  mk_JobStream (clients js) (arrays js) (<[c := ch]> (chans js)) (next_arr js) (next_chan js).

Section stream.
(** The capacity the runtime gives a slice that has to grow. *)
Variable grow : nat → nat.

(** [append(s, c)]: in place when there is room, else in a new array. *)
Definition go_append (s : slice) (c : nat) (js : JobStream) : slice * JobStream :=
  if s_len s <? s_cap s then
    (mk_slice (s_arr s) (S (s_len s)) (s_cap s),
     set_cells (s_arr s) (<[s_len s := c]> (cells js (s_arr s))) js)
  else
    let n := grow (s_cap s) in
    let l := elems js s ++ c :: replicate (n - S (s_len s)) 0 in
    (mk_slice (next_arr js) (S (s_len s)) n,
     mk_JobStream (clients js) (<[next_arr js := l]> (arrays js)) (chans js) (S (next_arr js))
       (next_chan js)).

Definition Subscribe (jobID : string) (js : JobStream) : nat * JobStream :=
  let ch := next_chan js in
  let js := mk_JobStream (clients js) (arrays js) (<[ch := mk_chan [] false]> (chans js))
              (next_arr js) (S ch) in
  let (s, js) := go_append (slice_of js jobID) ch js in
  (ch, set_clients (<[jobID := s]> (clients js)) js).

(** [close(ch)], which panics on a closed channel. *)
Definition go_close (c : nat) (js : JobStream) : panics JobStream :=
  match chans js !! c with
  | Some ch => if closed ch then None else Some (set_chan c (mk_chan (buf ch) true) js)
  | None => None
  end.

(** [append(clients[:i], clients[i+1:]...)] on the header [s]: the elements
    after [i] move down in the shared array, whose last cell keeps its
    value. *)
Definition go_delete (s : slice) (i : nat) (js : JobStream) : slice * JobStream :=
  let l := elems js s in
  (mk_slice (s_arr s) (s_len s - 1) (s_cap s),
   set_cells (s_arr s)
     (go_remove_at i l ++ drop (s_len s - 1) (cells js (s_arr s))) js).

Definition Unsubscribe (jobID : string) (ch : nat) (js : JobStream) : panics JobStream :=
  js' ← match find_first (λ c, c =? ch) (subscribers js jobID) with
        | Some (i, _) =>
            let (s, js) := go_delete (slice_of js jobID) i js in
            go_close ch (set_clients (<[jobID := s]> (clients js)) js)
        | None => Some js
        end;
  Some (if s_len (slice_of js' jobID) =? 0 then set_clients (delete jobID (clients js')) js' else js').

(** One iteration's [select]: a send that panics on a closed channel, or is
    dropped when the buffer is full. *)
Definition send_or_skip (c : nat) (event : JobEvent) (js : JobStream) : panics JobStream :=
  match chans js !! c with
  | Some ch =>
      if closed ch then None
      else if length (buf ch) <? chan_cap
           then Some (set_chan c (mk_chan (buf ch ++ [event]) false) js)
           else Some js
  | None => Some js  (** a nil channel is never ready *)
  end.

(** The iterations from index [i] on, over the header [s] read at the start. *)
Fixpoint publish_loop (n i : nat) (s : slice) (event : JobEvent) (js : JobStream) : panics JobStream :=
  match n with
  | 0 => Some js
  | S n' =>
      js ← send_or_skip (from_opt 0 (cells js (s_arr s) !! i)) event js;
      publish_loop n' (S i) s event js
  end.

Definition Publish (event : JobEvent) (js : JobStream) : panics JobStream :=
  let s := slice_of js (ev_JobID event) in
  publish_loop (s_len s) 0 s event js.

Definition event_of (job : Job) : JobEvent :=
  mk_JobEvent (ID job) (Status job) (Result job) (Error job) f64_zero.

Definition NotifyJobUpdate (job : Job) (js : JobStream) : panics JobStream := Publish (event_of job) js.

(** A receive: the next event, or [None] from a closed empty channel; no
    value when it would block. *)
Definition recv (c : nat) (js : JobStream) : option (option JobEvent * JobStream) :=
  match chans js !! c with
  | Some ch =>
      match buf ch with
      | e :: l => Some (Some e, set_chan c (mk_chan l (closed ch)) js)
      | [] => if closed ch then Some (None, js) else None
      end
  | None => None
  end.

End stream.

(** ** The event-stream handler *)

(** What wakes the handler's [select]: the request ends, the channel yields,
    or a minute passes. *)
Inductive wake := WDone | WEvent (e : JobEvent) | WClosed | WKeepalive.
Inductive frame := FData (e : JobEvent) | FKeepalive.

Definition terminal (status : string) : bool :=
  String.eqb status "completed" || String.eqb status "failed".

(** The loop: the frames written and whether it returned. *)
Fixpoint stream_loop (ws : list wake) : list frame * bool :=
  match ws with
  | [] => ([], false)
  | WDone :: _ | WClosed :: _ => ([], true)
  | WKeepalive :: ws' => let (fs, fin) := stream_loop ws' in (FKeepalive :: fs, fin)
  | WEvent e :: ws' =>
      if terminal (ev_Status e) then ([FData e], true)
      else let (fs, fin) := stream_loop ws' in (FData e :: fs, fin)
  end.

(** After the subscription: the job's state if it is found, then the loop. *)
Definition stream_frames (job : option Job) (ws : list wake) : list frame * bool :=
  match job with
  | Some j =>
      if String.eqb (Status j) JobCompleted || String.eqb (Status j) JobFailed
      then ([FData (event_of j)], true)
      else let (fs, fin) := stream_loop ws in (FData (event_of j) :: fs, fin)
  | None => stream_loop ws
  end.

Definition handleJobStream (jobID : string) (is_flusher : bool) (job : option Job) (ws : list wake)
    : response + list frame * bool :=
  if String.eqb jobID "" then inl (http_Error "job_id required" StatusBadRequest)
  else if negb is_flusher then inl (http_Error "streaming not supported" StatusInternalServerError)
  else inr (stream_frames job ws).

(** ** Reachable streams *)

Section reach.
Variable grow : nat → nat.

Inductive reachable : JobStream → Prop :=
  | reach_init : reachable globalJobStream
  | reach_subscribe jobID js : reachable js → reachable (Subscribe grow jobID js).2
  | reach_unsubscribe jobID c js js' :
      reachable js → Unsubscribe jobID c js = Some js' → reachable js'
  | reach_send c event js js' :
      reachable js → send_or_skip c event js = Some js' → reachable js'
  | reach_recv c js e js' : reachable js → recv c js = Some (e, js') → reachable js'.

End reach.

(** A slice owns its whole array, arrays are not shared between jobs, and
    every subscriber is an open channel of one job. *)
Record wf (js : JobStream) : Prop := mk_wf {
  wf_next : 0 < next_chan js;
  wf_slice j s : clients js !! j = Some s →
    0 < s_len s ≤ s_cap s ∧ s_arr s < next_arr js ∧ length (cells js (s_arr s)) = s_cap s;
  wf_arrays j j' s s' : clients js !! j = Some s → clients js !! j' = Some s' →
    s_arr s = s_arr s' → j = j';
  wf_nodup j : NoDup (subscribers js j);
  wf_open j c : c ∈ subscribers js j →
    0 < c < next_chan js ∧ ∃ b, chans js !! c = Some (mk_chan b false);
  wf_one_job j j' c : c ∈ subscribers js j → c ∈ subscribers js j' → j = j' }.

Lemma slice_of_Some js j s : clients js !! j = Some s → slice_of js j = s.
Proof. unfold slice_of. by intros ->. Qed.

Lemma subscribers_None js j : clients js !! j = None → subscribers js j = [].
Proof. unfold subscribers, slice_of, elems. by intros ->. Qed.

Lemma subscribers_Some js j s :
  clients js !! j = Some s → subscribers js j = take (s_len s) (cells js (s_arr s)).
Proof. unfold subscribers, slice_of, elems. by intros ->. Qed.

Lemma length_subscribers js j : wf js → length (subscribers js j) = s_len (slice_of js j).
Proof.
  intros Hwf. destruct (clients js !! j) as [s|] eqn:Hs.
  - rewrite (subscribers_Some _ _ _ Hs), (slice_of_Some _ _ _ Hs).
    destruct (wf_slice _ Hwf _ _ Hs) as (? & _ & ?). rewrite length_take. lia.
  - rewrite (subscribers_None _ _ Hs). unfold slice_of. by rewrite Hs.
Qed.

Lemma init_wf : wf globalJobStream.
Proof.
  split; [simpl; lia|done|done|intros j; constructor|..].
  - by intros j c ?%not_elem_of_nil.
  - by intros j j' c ?%not_elem_of_nil.
Qed.

(** Buffers do not matter to [wf]. *)
Lemma set_chan_wf js c b b' :
  wf js → chans js !! c = Some (mk_chan b false) → wf (set_chan c (mk_chan b' false) js).
Proof.
  intros [H0 H1 H2 H3 H4 H5] Hc. split; [done|done|done|done| |done].
  intros j d Hd. destruct (H4 j d Hd) as [? [x Hx]]. split; [done|]. simpl.
  destruct (decide (c = d)) as [->|Hne]; [rewrite lookup_insert_eq|rewrite lookup_insert_ne by done]; eauto.
Qed.

Lemma set_chan_closed_wf js c ch :
  wf js → (∀ j, c ∉ subscribers js j) → wf (set_chan c ch js).
Proof.
  intros [H0 H1 H2 H3 H4 H5] Hc. split; [done|done|done|done| |done].
  intros j d Hd. destruct (H4 j d Hd) as [? [x Hx]]. split; [done|]. simpl.
  rewrite lookup_insert_ne by (intros ->; by apply (Hc j)). eauto.
Qed.

Lemma send_wf c event js js' : wf js → send_or_skip c event js = Some js' → wf js'.
Proof.
  intros Hwf. unfold send_or_skip. destruct (chans js !! c) as [[b []]|] eqn:Hc; simpl; [done| |by intros [= <-]].
  case_match; intros [= <-]; [by eapply set_chan_wf|done].
Qed.

Lemma recv_wf c js e js' : wf js → recv c js = Some (e, js') → wf js'.
Proof.
  intros Hwf. unfold recv. destruct (chans js !! c) as [[[|x l] cl]|] eqn:Hc; simpl; [|intros [= _ <-]|done].
  - destruct cl; [by intros [= _ <-]|done].
  - destruct cl; [|by eapply set_chan_wf].
    apply set_chan_closed_wf; [done|]. intros j Hin. destruct (wf_open _ Hwf _ _ Hin) as [_ [b Hb]].
    congruence.
Qed.

(** *** Subscribing *)

Section subscribe.
Context (grow : nat → nat) (grow_more : ∀ n, n < grow n).

(** What [Subscribe] leaves: the new slice of the job, seen through the new
    heap, with the other jobs' arrays untouched. *)
Lemma Subscribe_shape jobID js :
  wf js →
  ∃ s, let js' := (Subscribe grow jobID js).2 in
  (Subscribe grow jobID js).1 = next_chan js ∧
  clients js' = <[jobID := s]> (clients js) ∧
  s_len s = S (s_len (slice_of js jobID)) ∧ s_len s ≤ s_cap s ∧
  s_arr s < next_arr js' ∧ next_arr js ≤ next_arr js' ∧
  length (cells js' (s_arr s)) = s_cap s ∧
  elems js' s = subscribers js jobID ++ [next_chan js] ∧
  chans js' = <[next_chan js := mk_chan [] false]> (chans js) ∧
  next_chan js' = S (next_chan js) ∧
  (s_arr s = next_arr js ∨ s_arr s = s_arr (slice_of js jobID) ∧ is_Some (clients js !! jobID)) ∧
  ∀ a, a ≠ s_arr s → cells js' a = cells js a.
Proof.
  intros Hwf. pose proof (length_subscribers js jobID Hwf) as Hlen.
  set (s0 := slice_of js jobID) in *. unfold Subscribe, go_append. fold s0.
  replace (slice_of _ jobID) with s0 by reflexivity.
  destruct (Nat.ltb_spec (s_len s0) (s_cap s0)) as [Hlt|Hge].
  - destruct (clients js !! jobID) as [s|] eqn:Hs;
      [|unfold s0, slice_of in Hlt; rewrite Hs in Hlt; simpl in Hlt; lia].
    assert (s0 = s) as -> by (by apply slice_of_Some).
    destruct (wf_slice _ Hwf _ _ Hs) as (? & ? & Hcap).
    exists (mk_slice (s_arr s) (S (s_len s)) (s_cap s)). unfold cells at 2, elems at 1, cells at 3. simpl.
    unfold cells in *. simpl. rewrite lookup_insert_eq. simpl.
    split_and!; try done; try lia.
    + by rewrite length_insert.
    + rewrite (subscribers_Some _ _ _ Hs). unfold cells.
      rewrite (take_S_r _ _ (next_chan js)) by (apply list_lookup_insert_eq; lia).
      by rewrite take_insert_ge.
    + right. by eexists.
    + intros a Ha. by rewrite lookup_insert_ne.
  - exists (mk_slice (next_arr js) (S (s_len s0)) (grow (s_cap s0))). simpl.
    pose proof (grow_more (s_cap s0)) as Hg.
    assert (s_len s0 ≤ s_cap s0) as Hle.
    { unfold s0, slice_of. destruct (clients js !! jobID) as [s|] eqn:Hs; simpl; [|lia].
      destruct (wf_slice _ Hwf _ _ Hs). lia. }
    unfold elems at 2, cells. simpl. rewrite lookup_insert_eq. simpl.
    replace (elems _ s0) with (subscribers js jobID) by reflexivity.
    split_and!; try done; try lia.
    + rewrite length_app. simpl. rewrite length_replicate. lia.
    + change (?x :: ?l) with ([x] ++ l). rewrite app_assoc, take_app_length' by (rewrite length_app; simpl; lia).
      done.
    + intros a Ha. by rewrite lookup_insert_ne.
Qed.

Lemma Subscribe_subscribers jobID js j :
  wf js →
  subscribers (Subscribe grow jobID js).2 j =
    if decide (j = jobID) then subscribers js j ++ [next_chan js] else subscribers js j.
Proof.
  intros Hwf. destruct (Subscribe_shape jobID js Hwf)
    as (s & _ & Hcl & _ & _ & _ & _ & _ & Hel & _ & _ & Harr & Hfr).
  case_decide as Hj.
  - subst j. rewrite <-Hel. unfold subscribers, slice_of. by rewrite Hcl, lookup_insert_eq.
  - unfold subscribers, slice_of, elems. rewrite Hcl, lookup_insert_ne by done.
    destruct (clients js !! j) as [s'|] eqn:Hs'; simpl; [|done]. rewrite Hfr; [done|].
    destruct Harr as [->|[-> [s'' Hs'']]].
    + destruct (wf_slice _ Hwf _ _ Hs'). lia.
    + rewrite (slice_of_Some _ _ _ Hs''). intros Ha. apply Hj. by eapply wf_arrays.
Qed.

Lemma Subscribe_wf jobID js : wf js → wf (Subscribe grow jobID js).2.
Proof.
  intros Hwf. pose proof (λ j, Subscribe_subscribers jobID js j Hwf) as Hsub.
  assert (∀ j, next_chan js ∉ subscribers js j) as Hfresh.
  { intros j Hin. apply (wf_open _ Hwf) in Hin as [? _]. lia. }
  destruct (Subscribe_shape jobID js Hwf)
    as (s & _ & Hcl & Hl & Hcap & Hlt & Hmono & Hc & Hel & Hch & Hnc & Harr & Hfr).
  assert (∀ s', clients js !! jobID = Some s' → s_arr s ≠ next_arr js → s_arr s = s_arr s') as Hsame.
  { intros s' Hs' Hne. destruct Harr as [|[-> _]]; [done|]. by rewrite (slice_of_Some _ _ _ Hs'). }
  split.
  - rewrite Hnc. lia.
  - intros j s' Hs'. rewrite Hcl in Hs'. destruct (decide (j = jobID)) as [->|Hj].
    + rewrite lookup_insert_eq in Hs'. simplify_eq. lia.
    + rewrite lookup_insert_ne in Hs' by done. destruct (wf_slice _ Hwf _ _ Hs') as (? & ? & Hx).
      rewrite Hfr; [lia|]. destruct Harr as [->|[-> [s'' Hs'']]]; [lia|].
      rewrite (slice_of_Some _ _ _ Hs''). intros Ha. apply Hj. by eapply wf_arrays.
  - assert (∀ j s', j ≠ jobID → clients js !! j = Some s' → s_arr s' ≠ s_arr s) as Hd.
    { intros j s' Hj Hs'. destruct (wf_slice _ Hwf _ _ Hs').
      destruct Harr as [->|[-> [s'' Hs'']]]; [lia|].
      rewrite (slice_of_Some _ _ _ Hs''). intros Ha. apply Hj. by eapply wf_arrays. }
    intros j j' s1 s2 H1 H2 Ha. rewrite Hcl in H1, H2.
    destruct (decide (j = jobID)) as [->|Hj], (decide (j' = jobID)) as [->|Hj'];
      rewrite ?lookup_insert_eq, ?lookup_insert_ne in H1 by done;
      rewrite ?lookup_insert_eq, ?lookup_insert_ne in H2 by done; simplify_eq; [done| | |].
    + by exfalso; eapply Hd.
    + by exfalso; eapply Hd.
    + by eapply wf_arrays.
  - intros j. rewrite Hsub. case_decide; [|apply Hwf]. apply NoDup_app. split_and!; [apply Hwf| |apply NoDup_singleton].
    intros c Hc1 ->%list_elem_of_singleton. by eapply Hfresh.
  - intros j c. rewrite Hsub, Hch, Hnc. intros Hin.
    assert (c ∈ subscribers js j ∨ c = next_chan js) as [Hold| ->].
    { case_decide; [|by left]. apply elem_of_app in Hin as [?|?%list_elem_of_singleton]; auto. }
    + destruct (wf_open _ Hwf _ _ Hold) as [? Hb]. rewrite lookup_insert_ne by lia. split; [lia|done].
    + rewrite lookup_insert_eq. split; [|by eexists]. pose proof (wf_next _ Hwf). lia.
  - intros j j' c. rewrite !Hsub. intros Hj Hj'.
    assert (∀ i, c ∈ (if decide (i = jobID) then subscribers js i ++ [next_chan js] else subscribers js i) →
              c ∈ subscribers js i ∨ c = next_chan js ∧ i = jobID) as Hsplit.
    { intros i Hi. case_decide; [|by left]. apply elem_of_app in Hi as [?|?%list_elem_of_singleton]; auto. }
    destruct (Hsplit _ Hj) as [Hc1|[-> ->]], (Hsplit _ Hj') as [Hc2|[Heq ->]].
    + by eapply wf_one_job.
    + subst c. by apply Hfresh in Hc1.
    + by apply Hfresh in Hc2.
    + done.
Qed.

End subscribe.

(** *** Unsubscribing *)

Definition without (c : nat) (l : list nat) : list nat := filter (λ x, x ≠ c) l.

Lemma without_notin c l : c ∉ l → without c l = l.
Proof. intros Hc. apply filter_all. by intros x Hx ->. Qed.

Lemma without_remove c l i :
  NoDup l → l !! i = Some c → without c l = go_remove_at i l.
Proof.
  intros Hnd Hi. unfold go_remove_at. rewrite <-(take_drop_middle l i c Hi) in Hnd |- * at 1.
  apply NoDup_app in Hnd as (Hn1 & Hd & [Hn2 _]%NoDup_cons). unfold without.
  rewrite filter_app, filter_cons_False by (intros H; by apply H).
  change (without c (take i l) ++ without c (drop (S i) l) = take i l ++ drop (S i) l).
  rewrite !without_notin; [done|done|]. intros Hin. apply (Hd c); [done|by left].
Qed.

Lemma without_spec c l x : x ∈ without c l ↔ x ∈ l ∧ x ≠ c.
Proof. unfold without. rewrite list_elem_of_filter. tauto. Qed.

Lemma find_sub_None js jobID c :
  c ∉ subscribers js jobID → find_first (λ d, d =? c) (subscribers js jobID) = None.
Proof.
  intros Hc. apply find_first_None, Forall_forall. intros x Hx. apply Nat.eqb_neq. by intros ->.
Qed.

Lemma find_sub_Some js jobID c :
  c ∈ subscribers js jobID →
  ∃ i, find_first (λ d, d =? c) (subscribers js jobID) = Some (i, c) ∧ subscribers js jobID !! i = Some c.
Proof.
  intros Hc. destruct (find_first _ _) as [[i x]|] eqn:Hf.
  - apply find_first_lookup in Hf as [Hi Hx%Nat.eqb_eq]. subst x. eauto.
  - apply find_first_None in Hf. rewrite Forall_forall in Hf. specialize (Hf c Hc). simpl in Hf.
    by rewrite Nat.eqb_refl in Hf.
Qed.

(** The state between the removal and the clean-up of an empty entry. *)
Lemma delete_shape js jobID c i :
  wf js → subscribers js jobID !! i = Some c →
  ∃ s b, clients js !! jobID = Some s ∧ chans js !! c = Some (mk_chan b false) ∧
  let s' := mk_slice (s_arr s) (s_len s - 1) (s_cap s) in
  let l := go_remove_at i (subscribers js jobID) ++ drop (s_len s - 1) (cells js (s_arr s)) in
  go_delete (slice_of js jobID) i js = (s', set_cells (s_arr s) l js) ∧
  length l = s_cap s ∧
  take (s_len s - 1) l = go_remove_at i (subscribers js jobID).
Proof.
  intros Hwf Hi. assert (c ∈ subscribers js jobID) as Hc by (by eapply list_elem_of_lookup_2).
  destruct (clients js !! jobID) as [s|] eqn:Hs;
    [|rewrite (subscribers_None _ _ Hs) in Hc; by apply not_elem_of_nil in Hc].
  destruct (wf_open _ Hwf _ _ Hc) as (_ & b & Hb). exists s, b. split_and!; [done..|]. simpl.
  unfold go_delete. rewrite (slice_of_Some _ _ _ Hs).
  assert (elems js s = subscribers js jobID) as ->.
  { by rewrite (subscribers_Some _ _ _ Hs). }
  pose proof (length_subscribers js jobID Hwf) as Hl. rewrite (slice_of_Some _ _ _ Hs) in Hl.
  destruct (wf_slice _ Hwf _ _ Hs) as (? & _ & Hcap). apply lookup_lt_Some in Hi.
  assert (length (go_remove_at i (subscribers js jobID)) = s_len s - 1) as Hr.
  { unfold go_remove_at. rewrite length_app, length_take, length_drop. lia. }
  split_and!; [done| |].
  - rewrite length_app, length_drop, Hr. lia.
  - by rewrite take_app_length'.
Qed.

(** The result of a removal, given by what it does to the heap. *)
Lemma removed_wf js js' jobID c i s b l :
  wf js → subscribers js jobID !! i = Some c → clients js !! jobID = Some s →
  chans js !! c = Some (mk_chan b false) →
  length l = s_cap s → take (s_len s - 1) l = go_remove_at i (subscribers js jobID) →
  arrays js' = <[s_arr s := l]> (arrays js) →
  chans js' = <[c := mk_chan b true]> (chans js) →
  next_arr js' = next_arr js → next_chan js' = next_chan js →
  (∀ j, clients js' !! j = if decide (j = jobID)
          then (if s_len s - 1 =? 0 then None else Some (mk_slice (s_arr s) (s_len s - 1) (s_cap s)))
          else clients js !! j) →
  wf js' ∧
  ∀ j, subscribers js' j = if decide (j = jobID) then without c (subscribers js j) else subscribers js j.
Proof.
  intros Hwf Hi Hs Hb Hlen Htake Harr Hch Hna Hnc Hcl.
  assert (c ∈ subscribers js jobID) as Hc by (by eapply list_elem_of_lookup_2).
  pose proof (without_remove c _ _ (wf_nodup _ Hwf jobID) Hi) as Hw.
  assert (∀ a, a ≠ s_arr s → cells js' a = cells js a) as Hfr.
  { intros a Ha. unfold cells. by rewrite Harr, lookup_insert_ne. }
  assert (cells js' (s_arr s) = l) as Hl by (unfold cells; by rewrite Harr, lookup_insert_eq).
  assert (∀ j s', j ≠ jobID → clients js !! j = Some s' → s_arr s' ≠ s_arr s) as Hd.
  { intros j s' Hj Hs' Ha. apply Hj. by eapply wf_arrays. }
  assert (∀ j, subscribers js' j = if decide (j = jobID) then without c (subscribers js j) else subscribers js j) as Hsub.
  { intros j. specialize (Hcl j). case_decide as Hj.
    - subst j. rewrite Hw, <-Htake. destruct (Nat.eqb_spec (s_len s - 1) 0) as [H0|H0].
      + by rewrite (subscribers_None _ _ Hcl), H0.
      + rewrite (subscribers_Some _ _ _ Hcl). simpl. by rewrite Hl.
    - destruct (clients js !! j) as [s'|] eqn:Hs'; [|by rewrite (subscribers_None _ _ Hcl), (subscribers_None _ _ Hs')].
      rewrite (subscribers_Some _ _ _ Hcl), (subscribers_Some _ _ _ Hs'), Hfr; [done|by eapply Hd]. }
  assert (∀ j d, d ∈ subscribers js' j → d ∈ subscribers js j ∧ d ≠ c) as Hmem.
  { intros j d. rewrite Hsub. case_decide as Hj; [by rewrite without_spec|]. intros Hin. split; [done|].
    intros ->. apply Hj. by eapply wf_one_job. }
  split; [|done]. split.
  - rewrite Hnc. apply Hwf.
  - intros j s1 H1. rewrite Hcl in H1. rewrite Hna. case_decide.
    + destruct (Nat.eqb_spec (s_len s - 1) 0); simplify_eq/=.
      destruct (wf_slice _ Hwf _ _ Hs) as (? & ? & ?). lia.
    + rewrite Hfr by (by eapply Hd). by apply (wf_slice _ Hwf j).
  - assert (∀ j s1, clients js' !! j = Some s1 → ∃ s2, clients js !! j = Some s2 ∧ s_arr s2 = s_arr s1) as Hback.
    { intros j s1 H1. rewrite Hcl in H1. case_decide; [|by eauto]. subst j. destruct (_ =? 0); simplify_eq. by eexists. }
    intros j j' s1 s2 (s1' & H1 & Ha1)%Hback (s2' & H2 & Ha2)%Hback Ha. eapply wf_arrays; [done..|congruence].
  - intros j. rewrite Hsub. case_decide; [apply NoDup_filter|]; apply Hwf.
  - intros j d [Hin Hne]%Hmem. rewrite Hch, Hnc, lookup_insert_ne by done. by eapply wf_open.
  - intros j j' d [Hin _]%Hmem [Hin' _]%Hmem. by eapply wf_one_job.
Qed.

(** What an [Unsubscribe] does: it never panics; the channel leaves the list
    of the job and is closed, and nothing else changes but the array the
    list lived in. *)
Lemma Unsubscribe_shape js jobID c :
  wf js →
  ∃ js', Unsubscribe jobID c js = Some js' ∧
  wf js' ∧
  (∀ j, subscribers js' j = if decide (j = jobID) then without c (subscribers js j) else subscribers js j) ∧
  (∀ d, chans js' !! d = if decide (d = c ∧ c ∈ subscribers js jobID)
                         then (λ ch, mk_chan (buf ch) true) <$> chans js !! d else chans js !! d) ∧
  (∀ i s, subscribers js jobID !! i = Some c → clients js !! jobID = Some s →
     cells js' (s_arr s) =
       go_remove_at i (subscribers js jobID) ++ drop (s_len s - 1) (cells js (s_arr s))).
Proof.
  intros Hwf. unfold Unsubscribe. destruct (decide (c ∈ subscribers js jobID)) as [Hc|Hc].
  - destruct (find_sub_Some _ _ _ Hc) as (i & -> & Hi).
    destruct (delete_shape js jobID c i Hwf Hi) as (s & b & Hs & Hb & -> & Hlen & Htake).
    set (l := go_remove_at i (subscribers js jobID) ++ drop (s_len s - 1) (cells js (s_arr s))) in *.
    unfold go_close. simpl. rewrite Hb. simpl.
    set (js1 := set_chan c (mk_chan b true) _).
    assert (slice_of js1 jobID = mk_slice (s_arr s) (s_len s - 1) (s_cap s)) as Hs1.
    { unfold slice_of, js1. simpl. by rewrite lookup_insert_eq. }
    rewrite Hs1. simpl. eexists. split; [done|]. set (js' := if _ =? 0 then _ else _).
    assert (arrays js' = <[s_arr s := l]> (arrays js)) as Harr by (unfold js'; by case_match).
    assert (chans js' = <[c := mk_chan b true]> (chans js)) as Hch by (unfold js'; by case_match).
    destruct (removed_wf js js' jobID c i s b l) as [Hwf' Hsub]; [done..| | | |].
    + unfold js'; by case_match.
    + unfold js'; by case_match.
    + intros j. unfold js'. case_decide as Hj.
      * subst j. destruct (_ =? 0); simpl; [by rewrite lookup_delete_eq|by rewrite lookup_insert_eq].
      * destruct (_ =? 0); simpl; rewrite ?lookup_delete_ne, lookup_insert_ne by done; done.
    + split_and!; [done|done| |].
      * intros d. rewrite Hch. destruct (decide (d = c)) as [->|Hne].
        -- rewrite lookup_insert_eq, Hb, decide_True by done. done.
        -- by rewrite lookup_insert_ne, decide_False by naive_solver.
      * intros i' s' Hi' Hs'. simplify_eq. assert (i' = i) as -> by (eapply NoDup_lookup; [apply Hwf|done..]).
        unfold cells at 1. by rewrite Harr, lookup_insert_eq.
  - rewrite (find_sub_None _ _ _ Hc). simpl. eexists. split; [done|].
    assert ((if s_len (slice_of js jobID) =? 0 then set_clients (delete jobID (clients js)) js else js) = js) as ->.
    { destruct (Nat.eqb_spec (s_len (slice_of js jobID)) 0) as [H0|]; [|done].
      destruct (clients js !! jobID) as [s|] eqn:Hs.
      - rewrite (slice_of_Some _ _ _ Hs) in H0. destruct (wf_slice _ Hwf _ _ Hs). lia.
      - rewrite delete_id by done. by destruct js. }
    split_and!; [done| | |].
    + intros j. case_decide as Hj; [|done]. subst j. by rewrite without_notin.
    + intros d. by rewrite decide_False by naive_solver.
    + intros i s Hi. exfalso. apply Hc. by eapply list_elem_of_lookup_2.
Qed.

Lemma reachable_wf grow js : (∀ n, n < grow n) → reachable grow js → wf js.
Proof.
  intros Hg. induction 1 as [|jobID js _ IH|jobID c js js' _ IH Hu|c ev js js' _ IH Hs|c js e js' _ IH Hr].
  - apply init_wf.
  - by apply Subscribe_wf.
  - destruct (Unsubscribe_shape js jobID c IH) as (js1 & Hu1 & Hwf & _). by simplify_eq.
  - by eapply send_wf.
  - by eapply recv_wf.
Qed.

(** *** Publishing *)

(** The sends of a publication, as a list of channels. *)
Fixpoint send_all (l : list nat) (event : JobEvent) (js : JobStream) : panics JobStream :=
  match l with
  | [] => Some js
  | c :: l' => js' ← send_or_skip c event js; send_all l' event js'
  end.

Lemma send_frame c event js js' :
  send_or_skip c event js = Some js' → clients js' = clients js ∧ arrays js' = arrays js.
Proof. unfold send_or_skip. intros Hs. repeat case_match; simplify_eq; done. Qed.

Lemma publish_loop_sends n i s event js :
  i + n ≤ length (cells js (s_arr s)) →
  publish_loop n i s event js = send_all (take n (drop i (cells js (s_arr s)))) event js.
Proof.
  revert i js. induction n as [|n IH]; intros i js Hle; simpl; [done|].
  destruct (lookup_lt_is_Some_2 (cells js (s_arr s)) i ltac:(lia)) as [c Hc].
  rewrite Hc. simpl. rewrite (drop_S _ _ _ Hc). simpl.
  destruct (send_or_skip c event js) as [js'|] eqn:Hs; simpl; [|done].
  apply send_frame in Hs as [_ Ha].
  assert (cells js' (s_arr s) = cells js (s_arr s)) as Hcs by (unfold cells; by rewrite Ha).
  rewrite IH by (rewrite Hcs; lia). by rewrite Hcs.
Qed.

Lemma Publish_sends event js :
  wf js → Publish event js = send_all (subscribers js (ev_JobID event)) event js.
Proof.
  intros Hwf. unfold Publish.
  destruct (clients js !! ev_JobID event) as [s|] eqn:Hs.
  - rewrite (slice_of_Some _ _ _ Hs), (subscribers_Some _ _ _ Hs).
    destruct (wf_slice _ Hwf _ _ Hs) as (? & _ & ?). rewrite publish_loop_sends by lia. by rewrite drop_0.
  - rewrite (subscribers_None _ _ Hs). unfold slice_of. by rewrite Hs.
Qed.

(** The buffer after one event arrives at an open channel. *)
Definition offer (event : JobEvent) (b : list JobEvent) : list JobEvent :=
  if length b <? chan_cap then b ++ [event] else b.

Lemma send_open c event js b :
  chans js !! c = Some (mk_chan b false) →
  ∃ js', send_or_skip c event js = Some js' ∧ clients js' = clients js ∧ arrays js' = arrays js ∧
    chans js' = <[c := mk_chan (offer event b) false]> (chans js).
Proof.
  intros Hc. unfold send_or_skip, offer. rewrite Hc. simpl.
  destruct (_ <? _); eexists; split_and!; try done. by rewrite insert_id.
Qed.

Lemma send_all_app l k event js :
  send_all (l ++ k) event js = (js' ← send_all l event js; send_all k event js').
Proof.
  revert js. induction l as [|c l IH]; intros js; simpl; [done|].
  destruct (send_or_skip c event js); simpl; [apply IH|done].
Qed.

(** Sends to distinct open channels give each of them the event once. *)
Lemma send_all_exact l event js :
  NoDup l → (∀ c, c ∈ l → ∃ b, chans js !! c = Some (mk_chan b false)) →
  ∃ js', send_all l event js = Some js' ∧ clients js' = clients js ∧ arrays js' = arrays js ∧
    ∀ c, chans js' !! c = if decide (c ∈ l) then (λ ch, mk_chan (offer event (buf ch)) false) <$> chans js !! c
                          else chans js !! c.
Proof.
  revert js. induction l as [|c l IH]; intros js Hnd Hopen.
  - by exists js.
  - apply NoDup_cons in Hnd as [Hn Hnd]. destruct (Hopen c) as [b Hb]; [by left|].
    destruct (send_open c event js b Hb) as (js1 & Hs & Hcl & Ha & Hch).
    destruct (IH js1 Hnd) as (js2 & Hs2 & Hcl2 & Ha2 & Hch2).
    { intros d Hd. rewrite Hch, lookup_insert_ne by (by intros ->). apply Hopen. by right. }
    exists js2. simpl. rewrite Hs. simpl. split_and!; [done|congruence|congruence|].
    intros d. rewrite Hch2, Hch. destruct (decide (d = c)) as [->|Hne].
    + rewrite decide_False, lookup_insert_eq, decide_True, Hb by (done || by left). done.
    + rewrite lookup_insert_ne by done.
      by destruct (decide (d ∈ l)) as [Hd|Hd];
        [rewrite decide_True by (by right)|rewrite decide_False by (by intros [?|?]%elem_of_cons)].
Qed.

(** ** Properties *)


(** Subscribing adds one fresh channel at the end of the job's list and
    unsubscribing removes exactly that channel and closes it; no list of
    another job changes, although arrays are updated in place. *)
Theorem subscriptions_exact grow js jobID ch :
  (∀ n, n < grow n) → reachable grow js →
  (let (c, js') := Subscribe grow jobID js in
   (∀ j, c ∉ subscribers js j) ∧ chans js' !! c = Some (mk_chan [] false) ∧
   ∀ j, subscribers js' j = subscribers js j ++ (if decide (j = jobID) then [c] else [])) ∧
  ∃ js', Unsubscribe jobID ch js = Some js' ∧
    (∀ j, subscribers js' j = if decide (j = jobID) then filter (λ x, x ≠ ch) (subscribers js j)
                              else subscribers js j) ∧
    (ch ∈ subscribers js jobID → closed <$> chans js' !! ch = Some true).
Proof.
  intros Hg Hr%reachable_wf; [|done]. split.
  - destruct (Subscribe_shape grow Hg jobID js Hr) as (s & Hc & _ & _ & _ & _ & _ & _ & _ & Hch & _).
    pose proof (λ j, Subscribe_subscribers grow Hg jobID js j Hr) as Hsub.
    destruct (Subscribe grow jobID js) as [c js']. simpl in *. subst c. split_and!.
    + intros j Hin. apply (wf_open _ Hr) in Hin as [? _]. lia.
    + by rewrite Hch, lookup_insert_eq.
    + intros j. rewrite Hsub. case_decide; by rewrite ?app_nil_r.
  - destruct (Unsubscribe_shape js jobID ch Hr) as (js' & -> & _ & Hsub & Hch & _).
    exists js'. split_and!; [done|done|]. intros Hin. rewrite Hch, decide_True by done.
    apply (wf_open _ Hr) in Hin as [_ [b ->]]. done.
Qed.

(** A subscriber that leaves while an event is being published can crash
    the server: if the last subscriber unsubscribes after the publication
    read the list, the publication sends on its closed channel and panics. *)
Theorem unsubscribe_during_publish_panics grow event js l ch :
  (∀ n, n < grow n) → reachable grow js →
  subscribers js (ev_JobID event) = l ++ [ch] →
  let s := slice_of js (ev_JobID event) in
  ∃ js', Unsubscribe (ev_JobID event) ch js = Some js' ∧
    publish_loop (s_len s) 0 s event js' = None.
Proof.
  intros Hg Hr%reachable_wf Hl; [|done]. intros s.
  assert (subscribers js (ev_JobID event) !! length l = Some ch) as Hi by (rewrite Hl; by apply list_lookup_middle).
  destruct (delete_shape _ _ _ _ Hr Hi) as (s' & b & Hs & Hb & _ & Hlen & _).
  destruct (Unsubscribe_shape js (ev_JobID event) ch Hr) as (js' & -> & Hwf' & Hsub & Hch & Hcells).
  exists js'. split; [done|]. specialize (Hcells _ _ Hi Hs).
  assert (s = s') as -> by (by apply slice_of_Some).
  pose proof (length_subscribers js (ev_JobID event) Hr) as Hll.
  rewrite (slice_of_Some _ _ _ Hs), Hl, length_app in Hll. simpl in Hll.
  rewrite Hl in Hcells, Hlen.
  rewrite publish_loop_sends by (rewrite Hcells, Hlen; destruct (wf_slice _ Hr _ _ Hs); lia).
  rewrite drop_0, Hcells.
  assert (take (s_len s') (cells js (s_arr s')) = l ++ [ch]) as Htk
    by (by rewrite <-Hl, (subscribers_Some _ _ _ Hs)).
  rewrite go_remove_at_middle, app_nil_r.
  assert (drop (s_len s' - 1) (cells js (s_arr s')) !! 0 = Some ch) as H0.
  { rewrite lookup_drop, Nat.add_0_r. rewrite <-(lookup_take_lt _ (s_len s')) by lia. rewrite Htk.
    replace (s_len s' - 1) with (length l) by lia. by apply list_lookup_middle. }
  destruct (drop (s_len s' - 1) (cells js (s_arr s'))) as [|x d]; [done|]. simplify_eq/=.
  rewrite (cons_middle ch l d), app_assoc, take_app_length' by (rewrite length_app; simpl; lia).
  rewrite send_all_app.
  destruct (send_all l event js') as [js2|] eqn:Hsend; [|done]. simpl.
  pose proof (wf_nodup _ Hr (ev_JobID event)) as Hnd. rewrite Hl in Hnd.
  apply NoDup_app in Hnd as (Hnd & Hd & _).
  destruct (send_all_exact l event js') as (js3 & Hs3 & _ & _ & Hch3); [done| |].
  { intros c Hc. eapply (wf_open _ Hwf' (ev_JobID event)). rewrite Hsub, decide_True by done.
    apply without_spec. rewrite Hl. split; [apply elem_of_app; by left|].
    intros ->. apply (Hd ch Hc). by left. }
  simplify_eq. unfold send_or_skip.
  rewrite Hch3, decide_False by (intros Hc; apply (Hd ch Hc); by left).
  rewrite Hch, decide_True, Hb by (split; [done|]; rewrite Hl; apply elem_of_app; right; by left).
  done.
Qed.

(** A subscriber that leaves while an event is being published disturbs
    the others: if the first subscriber unsubscribes after its own send, the
    second subscriber never gets the event and the last one gets it twice. *)
Theorem unsubscribe_during_publish_misdelivers grow event js a b l c bb bc :
  (∀ n, n < grow n) → reachable grow js →
  subscribers js (ev_JobID event) = a :: b :: l ++ [c] →
  chans js !! b = Some bb → chans js !! c = Some bc → length (buf bc) < 9 →
  let s := slice_of js (ev_JobID event) in
  ∃ js1 js2 js3,
    publish_loop 1 0 s event js = Some js1 ∧
    Unsubscribe (ev_JobID event) a js1 = Some js2 ∧
    publish_loop (s_len s - 1) 1 s event js2 = Some js3 ∧
    chans js3 !! b = Some bb ∧
    buf <$> chans js3 !! c = Some (buf bc ++ [event; event]).
Proof.
  intros Hg Hr%reachable_wf Hl Hb Hc Hroom; [|done]. intros s.
  pose proof (wf_nodup _ Hr (ev_JobID event)) as Hnd. rewrite Hl in Hnd.
  pose proof (length_subscribers js (ev_JobID event) Hr) as Hll. rewrite Hl in Hll. fold s in Hll.
  simpl in Hll. rewrite length_app in Hll. simpl in Hll.
  assert (∀ x, x ∈ a :: b :: l ++ [c] → ∃ bx, chans js !! x = Some (mk_chan bx false)) as Hopen.
  { intros x Hx. eapply (wf_open _ Hr (ev_JobID event)). by rewrite Hl. }
  destruct (clients js !! ev_JobID event) as [s'|] eqn:Hs;
    [|rewrite (subscribers_None _ _ Hs) in Hl; done].
  assert (s = s') as <- by (by apply slice_of_Some).
  destruct (wf_slice _ Hr _ _ Hs) as (_ & _ & Hcap0).
  pose proof (subscribers_Some _ _ _ Hs) as Hsub0. rewrite Hl in Hsub0.
  destruct (Hopen a) as [ba Hba]; [by left|].
  destruct (send_open a event js ba Hba) as (js1 & Hs1 & Hcl1 & Ha1 & Hch1).
  assert (wf js1) as Hwf1 by (by eapply send_wf).
  assert (subscribers js1 (ev_JobID event) = a :: b :: l ++ [c]) as Hl1.
  { rewrite <-Hl. unfold subscribers, slice_of, elems, cells. by rewrite Hcl1, Ha1. }
  assert (cells js1 (s_arr s) = cells js (s_arr s)) as Hce1 by (unfold cells; by rewrite Ha1).
  destruct (Unsubscribe_shape js1 (ev_JobID event) a Hwf1) as (js2 & Hu & Hwf2 & Hsub2 & Hch2 & Hce2).
  specialize (Hce2 0 s). rewrite Hl1, Hcl1 in Hce2. specialize (Hce2 eq_refl Hs). rewrite Hce1 in Hce2.
  change (go_remove_at 0 (a :: b :: l ++ [c])) with (b :: l ++ [c]) in Hce2.
  assert (cells js (s_arr s) !! (s_len s - 1) = Some c) as Hlast.
  { rewrite <-(lookup_take_lt _ (s_len s)) by lia. rewrite <-Hsub0.
    replace (s_len s - 1) with (length (a :: b :: l)) by (simpl; lia).
    by apply (list_lookup_middle (a :: b :: l)). }
  rewrite (drop_S _ _ _ Hlast) in Hce2.
  assert (take (s_len s - 1) (drop 1 (cells js2 (s_arr s))) = (l ++ [c]) ++ [c]) as Htk.
  { rewrite Hce2. simpl. rewrite drop_0. rewrite (cons_middle c _ (drop _ _)), app_assoc, take_app_length'; [done|].
    rewrite !length_app. simpl. lia. }
  exists js1, js2. rewrite (publish_loop_sends (s_len s - 1)), Htk, send_all_app
    by (rewrite Hce2; simpl; rewrite !length_app; simpl; lia).
  apply NoDup_cons in Hnd as [Hna Hnd]. apply NoDup_cons in Hnd as [Hnb Hnd].
  assert (∀ x, x ∈ b :: l ++ [c] → chans js2 !! x = chans js !! x) as Hsame.
  { intros x Hx. assert (x ≠ a) as Hxa by (by intros ->).
    by rewrite Hch2, decide_False, Hch1, lookup_insert_ne by naive_solver. }
  destruct (send_all_exact (l ++ [c]) event js2) as (js3 & Hs3 & _ & _ & Hch3); [done| |].
  { intros x Hx. rewrite Hsame by (by right). apply Hopen. by do 2 right. }
  assert (c ∈ l ++ [c]) as Hcin by (apply elem_of_app; right; by left).
  destruct (Hopen c) as [xc Hxc]; [by do 2 right|]. simplify_eq. simpl in Hroom.
  assert (chans js3 !! c = Some (mk_chan (xc ++ [event]) false)) as Hc3.
  { rewrite Hch3, decide_True, Hsame, Hc by (done || by right). simpl. unfold offer, chan_cap.
    by rewrite (proj2 (Nat.ltb_lt _ _)) by lia. }
  destruct (send_open c event js3 _ Hc3) as (js4 & Hs4 & _ & _ & Hch4).
  exists js4. split_and!.
  - simpl. rewrite <-(lookup_take_lt _ (s_len s)), <-Hsub0 by lia. simpl. by rewrite Hs1.
  - done.
  - rewrite Hs3. simpl. by rewrite Hs4.
  - rewrite Hch4, lookup_insert_ne by (intros ->; done). rewrite Hch3, decide_False, Hsame by (done || by left). done.
  - rewrite Hch4, lookup_insert_eq. simpl. unfold offer, chan_cap. rewrite length_app. simpl.
    rewrite (proj2 (Nat.ltb_lt _ _)) by lia. by rewrite <-app_assoc.
Qed.

(** An event stream ends with the job: no frame follows the first
    completed or failed event, and a stream opened on a finished job consists
    of that one event. *)
Theorem stream_ends_with_job jobID flush job ws fs fin :
  handleJobStream jobID flush job ws = inr (fs, fin) →
  (∀ fs1 e fs2, fs = fs1 ++ FData e :: fs2 → terminal (ev_Status e) = true → fs2 = [] ∧ fin = true) ∧
  (∀ j, job = Some j → terminal (Status j) = true → fs = [FData (event_of j)]).
Proof.
  unfold handleJobStream. repeat case_match; [done|done|]. intros [= Hf].
  assert (∀ ws fs fin, stream_loop ws = (fs, fin) → ∀ fs1 e fs2, fs = fs1 ++ FData e :: fs2 →
            terminal (ev_Status e) = true → fs2 = [] ∧ fin = true) as Hloop.
  { clear. induction ws as [|w ws IH]; intros fs fin; simpl; [by intros [= <- <-] [|] ? ?|].
    destruct w as [|e'| |]; [by intros [= <- <-] [|] ? ?| |by intros [= <- <-] [|] ? ?|].
    - destruct (terminal (ev_Status e')) eqn:Ht.
      + intros [= <- <-] fs1 e fs2 Heq _. destruct fs1 as [|? [|]]; by simplify_eq/=.
      + destruct (stream_loop ws) as [fs' fin'] eqn:Hl. intros [= <- <-] [|f fs1] e fs2 Heq He; simplify_eq/=.
        * congruence.
        * by eapply (IH _ _ eq_refl).
    - destruct (stream_loop ws) as [fs' fin'] eqn:Hl. intros [= <- <-] [|f fs1] e fs2 Heq He; simplify_eq/=.
      by eapply (IH _ _ eq_refl). }
  unfold stream_frames in Hf. destruct job as [j|]; [|split; [by eapply Hloop|done]].
  change (String.eqb (Status j) JobCompleted || String.eqb (Status j) JobFailed)%bool
    with (terminal (Status j)) in Hf.
  destruct (terminal (Status j)) eqn:Ht.
  - simplify_eq/=. split; [|by intros ? [= ->]].
    intros fs1 e fs2 Heq _. destruct fs1 as [|? [|]]; by simplify_eq/=.
  - destruct (stream_loop ws) as [fs' fin'] eqn:Hl. simplify_eq/=. split; [|intros ? [= ->]; congruence].
    intros [|f fs1] e fs2 Heq He; simplify_eq/=; [congruence|]. by eapply Hloop.
Qed.

(** ** Witnesses *)

Definition example_event : JobEvent := mk_JobEvent "j" "completed" JNull "" f64_zero.
Definition example_sub (n : nat) : JobStream :=
  Nat.iter n (λ js, (Subscribe (λ n, 2 * n + 1) "j" js).2) globalJobStream.

Lemma example_grow n : n < 2 * n + 1.
Proof. lia. Qed.

Lemma example_reachable n : reachable (λ n, 2 * n + 1) (example_sub n).
Proof. induction n as [|n IH]; [constructor|]. by apply (reach_subscribe _ "j" (example_sub n)). Qed.


Lemma subscriptions_exact_witness :
  ∃ js', Unsubscribe "j" 1 (example_sub 2) = Some js' ∧ closed <$> chans js' !! 1 = Some true.
Proof.
  destruct (subscriptions_exact (λ n, 2 * n + 1) (example_sub 2) "j" 1 example_grow (example_reachable 2))
    as (_ & js' & Hu & _ & Hc).
  exists js'. split; [exact Hu|]. apply Hc. vm_compute. by left.
Defined.

Lemma unsubscribe_during_publish_panics_witness :
  ∃ js', Unsubscribe "j" 2 (example_sub 2) = Some js' ∧
    publish_loop 2 0 (slice_of (example_sub 2) "j") example_event js' = None.
Proof.
  apply (unsubscribe_during_publish_panics (λ n, 2 * n + 1) example_event (example_sub 2) [1] 2
    example_grow (example_reachable 2) eq_refl).
Defined.

Lemma unsubscribe_during_publish_misdelivers_witness :
  ∃ js1 js2 js3,
    publish_loop 1 0 (slice_of (example_sub 3) "j") example_event (example_sub 3) = Some js1 ∧
    Unsubscribe "j" 1 js1 = Some js2 ∧
    publish_loop 2 1 (slice_of (example_sub 3) "j") example_event js2 = Some js3 ∧
    chans js3 !! 2 = Some (mk_chan [] false) ∧
    buf <$> chans js3 !! 3 = Some [example_event; example_event].
Proof.
  apply (unsubscribe_during_publish_misdelivers (λ n, 2 * n + 1) example_event (example_sub 3) 1 2 [] 3
    (mk_chan [] false) (mk_chan [] false) example_grow (example_reachable 3)); try reflexivity.
  simpl. lia.
Defined.

Lemma stream_ends_with_job_witness :
  ∃ fs, handleJobStream "j" true None [WEvent example_event; WKeepalive] = inr (fs, true) ∧
    fs = [FData example_event].
Proof.
  exists [FData example_event]. split; [reflexivity|].
  destruct (stream_ends_with_job "j" true None [WEvent example_event; WKeepalive] [FData example_event]
    true eq_refl) as [H _].
  destruct (H [] example_event [] eq_refl eq_refl) as [_ _]. reflexivity.
Defined.
