(* ===== verification/MeshNet.v ===== *)
(** * Mesh addressing and naming ([hive-server-go/mesh.go], [handlers.go])

    Which address a server announces, where it broadcasts its beacons, the
    seed peers and the model map of the environment. *)

From S2P Require Import Prelude GoFloat GoText.

Local Open Scope string_scope.
Local Open Scope list_scope.
Local Open Scope Z_scope.

(** ** [net.IP]

    An address is its bytes: 4, 16, or none for nil. *)

Abbreviation IP := (list Z) (only parsing).

Definition byte_at (ip : list Z) (i : nat) : Z := from_opt 0 (ip !! i).

Definition To4 (ip : list Z) : list Z :=
  if (length ip =? 4)%nat then ip
  else if (length ip =? 16)%nat && forallb (Z.eqb 0) (take 10 ip)
          && (byte_at ip 10 =? 255) && (byte_at ip 11 =? 255)
       then drop 12 ip else [].

Definition is_nil (ip : list Z) : bool := match ip with [] => true | _ => false end.

Definition IPv6loopback : list Z := replicate 15 0 ++ [1].

Definition IsLoopback (ip : list Z) : bool :=
  if negb (is_nil (To4 ip)) then byte_at (To4 ip) 0 =? 127
  else bool_decide (ip = IPv6loopback).

Definition IsLinkLocalUnicast (ip : list Z) : bool :=
  if negb (is_nil (To4 ip)) then (byte_at (To4 ip) 0 =? 169) && (byte_at (To4 ip) 1 =? 254)
  else (length ip =? 16)%nat && (byte_at ip 0 =? 254) && (Z.land (byte_at ip 1) 192 =? 128).

Definition IsLinkLocalMulticast (ip : list Z) : bool :=
  if negb (is_nil (To4 ip)) then (byte_at (To4 ip) 0 =? 224) && (byte_at (To4 ip) 1 =? 0)
                                 && (byte_at (To4 ip) 2 =? 0)
  else (length ip =? 16)%nat && (byte_at ip 0 =? 255) && (Z.land (byte_at ip 1) 15 =? 2).

(** The classful mask the library falls back to. *)
Definition DefaultMask (ip : list Z) : list Z :=
  let ip4 := To4 ip in
  if is_nil ip4 then []
  else if byte_at ip4 0 <? 128 then [255; 0; 0; 0]
  else if byte_at ip4 0 <? 192 then [255; 255; 0; 0]
  else [255; 255; 255; 0].

(** [String] of an IPv4 address: dotted decimal. *)
Definition dotted (ip : list Z) : string := join "." (fmt_d <$> To4 ip).

(** ** Interfaces *)

(** [addrs] is [None] when [iface.Addrs] fails; an address that is neither an
    [IPNet] nor an [IPAddr] leaves a nil IP. *)
Record iface := mk_iface {
  if_up : bool;
  if_loopback : bool;
  if_name : string;
  if_addrs : option (list (list Z)) }.

Definition skipPrefixes : list string :=
  ["docker"; "br-"; "veth"; "virbr"; "tun"; "wg"; "utun"; "lo"; "vmnet"; "utun"].

Definition skip_iface (name : string) : bool := existsb (has_prefix name) skipPrefixes.

Definition usable_addr (ip : list Z) : bool :=
  negb (is_nil ip || IsLoopback ip) && negb (is_nil (To4 ip))
  && negb (IsLinkLocalUnicast ip || IsLinkLocalMulticast ip).

Definition usable_iface (i : iface) : bool :=
  if_up i && negb (if_loopback i) && negb (String.eqb (if_name i) "") && negb (skip_iface (if_name i)).

(** The nested loops of [detectLocalIP]: the first usable address of the
    first usable interface that has one. *)
Fixpoint detect_loop (ifaces : list iface) : string :=
  match ifaces with
  | [] => ""
  | i :: rest =>
      if negb (usable_iface i) then detect_loop rest
      else match if_addrs i with
           | None => detect_loop rest
           | Some addrs =>
               match find_first usable_addr addrs with
               | Some (_, ip) => dotted ip
               | None => detect_loop rest
               end
           end
  end.

Definition detectLocalIP (ifaces : option (list iface)) : string :=
  match ifaces with Some l => detect_loop l | None => "" end.

(** [url_host s] is the host of [url.Parse s], with [None] for an error. *)
Section announce.
Variable url_host : string → option string.

Definition resolveAnnounceAddress (env_addr : string) (ifaces : option (list iface)) (serverPort : Z)
    : string :=
  if negb (String.eqb env_addr "") then
    if has_prefix env_addr "http://" || has_prefix env_addr "https://" then env_addr
    else match url_host ("http://" +:+ env_addr) with
         | Some h => if negb (String.eqb h "") then "http://" +:+ h else "http://" +:+ env_addr
         | None => "http://" +:+ env_addr
         end
  else
    let ip := detectLocalIP ifaces in
    if negb (String.eqb ip "") then "http://" +:+ ip +:+ ":" +:+ fmt_d serverPort
    else "http://localhost:" +:+ fmt_d serverPort.

Definition splitAndTrim (s sep : string) : list string :=
  filter (λ p, p ≠ "") (trim_space <$> split s sep).

(** [None] for an unset variable. *)
Definition getSeedPeers (env : string) : list string :=
  if String.eqb env "" then []
  else (λ p, match url_host p with
             | Some h => if negb (String.eqb h "") then h else p
             | None => p
             end) <$> splitAndTrim env ",".

End announce.

(** ** Broadcasting *)

Definition broadcastAddr (ip mask : list Z) : string :=
  if is_nil (To4 ip) then ""
  else dotted ((λ i, Z.lor (byte_at (To4 ip) i) (Z.lxor (byte_at mask i) 255)) <$> seq 0 4).

Definition IPv4bcast : string := "255.255.255.255".

Definition broadcast_of_iface (i : iface) : list string :=
  if negb (if_up i) || if_loopback i then []
  else match if_addrs i with
       | None => []
       | Some addrs =>
           omap (λ ip, if is_nil ip || is_nil (To4 ip) || IsLoopback ip then None
                       else let b := broadcastAddr ip (DefaultMask ip) in
                            if String.eqb b "" then None else Some b) addrs
       end.

(** The destinations of one beacon, in order. *)
Definition broadcastOnAllInterfaces (ifaces : option (list iface)) : list string :=
  match ifaces with
  | None => [IPv4bcast]
  | Some l => match l ≫= broadcast_of_iface with [] => [IPv4bcast] | ds => ds end
  end.

(** ** The model map *)

Definition add_pair (m : gmap string string) (pair : string) : gmap string string :=
  match splitAndTrim pair "->" with
  | [source; target] => <[source := target]> m
  | _ => m
  end.

(** [None] is the nil map. *)
Definition parseModelMap (raw : string) : option (gmap string string) :=
  if String.eqb raw "" then None
  else Some (foldl add_pair ∅ (splitAndTrim raw ",")).

Definition MapModel (modelMap : option (gmap string string)) (model : string) : string :=
  match modelMap with
  | None => model
  | Some m => match m !! model with Some mapped => mapped | None => model end
  end.

Example model_map_example :
  MapModel (parseModelMap "gemma4:31b-mlx->gemma4:31b, a -> b") "a" = "b".
Proof. by vm_compute. Qed.

(** ** Properties *)

(** The announced address is one the peers can use: when no address is
    configured, detection returns the dotted form of an IPv4 address of an
    interface that is up, not a loopback and not a container or tunnel
    device, and the address is not loopback or link local; it fails only
    when there is none. *)
Theorem detectLocalIP_sound_complete ifaces :
  (detectLocalIP (Some ifaces) = "" ∧
     ∀ i addrs ip, i ∈ ifaces → usable_iface i = true → if_addrs i = Some addrs → ip ∈ addrs →
       usable_addr ip = false) ∨
  ∃ i addrs ip, i ∈ ifaces ∧ usable_iface i = true ∧ if_addrs i = Some addrs ∧ ip ∈ addrs ∧
    usable_addr ip = true ∧ detectLocalIP (Some ifaces) = dotted ip ∧ length (To4 ip) = 4%nat.
Proof.
  simpl. induction ifaces as [|i ifaces IH]; simpl.
  - left. split; [done|]. by intros i addrs ip ?%not_elem_of_nil.
  - assert (∀ (b : string), detect_loop ifaces = b →
      (∀ addrs ip, usable_iface i = true → if_addrs i = Some addrs → ip ∈ addrs → usable_addr ip = false) →
      (b = "" ∧ ∀ i0 addrs ip, i0 ∈ i :: ifaces → usable_iface i0 = true → if_addrs i0 = Some addrs →
         ip ∈ addrs → usable_addr ip = false) ∨
      ∃ i0 addrs ip, i0 ∈ i :: ifaces ∧ usable_iface i0 = true ∧ if_addrs i0 = Some addrs ∧ ip ∈ addrs ∧
        usable_addr ip = true ∧ b = dotted ip ∧ length (To4 ip) = 4%nat) as Hskip.
    { intros b <- Hno. destruct IH as [[Hb Hall]|(i0 & addrs & ip & Hi & Hrest)].
      - left. split; [done|]. intros i0 addrs ip [->|Hi]%elem_of_cons; eauto.
      - right. exists i0, addrs, ip. split; [by right|done]. }
    destruct (usable_iface i) eqn:Hu; simpl; [|by apply Hskip].
    destruct (if_addrs i) as [addrs|] eqn:Ha; [|by apply Hskip].
    destruct (find_first usable_addr addrs) as [[k ip]|] eqn:Hf.
    + right. apply find_first_lookup in Hf as [Hk Hip]. exists i, addrs, ip.
      split_and!; try done; [by left|by eapply list_elem_of_lookup_2|].
      unfold usable_addr in Hip. unfold To4 in *. repeat case_match; zbool; try done.
      * by apply Nat.eqb_eq.
      * rewrite length_drop. match goal with H : (length ip =? 16)%nat = true |- _ => apply Nat.eqb_eq in H; lia end.
    + apply Hskip; [done|]. apply find_first_None in Hf. rewrite Forall_forall in Hf. intros ? ip _ [= <-]. apply Hf.
Qed.

(** Beacons are broadcast by address class, not by the interface's own
    mask: every address 10.b.c.d is answered at 10.255.255.255, every
    172.b.c.d at 172.b.255.255 and every 192.b.c.d at 192.b.c.255. *)
Theorem broadcast_is_classful b c d :
  0 <= b < 256 → 0 <= c < 256 → 0 <= d < 256 →
  broadcastAddr [10; b; c; d] (DefaultMask [10; b; c; d]) = "10.255.255.255" ∧
  broadcastAddr [172; b; c; d] (DefaultMask [172; b; c; d]) = dotted [172; b; 255; 255] ∧
  broadcastAddr [192; b; c; d] (DefaultMask [192; b; c; d]) = dotted [192; b; c; 255].
Proof.
  intros Hb Hc Hd.
  assert (∀ x, 0 <= x < 256 → Z.lor x 255 = 255) as Hor.
  { intros x Hx. change 255 with (Z.ones 8). apply Z.lor_ones_low; [lia|].
    destruct (decide (x = 0)) as [->|]; [done|]. apply Z.log2_lt_pow2; lia. }
  unfold broadcastAddr, DefaultMask. simpl. rewrite !Hor, !Z.lor_0_r by done. done.
Qed.

(** A model name is rewritten only when the map names it: unmapped models
    keep their name, and a pair "source->target" maps its source to its
    target unless a later pair redefines it. *)
Theorem MapModel_exact raw m source target :
  parseModelMap raw = Some m →
  (∀ pair, pair ∈ splitAndTrim raw "," → splitAndTrim pair "->" = [source; target] ∨
     ∀ t, splitAndTrim pair "->" ≠ [source; t]) →
  MapModel (Some m) source =
    if bool_decide (Exists (λ pair, splitAndTrim pair "->" = [source; target]) (splitAndTrim raw ","))
    then target else source.
Proof.
  unfold parseModelMap. case_match; [done|]. intros [= <-] Hone. generalize (splitAndTrim raw ",") Hone.
  clear. intros pairs Hone.
  assert (∀ m, foldl add_pair m pairs !! source =
    if bool_decide (Exists (λ pair, splitAndTrim pair "->" = [source; target]) pairs)
    then Some target else m !! source) as Hfold.
  { induction pairs as [|p ps IH]; intros m; [done|]. simpl.
    rewrite IH by (intros q Hq; apply Hone; by right).
    destruct (Hone p) as [Hp|Hp]; [by left| |].
    - unfold add_pair. rewrite Hp, lookup_insert_eq.
      rewrite (bool_decide_eq_true_2 (Exists _ (p :: ps))) by (by left).
      by destruct (bool_decide _).
    - assert (add_pair m p !! source = m !! source) as ->.
      { unfold add_pair. destruct (splitAndTrim p "->") as [|s [|t [|]]] eqn:Hs; try done.
        apply lookup_insert_ne. intros ->. by eapply Hp. }
      assert (Exists (λ pair, splitAndTrim pair "->" = [source; target]) (p :: ps) ↔
              Exists (λ pair, splitAndTrim pair "->" = [source; target]) ps) as Hiff.
      { rewrite Exists_cons. split; [intros [H|]; [by apply Hp in H|done]|by right]. }
      by rewrite (bool_decide_ext _ _ Hiff). }
  unfold MapModel. rewrite Hfold. by destruct (bool_decide _); simpl; rewrite ?lookup_empty.
Qed.

(** ** Witnesses *)

Lemma broadcast_is_classful_witness :
  broadcastAddr [10; 0; 0; 7] (DefaultMask [10; 0; 0; 7]) = "10.255.255.255".
Proof. apply (broadcast_is_classful 0 0 7); lia. Defined.

Lemma MapModel_exact_witness : MapModel (parseModelMap "a->b") "a" = "b".
Proof.
  assert (parseModelMap "a->b" = Some {["a" := "b"]}) as -> by (by vm_compute).
  apply (MapModel_exact "a->b" {["a" := "b"]} "a" "b").
  - by vm_compute.
  - intros pair Hp. left. assert (splitAndTrim "a->b" "," = ["a->b"]) as Hs by (by vm_compute).
    rewrite Hs in Hp. apply list_elem_of_singleton in Hp. subst pair. by vm_compute.
Defined.
