(* ===== verification/Mesh.v ===== *)
(** * The server mesh ([hive-server-go/mesh.go], the peer handlers)

    The table of peers a server learns from beacons, seed probes, gossip and
    manual registration, its ageing, and the choice of the peer work is
    forwarded to.  Peers are shared by pointer: [GetAlivePeers] writes to
    them, and so does every beacon.  Time is the floating-point number of
    seconds the source uses. *)

From S2P Require Import Prelude GoFloat GoFloatExact GoText GoHttp Job MeshNet.

Local Open Scope string_scope.
Local Open Scope list_scope.
Local Open Scope Z_scope.

Record PeerInfo := mk_PeerInfo {
  p_ServerID : string;
  p_Endpoint : string;
  p_MaxConcurrent : Z;
  p_OllamaModel : string;
  p_LastSeen : f64;
  p_PendingJobs : Z;
  p_RunningJobs : Z;
  p_Clients : Z;
  p_AvailableCap : Z;
  p_Load : f64;
  p_Alive : bool }.

Definition zero_PeerInfo : PeerInfo := mk_PeerInfo "" "" 0 "" f64_zero 0 0 0 0 f64_zero false.

Record MeshDiscovery := mk_MeshDiscovery {
  serverID : string;
  serverPort : Z;
  discoveryPort : Z;
  m_maxConcurrent : Z;
  m_ollamaModel : string;
  announceAddr : string;
  modelMap : option (gmap string string);
  peers : gmap string nat;
  heap : gmap nat PeerInfo;
  next : nat;
  peerModels : gmap string (list string);
  peerModelsTime : gmap string Time }.

Definition NewMeshDiscovery (serverID : string) (serverPort discoveryPort maxConcurrent : Z)
    (ollamaModel announceAddr : string) (modelMap : option (gmap string string)) : MeshDiscovery :=
  mk_MeshDiscovery serverID serverPort discoveryPort maxConcurrent ollamaModel announceAddr modelMap
    ∅ ∅ 0 ∅ ∅.

Definition set_peers (ps : gmap string nat) (m : MeshDiscovery) : MeshDiscovery :=
  mk_MeshDiscovery (serverID m) (serverPort m) (discoveryPort m) (m_maxConcurrent m) (m_ollamaModel m)
    (announceAddr m) (modelMap m) ps (heap m) (next m) (peerModels m) (peerModelsTime m).
Definition set_heap (h : gmap nat PeerInfo) (m : MeshDiscovery) : MeshDiscovery :=
  mk_MeshDiscovery (serverID m) (serverPort m) (discoveryPort m) (m_maxConcurrent m) (m_ollamaModel m)
    (announceAddr m) (modelMap m) (peers m) h (next m) (peerModels m) (peerModelsTime m).
Definition set_models (pm : gmap string (list string)) (pt : gmap string Time) (m : MeshDiscovery)
    : MeshDiscovery :=
  mk_MeshDiscovery (serverID m) (serverPort m) (discoveryPort m) (m_maxConcurrent m) (m_ollamaModel m)
    (announceAddr m) (modelMap m) (peers m) (heap m) (next m) pm pt.

(** [m.peers[id] = &peer]. *)
Definition put_peer (id : string) (peer : PeerInfo) (m : MeshDiscovery) : MeshDiscovery :=
  mk_MeshDiscovery (serverID m) (serverPort m) (discoveryPort m) (m_maxConcurrent m) (m_ollamaModel m)
    (announceAddr m) (modelMap m) (<[id := next m]> (peers m)) (<[next m := peer]> (heap m)) (S (next m))
    (peerModels m) (peerModelsTime m).

Definition peer_at (m : MeshDiscovery) (p : nat) : PeerInfo := from_opt zero_PeerInfo (heap m !! p).

(** The peer stored under an id. *)
Definition peer_of (m : MeshDiscovery) (id : string) : option PeerInfo := peer_at m <$> peers m !! id.

(** Writes through a pointer. *)
Definition update_peer (f : PeerInfo → PeerInfo) (p : nat) (m : MeshDiscovery) : MeshDiscovery :=
  set_heap (<[p := f (peer_at m p)]> (heap m)) m.

(** ** Registration and gossip *)

Definition RegisterPeer (id endpoint : string) (maxConcurrent : Z) (ollamaModel : string) (now : f64)
    (m : MeshDiscovery) : MeshDiscovery :=
  put_peer id (mk_PeerInfo id endpoint maxConcurrent ollamaModel now 0 0 0 0 f64_zero false) m.

Definition UnregisterPeer (id : string) (m : MeshDiscovery) : MeshDiscovery :=
  set_peers (delete id (peers m)) m.

Definition set_LastSeen (t : f64) (p : PeerInfo) : PeerInfo :=
  mk_PeerInfo (p_ServerID p) (p_Endpoint p) (p_MaxConcurrent p) (p_OllamaModel p) t (p_PendingJobs p)
    (p_RunningJobs p) (p_Clients p) (p_AvailableCap p) (p_Load p) (p_Alive p).

(** One peer of another server's list, with the clock reading made if it is
    new. *)
Definition learn_peer (m : MeshDiscovery) (pt : PeerInfo * f64) : MeshDiscovery :=
  let (p, t) := pt in
  if String.eqb (p_ServerID p) (serverID m) then m
  else match peers m !! p_ServerID p with
       | Some _ => m
       | None => put_peer (p_ServerID p) (set_LastSeen t p) m
       end.

(** The reply to [GET /api/peers], [None] when the request or the decoding
    fails. *)
Definition exchangePeers (reply : option (list (PeerInfo * f64))) (m : MeshDiscovery) : MeshDiscovery :=
  match reply with None => m | Some ps => foldl learn_peer m ps end.

(** The body posted to [/api/peers/introduce]; nothing is read back. *)
Definition introduceSelf (m : MeshDiscovery) : gmap string json :=
  jmap [("server_id", JStr (serverID m)); ("endpoint", JStr (announceAddr m));
        ("max_concurrent", JInt (m_maxConcurrent m)); ("ollama_model", JStr (m_ollamaModel m))].

(** [status]: the decoded reply to [GET /api/status]. *)
Definition probeSeed (addr : string) (status : option (gmap string json)) (now : f64)
    (gossip : option (list (PeerInfo * f64))) (m : MeshDiscovery) : bool * MeshDiscovery :=
  match status with
  | None => (false, m)
  | Some data =>
      let id := obj_str data "server_id" in
      if String.eqb id "" || String.eqb id (serverID m) then (false, m)
      else
        let maxC := match obj_get as_obj data "queue" with
                    | Some q => match obj_get as_num q "max_concurrent" with
                                | Some mc => f64_to_int mc
                                | None => 0
                                end
                    | None => 0
                    end in
        let peer := mk_PeerInfo id ("http://" +:+ addr) maxC (obj_str data "ollama_model") now
                      0 0 0 0 f64_zero false in
        (true, exchangePeers gossip (put_peer id peer m))
  end.

(** ** Beacons *)

(** [q] and [cap], [cl] are the three callbacks' values, [None] when unset. *)
Definition sendBeacon (q : option (gmap string json)) (cap cl : option Z) (models : list string)
    (m : MeshDiscovery) : gmap string json :=
  let beacon := jmap [
    ("server_id", JStr (serverID m)); ("port", JInt (serverPort m));
    ("announce_addr", JStr (announceAddr m)); ("max_concurrent", JInt (m_maxConcurrent m));
    ("ollama_model", JStr (m_ollamaModel m))] in
  let beacon := match q with
                | Some q => <["running_jobs" := from_opt JNull (q !! "running")]>
                              (<["pending_jobs" := from_opt JNull (q !! "pending")]> beacon)
                | None => beacon
                end in
  let beacon := match cap with Some c => <["available_capacity" := JInt c]> beacon | None => beacon end in
  let beacon := match cl with Some c => <["clients" := JInt c]> beacon | None => beacon end in
  match models with [] => beacon | _ => <["models" := JArr (JStr <$> models)]> beacon end.

Definition getFloat (m : gmap string json) (key : string) (def : f64) : f64 :=
  from_opt def (obj_get as_num m key).
Definition getStr (m : gmap string json) (key : string) : string := obj_str m key.

(** [if v, ok := beacon[key].(float64); ok { field = int(v) }]. *)
Definition int_or (old : Z) (beacon : gmap string json) (key : string) : Z :=
  match obj_get as_num beacon key with Some v => f64_to_int v | None => old end.

Definition refresh_peer (beacon : gmap string json) (t : f64) (ex : PeerInfo) : PeerInfo :=
  mk_PeerInfo (p_ServerID ex)
    (match obj_get as_str beacon "announce_addr" with
     | Some a => if negb (String.eqb a "") then a else p_Endpoint ex
     | None => p_Endpoint ex
     end)
    (int_or (p_MaxConcurrent ex) beacon "max_concurrent")
    (from_opt (p_OllamaModel ex) (obj_get as_str beacon "ollama_model"))
    t
    (int_or (p_PendingJobs ex) beacon "pending_jobs")
    (int_or (p_RunningJobs ex) beacon "running_jobs")
    (int_or (p_Clients ex) beacon "clients")
    (int_or (p_AvailableCap ex) beacon "available_capacity")
    (p_Load ex) (p_Alive ex).

Definition new_peer (beacon : gmap string json) (peerID endpoint : string) (t : f64) : PeerInfo :=
  mk_PeerInfo peerID endpoint
    (f64_to_int (getFloat beacon "max_concurrent" (f64_of_Z 2))) (getStr beacon "ollama_model") t
    (f64_to_int (getFloat beacon "pending_jobs" f64_zero))
    (f64_to_int (getFloat beacon "running_jobs" f64_zero))
    (f64_to_int (getFloat beacon "clients" f64_zero))
    (f64_to_int (getFloat beacon "available_capacity" f64_zero))
    f64_zero false.

Section beacons.
(** [json.Unmarshal] of a datagram into a map. *)
Variable unmarshal : string → option (gmap string json).

Definition handleBeacon (data : string) (source_ip : string) (t : f64) (m : MeshDiscovery) : MeshDiscovery :=
  match unmarshal data with
  | None => m
  | Some beacon =>
      let peerID := obj_str beacon "server_id" in
      if String.eqb peerID "" || String.eqb peerID (serverID m) then m
      else
        let endpoint :=
          if negb (String.eqb (obj_str beacon "announce_addr") "") then obj_str beacon "announce_addr"
          else "http://" +:+ source_ip +:+ ":"
               +:+ fmt_d (f64_to_int (from_opt f64_zero (obj_get as_num beacon "port"))) in
        match peers m !! peerID with
        | Some p => update_peer (refresh_peer beacon t) p m
        | None => put_peer peerID (new_peer beacon peerID endpoint t) m
        end
  end.

(** The listener reads at most 4096 bytes of a datagram. *)
Definition listen (datagram : string) (source_ip : string) (t : f64) (m : MeshDiscovery) : MeshDiscovery :=
  handleBeacon (str_take 4096 datagram) source_ip t m.

End beacons.

(** ** Ageing *)

(** A tick of [cleanupLoop]. *)
Definition cleanup_tick (now : f64) (m : MeshDiscovery) : MeshDiscovery :=
  let cutoff := f64_sub now (f64_of_Z 30) in
  set_peers (filter (λ kv, f64_ltb (p_LastSeen (peer_at m kv.2)) cutoff = false) (peers m)) m.

(** The end of one successful health poll: the peer polled is looked up
    again by its id. *)
Definition health_ok (id : string) (now : f64) (m : MeshDiscovery) : MeshDiscovery :=
  match peers m !! id with
  | Some p => update_peer (set_LastSeen now) p m
  | None => m
  end.

(** ** Choosing a peer *)

Definition calcLoad (running pending maxC : Z) : f64 :=
  if maxC =? 0 then f64_of_Z 1
  else let load := f64_div (f64_of_Z (int_add running pending)) (f64_of_Z maxC) in
       if f64_ltb (f64_of_Z 1) load then f64_of_Z 1 else load.

Definition seen_within (now : f64) (p : PeerInfo) : bool :=
  f64_ltb (f64_sub now (p_LastSeen p)) (f64_of_Z 30).

Definition mark_alive (p : PeerInfo) : PeerInfo :=
  mk_PeerInfo (p_ServerID p) (p_Endpoint p) (p_MaxConcurrent p) (p_OllamaModel p) (p_LastSeen p)
    (p_PendingJobs p) (p_RunningJobs p) (p_Clients p)
    (maxInt 0 (int_sub (p_MaxConcurrent p) (p_RunningJobs p)))
    (calcLoad (p_RunningJobs p) (p_PendingJobs p) (p_MaxConcurrent p)) true.

(** The loop of [GetAlivePeers] over the peers in the order Go visits them,
    each with the clock reading made for it. *)
Fixpoint alive_loop (rs : list (nat * f64)) (m : MeshDiscovery) : list nat * MeshDiscovery :=
  match rs with
  | [] => ([], m)
  | (p, now) :: rs' =>
      if seen_within now (peer_at m p) then
        let (alive, m') := alive_loop rs' (update_peer mark_alive p m) in (p :: alive, m')
      else alive_loop rs' m
  end.

Definition visits (m : MeshDiscovery) (rs : list (nat * f64)) : Prop :=
  rs.*1 ≡ₚ (map_to_list (peers m)).*2.

Definition GetAlivePeers (rs : list (nat * f64)) (m : MeshDiscovery) : list nat * MeshDiscovery :=
  alive_loop rs m.

Definition better_peer (p best : PeerInfo) : bool :=
  f64_ltb (p_Load p) (p_Load best)
  || (f64_eqb (p_Load p) (p_Load best) && (p_AvailableCap best <? p_AvailableCap p)).

Definition best_step (m : MeshDiscovery) (best : option nat) (p : nat) : option nat :=
  if 0 <? p_AvailableCap (peer_at m p) then
    match best with
    | None => Some p
    | Some b => if better_peer (peer_at m p) (peer_at m b) then Some p else Some b
    end
  else best.

Definition GetBestPeer (rs : list (nat * f64)) (m : MeshDiscovery) : option nat * MeshDiscovery :=
  let (alive, m') := GetAlivePeers rs m in (foldl (best_step m') None alive, m').

Definition GetPeersList (rs : list (nat * f64)) (m : MeshDiscovery) : list PeerInfo * MeshDiscovery :=
  let (alive, m') := GetAlivePeers rs m in (peer_at m' <$> alive, m').

(** One probe per seed: its address, the reply, the reading and the gossip. *)
Definition Rescan
    (probes : list (string * option (gmap string json) * f64 * option (list (PeerInfo * f64))))
    (m : MeshDiscovery) : MeshDiscovery :=
  foldl (λ m '(addr, status, now, gossip), (probeSeed addr status now gossip m).2) m probes.

(** ** Models of a peer *)

(** The names of a decoded [/v1/models] reply. *)
Definition fetchPeerModelNames (reply : option (list string)) : list string :=
  match reply with None => [] | Some ids => filter (λ id, id ≠ "") ids end.

(** Entries younger than half a minute are served from the cache. *)
Definition GetCachedPeerModels (peer : PeerInfo) (reply : option (list string)) (now stored : Time)
    (m : MeshDiscovery) : list string * MeshDiscovery :=
  let id := p_ServerID peer in
  let lastFetch := from_opt time_zero (peerModelsTime m !! id) in
  match peerModels m !! id with
  | Some models =>
      if time_Since now lastFetch <? 30 * Second then (models, m)
      else let models := fetchPeerModelNames reply in
           (models, set_models (<[id := models]> (peerModels m)) (<[id := stored]> (peerModelsTime m)) m)
  | None =>
      let models := fetchPeerModelNames reply in
      (models, set_models (<[id := models]> (peerModels m)) (<[id := stored]> (peerModelsTime m)) m)
  end.

Definition GetDiagnostics (rs : list (nat * f64)) (seeds : list string) (m : MeshDiscovery)
    : gmap string json * MeshDiscovery :=
  let (alive, m') := GetAlivePeers rs m in
  let diag := jmap [
    ("enabled", JBool true); ("server_id", JStr (serverID m)); ("discovery_port", JInt (discoveryPort m));
    ("server_port", JInt (serverPort m)); ("announce_addr", JStr (announceAddr m));
    ("peers_total", JInt (Z.of_nat (size (peers m)))); ("peers_alive", JInt (go_len alive));
    ("seed_peers", match seeds with [] => JNull | _ => JArr (JStr <$> seeds) end)] in
  (match modelMap m with
   | Some mm => if 0 <? Z.of_nat (size mm) then <["model_map" := JObj (JStr <$> mm)]> diag else diag
   | None => diag
   end, m').

(** ** Handlers *)

(** The decoded body of both registration requests; [None] is a decoding
    error. *)
Record peer_body := mk_peer_body {
  pb_ServerID : string; pb_Endpoint : string; pb_MaxConcurrent : Z; pb_OllamaModel : string }.

Definition handlePeerRegister (is_POST : bool) (body : option peer_body) (now : f64)
    (mesh : option MeshDiscovery) : response * option MeshDiscovery :=
  if negb is_POST then (http_Error "POST required" StatusMethodNotAllowed, mesh)
  else match mesh with
  | None => (http_Error "mesh not enabled" StatusBadRequest, mesh)
  | Some m =>
      match body with
      | None => (http_Error "bad json" StatusBadRequest, mesh)
      | Some b =>
          if String.eqb (pb_ServerID b) "" || String.eqb (pb_Endpoint b) "" then
            (http_Error "server_id and endpoint required" StatusBadRequest, mesh)
          else
            let mc := if pb_MaxConcurrent b =? 0 then 2 else pb_MaxConcurrent b in
            (write_json (jobj [("status", JStr "ok")]),
             Some (RegisterPeer (pb_ServerID b) (pb_Endpoint b) mc (pb_OllamaModel b) now m))
      end
  end.

Definition handlePeerIntroduce (getServerID : string) (body : option peer_body) (now : f64)
    (mesh : option MeshDiscovery) : response * option MeshDiscovery :=
  match mesh with
  | None => (http_Error "mesh not enabled" StatusBadRequest, mesh)
  | Some m =>
      match body with
      | None => (http_Error "bad json" StatusBadRequest, mesh)
      | Some b =>
          if String.eqb (pb_ServerID b) "" || String.eqb (pb_Endpoint b) "" then
            (http_Error "server_id and endpoint required" StatusBadRequest, mesh)
          else if String.eqb (pb_ServerID b) getServerID then
            (write_json (jobj [("status", JStr "skipped")]), mesh)
          else
            (write_json (jobj [("status", JStr "registered")]),
             Some (RegisterPeer (pb_ServerID b) (pb_Endpoint b) (pb_MaxConcurrent b) (pb_OllamaModel b) now m))
      end
  end.

Definition handlePeers (render : PeerInfo → json) (rs : list (nat * f64)) (mesh : option MeshDiscovery)
    : response * option MeshDiscovery :=
  match mesh with
  | None => (write_json (jobj [("peers", JArr []); ("mesh_enabled", JBool false)]), mesh)
  | Some m =>
      let (l, m') := GetPeersList rs m in
      (write_json (jobj [("peers", JArr (render <$> l)); ("mesh_enabled", JBool true)]), Some m')
  end.

(** ** Runs of the mesh *)

Inductive op :=
  | OBeacon (data ip : string) (t : f64)
  | OProbe (addr : string) (status : option (gmap string json)) (now : f64)
      (gossip : option (list (PeerInfo * f64)))
  | ORegister (id endpoint : string) (maxConcurrent : Z) (ollamaModel : string) (now : f64)
  | OUnregister (id : string)
  | OCleanup (now : f64)
  | OHealth (id : string) (now : f64)
  | OAlive (rs : list (nat * f64))
  | OModels (peer : PeerInfo) (reply : option (list string)) (now stored : Time)
  | OExchange (gossip : option (list (PeerInfo * f64))).

Definition apply_op (unmarshal : string → option (gmap string json)) (m : MeshDiscovery) (o : op)
    : MeshDiscovery :=
  match o with
  | OBeacon data ip t => listen unmarshal data ip t m
  | OProbe addr status now gossip => (probeSeed addr status now gossip m).2
  | ORegister id endpoint mc om now => RegisterPeer id endpoint mc om now m
  | OUnregister id => UnregisterPeer id m
  | OCleanup now => cleanup_tick now m
  | OHealth id now => health_ok id now m
  | OAlive rs => (GetAlivePeers rs m).2
  | OModels peer reply now stored => (GetCachedPeerModels peer reply now stored m).2
  | OExchange gossip => exchangePeers gossip m
  end.

(** ** The well-formed table

    Every entry is a peer that carries the id it is stored under, so no two
    ids share a pointer. *)
Record wf (m : MeshDiscovery) : Prop := mk_wf {
  wf_entry id p : peers m !! id = Some p → (p < next m)%nat ∧ p_ServerID (peer_at m p) = id ∧
    is_Some (heap m !! p) }.

Lemma wf_inj m id id' p : wf m → peers m !! id = Some p → peers m !! id' = Some p → id = id'.
Proof. intros [He] H1 H2. destruct (He _ _ H1) as (_ & <- & _), (He _ _ H2) as (_ & <- & _). done. Qed.

Lemma peer_of_Some m id p : peers m !! id = Some p → peer_of m id = Some (peer_at m p).
Proof. unfold peer_of. by intros ->. Qed.

Lemma put_peer_wf id peer m : wf m → p_ServerID peer = id → wf (put_peer id peer m).
Proof.
  intros [He] Hid. split. intros id' p. unfold put_peer, peer_at. simpl.
  destruct (decide (id = id')) as [->|Hne].
  - rewrite lookup_insert_eq. intros [= <-]. rewrite lookup_insert_eq. split_and!; [lia|done|by eexists].
  - rewrite lookup_insert_ne by done. intros (Hlt & Hs & Hh)%He. rewrite lookup_insert_ne by lia.
    split_and!; [lia|done|done].
Qed.

Lemma put_peer_of id peer m id' :
  wf m → peer_of (put_peer id peer m) id' = if decide (id' = id) then Some peer else peer_of m id'.
Proof.
  intros [He]. unfold peer_of, put_peer, peer_at. simpl. case_decide as Hd.
  - subst. rewrite lookup_insert_eq. simpl. by rewrite lookup_insert_eq.
  - rewrite lookup_insert_ne by done. destruct (peers m !! id') as [p|] eqn:Hp; simpl; [|done].
    destruct (He _ _ Hp) as (Hlt & _). by rewrite lookup_insert_ne by lia.
Qed.

Lemma update_peer_at f p m q :
  peer_at (update_peer f p m) q = if decide (q = p) then f (peer_at m p) else peer_at m q.
Proof.
  unfold update_peer, peer_at. simpl. case_decide as Hq.
  - subst. by rewrite lookup_insert_eq.
  - by rewrite lookup_insert_ne.
Qed.

Lemma update_peer_wf f p m :
  wf m → (∀ x, p_ServerID (f x) = p_ServerID x) → wf (update_peer f p m).
Proof.
  intros [He] Hf. split. intros id q Hq. destruct (He _ _ Hq) as (Hlt & Hs & Hh).
  split_and!; [done| |].
  - rewrite update_peer_at. case_decide; [subst; by rewrite Hf|done].
  - simpl. destruct (decide (p = q)) as [->|]; [rewrite lookup_insert_eq|rewrite lookup_insert_ne by done]; [by eexists|done].
Qed.

(** A write through the pointer of one id changes that peer only. *)
Lemma update_peer_of f p m id id' :
  wf m → peers m !! id = Some p →
  peer_of (update_peer f p m) id' = if decide (id' = id) then f <$> peer_of m id' else peer_of m id'.
Proof.
  intros Hwf Hp. unfold peer_of at 1. change (peers (update_peer f p m)) with (peers m).
  case_decide as Hd.
  - subst. unfold peer_of. rewrite Hp. simpl. by rewrite update_peer_at, decide_True.
  - unfold peer_of. destruct (peers m !! id') as [q|] eqn:Hq; simpl; [|done].
    rewrite update_peer_at, decide_False; [done|]. intros ->. apply Hd. by eapply wf_inj.
Qed.

(** What an operation leaves alone: the server's own id, and a table without
    an entry for it. *)
Definition no_self (m : MeshDiscovery) : Prop := peers m !! serverID m = None.

Record keeps (m m' : MeshDiscovery) : Prop := mk_keeps {
  keeps_wf : wf m → wf m';
  keeps_id : serverID m' = serverID m;
  keeps_self : no_self m → no_self m' }.

#[global] Instance keeps_refl : Reflexive keeps.
Proof. by intros m. Qed.
#[global] Instance keeps_trans : Transitive keeps.
Proof.
  intros m1 m2 m3 [W1 I1 S1] [W2 I2 S2]. split; [by auto|congruence|by auto].
Qed.

Lemma put_peer_keeps id peer m : p_ServerID peer = id → id ≠ serverID m → keeps m (put_peer id peer m).
Proof.
  intros Hp Hid. split; [intros; by apply put_peer_wf|done|].
  unfold no_self. simpl. by rewrite lookup_insert_ne.
Qed.

Lemma update_peer_keeps f p m : (∀ x, p_ServerID (f x) = p_ServerID x) → keeps m (update_peer f p m).
Proof. intros Hf. split; [intros; by apply update_peer_wf|done|done]. Qed.

Lemma delete_peers_keeps ps m : ps ⊆ peers m → keeps m (set_peers ps m).
Proof.
  intros Hsub. split; [|done|].
  - intros [He]. split. intros id p Hp. apply He. by eapply lookup_weaken.
  - unfold no_self. simpl. intros Hn. by eapply lookup_weaken_None.
Qed.

Lemma learn_peer_keeps m pt : keeps m (learn_peer m pt).
Proof.
  destruct pt as [p t]. unfold learn_peer. case_match eqn:Hs; [done|]. zbool.
  case_match; [done|]. by apply put_peer_keeps.
Qed.

Lemma exchange_keeps gossip m : keeps m (exchangePeers gossip m).
Proof.
  destruct gossip as [ps|]; simpl; [|done].
  apply (foldl_inv (λ b, keeps m b)); [done|]. intros b a _ Hb. etrans; [exact Hb|apply learn_peer_keeps].
Qed.

Lemma probeSeed_keeps addr status now gossip m : keeps m (probeSeed addr status now gossip m).2.
Proof.
  unfold probeSeed. destruct status as [data|]; [|done]. case_match eqn:Hs; [done|]. zbool. simpl.
  etrans; [|apply exchange_keeps]. by apply put_peer_keeps.
Qed.

Lemma handleBeacon_keeps unmarshal data ip t m : keeps m (handleBeacon unmarshal data ip t m).
Proof.
  unfold handleBeacon. destruct (unmarshal data) as [b|]; [|done]. case_match eqn:Hs; [done|]. zbool.
  case_match; [by apply update_peer_keeps|by apply put_peer_keeps].
Qed.

Lemma alive_keeps rs m : keeps m (alive_loop rs m).2.
Proof.
  revert m. induction rs as [|[p now] rs IH]; intros m; simpl; [done|].
  destruct (seen_within now (peer_at m p)); [|apply IH].
  specialize (IH (update_peer mark_alive p m)). destruct (alive_loop rs _) as [l m']. simpl in *.
  etrans; [|exact IH]. by apply update_peer_keeps.
Qed.

Lemma set_models_keeps pm pt m : keeps m (set_models pm pt m).
Proof. split; [intros [He]; by split|done|done]. Qed.

Lemma apply_op_keeps unmarshal m o :
  (∀ id e mc om t, o = ORegister id e mc om t → id ≠ serverID m) → keeps m (apply_op unmarshal m o).
Proof.
  intros Ho. destruct o as [data ip t|addr st now g|id e mc om now|id|now|id now|rs|peer reply now stored|gossip]; simpl.
  - apply handleBeacon_keeps.
  - apply probeSeed_keeps.
  - apply put_peer_keeps; [done|by eapply Ho].
  - apply delete_peers_keeps, delete_subseteq.
  - apply delete_peers_keeps, map_filter_subseteq.
  - unfold health_ok. case_match; [by apply update_peer_keeps|done].
  - apply alive_keeps.
  - unfold GetCachedPeerModels. repeat case_match; simpl; auto using set_models_keeps; reflexivity.
  - apply exchange_keeps.
Qed.

Lemma new_mesh_wf id sp dp mc om aa mm : wf (NewMeshDiscovery id sp dp mc om aa mm).
Proof. by split. Qed.

(** A run in which nobody registers the server with itself. *)
Lemma run_keeps unmarshal ops m :
  (∀ id e mc om t, ORegister id e mc om t ∈ ops → id ≠ serverID m) →
  keeps m (foldl (apply_op unmarshal) m ops).
Proof.
  revert m. induction ops as [|o ops IH]; intros m Hops; simpl; [done|].
  assert (keeps m (apply_op unmarshal m o)) as Hk.
  { apply apply_op_keeps. intros id e mc om t ->. eapply Hops. by left. }
  etrans; [exact Hk|]. apply IH. intros id e mc om t Hin. rewrite (keeps_id _ _ Hk).
  eapply Hops. by right.
Qed.

(** Manual registration keeps the table well formed, self or not. *)
Lemma apply_op_wf unmarshal m o : wf m → wf (apply_op unmarshal m o).
Proof.
  intros Hwf. destruct o as [data ip t|addr st now g|id e mc om now|id|now|id now|rs|peer reply now stored|gossip];
    [| |by apply put_peer_wf|..]; (eapply keeps_wf; [apply apply_op_keeps; by intros|done]).
Qed.

Lemma mesh_run_wf unmarshal ops m : wf m → wf (foldl (apply_op unmarshal) m ops).
Proof. intros Hwf. apply foldl_inv; [done|]. intros b o _ Hb. by apply apply_op_wf. Qed.

(** ** Alive peers *)

Definition alive_in (m : MeshDiscovery) (rs : list (nat * f64)) : list nat :=
  (filter (λ r, seen_within r.2 (peer_at m r.1) = true) rs).*1.

Lemma alive_loop_spec rs m :
  NoDup rs.*1 →
  (alive_loop rs m).1 = alive_in m rs ∧
  peers (alive_loop rs m).2 = peers m ∧
  ∀ q, peer_at (alive_loop rs m).2 q =
         if decide (q ∈ alive_in m rs) then mark_alive (peer_at m q) else peer_at m q.
Proof.
  revert m. induction rs as [|[p now] rs IH]; intros m Hnd; cbn [alive_loop].
  - split_and!; [done|done|]. intros q. by rewrite decide_False by apply not_elem_of_nil.
  - rewrite fmap_cons in Hnd. apply NoDup_cons in Hnd as [Hp Hnd]. unfold alive_in. rewrite filter_cons. simpl in *.
    destruct (seen_within now (peer_at m p)) eqn:Hs.
    + destruct (IH (update_peer mark_alive p m) Hnd) as (H1 & H2 & H3).
      assert (alive_in (update_peer mark_alive p m) rs = alive_in m rs) as Heq.
      { unfold alive_in. f_equal. apply filter_ext_in. intros [q t] Hq. simpl.
        rewrite update_peer_at, decide_False; [done|]. intros ->. apply Hp.
        apply list_elem_of_fmap. by exists (p, t). }
      rewrite Heq in *. destruct (alive_loop rs _) as [l m']. simpl in *. subst l.
      rewrite ?decide_True by done. fold (alive_in m rs). split_and!; [done|done|].
      assert (p ∉ alive_in m rs) as Hpn.
      { intros ([q t] & -> & Hq)%list_elem_of_fmap. apply list_elem_of_filter in Hq as [_ Hq].
        apply Hp. apply list_elem_of_fmap. by exists (q, t). }
      intros q. rewrite H3, update_peer_at. simpl. destruct (decide (q = p)) as [->|Hne].
      * rewrite decide_False, decide_True by (done || by left). done.
      * by destruct (decide (q ∈ alive_in m rs)) as [Hq|Hq];
          [rewrite decide_True by (by right)|rewrite decide_False by (by intros [?|?]%elem_of_cons)].
    + rewrite ?decide_False by done. by apply IH.
Qed.

Lemma visits_NoDup m rs : wf m → visits m rs → NoDup rs.*1.
Proof.
  intros Hwf ->. assert (NoDup ((map_to_list (peers m)).*1)) as Hk by apply NoDup_fst_map_to_list.
  apply NoDup_fmap_2_strong; [|apply NoDup_map_to_list].
  intros [i p] [j q] Hi Hj Heq. simpl in Heq. subst.
  apply elem_of_map_to_list in Hi, Hj. assert (i = j) as -> by (by eapply wf_inj). done.
Qed.

Lemma visits_elem m rs p : visits m rs → p ∈ rs.*1 ↔ ∃ id, peers m !! id = Some p.
Proof.
  intros ->. rewrite list_elem_of_fmap. split.
  - intros ([id q] & -> & Hin). exists id. by apply elem_of_map_to_list in Hin.
  - intros [id Hid]. exists (id, p). split; [done|]. by apply elem_of_map_to_list.
Qed.

(** ** The best peer *)

Lemma better_peer_irrefl p : better_peer p p = false.
Proof. unfold better_peer. by rewrite f64_ltb_irrefl, Z.ltb_irrefl, andb_false_r. Qed.

Lemma f64_eqb_ltb_trans x y z : f64_eqb x y = true → f64_ltb y z = true → f64_ltb x z = true.
Proof.
  intros He Hl. destruct (f64_ltb x z) eqn:Hxz; [done|].
  destruct (f64_ltb_nan_l _ _ Hl) as [Hy _].
  assert (f64_ltb x y = false) as Hxy by (by apply f64_eqb_nlt).
  assert (f64_ltb y x = false) as Hyx by (apply f64_eqb_nlt; by rewrite f64_eqb_sym).
  assert (f64_is_nan x = false) as Hx by (destruct x; by destruct y).
  pose proof (f64_nlt_trans z x y Hx Hxz Hyx) as Hzz. congruence.
Qed.

Lemma f64_ltb_eqb_trans x y z : f64_ltb x y = true → f64_eqb y z = true → f64_ltb x z = true.
Proof.
  intros Hl He. destruct (f64_ltb x z) eqn:Hxz; [done|].
  assert (f64_ltb z y = false) as Hzy by (apply f64_eqb_nlt; by rewrite f64_eqb_sym).
  assert (f64_is_nan z = false) as Hz by (destruct z; by destruct y).
  pose proof (f64_nlt_trans y z x Hz Hzy Hxz) as Hyy. congruence.
Qed.

Lemma f64_eqb_trans x y z : f64_eqb x y = true → f64_eqb y z = true → f64_eqb x z = true.
Proof.
  intros H1 H2. destruct (f64_ltb x z) eqn:Hxz.
  { rewrite f64_eqb_sym in H2. pose proof (f64_ltb_eqb_trans _ _ _ Hxz H2) as H.
    by rewrite (f64_eqb_nlt _ _ H1) in H. }
  destruct (f64_ltb z x) eqn:Hzx.
  { pose proof (f64_ltb_eqb_trans _ _ _ Hzx H1) as H.
    rewrite f64_eqb_sym in H2. by rewrite (f64_eqb_nlt _ _ H2) in H. }
  apply f64_eqb_not_lt; [by destruct x, y|by destruct y, z|done|done].
Qed.

Lemma better_peer_trans p q r : better_peer p q = true → better_peer q r = true → better_peer p r = true.
Proof.
  unfold better_peer. rewrite !orb_true_iff, !andb_true_iff, !Z.ltb_lt.
  intros [H1|[H1 C1]] [H2|[H2 C2]].
  - left. by eapply f64_ltb_trans.
  - left. by eapply f64_ltb_eqb_trans.
  - left. by eapply f64_eqb_ltb_trans.
  - right. split; [by eapply f64_eqb_trans|lia].
Qed.

(** Without a NaN the choice is a strict weak order. *)
Lemma better_peer_cotrans p q r :
  f64_is_nan (p_Load p) = false → f64_is_nan (p_Load q) = false → f64_is_nan (p_Load r) = false →
  better_peer p q = false → better_peer q r = false → better_peer p r = false.
Proof.
  intros Hp Hq Hr H1 H2. unfold better_peer in *. zbool.
  destruct (f64_ltb (p_Load p) (p_Load r)) eqn:Hpr.
  - pose proof (f64_nlt_trans (p_Load r) (p_Load q) (p_Load p) Hq) as Ht.
    by rewrite Ht in Hpr.
  - simpl. apply andb_false_iff.
    destruct (f64_eqb (p_Load p) (p_Load r)) eqn:Hepr; [right|by left]. apply Z.ltb_ge.
    destruct (f64_ltb (p_Load q) (p_Load p)) eqn:Hqp.
    { by rewrite (f64_ltb_eqb_trans _ _ _ Hqp Hepr) in *. }
    assert (f64_eqb (p_Load p) (p_Load q) = true) as He1 by (by apply f64_eqb_not_lt).
    assert (f64_eqb (p_Load q) (p_Load r) = true) as He2.
    { eapply f64_eqb_trans; [rewrite f64_eqb_sym; exact He1|done]. }
    rewrite He1, He2 in *. simpl in *. zbool. lia.
Qed.

Lemma best_fold m l b :
  (∀ q, q ∈ option_list b ++ l → f64_is_nan (p_Load (peer_at m q)) = false) →
  (∀ p, b = Some p → 0 < p_AvailableCap (peer_at m p)) →
  match foldl (best_step m) b l with
  | Some best =>
      best ∈ option_list b ++ l ∧ 0 < p_AvailableCap (peer_at m best) ∧
      ∀ q, q ∈ option_list b ++ l → 0 < p_AvailableCap (peer_at m q) →
           better_peer (peer_at m q) (peer_at m best) = false
  | None => b = None ∧ ∀ q, q ∈ l → p_AvailableCap (peer_at m q) <= 0
  end.
Proof.
  revert b. induction l as [|p l IH]; intros b Hnan Hb; simpl.
  - destruct b as [best|]; [|split; [done|by intros q ?%not_elem_of_nil]]. simpl.
    split_and!; [by left|by apply Hb|]. intros q ->%list_elem_of_singleton _. apply better_peer_irrefl.
  - assert (∀ q, q ∈ option_list (best_step m b p) ++ l → q ∈ option_list b ++ p :: l) as Hsub.
    { intros q. unfold best_step. rewrite !elem_of_app, elem_of_cons. repeat case_match; simpl;
        rewrite ?list_elem_of_singleton; naive_solver. }
    assert (∀ q, best_step m b p = Some q → 0 < p_AvailableCap (peer_at m q)) as Hstep.
    { intros q. unfold best_step. case_match eqn:Hc; [|by apply Hb]. zbool.
      destruct b as [c|]; [|by intros [= <-]]. case_match; intros [= <-]; [done|by apply Hb]. }
    specialize (IH _ (λ q Hq, Hnan q (Hsub q Hq)) Hstep).
    destruct (foldl (best_step m) (best_step m b p) l) as [best|].
    + destruct IH as (Hin & Hcap & Hbest). split_and!; [by apply Hsub|done|].
      assert (f64_is_nan (p_Load (peer_at m best)) = false) as Hnb by (by apply Hnan, Hsub).
      intros q Hq Hqc. destruct (decide (q ∈ l)) as [Hl|Hl].
      { apply Hbest; [|done]. apply elem_of_app. by right. }
      assert (∃ c, best_step m b p = Some c ∧ better_peer (peer_at m q) (peer_at m c) = false) as (c & Hc & Hqb).
      { unfold best_step. apply elem_of_app in Hq as [Hq|[->|Hq]%elem_of_cons]; [| |done].
        - destruct b as [c|]; [|by apply not_elem_of_nil in Hq]. apply list_elem_of_singleton in Hq as ->.
          case_match; [|eauto using better_peer_irrefl]. case_match eqn:Hpc; [|eauto using better_peer_irrefl].
          exists p. split; [done|]. apply not_true_iff_false. intros Hcp.
          pose proof (better_peer_trans _ _ _ Hpc Hcp) as Hself. by rewrite better_peer_irrefl in Hself.
        - rewrite (proj2 (Z.ltb_lt _ _)) by done. destruct b as [c|]; [|eauto using better_peer_irrefl].
          case_match eqn:Hpc; eauto using better_peer_irrefl. }
      assert (c ∈ option_list (best_step m b p) ++ l) as Hcin by (rewrite Hc; by left).
      eapply (better_peer_cotrans _ (peer_at m c)); [by apply Hnan|by apply Hnan, Hsub|done|done|].
      apply Hbest; [done|by apply Hstep].
    + destruct IH as [Hnone Hall]. unfold best_step in Hnone.
      destruct (Z.ltb_spec 0 (p_AvailableCap (peer_at m p))).
      { destruct b; [by case_match|done]. }
      split; [done|]. intros q [->|Hq]%elem_of_cons; [lia|by apply Hall].
Qed.

(** The load of machine-integer counters is a number, at most 1. *)
Lemma calcLoad_number r p c :
  int64_range c → f64_is_nan (calcLoad r p c) = false ∧ f64_ltb (f64_of_Z 1) (calcLoad r p c) = false.
Proof.
  intros Hc. unfold calcLoad. destruct (Z.eqb_spec c 0); [split; reflexivity|].
  destruct (f64_ltb (f64_of_Z 1) _) eqn:Hl; [split; reflexivity|]. split; [|done].
  by apply f64_div_not_nan; [apply wrap64_range| |].
Qed.

(** A state the server reaches from its start. *)
Definition reachable (unmarshal : string → option (gmap string json)) (m : MeshDiscovery) : Prop :=
  ∃ id sp dp mc om aa mm ops, m = foldl (apply_op unmarshal) (NewMeshDiscovery id sp dp mc om aa mm) ops.

Lemma mesh_reachable_wf unmarshal m : reachable unmarshal m → wf m.
Proof. intros (id & sp & dp & mc & om & aa & mm & ops & ->). apply mesh_run_wf, new_mesh_wf. Qed.

Lemma alive_in_elem m rs p :
  p ∈ alive_in m rs ↔ ∃ now, (p, now) ∈ rs ∧ seen_within now (peer_at m p) = true.
Proof.
  unfold alive_in. rewrite list_elem_of_fmap. split.
  - intros ([q now] & -> & [Hs Hin]%list_elem_of_filter). eauto.
  - intros (now & Hin & Hs). exists (p, now). split; [done|]. by apply list_elem_of_filter.
Qed.

(** ** The wire format

    What a decoded beacon holds: every number is a double. *)
Definition wire (j : json) : json := match j with JInt z => JNum (f64_of_Z z) | _ => j end.

Lemma obj_get_wire_int b k z :
  b !! k = Some (JInt z) → obj_get as_num (wire <$> b) k = Some (f64_of_Z z).
Proof. intros Hb. unfold obj_get. by rewrite lookup_fmap, Hb. Qed.

Lemma obj_get_wire_str b k s :
  b !! k = Some (JStr s) → obj_get as_str (wire <$> b) k = Some s.
Proof. intros Hb. unfold obj_get. by rewrite lookup_fmap, Hb. Qed.

Lemma sendBeacon_lookup q cap cl models m :
  let b := sendBeacon (Some q) (Some cap) (Some cl) models m in
  b !! "server_id" = Some (JStr (serverID m)) ∧
  b !! "announce_addr" = Some (JStr (announceAddr m)) ∧
  b !! "max_concurrent" = Some (JInt (m_maxConcurrent m)) ∧
  b !! "ollama_model" = Some (JStr (m_ollamaModel m)) ∧
  b !! "pending_jobs" = Some (from_opt JNull (q !! "pending")) ∧
  b !! "running_jobs" = Some (from_opt JNull (q !! "running")) ∧
  b !! "available_capacity" = Some (JInt cap) ∧
  b !! "clients" = Some (JInt cl).
Proof.
  simpl. unfold sendBeacon.
  destruct models; split_and!; repeat (rewrite lookup_insert_ne by done);
    rewrite ?lookup_insert_eq; done.
Qed.

Lemma sendBeacon_id q cap cl models m : sendBeacon q cap cl models m !! "server_id" = Some (JStr (serverID m)).
Proof.
  unfold sendBeacon. destruct models, q, cap, cl; repeat (rewrite lookup_insert_ne by done); done.
Qed.

(** The server's own id never changes. *)
Lemma apply_op_id unmarshal m o : serverID (apply_op unmarshal m o) = serverID m.
Proof. destruct o; [| |done|..]; (eapply keeps_id, apply_op_keeps; by intros). Qed.

(** ** Properties *)


(** A server does not forward work to itself: unless somebody registers
    it with itself by hand, no beacon, probe or gossip puts its own id in
    the table, and every peer it lists carries another id. *)
Theorem peers_never_self unmarshal id sp dp mc om aa mm ops rs :
  let m := foldl (apply_op unmarshal) (NewMeshDiscovery id sp dp mc om aa mm) ops in
  (∀ e c o t, ORegister id e c o t ∉ ops) → visits m rs →
  ∀ p, p ∈ (GetAlivePeers rs m).1 → p_ServerID (peer_at m p) ≠ id.
Proof.
  intros m Hreg Hv p Hp.
  destruct (run_keeps unmarshal ops (NewMeshDiscovery id sp dp mc om aa mm)) as [Hwf Hid Hself].
  { simpl. intros i e c o t Hin ->. by eapply Hreg. }
  fold m in Hwf, Hid, Hself. specialize (Hwf (new_mesh_wf _ _ _ _ _ _ _)). specialize (Hself eq_refl).
  destruct (alive_loop_spec rs m (visits_NoDup _ _ Hwf Hv)) as (Hal & _). unfold GetAlivePeers in Hp.
  rewrite Hal in Hp. apply alive_in_elem in Hp as (now & Hin & _).
  destruct (proj1 (visits_elem m rs p Hv)) as [i Hi]; [by apply (list_elem_of_fmap_2 fst _ (p, now))|].
  destruct (wf_entry _ Hwf _ _ Hi) as (_ & -> & _). intros ->.
  unfold no_self in Hself. rewrite Hid in Hself. simpl in Hself. congruence.
Qed.

(** C28: beacons transport a server's state faithfully: what server A
    broadcasts, received by server B, leaves in B's table under A's id A's
    announced address, model, capacity and counters, and changes no other
    peer. *)
Theorem beacon_roundtrip unmarshal marshal A B q cap cl models np nr ip t :
  let b := sendBeacon (Some q) (Some cap) (Some cl) models A in
  unmarshal (marshal b) = Some (wire <$> b) → (String.length (marshal b) ≤ 4096)%nat →
  reachable unmarshal B → serverID A ≠ "" → serverID A ≠ serverID B → announceAddr A ≠ "" →
  q !! "pending" = Some (JInt np) → q !! "running" = Some (JInt nr) →
  (∀ z, z ∈ [m_maxConcurrent A; np; nr; cl; cap] → Z.abs z <= 2 ^ 53 - 1) →
  let B' := listen unmarshal (marshal b) ip t B in
  (∃ pr, peer_of B' (serverID A) = Some pr ∧
    p_Endpoint pr = announceAddr A ∧ p_OllamaModel pr = m_ollamaModel A ∧ p_LastSeen pr = t ∧
    [p_MaxConcurrent pr; p_PendingJobs pr; p_RunningJobs pr; p_Clients pr; p_AvailableCap pr]
      = [m_maxConcurrent A; np; nr; cl; cap]) ∧
  ∀ id, id ≠ serverID A → peer_of B' id = peer_of B id.
Proof.
  intros b Hu Hlen Hwf%mesh_reachable_wf Hne Hab Han Hp Hr Hz B'.
  assert (B' = handleBeacon unmarshal (marshal b) ip t B) as ->.
  { unfold B', listen. f_equal. clear -Hlen. revert Hlen. generalize 4096%nat. generalize (marshal b).
    induction s as [|c s IH]; intros [|n] Hn; simpl in *; try done; [lia|]. by rewrite IH by lia. }
  destruct (sendBeacon_lookup q cap cl models A) as (H1 & H2 & H3 & H4 & H5 & H6 & H7 & H8).
  fold b in H1, H2, H3, H4, H5, H6, H7, H8. rewrite Hp in H5. rewrite Hr in H6. simpl in H5, H6.
  apply obj_get_wire_str in H1, H2, H4. apply obj_get_wire_int in H3, H5, H6, H7, H8.
  unfold handleBeacon. rewrite Hu. set (w := wire <$> b) in *.
  unfold obj_str. rewrite H1, H2. cbn [from_opt].
  rewrite (proj2 (String.eqb_neq _ _) Hne), (proj2 (String.eqb_neq _ _) Hab), (proj2 (String.eqb_neq _ _) Han).
  assert (∀ z, z ∈ [m_maxConcurrent A; np; nr; cl; cap] → f64_to_int (f64_of_Z z) = z) as Hrt
    by (intros z Hin; by apply f64_round_trip, Hz).
  cbn [orb negb]. destruct (peers B !! serverID A) as [p|] eqn:HB.
  - split.
    + rewrite (update_peer_of _ _ _ (serverID A)), decide_True by done.
      unfold peer_of. rewrite HB. simpl. eexists. split; [done|].
      unfold refresh_peer, int_or. rewrite H2, H3, H4, H5, H6, H7, H8. cbn.
      rewrite (proj2 (String.eqb_neq _ _) Han). rewrite !Hrt by set_solver. done.
    + intros id Hid. by rewrite (update_peer_of _ _ _ (serverID A)), decide_False by done.
  - split.
    + rewrite put_peer_of, decide_True by done. eexists. split; [done|].
      unfold new_peer, getFloat, getStr, obj_str. rewrite H3, H4, H5, H6, H7, H8. cbn.
      rewrite !Hrt by set_solver. done.
    + intros id Hid. by rewrite put_peer_of, decide_False by done.
Qed.

(** The capacity a peer advertises is ignored: listing the peers
    overwrites it with the peer's maximum less its running jobs, whatever
    the last beacon said. *)
Theorem advertised_capacity_ignored unmarshal m rs p now :
  reachable unmarshal m → visits m rs → (p, now) ∈ rs → seen_within now (peer_at m p) = true →
  p ∈ (GetAlivePeers rs m).1 ∧
  p_AvailableCap (peer_at (GetAlivePeers rs m).2 p) =
    maxInt 0 (int_sub (p_MaxConcurrent (peer_at m p)) (p_RunningJobs (peer_at m p))).
Proof.
  intros Hwf%mesh_reachable_wf Hv Hp Hs.
  destruct (alive_loop_spec rs m (visits_NoDup _ _ Hwf Hv)) as (Hal & _ & Hat).
  assert (p ∈ alive_in m rs) as Hin by (apply alive_in_elem; eauto).
  unfold GetAlivePeers. rewrite Hal, Hat, decide_True by done. done.
Qed.

(** The cleanup removes exactly the peers not seen for thirty seconds:
    the others keep everything they had. *)
Theorem peer_cleanup_exact now m id :
  peer_of (cleanup_tick now m) id =
    match peer_of m id with
    | Some p => if f64_ltb (p_LastSeen p) (f64_sub now (f64_of_Z 30)) then None else Some p
    | None => None
    end.
Proof.
  unfold peer_of, cleanup_tick. cbn [peers set_peers]. rewrite map_lookup_filter.
  change (peer_at (set_peers _ m)) with (peer_at m).
  destruct (peers m !! id) as [p|]; cbn -[f64_sub f64_ltb f64_of_Z]; [|done].
  destruct (f64_ltb _ _) eqn:Hl; case_guard; simpl; congruence.
Qed.

(** Manual registration has no guard against the server's own id: after
    it the server is in its own table with free capacity. *)
Theorem register_accepts_self now m body :
  pb_ServerID body = serverID m → pb_ServerID body ≠ "" → pb_Endpoint body ≠ "" →
  0 < pb_MaxConcurrent body < 2 ^ 63 →
  ∃ m' p, (handlePeerRegister true (Some body) now (Some m)).2 = Some m' ∧
    peers m' !! serverID m' = Some p ∧ 0 < p_AvailableCap (mark_alive (peer_at m' p)).
Proof.
  intros Hid Hne He Hmc. unfold handlePeerRegister. simpl.
  rewrite (proj2 (String.eqb_neq _ _) Hne), (proj2 (String.eqb_neq _ _) He). simpl.
  rewrite (proj2 (Z.eqb_neq _ _)) by lia. eexists _, (next m). split; [done|]. simpl.
  rewrite Hid, lookup_insert_eq. split; [done|]. unfold peer_at. simpl. rewrite lookup_insert_eq. simpl.
  rewrite maxInt_max, int_sub_id by (unfold int64_range, int64_min, int64_max; lia). lia.
Qed.

(** ** Witnesses *)

Definition example_unmarshal : string → option (gmap string json) := λ _, None.
Definition example_new (id : string) : MeshDiscovery :=
  NewMeshDiscovery id 8081 8082 2 "llama3" ("http://" +:+ id) None.
Definition example_ops : list op :=
  [ORegister "b" "http://b" 2 "llama3" (f64_of_Z 100); ORegister "c" "http://c" 4 "llama3" (f64_of_Z 100)].
Definition example_mesh : MeshDiscovery := foldl (apply_op example_unmarshal) (example_new "a") example_ops.
Definition example_rs : list (nat * f64) := [(0%nat, f64_of_Z 110); (1%nat, f64_of_Z 110)].

Lemma mesh_example_reachable : reachable example_unmarshal example_mesh.
Proof. by exists "a", 8081, 8082, 2, "llama3", "http://a", None, example_ops. Qed.

Lemma example_visits : visits example_mesh example_rs.
Proof. vm_compute. apply perm_swap. Qed.

Lemma mesh_example_ranges id p :
  peers example_mesh !! id = Some p → int64_range (p_MaxConcurrent (peer_at example_mesh p)).
Proof.
  intros Hp. assert (p = 0%nat ∨ p = 1%nat) as [-> | ->]; [|by vm_compute|by vm_compute].
  apply elem_of_map_to_list in Hp.
  assert (map_to_list (peers example_mesh) = [("c", 1%nat); ("b", 0%nat)]) as Hl by (vm_compute; reflexivity).
  rewrite Hl in Hp. apply elem_of_cons in Hp as [[= -> ->]|[[= -> ->]|?%not_elem_of_nil]%elem_of_cons];
    [by right|by left|done].
Qed.


Lemma peers_never_self_witness :
  Forall (λ p, p_ServerID (peer_at example_mesh p) ≠ "a") (GetAlivePeers example_rs example_mesh).1.
Proof.
  apply Forall_forall. intros p.
  apply (peers_never_self example_unmarshal "a" 8081 8082 2 "llama3" "http://a" None example_ops example_rs);
    [|exact example_visits].
  intros e c o t Hin. unfold example_ops in Hin.
  apply elem_of_cons in Hin as [?|[?|?%not_elem_of_nil]%elem_of_cons]; [discriminate|discriminate|done].
Defined.

Definition example_queue : gmap string json := jmap [("pending", JInt 3); ("running", JInt 1)].
Definition example_beacon : gmap string json :=
  sendBeacon (Some example_queue) (Some 1) (Some 5) ["llama3"] (example_new "a").

Lemma beacon_roundtrip_witness :
  ∃ pr, peer_of (listen (λ _, Some (wire <$> example_beacon)) "{}" "10.0.0.9" (f64_of_Z 7) (example_new "b"))
          "a" = Some pr ∧ p_Endpoint pr = "http://a" ∧ p_PendingJobs pr = 3.
Proof.
  destruct (beacon_roundtrip (λ _, Some (wire <$> example_beacon)) (λ _, "{}") (example_new "a")
    (example_new "b") example_queue 1 5 ["llama3"] 3 1 "10.0.0.9" (f64_of_Z 7))
    as [(pr & Hpr & He & _ & _ & Hl) _]; [reflexivity|simpl; lia| |discriminate|discriminate|discriminate
      |reflexivity|reflexivity| |].
  - by exists "b", 8081, 8082, 2, "llama3", "http://b", None, [].
  - intros z Hz. repeat (apply elem_of_cons in Hz as [->|Hz]; [vm_compute; discriminate|]).
    by apply not_elem_of_nil in Hz.
  - exists pr. split_and!; [exact Hpr|exact He|]. by injection Hl.
Defined.

Lemma advertised_capacity_ignored_witness :
  p_AvailableCap (peer_at (GetAlivePeers example_rs example_mesh).2 1%nat) = 4.
Proof.
  apply (advertised_capacity_ignored example_unmarshal example_mesh example_rs 1%nat (f64_of_Z 110)
    mesh_example_reachable example_visits); [by right; left|by vm_compute].
Defined.

Lemma register_accepts_self_witness :
  ∃ m' p, (handlePeerRegister true (Some (mk_peer_body "a" "http://a" 2 "llama3")) (f64_of_Z 1)
             (Some (example_new "a"))).2 = Some m' ∧
    peers m' !! serverID m' = Some p ∧ 0 < p_AvailableCap (mark_alive (peer_at m' p)).
Proof.
  apply (register_accepts_self (f64_of_Z 1) (example_new "a") (mk_peer_body "a" "http://a" 2 "llama3"));
    [reflexivity|discriminate|discriminate|simpl; lia].
Defined.
