(* ===== verification/MeshLoops.v ===== *)
(** * The goroutines of the mesh ([hive-server-go/mesh.go])

    [Mesh] has the bodies; this file has the threads that run them: [Start],
    which probes the seeds and then launches five loops, the loops with their
    [select] on the stop channel, the health polls they launch, [Stop], and
    the handlers of the HTTP server that use the table meanwhile.  [exec] is
    one step of one thread, cut at the lock of the table and at the waits. *)

From S2P Require Import Prelude GoFloat GoText GoHttp MeshNet Mesh.

Local Open Scope string_scope.
Local Open Scope list_scope.
Local Open Scope Z_scope.

(** ** State *)

(** A loop that is at its [select], in its body, or has returned. *)
Inductive loop_pc := LSelect | LBody | LReturned.

(** A thread that probes a list of addresses: which are left, and whether
    the peer just found is still to be asked for the peers it knows. *)
Record prober := mk_prober { pb_exchange : bool; pb_left : list string }.

(** The loop of the seeds: at its [select], probing, or returned. *)
Inductive seed_pc := SSelect | SProbing (p : prober) | SReturned.

Record loops := mk_loops {
  lp_broadcast : loop_pc;
  lp_listener : loop_pc;
  lp_cleanup : loop_pc;
  lp_seed : seed_pc;
  lp_health : loop_pc }.

(** One packet: destination, port and content. *)
Record packet := mk_packet { pk_to : string; pk_port : Z; pk_data : gmap string json }.

(** [n_starter] is the call of [Start] until it has launched the loops,
    [n_polls] the ids of the peers being polled and [n_sent] the packets
    sent. *)
Record net := mk_net {
  n_mesh : MeshDiscovery;
  n_seeds : list string;
  n_stopped : bool;
  n_starter : option prober;
  n_loops : loops;
  n_polls : list string;
  n_sent : list packet }.

Definition set_n_mesh (m : MeshDiscovery) (N : net) : net :=
  mk_net m (n_seeds N) (n_stopped N) (n_starter N) (n_loops N) (n_polls N) (n_sent N).
Definition set_n_loops (l : loops) (N : net) : net :=
  mk_net (n_mesh N) (n_seeds N) (n_stopped N) (n_starter N) l (n_polls N) (n_sent N).
Definition set_n_polls (ids : list string) (N : net) : net :=
  mk_net (n_mesh N) (n_seeds N) (n_stopped N) (n_starter N) (n_loops N) ids (n_sent N).
Definition add_n_sent (ps : list packet) (N : net) : net :=
  mk_net (n_mesh N) (n_seeds N) (n_stopped N) (n_starter N) (n_loops N) (n_polls N) (n_sent N ++ ps).
Definition set_n_starter (s : option prober) (N : net) : net :=
  mk_net (n_mesh N) (n_seeds N) (n_stopped N) s (n_loops N) (n_polls N) (n_sent N).

Definition set_broadcast (pc : loop_pc) (l : loops) : loops :=
  mk_loops pc (lp_listener l) (lp_cleanup l) (lp_seed l) (lp_health l).
Definition set_listener (pc : loop_pc) (l : loops) : loops :=
  mk_loops (lp_broadcast l) pc (lp_cleanup l) (lp_seed l) (lp_health l).
Definition set_cleanup (pc : loop_pc) (l : loops) : loops :=
  mk_loops (lp_broadcast l) (lp_listener l) pc (lp_seed l) (lp_health l).
Definition set_seed (pc : seed_pc) (l : loops) : loops :=
  mk_loops (lp_broadcast l) (lp_listener l) (lp_cleanup l) pc (lp_health l).
Definition set_health (pc : loop_pc) (l : loops) : loops :=
  mk_loops (lp_broadcast l) (lp_listener l) (lp_cleanup l) (lp_seed l) pc.

(** ** Events *)

(** What a thread meets in a step: replies, readings of the clock, the
    order a map is ranged over.  [EListening] is the attempt to open the
    socket; [ERead None] a read that ends without a datagram. *)
Inductive event :=
  | EStart_probe (status : option (gmap string json)) (now : f64)
  | EStart_exchange (gossip : option (list (PeerInfo * f64)))
  | EStart_loops (listening : bool)
  | EBroadcast_select
  | EBroadcast_return
  | EBeacon (q : option (gmap string json)) (cap cl : option Z) (models : list string)
      (ifaces : option (list iface)) (dials : string → bool)
  | EListener_select
  | EListener_return
  | ERead (datagram : option (string * string)) (t : f64)
  | ECleanup_tick (now : f64)
  | ECleanup_return
  | ESeed_tick
  | ESeed_probe (status : option (gmap string json)) (now : f64)
  | ESeed_exchange (gossip : option (list (PeerInfo * f64)))
  | ESeed_return
  | EHealth_tick (ids : list string)
  | EHealth_return
  | EPoll_end (id : string) (answered : bool) (now : f64)
  | EStop
  | EHandler (o : op).

(** ** Steps *)

Section net.
Variable unmarshal : string → option (gmap string json).

(** [Start] up to its first probe. *)
Definition Start (m : MeshDiscovery) (seedPeers : list string) : net :=
  mk_net m seedPeers false (Some (mk_prober false seedPeers))
    (mk_loops LReturned LReturned LReturned SReturned LReturned) [] [].

(** The five [go] statements.  Without its socket the listener returns at
    once. *)
Definition launch (listening : bool) : loops :=
  mk_loops LSelect (if listening then LSelect else LReturned) LSelect SSelect LSelect.

(** A probe up to the release of the lock: a peer found is then asked for
    its peers. *)
Definition probe_next (status : option (gmap string json)) (now : f64) (p : prober) (m : MeshDiscovery) :
    option (prober * MeshDiscovery) :=
  match pb_exchange p, pb_left p with
  | false, addr :: rest =>
      let (found, m) := probeSeed addr status now None m in
      Some (mk_prober found rest, m)
  | _, _ => None
  end.

Definition exchange_next (gossip : option (list (PeerInfo * f64))) (p : prober) (m : MeshDiscovery) :
    option (prober * MeshDiscovery) :=
  if pb_exchange p then Some (mk_prober false (pb_left p), exchangePeers gossip m) else None.

Definition probes_done (p : prober) : bool :=
  match p with mk_prober false [] => true | _ => false end.

(** [sendBeaconTo]: a destination that cannot be dialled is skipped. *)
Definition sendBeaconTo (dials : string → bool) (port : Z) (data : gmap string json) (ip : string) : list packet :=
  if dials ip then [mk_packet ip port data] else [].

(** The polls [healthPollLoop] launches: one per entry of the table. *)
Definition polled (m : MeshDiscovery) (ids : list string) : bool :=
  bool_decide (ids ≡ₚ (map_to_list (peers m)).*1).

Definition poll_end (id : string) (answered : bool) (now : f64) (m : MeshDiscovery) : MeshDiscovery :=
  if answered then health_ok id now m else m.

(** [Stop] closes the channel; a second close panics. *)
Definition Stop (N : net) : panics net :=
  if n_stopped N then None
  else Some (mk_net (n_mesh N) (n_seeds N) true (n_starter N) (n_loops N) (n_polls N) (n_sent N)).

Definition put_starter (r : option (prober * MeshDiscovery)) (N : net) : option net :=
  (λ r, set_n_starter (Some r.1) (set_n_mesh r.2 N)) <$> r.

Definition put_seed (r : option (prober * MeshDiscovery)) (N : net) : option net :=
  (λ r, set_n_loops (set_seed (if probes_done r.1 then SSelect else SProbing r.1) (n_loops N)) (set_n_mesh r.2 N)) <$> r.

(** The end of a poll, if there is one of that id. *)
Definition finish_poll (id : string) (answered : bool) (now : f64) (N : net) : option net :=
  match list_find (λ i, i = id) (n_polls N) with
  | Some (i, _) => Some (set_n_polls (go_remove_at i (n_polls N)) (set_n_mesh (poll_end id answered now (n_mesh N)) N))
  | None => None
  end.

(** ** The loops

    Each is one step of its thread; [None] when the thread is elsewhere.  A
    [select] with a default case takes it only while the channel is open; one
    with a timer may take either when both are ready. *)

Definition broadcastLoop (e : event) (N : net) : option net :=
  let L := n_loops N in
  match e, lp_broadcast L, n_stopped N with
  | EBroadcast_select, LSelect, false => Some (set_n_loops (set_broadcast LBody L) N)
  | EBroadcast_return, LSelect, true => Some (set_n_loops (set_broadcast LReturned L) N)
  | EBeacon q cap cl models ifaces dials, LBody, _ =>
      Some (add_n_sent (broadcastOnAllInterfaces ifaces ≫=
              sendBeaconTo dials (discoveryPort (n_mesh N)) (sendBeacon q cap cl models (n_mesh N)))
            (set_n_loops (set_broadcast LSelect L) N))
  | _, _, _ => None
  end.

Definition listenerLoop (e : event) (N : net) : option net :=
  let L := n_loops N in
  match e, lp_listener L, n_stopped N with
  | EListener_select, LSelect, false => Some (set_n_loops (set_listener LBody L) N)
  | EListener_return, LSelect, true => Some (set_n_loops (set_listener LReturned L) N)
  | ERead datagram t, LBody, _ =>
      let N := set_n_loops (set_listener LSelect L) N in
      Some match datagram with Some (data, ip) => set_n_mesh (listen unmarshal data ip t (n_mesh N)) N | None => N end
  | _, _, _ => None
  end.

Definition cleanupLoop (e : event) (N : net) : option net :=
  let L := n_loops N in
  match e, lp_cleanup L, n_stopped N with
  | ECleanup_tick now, LSelect, _ => Some (set_n_mesh (cleanup_tick now (n_mesh N)) N)
  | ECleanup_return, LSelect, true => Some (set_n_loops (set_cleanup LReturned L) N)
  | _, _, _ => None
  end.

Definition seedProbeLoop (e : event) (N : net) : option net :=
  let L := n_loops N in
  match e, lp_seed L, n_stopped N with
  | ESeed_tick, SSelect, _ =>
      let p := mk_prober false (n_seeds N) in
      Some (set_n_loops (set_seed (if probes_done p then SSelect else SProbing p) L) N)
  | ESeed_probe status now, SProbing p, _ => put_seed (probe_next status now p (n_mesh N)) N
  | ESeed_exchange gossip, SProbing p, _ => put_seed (exchange_next gossip p (n_mesh N)) N
  | ESeed_return, SSelect, true => Some (set_n_loops (set_seed SReturned L) N)
  | _, _, _ => None
  end.

Definition healthPollLoop (e : event) (N : net) : option net :=
  let L := n_loops N in
  match e, lp_health L, n_stopped N with
  | EHealth_tick ids, LSelect, _ => if polled (n_mesh N) ids then Some (set_n_polls (n_polls N ++ ids) N) else None
  | EHealth_return, LSelect, true => Some (set_n_loops (set_health LReturned L) N)
  | _, _, _ => None
  end.

(** One step of any thread; [EStop] is [None] when it panics. *)
Definition exec (e : event) (N : net) : option net :=
  match e with
  | EStart_probe status now => p ← n_starter N; put_starter (probe_next status now p (n_mesh N)) N
  | EStart_exchange gossip => p ← n_starter N; put_starter (exchange_next gossip p (n_mesh N)) N
  | EStart_loops listening =>
      p ← n_starter N;
      if probes_done p then Some (set_n_loops (launch listening) (set_n_starter None N)) else None
  | EBroadcast_select | EBroadcast_return | EBeacon _ _ _ _ _ _ => broadcastLoop e N
  | EListener_select | EListener_return | ERead _ _ => listenerLoop e N
  | ECleanup_tick _ | ECleanup_return => cleanupLoop e N
  | ESeed_tick | ESeed_probe _ _ | ESeed_exchange _ | ESeed_return => seedProbeLoop e N
  | EHealth_tick _ | EHealth_return => healthPollLoop e N
  | EPoll_end id answered now => finish_poll id answered now N
  | EStop => Stop N
  | EHandler o => Some (set_n_mesh (apply_op unmarshal (n_mesh N) o) N)
  end.

(** What the step does to the table, as operations of [Mesh]. *)
Definition table_op (e : event) (N : net) : list op :=
  match e with
  | EStart_probe status now =>
      match n_starter N with
      | Some p => match pb_left p with addr :: _ => [OProbe addr status now None] | [] => [] end
      | None => []
      end
  | ESeed_probe status now =>
      match lp_seed (n_loops N) with
      | SProbing p => match pb_left p with addr :: _ => [OProbe addr status now None] | [] => [] end
      | _ => []
      end
  | EStart_exchange gossip | ESeed_exchange gossip => [OExchange gossip]
  | ERead (Some (data, ip)) t => [OBeacon data ip t]
  | ECleanup_tick now => [OCleanup now]
  | EPoll_end id true now => [OHealth id now]
  | EHandler o => [o]
  | _ => []
  end.

Fixpoint run (es : list event) (N : net) : option net :=
  match es with
  | [] => Some N
  | e :: es => N' ← exec e N; run es N'
  end.

Fixpoint table_ops (es : list event) (N : net) : list op :=
  match es with
  | [] => []
  | e :: es => table_op e N ++ match exec e N with Some N' => table_ops es N' | None => [] end
  end.

End net.

(** ** Notions of the properties *)

Definition is_beacon (e : event) : bool := match e with EBeacon _ _ _ _ _ _ => true | _ => false end.
Definition is_read (e : event) : bool := match e with ERead _ _ => true | _ => false end.

(** What a beacon says of its sender. *)
Definition names_sender (id : string) (k : packet) : Prop := pk_data k !! "server_id" = Some (JStr id).

(** The steps the goroutines take by themselves, without a timer. *)
Definition unprompted (e : event) : bool :=
  match e with
  | EStart_probe _ _ | EStart_exchange _ | EStart_loops _ => false
  | ECleanup_tick _ | ESeed_tick | EHealth_tick _ | EStop | EHandler _ => false
  | _ => true
  end.

Definition all_returned (l : loops) : Prop := l = mk_loops LReturned LReturned LReturned SReturned LReturned.

(** Steps a thread has left once the channel is closed. *)
Definition pc_work (pc : loop_pc) : nat := match pc with LBody => 2 | LSelect => 1 | LReturned => 0 end.
Definition prober_work (p : prober) : nat := 2 * length (pb_left p) + (if pb_exchange p then 1 else 0).
Definition seed_work (pc : seed_pc) : nat :=
  match pc with SProbing p => 1 + prober_work p | SSelect => 1 | SReturned => 0 end.
Definition loops_work (l : loops) : nat :=
  pc_work (lp_broadcast l) + pc_work (lp_listener l) + pc_work (lp_cleanup l) + seed_work (lp_seed l) +
  pc_work (lp_health l).
Definition work (N : net) : nat := loops_work (n_loops N) + length (n_polls N).

(** A cleanup and a health poll have no body of their own: their steps are
    whole iterations.  A loop of the seeds in its body has something to do. *)
Definition seed_wf (pc : seed_pc) : Prop :=
  match pc with SProbing p => probes_done p = false | _ => True end.
Definition loops_wf (l : loops) : Prop := lp_cleanup l ≠ LBody ∧ lp_health l ≠ LBody ∧ seed_wf (lp_seed l).

(** A beacon that is still to be sent, a read that is still to end. *)
Definition in_body (pc : loop_pc) : nat := match pc with LBody => 1 | _ => 0 end.
Definition count_events (f : event → bool) (es : list event) : nat := length (filter (λ e, f e = true) es).

(** ** The table *)

Section properties.
Context (unmarshal : string → option (gmap string json)).
Implicit Types (N : net) (e : event).

Lemma probe_next_table status now p m r :
  probe_next status now p m = Some r →
  ∃ addr rest, pb_left p = addr :: rest ∧ pb_exchange p = false ∧ pb_left r.1 = rest ∧
    r.2 = apply_op unmarshal m (OProbe addr status now None).
Proof.
  destruct p as [[] [|addr rest]]; cbn [probe_next pb_exchange pb_left apply_op]; [done..|].
  destruct (probeSeed addr status now None m) as [found m'] eqn:Hp. intros [= <-].
  exists addr, rest. by rewrite Hp.
Qed.

Lemma exchange_next_table gossip p m r :
  exchange_next gossip p m = Some r →
  pb_exchange p = true ∧ r = (mk_prober false (pb_left p), apply_op unmarshal m (OExchange gossip)).
Proof. unfold exchange_next. destruct (pb_exchange p); [|done]. by intros [= <-]. Qed.

(** The case analysis of a step: every test of [exec] with its outcome. *)
Ltac step_cases :=
  repeat match goal with
  | H : context [match ?x with _ => _ end] |- _ => destruct x eqn:?; try discriminate H
  | H : (_ ← ?x; _) = Some _ |- _ => destruct x eqn:?; simpl in H; [|discriminate H]
  | H : Some _ = Some _ |- _ => injection H as <-
  end.

Lemma mesh_exec_table e N N' :
  exec unmarshal e N = Some N' → n_mesh N' = foldl (apply_op unmarshal) (n_mesh N) (table_op e N).
Proof.
  unfold table_op. destruct e; cbn [exec broadcastLoop listenerLoop cleanupLoop seedProbeLoop healthPollLoop]; unfold finish_poll, poll_end, Stop; intros He.
  all: step_cases; try done.
  all: apply fmap_Some in He as (r & Hr & ->); simpl.
  1, 3: apply probe_next_table in Hr as (addr & rest & -> & _ & _ & ->); done.
  all: by apply exchange_next_table in Hr as [_ ->].
Qed.

Lemma run_table es N N' :
  run unmarshal es N = Some N' →
  n_mesh N' = foldl (apply_op unmarshal) (n_mesh N) (table_ops unmarshal es N).
Proof.
  revert N. induction es as [|e es IH]; intros N; cbn [run table_ops]; [by intros [= <-]|].
  destruct (exec unmarshal e N) as [N1|] eqn:He; simpl; [|done]. intros Hr.
  by rewrite foldl_app, <-(mesh_exec_table _ _ _ He), (IH N1 Hr).
Qed.

(** Only a handler registers a peer by hand. *)
Lemma table_ops_register es N id ep mc om t :
  ORegister id ep mc om t ∈ table_ops unmarshal es N → EHandler (ORegister id ep mc om t) ∈ es.
Proof.
  revert N. induction es as [|e es IH]; intros N; cbn [table_ops]; [by intros ?%not_elem_of_nil|].
  intros [Hin|Hin]%elem_of_app.
  - assert (e = EHandler (ORegister id ep mc om t)) as ->; [|by left].
    destruct e; cbn [table_op] in Hin; repeat case_match;
      repeat (apply elem_of_cons in Hin as [Hin|Hin]); try done; try (by apply not_elem_of_nil in Hin).
    by rewrite <-Hin.
  - destruct (exec unmarshal e N); [|by apply not_elem_of_nil in Hin]. right. by eapply IH.
Qed.

(** Every packet names its sender. *)
Lemma exec_packets id e N N' :
  serverID (n_mesh N) = id → Forall (names_sender id) (n_sent N) →
  exec unmarshal e N = Some N' → Forall (names_sender id) (n_sent N').
Proof.
  intros Hid Hs. destruct e; cbn [exec broadcastLoop listenerLoop cleanupLoop seedProbeLoop healthPollLoop]; unfold finish_poll, poll_end, Stop; intros He.
  all: step_cases; try done; try (apply fmap_Some in He as (r & Hr & ->); done).
  simpl. apply Forall_app. split; [done|]. apply Forall_forall. intros k Hk.
  apply list_elem_of_bind in Hk as (ip & Hk & _). unfold sendBeaconTo in Hk.
  destruct (dials ip); [|by apply not_elem_of_nil in Hk]. apply list_elem_of_singleton in Hk as ->.
  unfold names_sender. simpl. by rewrite sendBeacon_id, Hid.
Qed.

Lemma exec_serverID e N N' : exec unmarshal e N = Some N' → serverID (n_mesh N') = serverID (n_mesh N).
Proof.
  intros He. rewrite (mesh_exec_table _ _ _ He). apply (foldl_inv (λ m, serverID m = serverID (n_mesh N))); [done|].
  intros m o _ Hm. by rewrite apply_op_id.
Qed.

Lemma run_packets id es N N' :
  serverID (n_mesh N) = id → Forall (names_sender id) (n_sent N) →
  run unmarshal es N = Some N' → Forall (names_sender id) (n_sent N').
Proof.
  revert N. induction es as [|e es IH]; intros N Hid Hs; cbn [run]; [by intros [= <-]|].
  destruct (exec unmarshal e N) as [N1|] eqn:He; simpl; [|done]. apply IH.
  - by rewrite (exec_serverID _ _ _ He).
  - by eapply exec_packets.
Qed.

(** C29: The table of a running server, whatever its goroutines, its peers and
    its clients do, is the result of a sequence of the operations of [Mesh],
    one or none for each step: so it is well formed, unless somebody
    registers the server with itself it has no entry for the server's own
    id, and every packet sent names the server. *)
Theorem mesh_run_refines es id sp dp mc om aa mm seeds N :
  run unmarshal es (Start (NewMeshDiscovery id sp dp mc om aa mm) seeds) = Some N →
  n_mesh N = foldl (apply_op unmarshal) (NewMeshDiscovery id sp dp mc om aa mm)
    (table_ops unmarshal es (Start (NewMeshDiscovery id sp dp mc om aa mm) seeds)) ∧
  wf (n_mesh N) ∧
  ((∀ ep c o t, EHandler (ORegister id ep c o t) ∉ es) → no_self (n_mesh N)) ∧
  Forall (names_sender id) (n_sent N).
Proof.
  intros Hr. pose proof (run_table _ _ _ Hr) as Ht. cbn [n_mesh Start] in Ht. split; [done|]. split_and!.
  - rewrite Ht. apply mesh_run_wf, new_mesh_wf.
  - intros Hreg. rewrite Ht. eapply keeps_self; [apply run_keeps|exact eq_refl]. simpl.
    intros i ep c o t Hin ->. eapply Hreg, table_ops_register, Hin.
  - by eapply run_packets; [| |exact Hr].
Qed.

(** ** After [Stop] *)

(** A closed channel stays closed, and the loops are launched once. *)
Definition ending (N : net) : Prop := n_stopped N = true ∧ n_starter N = None ∧ loops_wf (n_loops N).

Lemma launched_wf listening : loops_wf (launch listening).
Proof. done. Qed.

Lemma put_seed_work r N N' :
  put_seed r N = Some N' →
  ∃ p' m', r = Some (p', m') ∧ seed_work (lp_seed (n_loops N')) = S (prober_work p') ∧
    n_loops N' = set_seed (lp_seed (n_loops N')) (n_loops N) ∧
    n_polls N' = n_polls N ∧ n_stopped N' = n_stopped N ∧ n_starter N' = n_starter N ∧
    seed_wf (lp_seed (n_loops N')).
Proof.
  intros ([p' m'] & Hr & ->)%fmap_Some. exists p', m'. split; [done|]. simpl.
  destruct p' as [[] [|a l]]; by simpl.
Qed.

Lemma probe_next_work status now p m p' m' :
  probe_next status now p m = Some (p', m') → (prober_work p' < prober_work p)%nat.
Proof.
  destruct p as [[] [|addr rest]]; cbn [probe_next pb_exchange pb_left]; [done..|].
  destruct (probeSeed addr status now None m) as [found m1]. intros [= <- <-].
  unfold prober_work. simpl. destruct found; lia.
Qed.

Lemma exchange_next_work gossip p m p' m' :
  exchange_next gossip p m = Some (p', m') → (prober_work p' < prober_work p)%nat.
Proof.
  intros [Hx [= -> _]]%exchange_next_table. unfold prober_work. simpl. rewrite Hx. lia.
Qed.

Lemma exec_loops_wf e N N' :
  loops_wf (n_loops N) → exec unmarshal e N = Some N' → loops_wf (n_loops N').
Proof.
  unfold loops_wf. destruct N as [m seeds stop st [b l c s h] polls sent]. simpl.
  intros (Hc & Hh & Hs). destruct e; cbn [exec broadcastLoop listenerLoop cleanupLoop seedProbeLoop healthPollLoop]; simpl; unfold finish_poll, Stop; intros He.
  all: step_cases; simplify_eq/=; try done.
  1, 2: apply fmap_Some in He as (r & Hr & ->); done.
  all: apply put_seed_work in He as (p' & m' & Hr & _ & -> & _ & _ & _ & Hw); done.
Qed.

Lemma run_loops_wf es N N' :
  loops_wf (n_loops N) → run unmarshal es N = Some N' → loops_wf (n_loops N').
Proof.
  revert N. induction es as [|e es IH]; intros N HN; cbn [run]; [by intros [= <-]|].
  destruct (exec unmarshal e N) as [N1|] eqn:He; simpl; [|done]. apply IH. by eapply exec_loops_wf.
Qed.

Lemma exec_ending e N N' :
  ending N → exec unmarshal e N = Some N' →
  ending N' ∧ (unprompted e = true → (work N' < work N)%nat) ∧
  (Nat.b2n (is_beacon e) + in_body (lp_broadcast (n_loops N')) ≤ in_body (lp_broadcast (n_loops N)))%nat ∧
  (Nat.b2n (is_read e) + in_body (lp_listener (n_loops N')) ≤ in_body (lp_listener (n_loops N)))%nat.
Proof.
  unfold ending, loops_wf, work, loops_work. destruct N as [m seeds stop st [b l c s h] polls sent]. simpl.
  intros (-> & -> & Hc & Hh & Hs). destruct e; cbn [exec broadcastLoop listenerLoop cleanupLoop seedProbeLoop healthPollLoop]; simpl; unfold finish_poll, Stop; intros He.
  all: step_cases; simplify_eq/=.
  all: try (split_and!; try done; lia).
  1, 2: apply put_seed_work in He as (p' & m' & Hr & -> & Hl & -> & -> & -> & Hw);
    first [apply probe_next_work in Hr|apply exchange_next_work in Hr];
    rewrite Hl; simpl; split_and!; try done; lia.
  split_and!; try done. intros _. match goal with H : list_find _ _ = _ |- _ => apply list_find_Some in H as (Hi & _) end.
  apply lookup_lt_Some in Hi. unfold go_remove_at. rewrite length_app, length_take, length_drop. lia.
Qed.

Lemma count_events_cons f e es : count_events f (e :: es) = (Nat.b2n (f e) + count_events f es)%nat.
Proof. unfold count_events. rewrite filter_cons. by destruct (f e). Qed.

Lemma run_ending es N N' :
  ending N → run unmarshal es N = Some N' →
  ending N' ∧ (Forall (λ e, unprompted e = true) es → (length es + work N' ≤ work N)%nat) ∧
  (count_events is_beacon es ≤ in_body (lp_broadcast (n_loops N)))%nat ∧
  (count_events is_read es ≤ in_body (lp_listener (n_loops N)))%nat.
Proof.
  revert N. induction es as [|e es IH]; intros N HN; cbn [run].
  { intros [= <-]. split_and!; [done|simpl; lia|unfold count_events; simpl; lia..]. }
  destruct (exec unmarshal e N) as [N1|] eqn:He; simpl; [|done]. intros Hr.
  destruct (exec_ending _ _ _ HN He) as (H1 & Hw & Hb & Hd). destruct (IH N1 H1 Hr) as (H' & Hw' & Hb' & Hd').
  rewrite !count_events_cons. split_and!; [done| |lia..].
  intros [Hu Hus]%Forall_cons. specialize (Hw Hu). specialize (Hw' Hus). simpl. lia.
Qed.

(** Whatever is still running can take a step without a timer. *)
Lemma ending_progress N :
  ending N → (0 < work N)%nat → ∃ e N', unprompted e = true ∧ exec unmarshal e N = Some N'.
Proof.
  unfold ending, loops_wf, work, loops_work. destruct N as [m seeds stop st [b l c s h] polls sent]. simpl.
  intros (-> & -> & Hc & Hh & Hs) Hw.
  destruct b; [by eexists EBroadcast_return, _| |].
  { by eexists (EBeacon None None None [] None (λ _, false)), _. }
  destruct l; [by eexists EListener_return, _| |].
  { by eexists (ERead None f64_zero), _. }
  destruct c; [by eexists ECleanup_return, _|done|].
  destruct h; [by eexists EHealth_return, _|done|].
  destruct s as [|[[] [|a rest]]|]; simpl in Hs; [by eexists ESeed_return, _| | |done| |].
  1, 2: by eexists (ESeed_exchange None), _.
  - by eexists (ESeed_probe None f64_zero), _.
  - destruct polls as [|id polls]; [simpl in Hw; lia|]. eexists (EPoll_end id false f64_zero), _. split; [done|].
    cbn [exec broadcastLoop listenerLoop cleanupLoop seedProbeLoop healthPollLoop]. unfold finish_poll. simpl. by rewrite decide_True.
Qed.

Lemma ending_finishes N :
  ending N →
  ∃ es N', Forall (λ e, unprompted e = true) es ∧ run unmarshal es N = Some N' ∧ work N' = 0%nat.
Proof.
  remember (work N) as w eqn:Hw. revert N Hw. induction (lt_wf w) as [w _ IH]. intros N -> HN.
  destruct (decide (work N = 0%nat)) as [H0|H0]; [by exists [], N|].
  destruct (ending_progress N HN ltac:(lia)) as (e & N1 & Hu & He).
  destruct (exec_ending _ _ _ HN He) as (HN1 & Hlt & _).
  destruct (IH (work N1) (Hlt Hu) N1 eq_refl HN1) as (es & N' & Hes & Hr & H0').
  exists (e :: es), N'. split; [by constructor|]. cbn [run]. by rewrite He.
Qed.

Lemma no_work N : loops_wf (n_loops N) → work N = 0%nat → all_returned (n_loops N) ∧ n_polls N = [].
Proof.
  unfold work, loops_work, all_returned. intros Hwf H0.
  destruct N as [m seeds stop st [b l c s h] polls sent]; simpl in *.
  split; [|by destruct polls; simpl in H0; [|lia]].
  destruct b, l, c, h, s; simpl in H0; first [done|lia].
Qed.

(** C30: [Stop] ends the mesh: once it has been called on a mesh that was started,
    the server sends at most one more beacon and handles at most one more
    datagram, however long the timers and the handlers go on; apart from the
    timers its goroutines have a bounded number of steps left, and from every
    state reached there is a way to the end, where all five loops have
    returned and no poll is open.  A second call panics. *)
Theorem mesh_stop_ends m seeds es0 N es N' :
  run unmarshal es0 (Start m seeds) = Some N → n_starter N = None → n_stopped N = true →
  run unmarshal es N = Some N' →
  (count_events is_beacon es ≤ 1)%nat ∧ (count_events is_read es ≤ 1)%nat ∧
  (Forall (λ e, unprompted e = true) es → (length es ≤ work N)%nat) ∧
  (∃ es' N'', Forall (λ e, unprompted e = true) es' ∧ run unmarshal es' N' = Some N'' ∧
    all_returned (n_loops N'') ∧ n_polls N'' = []) ∧
  Stop N' = None.
Proof.
  intros H0 Hst Hsp Hr. assert (ending N) as HN.
  { split_and!; [done..|]. by eapply run_loops_wf in H0. }
  destruct (run_ending _ _ _ HN Hr) as (HN' & Hw & Hb & Hd).
  assert (∀ pc, (in_body pc ≤ 1)%nat) as Hpc by (intros []; simpl; lia).
  split_and!; [by etrans; [exact Hb|]|by etrans; [exact Hd|]| | |].
  - intros Hu. specialize (Hw Hu). lia.
  - destruct (ending_finishes N' HN') as (es' & N'' & Hu & Hr' & Hz). exists es', N''.
    destruct (run_ending _ _ _ HN' Hr') as ((_ & _ & Hwf) & _). split_and!; [done..| |]; by apply no_work.
  - unfold Stop. by rewrite (proj1 HN').
Qed.

End properties.

(** ** Witnesses *)

Definition example_seed_reply : gmap string json :=
  jmap [("server_id", JStr "b"); ("ollama_model", JStr "llama3")].

(** A server with one seed: it finds the seed, launches the loops, sends a
    beacon, is registered with a third server and is stopped while the
    listener waits. *)
Definition example_events : list event := [
  EStart_probe (Some example_seed_reply) (f64_of_Z 100); EStart_exchange None; EStart_loops true;
  EBroadcast_select; EBeacon None None None [] None (λ _, true); EListener_select;
  EHandler (ORegister "c" "http://c" 4 "llama3" (f64_of_Z 101));
  EHealth_tick ["b"; "c"]; ECleanup_tick (f64_of_Z 140); EPoll_end "b" true (f64_of_Z 141); EStop].

Definition example_net : net :=
  from_opt (Start (example_new "a") []) (run example_unmarshal example_events (Start (example_new "a") ["b:8081"])).

Lemma mesh_run_refines_witness :
  n_sent example_net = [mk_packet IPv4bcast 8082 (sendBeacon None None None [] (example_new "a"))] ∧
  wf (n_mesh example_net) ∧ no_self (n_mesh example_net).
Proof.
  split; [by vm_compute|].
  destruct (mesh_run_refines example_unmarshal example_events "a" 8081 8082 2 "llama3" "http://a" None
              ["b:8081"] example_net) as (_ & Hwf & Hself & _).
  - by vm_compute.
  - split; [done|]. apply Hself. intros ep c o t Hin.
    repeat (apply elem_of_cons in Hin as [Hin|Hin]; [done|]). by apply not_elem_of_nil in Hin.
Defined.

Lemma mesh_stop_ends_witness :
  work example_net = 7%nat ∧ Stop example_net = None.
Proof.
  split; [by vm_compute|].
  refine (proj2 (proj2 (proj2 (proj2
    (mesh_stop_ends example_unmarshal (example_new "a") ["b:8081"] example_events example_net [] example_net
       _ _ _ _))))); by vm_compute.
Defined.
