(* ===== verification/Schema.v ===== *)
(** * The SQL of the database ([hive-server-go/db.go], [audit.go])

    The scripts that create the tables and every statement issued, as the
    texts of the source, with a reader for the part of SQL they use: the
    tables a script leaves, and whether a statement fits them and the call
    that issues it.  What the statements do is in [AgentDB], [Usage] and
    [AuditTrail]. *)

From S2P Require Import Prelude GoText.

Local Open Scope string_scope.
Local Open Scope list_scope.
Local Open Scope nat_scope.

(** ** Words of a text *)

Definition flush (cur : string) : list string := if String.eqb cur "" then [] else [cur].

Definition is_mark (c : ascii) : bool :=
  Ascii.eqb c "(" || Ascii.eqb c ")" || Ascii.eqb c "," || Ascii.eqb c ";".

Fixpoint words (cur s : string) : list string :=
  match s with
  | "" => flush cur
  | String c rest =>
      if is_space c then flush cur ++ words "" rest
      else if is_mark c then flush cur ++ String c "" :: words "" rest
      else words (cur +:+ String c "") rest
  end.

(** The parts of a list of words between the separators that are outside
    parentheses. *)
Fixpoint split_top (sep : string) (depth : nat) (cur ws : list string) : list (list string) :=
  match ws with
  | [] => [cur]
  | w :: ws =>
      if String.eqb w "(" then split_top sep (S depth) (cur ++ [w]) ws
      else if String.eqb w ")" then split_top sep (pred depth) (cur ++ [w]) ws
      else if String.eqb w sep && (depth =? 0) then cur :: split_top sep depth [] ws
      else split_top sep depth (cur ++ [w]) ws
  end.

(** The words up to the parenthesis that closes the group, and the rest. *)
Fixpoint group_of (depth : nat) (cur ws : list string) : list string * list string :=
  match ws with
  | [] => (cur, [])
  | w :: ws =>
      if String.eqb w "(" then group_of (S depth) (cur ++ [w]) ws
      else if String.eqb w ")" then
        match depth with O => (cur, ws) | S d => group_of d (cur ++ [w]) ws end
      else group_of depth (cur ++ [w]) ws
  end.

Definition has_word (w : string) (ws : list string) : bool := existsb (String.eqb w) ws.

(** ** Tables *)

(** A column; an insertion must give a value to one that is required. *)
Record column := mk_column { co_name : string; co_type : string; co_required : bool }.

Abbreviation schema := (gmap string (list column)) (only parsing).

Inductive ddl :=
  | CreateTable (t : string) (cols : list column)
  | CreateIndex (t : string) (cols : list string)
  | AddColumn (t : string) (c : column)
  | OtherDDL.

(** A key of type [INTEGER] numbers itself; a clause on foreign keys is no
    column. *)
Definition column_of (ws : list string) : option column :=
  match ws with
  | "FOREIGN" :: _ => None
  | name :: type :: rest =>
      Some (mk_column name type
        ((has_word "NOT" rest || has_word "PRIMARY" rest && negb (String.eqb type "INTEGER")) &&
         negb (has_word "DEFAULT" rest)))
  | _ => None
  end.

Definition ddl_of (ws : list string) : ddl :=
  match ws with
  | "CREATE" :: "TABLE" :: "IF" :: "NOT" :: "EXISTS" :: t :: "(" :: rest =>
      CreateTable t (omap column_of (split_top "," 0 [] (group_of 0 [] rest).1))
  | "CREATE" :: "INDEX" :: "IF" :: "NOT" :: "EXISTS" :: _ :: "ON" :: t :: "(" :: rest =>
      CreateIndex t (split_top "," 0 [] (group_of 0 [] rest).1 ≫= id)
  | "ALTER" :: "TABLE" :: t :: "ADD" :: "COLUMN" :: rest =>
      match column_of rest with Some c => AddColumn t c | None => OtherDDL end
  | _ => OtherDDL
  end.

Definition names (cols : list column) : list string := co_name <$> cols.

(** A table that exists is left as it is; a column that exists, or a table
    that does not, makes [ALTER] fail, and its error is dropped. *)
Definition apply_ddl (db : schema) (d : ddl) : schema :=
  match d with
  | CreateTable t cols => match db !! t with Some _ => db | None => <[t := cols]> db end
  | AddColumn t c =>
      match db !! t with
      | Some cols => if has_word (co_name c) (names cols) then db else <[t := cols ++ [c]]> db
      | None => db
      end
  | CreateIndex _ _ | OtherDDL => db
  end.

Definition script (text : string) : list ddl := ddl_of <$> split_top ";" 0 [] (words "" text).

(** ** Statements *)

(** A statement with the numbers of arguments its call passes and of the
    fields its rows are scanned into. *)
Record statement := mk_statement { sm_text : string; sm_args : nat; sm_scans : nat }.

Definition is_lower (c : ascii) : bool := ((97 <=? nat_of_ascii c) && (nat_of_ascii c <=? 122))%nat.

(** The source writes the words of SQL in capitals, so the others are names. *)
Definition is_name (w : string) : bool := match w with String c _ => is_lower c | "" => false end.

Fixpoint table_of (ws : list string) : option string :=
  match ws with
  | w :: ((t :: _) as rest) =>
      if String.eqb w "FROM" || String.eqb w "INTO" || String.eqb w "UPDATE" then Some t else table_of rest
  | _ => None
  end.

Definition placeholders (ws : list string) : nat := length (filter (λ w, w = "?") ws).

(** The number of columns a [SELECT] gives. *)
Fixpoint up_to (stop : string) (ws : list string) : list string :=
  match ws with [] => [] | w :: ws => if String.eqb w stop then [] else w :: up_to stop ws end.

Definition select_arity (ws : list string) : nat :=
  match ws with
  | "SELECT" :: rest => length (split_top "," 0 [] (up_to "FROM" rest))
  | _ => 0
  end.

(** The columns an [INSERT] names, and its values. *)
Definition insert_parts (ws : list string) : option (list string * nat) :=
  match ws with
  | "INSERT" :: "INTO" :: _ :: "(" :: rest =>
      let (cols, rest) := group_of 0 [] rest in
      match rest with
      | "VALUES" :: "(" :: rest =>
          Some (split_top "," 0 [] cols ≫= id, length (split_top "," 0 [] (group_of 0 [] rest).1))
      | _ => None
      end
  | _ => None
  end.

(** An insertion names columns once, has a value for each, and names all that
    are required. *)
Definition insert_fits (cols : list column) (ws : list string) : bool :=
  match insert_parts ws with
  | Some (named, values) =>
      bool_decide (NoDup named) && (length named =? values) &&
      forallb (λ c, negb (co_required c) || has_word (co_name c) named) cols
  | None => negb (has_word "INSERT" ws)
  end.

Definition fits (db : schema) (s : statement) : bool :=
  let ws := words "" (sm_text s) in
  match table_of ws with
  | None => false
  | Some t =>
      match db !! t with
      | None => false
      | Some cols =>
          forallb (λ w, negb (is_name w) || String.eqb w t || has_word w (names cols)) ws &&
          (placeholders ws =? sm_args s) && (select_arity ws =? sm_scans s) && insert_fits cols ws
      end
  end.

(** ** The texts *)

Definition migrate_query : string := "CREATE TABLE IF NOT EXISTS token_usage (
		id INTEGER PRIMARY KEY AUTOINCREMENT,
		provider TEXT NOT NULL DEFAULT '',
		model TEXT NOT NULL DEFAULT '',
		prompt_tokens INTEGER NOT NULL DEFAULT 0,
		completion_tokens INTEGER NOT NULL DEFAULT 0,
		total_tokens INTEGER NOT NULL DEFAULT 0,
		duration_seconds REAL NOT NULL DEFAULT 0,
		tokens_per_second REAL NOT NULL DEFAULT 0,
		job_type TEXT NOT NULL DEFAULT '',
		client_id TEXT NOT NULL DEFAULT '',
		job_id TEXT NOT NULL DEFAULT '',
		serving_node TEXT NOT NULL DEFAULT '',
		serving_type TEXT NOT NULL DEFAULT '',
		created_at REAL NOT NULL
	);
	CREATE INDEX IF NOT EXISTS idx_token_usage_created ON token_usage(created_at);
	CREATE INDEX IF NOT EXISTS idx_token_usage_model ON token_usage(provider, model);

	CREATE TABLE IF NOT EXISTS coding_agent_sessions (
		id TEXT PRIMARY KEY,
		agent_type TEXT NOT NULL DEFAULT '',
		model TEXT NOT NULL DEFAULT '',
		token_budget INTEGER NOT NULL DEFAULT 32000,
		status TEXT NOT NULL DEFAULT 'active',
		system_prompt TEXT NOT NULL DEFAULT '',
		metadata TEXT NOT NULL DEFAULT '{}',
		created_at REAL NOT NULL,
		updated_at REAL NOT NULL,
		total_messages INTEGER NOT NULL DEFAULT 0,
		total_tokens INTEGER NOT NULL DEFAULT 0,
		compressions INTEGER NOT NULL DEFAULT 0
	);
	CREATE INDEX IF NOT EXISTS idx_ca_sessions_agent ON coding_agent_sessions(agent_type);
	CREATE INDEX IF NOT EXISTS idx_ca_sessions_status ON coding_agent_sessions(status);
	CREATE INDEX IF NOT EXISTS idx_ca_sessions_created ON coding_agent_sessions(created_at);

	CREATE TABLE IF NOT EXISTS coding_agent_messages (
		id TEXT PRIMARY KEY,
		session_id TEXT NOT NULL,
		role TEXT NOT NULL,
		content TEXT NOT NULL,
		token_count INTEGER NOT NULL DEFAULT 0,
		compress_group INTEGER NOT NULL DEFAULT 0,
		is_summary INTEGER NOT NULL DEFAULT 0,
		metadata TEXT NOT NULL DEFAULT '{}',
		created_at REAL NOT NULL,
		FOREIGN KEY (session_id) REFERENCES coding_agent_sessions(id)
	);
	CREATE INDEX IF NOT EXISTS idx_ca_msgs_session ON coding_agent_messages(session_id);
	CREATE INDEX IF NOT EXISTS idx_ca_msgs_created ON coding_agent_messages(created_at);
	CREATE INDEX IF NOT EXISTS idx_ca_msgs_role ON coding_agent_messages(role);

	CREATE TABLE IF NOT EXISTS coding_agent_audit (
		id INTEGER PRIMARY KEY AUTOINCREMENT,
		session_id TEXT NOT NULL,
		agent_type TEXT NOT NULL DEFAULT '',
		model TEXT NOT NULL DEFAULT '',
		role TEXT NOT NULL,
		content TEXT NOT NULL,
		token_count INTEGER NOT NULL DEFAULT 0,
		compress_group INTEGER NOT NULL DEFAULT 0,
		is_summary INTEGER NOT NULL DEFAULT 0,
		created_at REAL NOT NULL
	);
	CREATE INDEX IF NOT EXISTS idx_ca_audit_session ON coding_agent_audit(session_id);
	CREATE INDEX IF NOT EXISTS idx_ca_audit_created ON coding_agent_audit(created_at);
	CREATE INDEX IF NOT EXISTS idx_ca_audit_agent ON coding_agent_audit(agent_type);".

Definition createTable_query : string := "CREATE TABLE IF NOT EXISTS request_audit_trail (
		id INTEGER PRIMARY KEY AUTOINCREMENT,
		request_id TEXT NOT NULL,
		parent_id TEXT DEFAULT '',
		event_type TEXT NOT NULL,
		category TEXT NOT NULL DEFAULT 'system',
		method TEXT DEFAULT '',
		path TEXT DEFAULT '',
		status_code INTEGER DEFAULT 0,
		client_id TEXT DEFAULT '',
		agent_type TEXT DEFAULT '',
		model TEXT DEFAULT '',
		job_type TEXT DEFAULT '',
		job_id TEXT DEFAULT '',
		content TEXT DEFAULT '',
		query TEXT DEFAULT '',
		prompt TEXT DEFAULT '',
		overrides TEXT DEFAULT '{}',
		duration_ms REAL DEFAULT 0,
		token_count INTEGER DEFAULT 0,
		served_by TEXT DEFAULT '',
		metadata TEXT DEFAULT '{}',
		error_message TEXT DEFAULT '',
		created_at REAL NOT NULL
	);
	CREATE INDEX IF NOT EXISTS idx_audit_request ON request_audit_trail(request_id);
	CREATE INDEX IF NOT EXISTS idx_audit_parent ON request_audit_trail(parent_id);
	CREATE INDEX IF NOT EXISTS idx_audit_event ON request_audit_trail(event_type);
	CREATE INDEX IF NOT EXISTS idx_audit_category ON request_audit_trail(category);
	CREATE INDEX IF NOT EXISTS idx_audit_created ON request_audit_trail(created_at);
	CREATE INDEX IF NOT EXISTS idx_audit_model ON request_audit_trail(model);
	CREATE INDEX IF NOT EXISTS idx_audit_job ON request_audit_trail(job_id);".

Definition createTable_alter : string := "ALTER TABLE request_audit_trail ADD COLUMN served_by TEXT DEFAULT ''".

Definition insert_token_usage : string := "INSERT INTO token_usage
		(provider, model, prompt_tokens, completion_tokens, total_tokens,
		 duration_seconds, tokens_per_second, job_type, client_id, job_id,
		 serving_node, serving_type, created_at)
		VALUES (?, ?, ?, ?, ?, ?, ?, ?, ?, ?, ?, ?, ?)".

Definition select_reports : string := "SELECT
		COALESCE(provider, ''), COALESCE(model, ''), COALESCE(serving_node, ''), COALESCE(serving_type, ''),
		COALESCE(SUM(prompt_tokens), 0), COALESCE(SUM(completion_tokens), 0),
		COALESCE(SUM(total_tokens), 0), COALESCE(SUM(duration_seconds), 0),
		COUNT(" +:+ "*" +:+ ")
	FROM token_usage
	GROUP BY provider, model, serving_node, serving_type
	ORDER BY SUM(total_tokens) DESC".

Definition select_recent : string := "SELECT
		COALESCE(provider, ''), COALESCE(model, ''), prompt_tokens, completion_tokens, total_tokens,
		duration_seconds, tokens_per_second,
		COALESCE(job_type, ''), COALESCE(client_id, ''), COALESCE(job_id, ''),
		COALESCE(serving_node, ''), COALESCE(serving_type, ''), created_at
	FROM token_usage
	ORDER BY id DESC LIMIT ?".

Definition select_timeseries : string := "SELECT created_at, tokens_per_second, model FROM token_usage WHERE created_at >= ?".

Definition select_histogram : string := "SELECT tokens_per_second FROM token_usage WHERE created_at >= ? AND tokens_per_second > 0".

Definition select_models : string := "SELECT DISTINCT model FROM token_usage ORDER BY model".

Definition prune_token_usage : string := "DELETE FROM token_usage WHERE created_at < ?".

Definition insert_session : string := "INSERT INTO coding_agent_sessions
		(id, agent_type, model, token_budget, status, system_prompt, metadata,
		 created_at, updated_at, total_messages, total_tokens, compressions)
		VALUES (?, ?, ?, ?, ?, ?, ?, ?, ?, ?, ?, ?)".

Definition select_session : string := "SELECT id, agent_type, model, token_budget, status, system_prompt, metadata,
		created_at, updated_at, total_messages, total_tokens, compressions
		FROM coding_agent_sessions WHERE id = ?".

Definition select_sessions : string := "SELECT id, agent_type, model, token_budget, status, system_prompt, metadata,
		created_at, updated_at, total_messages, total_tokens, compressions
		FROM coding_agent_sessions".

Definition update_session : string := "UPDATE coding_agent_sessions SET
		status = ?, total_messages = ?, total_tokens = ?, compressions = ?, updated_at = ?
		WHERE id = ?".

Definition delete_session_messages : string := "DELETE FROM coding_agent_messages WHERE session_id = ?".

Definition delete_session_audit : string := "DELETE FROM coding_agent_audit WHERE session_id = ?".

Definition delete_session : string := "DELETE FROM coding_agent_sessions WHERE id = ?".

Definition insert_message : string := "INSERT INTO coding_agent_messages
		(id, session_id, role, content, token_count, compress_group, is_summary, metadata, created_at)
		VALUES (?, ?, ?, ?, ?, ?, ?, ?, ?)".

Definition select_messages : string := "SELECT id, session_id, role, content, token_count, compress_group, is_summary, metadata, created_at
		FROM coding_agent_messages WHERE session_id = ? ORDER BY created_at ASC".

Definition delete_message : string := "DELETE FROM coding_agent_messages WHERE id = ?".

Definition insert_summary : string := "INSERT INTO coding_agent_messages (id, session_id, role, content, token_count, compress_group, is_summary, metadata, created_at)
		 VALUES (?, ?, ?, ?, ?, ?, ?, ?, ?)".

Definition insert_audit_entry : string := "INSERT INTO coding_agent_audit
		(session_id, agent_type, model, role, content, token_count, compress_group, is_summary, created_at)
		VALUES (?, ?, ?, ?, ?, ?, ?, ?, ?)".

Definition select_audit_entries : string := "SELECT id, session_id, agent_type, model, role, content, token_count, compress_group, is_summary, created_at
		FROM coding_agent_audit WHERE session_id = ? ORDER BY id DESC LIMIT ?".

Definition search_messages : string := "SELECT id, session_id, role, content, token_count, compress_group, is_summary, metadata, created_at
		FROM coding_agent_messages WHERE content LIKE ? ORDER BY created_at DESC LIMIT ?".

Definition insert_event : string := "INSERT INTO request_audit_trail
			(request_id, parent_id, event_type, category, method, path, status_code,
			 client_id, agent_type, model, job_type, job_id, content, query, prompt,
			 overrides, duration_ms, token_count, served_by, metadata, error_message, created_at)
			VALUES (?, ?, ?, ?, ?, ?, ?, ?, ?, ?, ?, ?, ?, ?, ?, ?, ?, ?, ?, ?, ?, ?)".

Definition select_timeline : string := "SELECT id, request_id, parent_id, event_type, category, method, path,
		status_code, client_id, agent_type, model, job_type, job_id, content, query, prompt,
		overrides, duration_ms, token_count, served_by, metadata, error_message, created_at
		FROM request_audit_trail WHERE request_id = ? ORDER BY created_at ASC".

Definition select_category : string := "SELECT id, request_id, parent_id, event_type, category, method, path,
			status_code, client_id, agent_type, model, job_type, job_id, content, query, prompt,
			overrides, duration_ms, token_count, served_by, metadata, error_message, created_at
			FROM request_audit_trail WHERE category = ? ORDER BY created_at DESC LIMIT ?".

Definition select_recent_events : string := "SELECT id, request_id, parent_id, event_type, category, method, path,
			status_code, client_id, agent_type, model, job_type, job_id, content, query, prompt,
			overrides, duration_ms, token_count, served_by, metadata, error_message, created_at
			FROM request_audit_trail ORDER BY created_at DESC LIMIT ?".

Definition search_events : string := "SELECT id, request_id, parent_id, event_type, category, method, path,
		status_code, client_id, agent_type, model, job_type, job_id, content, query, prompt,
		overrides, duration_ms, token_count, served_by, metadata, error_message, created_at
		FROM request_audit_trail
		WHERE content LIKE ? OR query LIKE ? OR prompt LIKE ? OR model LIKE ?
		OR path LIKE ? OR method LIKE ? OR job_type LIKE ? OR error_message LIKE ?
		ORDER BY created_at DESC LIMIT ?".
(** What [NewDBStore] and the audit trail run at the start. *)
Definition setup : list ddl := script migrate_query ++ script createTable_query ++ script createTable_alter.

(** Every statement, in each of the forms its conditions give it. *)
Definition statements : list statement := [
  mk_statement insert_token_usage 13 0;
  mk_statement select_reports 0 9;
  mk_statement select_recent 1 13;
  mk_statement (select_timeseries +:+ " ORDER BY created_at ASC") 1 3;
  mk_statement (select_timeseries +:+ " AND model = ?" +:+ " ORDER BY created_at ASC") 2 3;
  mk_statement (select_histogram +:+ " ORDER BY tokens_per_second ASC") 1 1;
  mk_statement (select_histogram +:+ " AND model = ?" +:+ " ORDER BY tokens_per_second ASC") 2 1;
  mk_statement select_models 0 1;
  mk_statement prune_token_usage 1 0;
  mk_statement insert_session 12 0;
  mk_statement select_session 1 12;
  mk_statement (select_sessions +:+ " ORDER BY created_at DESC LIMIT 200") 0 12;
  mk_statement (select_sessions +:+ " WHERE agent_type = ?" +:+ " ORDER BY created_at DESC LIMIT 200") 1 12;
  mk_statement update_session 6 0;
  mk_statement delete_session_messages 1 0;
  mk_statement delete_session_audit 1 0;
  mk_statement delete_session 1 0;
  mk_statement insert_message 9 0;
  mk_statement select_messages 1 9;
  mk_statement (select_messages +:+ " LIMIT ?") 2 9;
  mk_statement delete_message 1 0;
  mk_statement insert_summary 9 0;
  mk_statement insert_audit_entry 9 0;
  mk_statement select_audit_entries 2 10;
  mk_statement search_messages 2 9;
  mk_statement insert_event 22 0;
  mk_statement select_timeline 1 23;
  mk_statement select_category 2 23;
  mk_statement select_recent_events 1 23;
  mk_statement search_events 9 23].

(** ** Lemmas: scripts *)

(** The statement has nothing left to do. *)
Definition settled (db : schema) (d : ddl) : Prop :=
  match d with
  | CreateTable t _ => is_Some (db !! t)
  | AddColumn t c => ∃ cols, db !! t = Some cols ∧ has_word (co_name c) (names cols) = true
  | _ => True
  end.

Lemma settled_noop db d : settled db d → apply_ddl db d = db.
Proof.
  destruct d as [t cols|t cols|t c|]; simpl; [|done| |done].
  - intros [c ->]. done.
  - intros (cols & -> & ->). done.
Qed.

Lemma has_word_app w l k : has_word w (l ++ k) = has_word w l || has_word w k.
Proof. apply existsb_app. Qed.

(** Tables are never dropped and columns only added at the end. *)
Lemma apply_ddl_keeps db d t cols :
  db !! t = Some cols → ∃ extra, apply_ddl db d !! t = Some (cols ++ extra).
Proof.
  intros Ht. assert (db !! t = Some (cols ++ [])) as H0 by by rewrite app_nil_r.
  destruct d as [t' cols'|t' cols'|t' c|]; simpl; [|by eexists| |by eexists].
  - destruct (db !! t') eqn:Ht'; [by eexists|]. rewrite lookup_insert_ne by congruence. by eexists.
  - destruct (db !! t') as [cols'|] eqn:Ht'; [|by eexists]. case_match; [by eexists|].
    destruct (decide (t = t')) as [->|Hne]; [|rewrite lookup_insert_ne by done; by eexists].
    rewrite lookup_insert_eq. simplify_eq. by eexists.
Qed.

Lemma script_keeps db ds t cols :
  db !! t = Some cols → ∃ extra, foldl apply_ddl db ds !! t = Some (cols ++ extra).
Proof.
  revert db cols. induction ds as [|d ds IH]; intros db cols Ht; simpl; [exists []; by rewrite app_nil_r|].
  destruct (apply_ddl_keeps db d t cols Ht) as [e1 H1]. destruct (IH _ _ H1) as [e2 H2].
  exists (e1 ++ e2). by rewrite H2, app_assoc.
Qed.

Lemma settled_run db ds d : settled db d → settled (foldl apply_ddl db ds) d.
Proof.
  destruct d as [t cols|t cols|t c|]; simpl; [|done| |done].
  - intros [c Hc]. destruct (script_keeps db ds t c Hc) as [e ->]. by eexists.
  - intros (cols & Hc & Hw). destruct (script_keeps db ds t cols Hc) as [e ->].
    eexists. split; [done|]. unfold names. rewrite fmap_app. unfold names in Hw. by rewrite has_word_app, Hw.
Qed.

(** Every [ALTER] comes after the creation of its table. *)
Fixpoint script_ok (seen : list string) (ds : list ddl) : bool :=
  match ds with
  | [] => true
  | CreateTable t _ :: ds => script_ok (t :: seen) ds
  | AddColumn t _ :: ds => has_word t seen && script_ok seen ds
  | _ :: ds => script_ok seen ds
  end.

Lemma has_word_elem w l : has_word w l = true ↔ w ∈ l.
Proof.
  unfold has_word. rewrite existsb_exists. split.
  - intros (x & Hin & ->%String.eqb_eq). by apply list_elem_of_In.
  - intros Hin. exists w. split; [by apply list_elem_of_In|apply String.eqb_refl].
Qed.

Lemma apply_settles db d :
  match d with AddColumn t _ => is_Some (db !! t) | _ => True end → settled (apply_ddl db d) d.
Proof.
  destruct d as [t cols|t cols|t c|]; simpl; [|done| |done].
  - intros _. destruct (db !! t) eqn:Ht; [by eexists|]. rewrite lookup_insert_eq. by eexists.
  - intros [cols Hc]. rewrite Hc. destruct (has_word (co_name c) (names cols)) eqn:Hw; [by exists cols|].
    exists (cols ++ [c]). rewrite lookup_insert_eq. split; [done|]. unfold names.
    rewrite fmap_app. apply has_word_elem, elem_of_app. right. by left.
Qed.

Lemma run_settles seen ds db :
  script_ok seen ds = true → (∀ t, t ∈ seen → is_Some (db !! t)) →
  Forall (settled (foldl apply_ddl db ds)) ds.
Proof.
  revert seen db. induction ds as [|d ds IH]; intros seen db Hok Hseen; [constructor|]. simpl.
  assert (∀ t, t ∈ seen → is_Some (apply_ddl db d !! t)) as Hseen'.
  { intros t [cols Hc]%Hseen. destruct (apply_ddl_keeps db d t cols Hc) as [e ->]. by eexists. }
  destruct d as [t cols|t cols|t c|]; cbn [script_ok] in Hok.
  - constructor; [by apply settled_run, apply_settles|]. apply (IH (t :: seen)); [done|].
    intros t' [->|Hin]%elem_of_cons; [|by apply Hseen']. by apply (apply_settles db (CreateTable t cols)).
  - constructor; [done|]. by apply (IH seen).
  - apply andb_true_iff in Hok as [Ht Hok]. constructor; [|by apply (IH seen)].
    apply settled_run, apply_settles. by apply Hseen, has_word_elem.
  - constructor; [done|]. by apply (IH seen).
Qed.

Lemma run_noop db ds : Forall (settled db) ds → foldl apply_ddl db ds = db.
Proof. induction 1 as [|d ds Hd Hds IH]; simpl; [done|]. by rewrite settled_noop. Qed.

(** ** Properties *)

(** The start-up scripts can be run on any database, again and again: the
    second run changes nothing, and no run drops a table or a column. *)
Theorem setup_idempotent db :
  let db' := foldl apply_ddl db setup in
  foldl apply_ddl db' setup = db' ∧ ∀ t cols, db !! t = Some cols → ∃ extra, db' !! t = Some (cols ++ extra).
Proof.
  intros db'. split; [|intros; by apply script_keeps]. apply run_noop. apply (run_settles []).
  - vm_compute. reflexivity.
  - by intros t ?%not_elem_of_nil.
Qed.

(** The audit table of a server from before the column of the serving node. *)
Definition older_schema : schema :=
  alter (filter (λ c, co_name c ≠ "served_by")) "request_audit_trail" (foldl apply_ddl ∅ setup).

Definition index_fits (db : schema) (d : ddl) : bool :=
  match d with
  | CreateIndex t cols =>
      match db !! t with Some tcols => forallb (λ c, has_word c (names tcols)) cols | None => false end
  | _ => true
  end.

(** Every statement the server issues fits the tables its scripts leave, in a
    new database and in one of an older server: it names only columns of its
    table, its call passes one argument for each placeholder and scans as many
    fields as it selects, an insertion has a value for each column it names
    and leaves out none that needs one; and every index is on columns of its
    table.  On the older tables, without the scripts, the audit trail's
    statements do not fit. *)
Theorem statements_fit_schema :
  (∀ db, db = ∅ ∨ db = older_schema →
     forallb (fits (foldl apply_ddl db setup)) statements = true ∧
     forallb (index_fits (foldl apply_ddl db setup)) setup = true) ∧
  length (filter (λ s, fits older_schema s = false) statements) = 5.
Proof.
  split; [|vm_compute; reflexivity]. intros db [->| ->]; split; vm_compute; reflexivity.
Qed.

Example schema_sizes :
  (λ t, length <$> foldl apply_ddl ∅ setup !! t) <$>
    ["token_usage"; "coding_agent_sessions"; "coding_agent_messages"; "coding_agent_audit"; "request_audit_trail"] =
  [Some 14; Some 12; Some 9; Some 10; Some 23].
Proof. vm_compute. reflexivity. Qed.
