(* ===== verification/AgentDB.v ===== *)
(** * The coding agent's store ([hive-server-go/db.go])

    The three agent tables as lists of rows in insertion order, and the
    statements the source sends to them.  A computation may fail: every
    statement can meet an I/O error, an insertion can meet a duplicate key,
    and a transaction that fails rolls its tables back.  SQLite itself is a
    parameter: which statements fail, and how rows with equal keys are
    ordered. *)

From S2P Require Import Prelude GoFloat GoText GoHttp Job ModelContext.

Local Open Scope string_scope.
Local Open Scope list_scope.
Local Open Scope Z_scope.

Definition SessionActive : string := "active".
Definition SessionArchived : string := "archived".

Record CodingAgentSession := mk_Session {
  s_ID : string;
  s_AgentType : string;
  s_Model : string;
  s_TokenBudget : Z;
  s_Status : string;
  s_SystemPrompt : string;
  s_Metadata : option (gmap string json);
  s_CreatedAt : f64;
  s_UpdatedAt : f64;
  s_TotalMessages : Z;
  s_TotalTokens : Z;
  s_Compressions : Z }.

Record CodingAgentMessage := mk_Message {
  m_ID : string;
  m_SessionID : string;
  m_Role : string;
  m_Content : string;
  m_TokenCount : Z;
  m_CompressGroup : Z;
  m_IsSummary : bool;
  m_MetadataJSON : string;
  m_CreatedAt : f64 }.

Record CodingAgentAuditEntry := mk_AuditEntry {
  a_ID : Z;
  a_SessionID : string;
  a_AgentType : string;
  a_Model : string;
  a_Role : string;
  a_Content : string;
  a_TokenCount : Z;
  a_CompressGroup : Z;
  a_IsSummary : bool;
  a_CreatedAt : f64 }.

(** The stored form of a session: the metadata column is text. *)
Record session_row := mk_row { r_session : CodingAgentSession; r_metadata : string }.

(** The store and what the manager adds to it: the cache of shared session
    structs, and the context detector.  [stmts] and [ticks] count the
    statements sent and the clock readings made. *)
Record world := mk_world {
  sessions_tbl : list session_row;
  messages_tbl : list CodingAgentMessage;
  audit_tbl : list CodingAgentAuditEntry;
  audit_next : Z;
  cache : gmap string nat;
  heap : gmap nat CodingAgentSession;
  next : nat;
  detector : Detector;
  stmts : nat;
  ticks : nat }.

Definition set_tables (s : list session_row) (m : list CodingAgentMessage)
    (a : list CodingAgentAuditEntry) (n : Z) (w : world) : world :=
  mk_world s m a n (cache w) (heap w) (next w) (detector w) (stmts w) (ticks w).
Definition set_sessions s (w : world) : world :=
  set_tables s (messages_tbl w) (audit_tbl w) (audit_next w) w.
Definition set_messages m (w : world) : world :=
  set_tables (sessions_tbl w) m (audit_tbl w) (audit_next w) w.
Definition set_audit a n (w : world) : world :=
  set_tables (sessions_tbl w) (messages_tbl w) a n w.
Definition set_cache c h n (w : world) : world :=
  mk_world (sessions_tbl w) (messages_tbl w) (audit_tbl w) (audit_next w) c h n (detector w)
    (stmts w) (ticks w).
Definition set_detector d (w : world) : world :=
  mk_world (sessions_tbl w) (messages_tbl w) (audit_tbl w) (audit_next w) (cache w) (heap w) (next w) d
    (stmts w) (ticks w).
Definition count_stmt (w : world) : world :=
  mk_world (sessions_tbl w) (messages_tbl w) (audit_tbl w) (audit_next w) (cache w) (heap w) (next w)
    (detector w) (S (stmts w)) (ticks w).
Definition count_tick (w : world) : world :=
  mk_world (sessions_tbl w) (messages_tbl w) (audit_tbl w) (audit_next w) (cache w) (heap w) (next w)
    (detector w) (stmts w) (S (ticks w)).

(** [ROLLBACK]: the tables as they were in [w0]. *)
Definition rollback (w0 w : world) : world :=
  set_tables (sessions_tbl w0) (messages_tbl w0) (audit_tbl w0) (audit_next w0) w.

(** ** Computations with errors *)

Definition M (A : Type) : Type := world → result A * world.

Definition M_ret {A} (a : A) : M A := λ w, (Ok a, w).
Definition M_fail {A} (e : string) : M A := λ w, (Err e, w).
Definition M_bind {A B} (m : M A) (f : A → M B) : M B := λ w,
  match m w with
  | (Ok a, w') => f a w'
  | (Err e, w') => (Err e, w')
  end.
(** The code looks at the error itself. *)
Definition M_try {A} (m : M A) : M (result A) := λ w, let (r, w') := m w in (Ok r, w').
(** [fmt.Errorf("...: %w", err)]. *)
Definition M_wrap {A} (prefix : string) (m : M A) : M A := λ w,
  match m w with
  | (Ok a, w') => (Ok a, w')
  | (Err e, w') => (Err (prefix +:+ ": " +:+ e), w')
  end.
Definition M_gets {A} (f : world → A) : M A := λ w, (Ok (f w), w).
Definition M_modify (f : world → world) : M unit := λ w, (Ok (), f w).

Declare Scope agent_scope.
Notation "x ⇐ m ; k" := (M_bind m (λ x, k)) (at level 100, m at next level, right associativity) : agent_scope.
Notation "m ;;; k" := (M_bind m (λ _ : unit, k)) (at level 100, right associativity) : agent_scope.
Local Open Scope agent_scope.

(** What the store's library decides: the error of the [n]-th statement if
    it has one, the [n]-th clock reading, the order of rows by creation
    time, [LIKE], and the text of metadata. *)
Class Store := mk_Store {
  fault : nat → option string;
  clock : nat → Time;
  by_created : list CodingAgentMessage → list CodingAgentMessage;
  by_created_desc : list CodingAgentMessage → list CodingAgentMessage;
  sessions_desc : list session_row → list session_row;
  like : string → string → bool;
  marshal_md : gmap string json → string;
  unmarshal_md : string → option (gmap string json) }.

(** [ORDER BY created_at ASC] returns the same rows, sorted. *)
Definition created_le (a b : CodingAgentMessage) : Prop :=
  f64_ltb (m_CreatedAt b) (m_CreatedAt a) = false.

Class StoreLaws `{!Store} : Prop := mk_StoreLaws {
  by_created_perm l : by_created l ≡ₚ l;
  by_created_sorted l : (∀ m, m ∈ l → f64_is_nan (m_CreatedAt m) = false) →
    StronglySorted created_le (by_created l) }.

Section store.
Context `{!Store}.

Definition M_stmt {A} (f : world → result A * world) : M A := λ w,
  let w' := count_stmt w in
  match fault (stmts w) with
  | Some e => (Err e, w')
  | None => f w'
  end.

Definition M_now : M f64 := λ w, (Ok (now_f (clock (ticks w))), count_tick w).
(** [time.Now().UnixMilli()], formatted with [%d]. *)
Definition M_millis : M string := λ w, (Ok (fmt_d (UnixMilli (clock (ticks w)))), count_tick w).

(** [BeginTx ... Commit] with a deferred [Rollback]. *)
Definition transaction {A} (body : M A) : M A := λ w,
  match M_stmt (λ w, (Ok (), w)) w with
  | (Err e, w1) => (Err e, w1)
  | (Ok _, w1) =>
      match body w1 with
      | (Err e, w2) => (Err e, rollback w w2)
      | (Ok a, w2) =>
          match M_stmt (λ w, (Ok (), w)) w2 with
          | (Err e, w3) => (Err e, rollback w w3)
          | (Ok _, w3) => (Ok a, w3)
          end
      end
  end.

(** ** Sessions *)

Definition metadata_text (md : option (gmap string json)) : string :=
  match md with Some m => marshal_md m | None => "{}" end.

(** The struct read back: [Metadata] stays nil for an empty object. *)
Definition read_session (r : session_row) : CodingAgentSession :=
  let s := r_session r in
  let md := if String.eqb (r_metadata r) "" || String.eqb (r_metadata r) "{}" then None
            else unmarshal_md (r_metadata r) in
  mk_Session (s_ID s) (s_AgentType s) (s_Model s) (s_TokenBudget s) (s_Status s) (s_SystemPrompt s) md
    (s_CreatedAt s) (s_UpdatedAt s) (s_TotalMessages s) (s_TotalTokens s) (s_Compressions s).

Definition InsertCodingAgentSession (session : CodingAgentSession) : M unit :=
  M_stmt (λ w,
    if existsb (λ r, String.eqb (s_ID (r_session r)) (s_ID session)) (sessions_tbl w)
    then (Err "UNIQUE constraint failed: coding_agent_sessions.id", w)
    else (Ok (), set_sessions (sessions_tbl w ++ [mk_row session (metadata_text (s_Metadata session))]) w)).

Definition GetCodingAgentSession (id : string) : M (option CodingAgentSession) :=
  M_stmt (λ w,
    (Ok (match find_first (λ r, String.eqb (s_ID (r_session r)) id) (sessions_tbl w) with
         | Some (_, r) => Some (read_session r)
         | None => None
         end), w)).

Definition ListCodingAgentSessions (agentType : string) : M (list CodingAgentSession) :=
  M_stmt (λ w,
    let rows := if String.eqb agentType "" then sessions_tbl w
                else filter (λ r, s_AgentType (r_session r) = agentType) (sessions_tbl w) in
    (Ok (read_session <$> take 200 (sessions_desc rows)), w)).

Definition set_stats (s old : CodingAgentSession) : CodingAgentSession :=
  mk_Session (s_ID old) (s_AgentType old) (s_Model old) (s_TokenBudget old) (s_Status s)
    (s_SystemPrompt old) (s_Metadata old) (s_CreatedAt old) (s_UpdatedAt s) (s_TotalMessages s)
    (s_TotalTokens s) (s_Compressions s).

Definition UpdateCodingAgentSession (session : CodingAgentSession) : M unit :=
  M_stmt (λ w,
    (Ok (), set_sessions ((λ r, if String.eqb (s_ID (r_session r)) (s_ID session)
                                then mk_row (set_stats session (r_session r)) (r_metadata r) else r)
                          <$> sessions_tbl w) w)).

Definition DeleteCodingAgentSession (id : string) : M unit :=
  transaction (
    M_stmt (λ w, (Ok (), set_messages (filter (λ m, m_SessionID m ≠ id) (messages_tbl w)) w)) ;;;
    M_stmt (λ w, (Ok (), set_audit (filter (λ a, a_SessionID a ≠ id) (audit_tbl w)) (audit_next w) w)) ;;;
    M_stmt (λ w, (Ok (), set_sessions (filter (λ r, s_ID (r_session r) ≠ id) (sessions_tbl w)) w))).

(** ** Messages *)

Definition has_message (id : string) (l : list CodingAgentMessage) : bool :=
  existsb (λ m, String.eqb (m_ID m) id) l.

Definition insert_message_row (msg : CodingAgentMessage) : M unit :=
  M_stmt (λ w,
    if has_message (m_ID msg) (messages_tbl w)
    then (Err "UNIQUE constraint failed: coding_agent_messages.id", w)
    else (Ok (), set_messages (messages_tbl w ++ [msg]) w)).

Definition InsertCodingAgentMessage (msg : CodingAgentMessage) : M unit :=
  insert_message_row
    (if String.eqb (m_MetadataJSON msg) "" then
       mk_Message (m_ID msg) (m_SessionID msg) (m_Role msg) (m_Content msg) (m_TokenCount msg)
         (m_CompressGroup msg) (m_IsSummary msg) "{}" (m_CreatedAt msg)
     else msg).

Definition session_messages (id : string) (w : world) : list CodingAgentMessage :=
  by_created (filter (λ m, m_SessionID m = id) (messages_tbl w)).

Definition GetCodingAgentMessages (sessionID : string) (limit : Z) : M (list CodingAgentMessage) :=
  M_stmt (λ w,
    let rows := session_messages sessionID w in
    (Ok (if 0 <? limit then take (Z.to_nat limit) rows else rows), w)).

Definition SearchCodingAgentMessages (query : string) (limit : Z) : M (list CodingAgentMessage) :=
  let limit := if limit <=? 0 then 50 else limit in
  M_stmt (λ w,
    (Ok (take (Z.to_nat limit)
           (by_created_desc (filter (λ m, like ("%" +:+ query +:+ "%") (m_Content m) = true)
              (messages_tbl w)))), w)).

Definition estimateTokens (s : string) : Z :=
  if (String.length s =? 0)%nat then 0
  else let tokens := int_quot (Z.of_nat (String.length s)) 4 in
       if tokens <? 1 then 1 else tokens.

(** One [DELETE ... WHERE id = ?] per message. *)
Fixpoint delete_each (ids : list string) : M unit :=
  match ids with
  | [] => M_ret ()
  | id :: ids' =>
      M_stmt (λ w, (Ok (), set_messages (filter (λ m, m_ID m ≠ id) (messages_tbl w)) w)) ;;;
      delete_each ids'
  end.

Definition CompressCodingAgentMessages (sessionID : string) (splitIdx : Z) (summaryContent : string)
    (compressGroup : Z) : M unit :=
  msgs ⇐ GetCodingAgentMessages sessionID 0;
  let splitIdx := if go_len msgs <? splitIdx then go_len msgs else splitIdx in
  if splitIdx <=? 1 then M_ret ()
  else transaction (
    delete_each (m_ID <$> take (Z.to_nat splitIdx - 1) (drop 1 msgs)) ;;;
    ms ⇐ M_millis;
    now ⇐ M_now;
    insert_message_row
      (mk_Message ("msg-" +:+ sessionID +:+ "-summary-" +:+ ms) sessionID "system" summaryContent
         (estimateTokens summaryContent) compressGroup true
         ("{" +:+ dq +:+ "type" +:+ dq +:+ ":" +:+ dq +:+ "context_summary" +:+ dq +:+ "}") now)).

(** ** Audit log *)

Definition InsertCodingAgentAuditEntry (entry : CodingAgentAuditEntry) : M unit :=
  M_stmt (λ w,
    (Ok (), set_audit
       (audit_tbl w ++
        [mk_AuditEntry (audit_next w) (a_SessionID entry) (a_AgentType entry) (a_Model entry)
           (a_Role entry) (a_Content entry) (a_TokenCount entry) (a_CompressGroup entry)
           (a_IsSummary entry) (a_CreatedAt entry)])
       (audit_next w + 1) w)).

Definition GetCodingAgentAuditLogs (sessionID : string) (limit : Z) : M (list CodingAgentAuditEntry) :=
  let limit := if limit <=? 0 then 500 else limit in
  M_stmt (λ w,
    (Ok (take (Z.to_nat limit) (reverse (filter (λ a, a_SessionID a = sessionID) (audit_tbl w)))), w)).

End store.
