(* ===== verification/Agent.v ===== *)
(** * The coding agent ([hive-server-go/coding_agent.go])

    Sessions whose structs are cached and shared by pointer, messages kept in
    the store, and the compression of a conversation that outgrows its token
    budget.  The job queue is the model of [JobQueue]; what its workers and
    the peers answer are inputs. *)

From S2P Require Import Prelude GoFloat GoText GoHttp Job JobQueue MeshNet ModelContext AgentDB.

Local Open Scope string_scope.
Local Open Scope list_scope.
Local Open Scope Z_scope.
Local Open Scope agent_scope.

Definition RecentMessageKeep : Z := 6.

(** ** Session structs *)

Definition zero_Session : CodingAgentSession :=
  mk_Session "" "" "" 0 "" "" None f64_zero f64_zero 0 0 0.

Definition session_at (w : world) (p : nat) : CodingAgentSession := from_opt zero_Session (AgentDB.heap w !! p).

Definition with_counts (messages tokens : Z) (s : CodingAgentSession) : CodingAgentSession :=
  mk_Session (s_ID s) (s_AgentType s) (s_Model s) (s_TokenBudget s) (s_Status s) (s_SystemPrompt s)
    (s_Metadata s) (s_CreatedAt s) (s_UpdatedAt s) messages tokens (s_Compressions s).
Definition with_update (status : string) (updated : f64) (compressions : Z) (s : CodingAgentSession)
    : CodingAgentSession :=
  mk_Session (s_ID s) (s_AgentType s) (s_Model s) (s_TokenBudget s) status (s_SystemPrompt s)
    (s_Metadata s) (s_CreatedAt s) updated (s_TotalMessages s) (s_TotalTokens s) compressions.

(** [session.TotalMessages++; session.TotalTokens += tokens]. *)
Definition add_message (tokens : Z) (s : CodingAgentSession) : CodingAgentSession :=
  with_counts (int_incr (s_TotalMessages s)) (int_add (s_TotalTokens s) tokens) s.

Definition update_session (f : CodingAgentSession → CodingAgentSession) (p : nat) : M unit :=
  M_modify (λ w, set_cache (cache w) (<[p := f (session_at w p)]> (AgentDB.heap w)) (AgentDB.next w) w).

(** [cam.sessions[id] = p]. *)
Definition put_cache (id : string) (p : nat) : M unit :=
  M_modify (λ w, set_cache (<[id := p]> (cache w)) (AgentDB.heap w) (AgentDB.next w) w).

Definition new_session (s : CodingAgentSession) : M nat := λ w,
  (Ok (AgentDB.next w),
   set_cache (cache w) (<[AgentDB.next w := s]> (AgentDB.heap w)) (S (AgentDB.next w)) w).

(** ** Replies of other programs *)

(** The decoded reply of a direct chat call. *)
Record chat_reply := mk_chat_reply { cr_content : string; cr_response : string }.

(** The decoded reply of a peer. *)
Record forward_reply := mk_forward_reply { fr_Status : string; fr_Result : json; fr_Error : string }.

(** What the outside answers while one message is handled: Ollama's summary
    of a list of messages, the outcome of the submission to the job queue and the
    snapshots [GetJob] then returns, tick after tick, until the deadline;
    the peer a full queue turns to with its reply, and a direct call's. *)
Record answers := mk_answers {
  an_summary : list string → result (result string);
    (** for the parts of the summary prompt: request error, decode error or text *)
  an_accepted : bool;
  an_polls : list (option Job);
  an_peer : option (result (result forward_reply));
  an_direct : result (result (Z * chat_reply)) }.  (** status code and body *)

Section agent.
Context `{!Store}.
(** [%v] of a decoded value. *)
Variable fmt_v : json → string.
(** The default model of the queue. *)
Variable ollamaModel : string.

(** ** Sessions *)

Definition system_message (session : CodingAgentSession) (ms : string) (systemPrompt : string) (t : f64)
    : CodingAgentMessage :=
  mk_Message ("msg-" +:+ s_ID session +:+ "-sys-" +:+ ms) (s_ID session) "system" systemPrompt
    (estimateTokens systemPrompt) 0 false "" t.

(** [reply]: Ollama's answer if the detector asks for the model. *)
Definition CreateSession (agentType model systemPrompt : string) (tokenBudget : Z)
    (metadata : option (gmap string json)) (reply reply' : option (Z * Z)) : M (nat * ModelContextWindow) :=
  let model := if String.eqb model "" then ollamaModel else model in
  d ⇐ M_gets detector;
  let (detected, d) := DetectContextWindow d model reply in
  let (budget, d) := GetContextBudgetForModel d model tokenBudget reply' in
  M_modify (set_detector d) ;;;
  ms ⇐ M_millis;
  created ⇐ M_now;
  updated ⇐ M_now;
  let session := mk_Session ("ca-" +:+ agentType +:+ "-" +:+ ms) agentType model budget SessionActive
                   systemPrompt metadata created updated 0 0 0 in
  p ⇐ new_session session;
  M_wrap "insert session" (InsertCodingAgentSession session) ;;;
  (if negb (String.eqb systemPrompt "") then
     ms ⇐ M_millis;
     t ⇐ M_now;
     let msg := system_message session ms systemPrompt t in
     _ ⇐ M_try (InsertCodingAgentMessage msg);
     update_session (add_message (m_TokenCount msg)) p
   else M_ret ()) ;;;
  put_cache (s_ID session) p ;;;
  M_ret (p, detected).

(** The pointer of the session, [None] when there is none. *)
Definition GetSession (sessionID : string) : M (option nat) :=
  c ⇐ M_gets cache;
  match c !! sessionID with
  | Some p => M_ret (Some p)
  | None =>
      s ⇐ GetCodingAgentSession sessionID;
      match s with
      | Some s => p ⇐ new_session s; put_cache (s_ID s) p ;;; M_ret (Some p)
      | None => M_ret None
      end
  end.

Definition auditLog (p : nat) (role content : string) (tokenCount compressGroup : Z) (isSummary : bool)
    : M unit :=
  session ⇐ M_gets (λ w, session_at w p);
  t ⇐ M_now;
  _ ⇐ M_try (InsertCodingAgentAuditEntry
        (mk_AuditEntry 0 (s_ID session) (s_AgentType session) (s_Model session) role content tokenCount
           compressGroup isSummary t));
  M_ret ().

(** ** Compression *)

(** The loop that finds the split point: [i] is the index, [split] and
    [keep] the two variables. *)
Fixpoint split_loop (msgs : list CodingAgentMessage) (i split keep : Z) : Z :=
  match msgs with
  | [] => split
  | m :: rest =>
      if String.eqb (m_Role m) "system" && negb (m_IsSummary m) then split_loop rest (i + 1) (i + 1) keep
      else if RecentMessageKeep <=? keep + 1 then i
      else split_loop rest (i + 1) split (keep + 1)
  end.

Definition splitIdx (msgs : list CodingAgentMessage) : Z := split_loop msgs 0 0 0.

Definition summary_part (m : CodingAgentMessage) : string :=
  "[" +:+ (if m_IsSummary m then "context_summary" else m_Role m) +:+ "]: "
  +:+ truncStr (m_Content m) 2000.

Definition total_tokens (msgs : list CodingAgentMessage) : Z :=
  foldl (λ total m, int_add total (m_TokenCount m)) 0 msgs.

Definition compressContext (p : nat) (reply : list string → result (result string)) : M unit :=
  session ⇐ M_gets (λ w, session_at w p);
  msgs ⇐ GetCodingAgentMessages (s_ID session) 0;
  if go_len msgs <=? RecentMessageKeep + 2 then M_ret ()
  else
    let idx := splitIdx msgs in
    if idx <=? 1 then M_ret ()
    else match reply (summary_part <$> take (Z.to_nat idx - 1) (drop 1 msgs)) with
    | Err e => M_fail ("summary generation failed: " +:+ e)
    | Ok (Err e) => M_fail ("summary decode failed: " +:+ e)
    | Ok (Ok summary) =>
        if String.eqb summary "" then M_fail "empty summary response"
        else
          let compressGroup :=
            int_add (from_opt 0 (m_CompressGroup <$> msgs !! Z.to_nat (idx - 1))) 1 in
          M_wrap "compress messages" (CompressCodingAgentMessages (s_ID session) idx summary compressGroup) ;;;
          auditLog p "system" ("[Context compressed] " +:+ truncStr summary 500) (estimateTokens summary)
            compressGroup true ;;;
          msgs2 ⇐ M_try (GetCodingAgentMessages (s_ID session) 0);
          match msgs2 with
          | Ok msgs2 => update_session (λ s, with_counts (s_TotalMessages s) (total_tokens msgs2) s) p
          | Err _ => M_ret ()
          end
    end.

Definition threshold (session : CodingAgentSession) : Z :=
  f64_to_int (f64_mul (f64_of_Z (s_TokenBudget session)) (f64_lit 17 20)).

(** [return true, cam.compressContext(session)]: the flag is set whatever the
    compression did. *)
Definition maybeCompress (p : nat) (reply : list string → result (result string)) : M (bool * result unit) :=
  session ⇐ M_gets (λ w, session_at w p);
  if s_TotalTokens session <=? threshold session then M_ret (false, Ok ())
  else r ⇐ M_try (compressContext p reply); M_ret (true, r).

(** ** Sending a message *)

Definition buildOllamaMessages (p : nat) : M (list (string * string)) :=
  session ⇐ M_gets (λ w, session_at w p);
  msgs ⇐ GetCodingAgentMessages (s_ID session) 0;
  M_ret ((λ m, (m_Role m, m_Content m)) <$> msgs).

Definition extractChatResponse (res : json) : string :=
  match res with
  | JNull => ""
  | JObj m =>
      match obj_get as_obj m "message" ≫= (λ msg, obj_get as_str msg "content") with
      | Some content => content
      | None =>
          match obj_get as_str m "response" with
          | Some resp => resp
          | None => match obj_get as_str m "raw_response" with
                    | Some raw => raw
                    | None => fmt_v res
                    end
          end
      end
  | _ => fmt_v res
  end.

Definition finishMessage (p : nat) (response : string) (compressed : bool) : M (string * nat) :=
  session ⇐ M_gets (λ w, session_at w p);
  ms ⇐ M_millis;
  t ⇐ M_now;
  let outMsg := mk_Message ("msg-" +:+ s_ID session +:+ "-" +:+ ms) (s_ID session) "assistant" response
                  (estimateTokens response) 0 false "" t in
  _ ⇐ M_try (InsertCodingAgentMessage outMsg);
  u ⇐ M_now;
  update_session (λ s, let s := add_message (m_TokenCount outMsg) s in
                       with_update (s_Status s) u (s_Compressions s) s) p ;;;
  auditLog p "assistant" response (m_TokenCount outMsg) 0 false ;;;
  (if compressed then
     update_session (λ s, with_update (s_Status s) (s_UpdatedAt s) (int_incr (s_Compressions s)) s) p
   else M_ret ()) ;;;
  session ⇐ M_gets (λ w, session_at w p);
  _ ⇐ M_try (UpdateCodingAgentSession session);
  put_cache (s_ID session) p ;;;
  M_ret (response, p).

Definition callOllamaChat (reply : result (result (Z * chat_reply))) : result string :=
  match reply with
  | Err e => Err ("ollama request failed: " +:+ e)
  | Ok (Err e) => Err ("ollama decode failed: " +:+ e)
  | Ok (Ok (status, r)) =>
      if 400 <=? status then Err ("ollama error (status " +:+ fmt_d status +:+ ")")
      else Ok (if negb (String.eqb (cr_content r) "") then cr_content r else cr_response r)
  end.

Definition forwardToPeer (reply : result (result forward_reply)) : result string :=
  match reply with
  | Err e => Err ("forward request failed: " +:+ e)
  | Ok (Err e) => Err ("decode forward response failed: " +:+ e)
  | Ok (Ok r) =>
      if String.eqb (fr_Status r) "failed" then Err ("peer execution failed: " +:+ fr_Error r)
      else Ok (extractChatResponse (fr_Result r))
  end.

(** The wait for the queue's worker: [None] for a snapshot means the job is
    not found. *)
Fixpoint poll_job (jobID : string) (polls : list (option Job)) : result string :=
  match polls with
  | [] => Err ("job timeout: " +:+ jobID)
  | None :: rest => poll_job jobID rest
  | Some j :: rest =>
      if String.eqb (Status j) JobFailed then Err ("ollama call failed: " +:+ Error j)
      else if String.eqb (Status j) JobCompleted then Ok (extractChatResponse (Result j))
      else poll_job jobID rest
  end.

(** The reply to the prompt, from the queue, a peer or a direct call. *)
Definition obtain_response (jobID : string) (an : answers) : result string :=
  if an_accepted an then poll_job jobID (an_polls an)
  else
    match forwardToPeer <$> an_peer an with
    | Some (Ok response) => Ok response
    | _ => match callOllamaChat (an_direct an) with
           | Ok response => Ok response
           | Err e => Err ("ollama call failed: " +:+ e)
           end
    end.

Definition M_of_result {A} (r : result A) : M A := λ w, (r, w).

(** Up to the point where the reply is awaited: the prompt is stored, counted
    and audited, the context compressed if need be, and the prompt built. *)
Definition send_begin (sessionID role content : string) (metadata : option (gmap string json))
    (an : answers) : M (nat * bool * string) :=
  p ⇐ (λ w, match GetSession sessionID w with
            | (Ok (Some p), w') => (Ok p, w')
            | (_, w') => (Err ("session not found: " +:+ sessionID), w')
            end);
  session ⇐ M_gets (λ w, session_at w p);
  if negb (String.eqb (s_Status session) SessionActive)
  then M_fail ("session is archived: " +:+ sessionID)
  else
    ms ⇐ M_millis;
    t ⇐ M_now;
    let inMsg := mk_Message ("msg-" +:+ sessionID +:+ "-" +:+ ms) sessionID role content
                   (estimateTokens content) 0 false
                   (match metadata with Some md => marshal_md md | None => "" end) t in
    M_wrap "insert message" (InsertCodingAgentMessage inMsg) ;;;
    update_session (add_message (m_TokenCount inMsg)) p ;;;
    auditLog p role content (m_TokenCount inMsg) 0 false ;;;
    c ⇐ maybeCompress p (an_summary an);
    _ ⇐ M_wrap "build messages" (buildOllamaMessages p);
    ms ⇐ M_millis;
    M_ret (p, c.1, "agent:" +:+ sessionID +:+ ":" +:+ ms).

Definition SendMessage (sessionID role content : string) (metadata : option (gmap string json))
    (an : answers) : M (string * nat) :=
  b ⇐ send_begin sessionID role content metadata an;
  let '(p, compressed, jobID) := b in
  response ⇐ M_of_result (obtain_response jobID an);
  finishMessage p response compressed.

(** ** The other operations *)

Definition ArchiveSession (sessionID : string) : M unit :=
  p ⇐ (λ w, match GetSession sessionID w with
            | (Ok (Some p), w') => (Ok p, w')
            | (_, w') => (Err ("session not found: " +:+ sessionID), w')
            end);
  t ⇐ M_now;
  update_session (λ s, with_update SessionArchived t (s_Compressions s) s) p ;;;
  session ⇐ M_gets (λ w, session_at w p);
  UpdateCodingAgentSession session.

Definition DeleteSession (sessionID : string) : M unit :=
  M_modify (λ w, set_cache (delete sessionID (cache w)) (AgentDB.heap w) (AgentDB.next w) w) ;;;
  DeleteCodingAgentSession sessionID.

(** The statistics of a session; [cs_ratio] is the budget in percent of the
    context window. *)
Record context_stats := mk_stats {
  cs_session_id : string; cs_token_budget : Z; cs_total_tokens : Z; cs_budget_used_pct : f64;
  cs_total_messages : Z; cs_summary_messages : Z; cs_compressions : Z; cs_role_breakdown : gmap string Z;
  cs_needs_compression : bool; cs_model : string; cs_context : ModelContextWindow; cs_ratio : Z }.

Definition stats_step (acc : Z * Z * gmap string Z) (m : CodingAgentMessage) : Z * Z * gmap string Z :=
  let '(tokens, summaries, roles) := acc in
  (int_add tokens (m_TokenCount m),
   if m_IsSummary m then int_incr summaries else summaries,
   <[m_Role m := int_add (from_opt 0 (roles !! m_Role m)) (m_TokenCount m)]> roles).

(** [reply]: Ollama's answer if the detector asks for the model. *)
Definition GetContextStats (sessionID : string) (reply : option (Z * Z)) : M context_stats :=
  p ⇐ (λ w, match GetSession sessionID w with
            | (Ok (Some p), w') => (Ok p, w')
            | (_, w') => (Err ("session not found: " +:+ sessionID), w')
            end);
  session ⇐ M_gets (λ w, session_at w p);
  msgs ⇐ GetCodingAgentMessages sessionID 0;
  let '(tokens, summaries, roles) := foldl stats_step (0, 0, ∅) msgs in
  let budget := f64_of_Z (s_TokenBudget session) in
  let used := f64_mul (f64_div (f64_of_Z tokens) budget) (f64_of_Z 100) in
  d ⇐ M_gets detector;
  let (detected, d) := DetectContextWindow d (s_Model session) reply in
  M_modify (set_detector d) ;;;
  let ratio := f64_to_int (f64_mul (f64_div budget (f64_of_Z (ContextLength detected))) (f64_of_Z 100)) in
  M_ret (mk_stats sessionID (s_TokenBudget session) tokens used (go_len msgs) summaries (s_Compressions session)
           roles (f64_leb (f64_of_Z 85) used) (s_Model session) detected ratio).

End agent.

(** ** Relations every computation keeps *)

Definition keeps {A} (R : relation world) (m : M A) : Prop := ∀ w, R w (m w).2.

Section keeps.
Context {R : relation world} `{!Reflexive R, !Transitive R}.

Lemma keeps_ret {A} (a : A) : keeps R (M_ret a).
Proof. by intros w. Qed.
Lemma keeps_fail {A} e : keeps R (@M_fail A e).
Proof. by intros w. Qed.
Lemma keeps_of_result {A} (r : result A) : keeps R (M_of_result r).
Proof. by intros w. Qed.
Lemma keeps_gets {A} (f : world → A) : keeps R (M_gets f).
Proof. by intros w. Qed.
Lemma keeps_modify f : (∀ w, R w (f w)) → keeps R (M_modify f).
Proof. by intros Hf w. Qed.
Lemma keeps_bind {A B} (m : M A) (f : A → M B) :
  keeps R m → (∀ a, keeps R (f a)) → keeps R (M_bind m f).
Proof.
  intros Hm Hf w. unfold M_bind. specialize (Hm w). destruct (m w) as [[a|e] w']; simpl in *; [|done].
  etrans; [exact Hm|apply Hf].
Qed.
Lemma keeps_try {A} (m : M A) : keeps R m → keeps R (M_try m).
Proof. intros Hm w. unfold M_try. specialize (Hm w). by destruct (m w). Qed.
Lemma keeps_wrap {A} s (m : M A) : keeps R m → keeps R (M_wrap s m).
Proof. intros Hm w. unfold M_wrap. specialize (Hm w). by destruct (m w) as [[]]. Qed.
Lemma keeps_found {A} (m : M (option A)) e :
  keeps R m → keeps R (λ w, match m w with (Ok (Some p), w') => (Ok p, w') | (_, w') => (Err e, w') end).
Proof. intros Hm w. specialize (Hm w). by destruct (m w) as [[[]|]]. Qed.
End keeps.

Create HintDb agent_keeps discriminated.
#[export] Hint Resolve keeps_ret keeps_fail keeps_of_result keeps_gets : agent_keeps.

(** ** The store's integrity *)

Record tables_wf (w : world) : Prop := mk_tables_wf {
  twf_messages : NoDup (m_ID <$> messages_tbl w);
  twf_sessions : NoDup ((λ r, s_ID (r_session r)) <$> sessions_tbl w);
  twf_audit : StronglySorted Z.lt (a_ID <$> audit_tbl w);
  twf_next a : a ∈ audit_tbl w → a_ID a < audit_next w }.

(** Integrity is kept and the audit log only grows. *)
Definition grows : relation world := λ w w',
  tables_wf w → tables_wf w' ∧ audit_tbl w `prefix_of` audit_tbl w'.

#[global] Instance grows_refl : Reflexive grows.
Proof. intros w Hw. by split. Qed.
#[global] Instance grows_trans : Transitive grows.
Proof.
  intros w1 w2 w3 H12 H23 H1. destruct (H12 H1) as [H2 Hp]. destruct (H23 H2) as [H3 Hp'].
  split; [done|by etrans].
Qed.

(** A write that touches no table. *)
Definition same_tables (w w' : world) : Prop :=
  sessions_tbl w' = sessions_tbl w ∧ messages_tbl w' = messages_tbl w ∧
  audit_tbl w' = audit_tbl w ∧ audit_next w' = audit_next w.

Lemma grows_tables w w' : same_tables w w' → grows w w'.
Proof.
  intros (Hs & Hm & Ha & Hn) [H1 H2 H3 H4]. split; [|by rewrite Ha]. split; [by rewrite Hm|by rewrite Hs|by rewrite Ha|].
  intros a. rewrite Ha, Hn. apply H4.
Qed.

Lemma grows_modify f :
  (∀ w, same_tables w (f w)) → keeps grows (M_modify f).
Proof. intros Hf. apply keeps_modify. intros w. apply grows_tables, Hf. Qed.

Lemma filter_fmap_NoDup {A B} (f : A → B) (P : A → Prop) `{!∀ x, Decision (P x)} (l : list A) :
  NoDup (f <$> l) → NoDup (f <$> filter P l).
Proof. intros Hnd. eapply sublist_NoDup; [exact Hnd|]. apply fmap_sublist, sublist_filter. Qed.

Lemma grows_set_messages ms w :
  (tables_wf w → NoDup (m_ID <$> ms)) → grows w (set_messages ms w).
Proof. intros Hms Hw. split; [|done]. destruct Hw as [H1 H2 H3 H4]. split; [|done|done|done]. by apply Hms. Qed.

Lemma grows_set_sessions ss w :
  (tables_wf w → NoDup ((λ r, s_ID (r_session r)) <$> ss)) → grows w (set_sessions ss w).
Proof. intros Hss Hw. split; [|done]. destruct Hw as [H1 H2 H3 H4]. split; [done| |done|done]. by apply Hss. Qed.

Lemma NoDup_snoc_id {A} (f : A → string) (l : list A) (x : A) (p : A → bool) :
  (∀ y, p y = String.eqb (f y) (f x)) → existsb p l = false → NoDup (f <$> l) → NoDup (f <$> (l ++ [x])).
Proof.
  intros Hp He Hnd. rewrite fmap_app. apply NoDup_app. split_and!; [done| |apply NoDup_singleton].
  intros i (y & -> & Hy)%list_elem_of_fmap Hi. apply list_elem_of_singleton in Hi.
  apply not_true_iff_false in He. apply He, existsb_exists. exists y.
  split; [by apply list_elem_of_In|]. rewrite Hp. by apply String.eqb_eq.
Qed.

Lemma StronglySorted_fmap_filter {A B} (R : relation B) (f : A → B) (l : list A) (P : A → Prop)
    `{!∀ x, Decision (P x)} : StronglySorted R (f <$> l) → StronglySorted R (f <$> filter P l).
Proof.
  induction l as [|x l IH]; simpl; intros Hs; [constructor|]. apply StronglySorted_inv in Hs as [Hs Hall].
  rewrite filter_cons. case_decide; [|by apply IH]. rewrite fmap_cons. constructor; [by apply IH|].
  rewrite Forall_fmap in *. rewrite Forall_forall in *. intros y [_ Hy]%list_elem_of_filter. by apply Hall.
Qed.

Section integrity.
Context `{!Store}.

Section generic.
Context (R : relation world) `{!Reflexive R, !Transitive R}.
Hypothesis R_tables : ∀ w w', same_tables w w' → R w w'.

Lemma keeps_stmt_of {A} (f : world → result A * world) :
  (∀ w, R w (f w).2) → keeps R (M_stmt f).
Proof.
  intros Hf w. unfold M_stmt. assert (R w (count_stmt w)) as Hc by (by apply R_tables).
  destruct (fault (stmts w)); [done|]. etrans; [exact Hc|apply Hf].
Qed.

Lemma keeps_transaction_of {A} (body : M A) : keeps R body → keeps R (transaction body).
Proof.
  intros Hb w. unfold transaction.
  pose proof (keeps_stmt_of (λ w, (Ok (), w)) (λ _, reflexivity _)) as Hs.
  pose proof (Hs w) as H1. destruct (M_stmt _ w) as [[u|e0] w1]; [|done]. simpl in H1.
  specialize (Hb w1). destruct (body w1) as [[a|e] w2]; simpl in Hb; [|by apply R_tables].
  specialize (Hs w2). destruct (M_stmt _ w2) as [[u2|e2] w3]; simpl in *; [|by apply R_tables].
  etrans; [exact H1|]. by etrans.
Qed.
End generic.

Lemma keeps_stmt {A} (f : world → result A * world) :
  (∀ w, grows w (f w).2) → keeps grows (M_stmt f).
Proof. apply keeps_stmt_of; [apply _|apply grows_tables]. Qed.

Lemma keeps_transaction {A} (body : M A) : keeps grows body → keeps grows (transaction body).
Proof. apply keeps_transaction_of; apply _ || apply grows_tables. Qed.

Lemma keeps_now : keeps grows M_now.
Proof. intros w. by apply grows_tables. Qed.
Lemma keeps_millis : keeps grows M_millis.
Proof. intros w. by apply grows_tables. Qed.

Lemma keeps_insert_session s : keeps grows (InsertCodingAgentSession s).
Proof.
  apply keeps_stmt. intros w. destruct (existsb _ _) eqn:He; [done|]. apply grows_set_sessions.
  intros Hw. eapply NoDup_snoc_id; [|exact He|apply Hw]. done.
Qed.

Lemma keeps_insert_message msg : keeps grows (insert_message_row msg).
Proof.
  apply keeps_stmt. intros w. destruct (has_message _ _) eqn:He; [done|]. apply grows_set_messages.
  intros Hw. eapply NoDup_snoc_id; [|exact He|apply Hw]. done.
Qed.

Lemma keeps_select {A} (f : world → A) : keeps grows (M_stmt (λ w, (Ok (f w), w))).
Proof. by apply keeps_stmt. Qed.

Lemma keeps_update_row s : keeps grows (UpdateCodingAgentSession s).
Proof.
  apply keeps_stmt. intros w. apply grows_set_sessions. intros Hw.
  rewrite <-list_fmap_compose. erewrite list_fmap_ext; [apply Hw|]. intros i r _. simpl. by case_match.
Qed.

Lemma keeps_delete_each ids : keeps grows (delete_each ids).
Proof.
  induction ids as [|id ids IH]; simpl; [apply keeps_ret|]. apply keeps_bind; [|done].
  apply keeps_stmt. intros w. apply grows_set_messages. intros Hw. apply filter_fmap_NoDup, Hw.
Qed.

Lemma keeps_insert_audit e : keeps grows (InsertCodingAgentAuditEntry e).
Proof.
  apply keeps_stmt. intros w [H1 H2 H3 H4]. simpl. split; [|by apply prefix_app_r].
  split; [done|done| |]; simpl.
  - rewrite fmap_app. apply StronglySorted_app_intro; [done|repeat constructor|].
    intros x y (a & -> & Ha)%list_elem_of_fmap Hy. apply list_elem_of_singleton in Hy as ->. by apply H4.
  - intros a [Ha| ->%list_elem_of_singleton]%elem_of_app; [specialize (H4 a Ha); lia|simpl; lia].
Qed.

#[local] Hint Resolve keeps_now keeps_millis keeps_insert_session keeps_insert_message keeps_update_row
  keeps_delete_each keeps_insert_audit : agent_keeps.

(** Decompose a computation along its binds. *)
Ltac keeps_step :=
  first
    [ progress intros
    | progress cbv zeta
    | solve [auto with agent_keeps]
    | apply keeps_bind | apply keeps_try | apply keeps_wrap | apply keeps_transaction
    | apply keeps_found
    | apply keeps_select
    | apply grows_modify; done
    | case_match ].
Ltac keeps_all := repeat keeps_step.

Lemma keeps_new_session s : keeps grows (new_session s).
Proof. intros w. by apply grows_tables. Qed.
#[local] Hint Resolve keeps_new_session : agent_keeps.

Lemma keeps_compress_messages id n s g : keeps grows (CompressCodingAgentMessages id n s g).
Proof. unfold CompressCodingAgentMessages, GetCodingAgentMessages. keeps_all. Qed.
#[local] Hint Resolve keeps_compress_messages : agent_keeps.

Lemma keeps_GetSession id : keeps grows (GetSession id).
Proof. unfold GetSession, GetCodingAgentSession, put_cache. keeps_all. Qed.
#[local] Hint Resolve keeps_GetSession : agent_keeps.

Lemma keeps_auditLog p role content t g s : keeps grows (auditLog p role content t g s).
Proof. unfold auditLog. keeps_all. Qed.
#[local] Hint Resolve keeps_auditLog : agent_keeps.

Lemma keeps_compressContext p reply : keeps grows (compressContext p reply).
Proof. unfold compressContext, GetCodingAgentMessages, update_session. keeps_all. Qed.
#[local] Hint Resolve keeps_compressContext : agent_keeps.

Lemma keeps_finishMessage p r c : keeps grows (finishMessage p r c).
Proof. unfold finishMessage, InsertCodingAgentMessage, update_session, put_cache. keeps_all. Qed.
#[local] Hint Resolve keeps_finishMessage : agent_keeps.

Lemma keeps_send_begin id role content md an : keeps grows (send_begin id role content md an).
Proof.
  unfold send_begin, InsertCodingAgentMessage, update_session, maybeCompress, buildOllamaMessages,
    GetCodingAgentMessages. keeps_all.
Qed.
#[local] Hint Resolve keeps_send_begin : agent_keeps.

Lemma keeps_SendMessage fmt_v id role content md an : keeps grows (SendMessage fmt_v id role content md an).
Proof. unfold SendMessage. keeps_all. Qed.

Lemma keeps_CreateSession om at_ model sp budget md r r' :
  keeps grows (CreateSession om at_ model sp budget md r r').
Proof. unfold CreateSession, InsertCodingAgentMessage, update_session, put_cache. keeps_all. Qed.

Lemma keeps_ArchiveSession id : keeps grows (ArchiveSession id).
Proof. unfold ArchiveSession, update_session. keeps_all. Qed.

(** Integrity alone, which deletion keeps as well. *)
Definition wf_kept : relation world := λ w w', tables_wf w → tables_wf w'.

#[local] Instance wf_kept_refl : Reflexive wf_kept.
Proof. by intros w Hw. Qed.
#[local] Instance wf_kept_trans : Transitive wf_kept.
Proof. intros w1 w2 w3 H12 H23 H1. by apply H23, H12. Qed.

Lemma keeps_DeleteSession id : keeps wf_kept (DeleteSession id).
Proof.
  assert (∀ w w', same_tables w w' → wf_kept w w') as Ht.
  { intros w w' Hs Hw. by apply (grows_tables w w' Hs). }
  unfold DeleteSession. apply keeps_bind; [apply keeps_modify; intros w; by apply Ht|intros _].
  unfold DeleteCodingAgentSession. apply keeps_transaction_of; [apply _..|exact Ht|].
  repeat (apply keeps_bind; [|intros _]); apply keeps_stmt_of; try apply _; try exact Ht; intros w [H1 H2 H3 H4];
    split; simpl; try done.
  - by apply filter_fmap_NoDup.
  - by apply StronglySorted_fmap_filter.
  - intros a [_ Ha]%list_elem_of_filter. by apply H4.
  - by apply (filter_fmap_NoDup (λ r, s_ID (r_session r))).
Qed.

End integrity.

(** ** Calls *)

(** The operations of the manager that change state, with what the outside
    answers. *)
Inductive api_call :=
  | CCreate (agentType model systemPrompt : string) (budget : Z) (md : option (gmap string json))
      (r r' : option (Z * Z))
  | CGet (id : string)
  | CSend (id role content : string) (md : option (gmap string json)) (an : answers)
  | CArchive (id : string)
  | CDelete (id : string).

Definition run_call `{!Store} (fmt_v : json → string) (ollamaModel : string) (w : world) (c : api_call)
    : world :=
  match c with
  | CCreate at_ model sp budget md r r' => (CreateSession ollamaModel at_ model sp budget md r r' w).2
  | CGet id => (GetSession id w).2
  | CSend id role content md an => (SendMessage fmt_v id role content md an w).2
  | CArchive id => (ArchiveSession id w).2
  | CDelete id => (DeleteSession id w).2
  end.

Definition is_delete (c : api_call) : bool := match c with CDelete _ => true | _ => false end.

Definition empty_world : world := mk_world [] [] [] 1 ∅ ∅ 0 ∅ 0 0.

Lemma empty_wf : tables_wf empty_world.
Proof. split; try constructor. by intros a ?%not_elem_of_nil. Qed.

Lemma run_call_grows `{!Store} fmt_v om w c : is_delete c = false → grows w (run_call fmt_v om w c).
Proof.
  destruct c; intros Hd; simpl in *; [| | | |done].
  - apply keeps_CreateSession.
  - apply keeps_GetSession.
  - apply keeps_SendMessage.
  - apply keeps_ArchiveSession.
Qed.

Lemma run_call_wf `{!Store} fmt_v om w c : tables_wf w → tables_wf (run_call fmt_v om w c).
Proof.
  intros Hw. destruct (is_delete c) eqn:Hd; [|by apply run_call_grows].
  destruct c; try done. by apply keeps_DeleteSession.
Qed.

Lemma calls_grow `{!Store} fmt_v om cs w :
  Forall (λ c, is_delete c = false) cs → grows w (foldl (run_call fmt_v om) w cs).
Proof.
  intros Hcs. apply (foldl_inv (λ w', grows w w')); [done|].
  intros w' c Hc Hw. etrans; [exact Hw|]. apply run_call_grows. by eapply Forall_forall in Hcs.
Qed.

(** ** Runs without I/O errors *)

Definition add_stmts (k : nat) (w : world) : world :=
  mk_world (sessions_tbl w) (messages_tbl w) (audit_tbl w) (audit_next w) (cache w) (AgentDB.heap w)
    (AgentDB.next w) (detector w) (k + stmts w)%nat (ticks w).

Definition set_stmts (k : nat) (w : world) : world :=
  mk_world (sessions_tbl w) (messages_tbl w) (audit_tbl w) (audit_next w) (cache w) (AgentDB.heap w)
    (AgentDB.next w) (detector w) k (ticks w).

(** Sorting by time has one result when the times differ. *)
Definition created_lt (a b : CodingAgentMessage) : Prop := f64_ltb (m_CreatedAt a) (m_CreatedAt b) = true.

Lemma strict_sorted_unique l k :
  StronglySorted created_lt l → StronglySorted created_le k → l ≡ₚ k → l = k.
Proof.
  intros Hl. revert k. induction Hl as [|a l Hl IH Hall]; intros k Hk Hp.
  - by apply Permutation_nil in Hp.
  - destruct k as [|b k]; [by apply Permutation_sym, Permutation_nil in Hp|].
    rewrite Forall_forall in Hall.
    assert (b ∈ a :: l) as Hb by (rewrite Hp; by left).
    assert (a ∈ b :: k) as Ha by (rewrite <-Hp; by left).
    apply StronglySorted_inv in Hk as [Hk Hbk]. rewrite Forall_forall in Hbk.
    assert (a = b) as ->.
    { apply elem_of_cons in Hb as [|Hb]; [done|]. apply elem_of_cons in Ha as [|Ha]; [done|].
      specialize (Hall _ Hb). specialize (Hbk _ Ha). unfold created_lt, created_le in *. congruence. }
    f_equal. apply IH; [done|]. by apply Permutation_cons_inv in Hp.
Qed.

Lemma created_lt_not_nan l m :
  StronglySorted created_lt l → (2 ≤ length l)%nat → m ∈ l → f64_is_nan (m_CreatedAt m) = false.
Proof.
  intros Hs Hlen Hm. apply list_elem_of_lookup in Hm as [i Hi].
  destruct i as [|i].
  - destruct l as [|a [|b l]]; simpl in *; try lia. simplify_eq.
    apply StronglySorted_inv in Hs as [_ Hall]. apply Forall_cons in Hall as [Hab _].
    by apply f64_ltb_nan_l in Hab as [].
  - destruct l as [|a l]; [done|]. apply StronglySorted_inv in Hs as [_ Hall].
    rewrite Forall_forall in Hall. specialize (Hall m). apply f64_ltb_nan_l in Hall as []; [done|].
    by eapply list_elem_of_lookup_2.
Qed.

Section no_fault.
Context `{!Store, !StoreLaws}.
Hypothesis no_fault : ∀ n, fault n = None.

Lemma stmt_ok {A} (f : world → result A * world) w : M_stmt f w = f (add_stmts 1 w).
Proof. unfold M_stmt. by rewrite no_fault. Qed.

Lemma get_messages_ok id w : GetCodingAgentMessages id 0 w = (Ok (session_messages id w), add_stmts 1 w).
Proof. unfold GetCodingAgentMessages. by rewrite stmt_ok. Qed.

Lemma delete_each_ok ids w :
  delete_each ids w =
  (Ok (), set_messages (filter (λ m, m_ID m ∉ ids) (messages_tbl w)) (add_stmts (length ids) w)).
Proof.
  revert w. induction ids as [|id ids IH]; intros w; simpl.
  - unfold M_ret. f_equal. rewrite filter_all by (intros m _; apply not_elem_of_nil). by destruct w.
  - unfold M_bind. rewrite stmt_ok, IH. f_equal. unfold set_messages, add_stmts, set_tables. simpl. f_equal.
    + rewrite list_filter_filter. apply list_filter_iff. intros m. rewrite elem_of_cons. naive_solver.
    + lia.
Qed.

Lemma transaction_ok {A} (body : M A) w a w' :
  body (add_stmts 1 w) = (Ok a, w') → transaction body w = (Ok a, add_stmts 1 w').
Proof. intros Hb. unfold transaction. rewrite stmt_ok, Hb. by rewrite stmt_ok. Qed.

(** The messages of a session after a change of the table. *)
Lemma session_messages_unique id w l :
  StronglySorted created_lt l → (2 ≤ length l)%nat →
  filter (λ m, m_SessionID m = id) (messages_tbl w) ≡ₚ l → session_messages id w = l.
Proof.
  intros Hs Hlen Hp. unfold session_messages. symmetry. apply strict_sorted_unique; [done| |].
  - apply by_created_sorted. intros m Hm. eapply created_lt_not_nan; [exact Hs|done|]. by rewrite <-Hp.
  - by rewrite by_created_perm, Hp.
Qed.

End no_fault.

(** The split point of a conversation that opens with its system prompt. *)
Definition is_system_prompt (m : CodingAgentMessage) : bool :=
  String.eqb (m_Role m) "system" && negb (m_IsSummary m).

Lemma split_loop_conversation l i split keep :
  Forall (λ m, is_system_prompt m = false) l → keep < 6 → 6 - keep <= go_len l →
  split_loop l i split keep = i + (5 - keep).
Proof.
  revert i keep. induction l as [|m l IH]; intros i keep Hall Hk Hlen; simpl; [unfold go_len in Hlen; simpl in Hlen; lia|].
  apply Forall_cons in Hall as [Hm Hall]. unfold is_system_prompt in Hm. rewrite Hm. unfold RecentMessageKeep.
  rewrite go_len_cons in Hlen.
  destruct (Z.leb_spec 6 (keep + 1)); [lia|]. rewrite IH by (done || lia). lia.
Qed.

Lemma splitIdx_conversation s l :
  is_system_prompt s = true → Forall (λ m, is_system_prompt m = false) l → (6 ≤ length l)%nat →
  splitIdx (s :: l) = 6.
Proof.
  intros Hs Hall Hlen. unfold splitIdx. simpl. unfold is_system_prompt in Hs. rewrite Hs.
  rewrite split_loop_conversation; [lia|done|lia|unfold go_len; lia].
Qed.

Definition summary_message `{!Store} (id text : string) (group : Z) (w : world) : CodingAgentMessage :=
  mk_Message ("msg-" +:+ id +:+ "-summary-" +:+ fmt_d (UnixMilli (clock (ticks w)))) id "system" text
    (estimateTokens text) group true
    ("{" +:+ dq +:+ "type" +:+ dq +:+ ":" +:+ dq +:+ "context_summary" +:+ dq +:+ "}")
    (now_f (clock (S (ticks w)))).

Section compression.
Context `{!Store, !StoreLaws}.
Hypothesis no_fault : ∀ n, fault n = None.

Lemma has_message_filter id l (P : CodingAgentMessage → Prop) `{!∀ m, Decision (P m)} :
  has_message id l = false → has_message id (filter P l) = false.
Proof.
  intros Hf. apply not_true_iff_false. apply not_true_iff_false in Hf. intros He. apply Hf.
  unfold has_message in *. apply existsb_exists in He as (m & Hin & Heq). apply existsb_exists.
  exists m. split; [|exact Heq]. apply list_elem_of_In. apply list_elem_of_In in Hin.
  by apply list_elem_of_filter in Hin as [_ ?].
Qed.

Lemma insert_row_ok msg w :
  has_message (m_ID msg) (messages_tbl w) = false →
  insert_message_row msg w = (Ok (), set_messages (messages_tbl w ++ [msg]) (add_stmts 1 w)).
Proof. intros Hf. unfold insert_message_row. rewrite stmt_ok by done. cbn [messages_tbl add_stmts]. by rewrite Hf. Qed.

(** The store's part: what the two deletions and the insertion leave. *)
Lemma compress_messages_ok id n text g w msgs :
  session_messages id w = msgs → 1 < n <= go_len msgs →
  has_message (m_ID (summary_message id text g w)) (messages_tbl w) = false →
  ∃ k, CompressCodingAgentMessages id n text g w =
    (Ok (), set_messages (filter (λ m, m_ID m ∉ m_ID <$> take (Z.to_nat n - 1) (drop 1 msgs)) (messages_tbl w)
                          ++ [summary_message id text g w])
              (count_tick (count_tick (set_stmts k w)))).
Proof.
  intros Hm Hn Hfresh. unfold CompressCodingAgentMessages, M_bind at 1. rewrite get_messages_ok, Hm by done.
  rewrite (proj2 (Z.ltb_ge _ _)), (proj2 (Z.leb_gt _ _)) by lia.
  set (ids := m_ID <$> take (Z.to_nat n - 1) (drop 1 msgs)). eexists.
  unfold transaction. rewrite stmt_ok by done. unfold M_bind at 1. rewrite delete_each_ok by done.
  unfold M_bind, M_millis, M_now. rewrite insert_row_ok; [rewrite stmt_ok by done; reflexivity|].
  by apply has_message_filter.
Qed.

Lemma auditLog_ok p role content t g s w :
  ∃ a n, auditLog p role content t g s w = (Ok (), set_audit a n (count_tick (add_stmts 1 w))).
Proof.
  unfold auditLog, M_bind, M_gets, M_now, M_try, InsertCodingAgentAuditEntry, M_ret. rewrite stmt_ok by done.
  by do 2 eexists.
Qed.

(** The rows of the session after the removal of [old]. *)
Lemma filter_removed id w sys old recent :
  NoDup (m_ID <$> messages_tbl w) →
  filter (λ m, m_SessionID m = id) (messages_tbl w) ≡ₚ sys :: old ++ recent →
  filter (λ m, m_SessionID m = id) (filter (λ m, m_ID m ∉ m_ID <$> old) (messages_tbl w)) ≡ₚ sys :: recent.
Proof.
  intros Hnd Hp.
  assert (NoDup (m_ID <$> (sys :: old ++ recent))) as Hnd'.
  { rewrite <-Hp. by apply filter_fmap_NoDup. }
  rewrite list_filter_filter.
  rewrite (list_filter_iff _ (λ m, (m_ID m ∉ m_ID <$> old) ∧ m_SessionID m = id)) by tauto.
  rewrite <-list_filter_filter, Hp. rewrite fmap_cons, fmap_app in Hnd'.
  apply NoDup_cons in Hnd' as [Hsys Hnd']. apply NoDup_app in Hnd' as (Hold & Hd & Hrec).
  rewrite filter_cons_True by (intros Hin; apply Hsys, elem_of_app; by left).
  rewrite filter_app, filter_none, filter_all; [done| |].
  - intros m Hm Hin. apply (Hd (m_ID m)); [done|]. by apply list_elem_of_fmap_2.
  - intros m Hm Hin. apply Hin. by apply list_elem_of_fmap_2.
Qed.

Lemma filter_removed_other id other w sys old recent :
  NoDup (m_ID <$> messages_tbl w) → other ≠ id →
  filter (λ m, m_SessionID m = id) (messages_tbl w) ≡ₚ sys :: old ++ recent →
  filter (λ m, m_SessionID m = other) (filter (λ m, m_ID m ∉ m_ID <$> old) (messages_tbl w)) =
  filter (λ m, m_SessionID m = other) (messages_tbl w).
Proof.
  intros Hnd Hne Hp. rewrite list_filter_filter. apply filter_ext_in. intros m Hm. split; [tauto|].
  intros Hs. cut (m_ID m ∉ m_ID <$> old); [tauto|]. intros (m' & Hid & Hm')%list_elem_of_fmap.
  assert (m' ∈ filter (λ m, m_SessionID m = id) (messages_tbl w)) as [Hs' Hin]%list_elem_of_filter.
  { rewrite Hp. right. apply elem_of_app. by left. }
  assert (m = m') as -> by (by eapply NoDup_fmap_inj). congruence.
Qed.

(** A clock past every stored message puts the summary last. *)
Lemma sorted_with_summary (sys x : CodingAgentMessage) old recent :
  StronglySorted created_lt (sys :: old ++ recent) →
  (∀ m, m ∈ sys :: old ++ recent → f64_ltb (m_CreatedAt m) (m_CreatedAt x) = true) →
  StronglySorted created_lt (sys :: recent ++ [x]).
Proof.
  intros Hs Hx. apply StronglySorted_inv in Hs as [Hs Hall]. rewrite Forall_forall in Hall.
  assert (StronglySorted created_lt recent) as Hr.
  { clear -Hs. induction old as [|o old IH]; [done|]. by apply StronglySorted_inv in Hs as [? _]; apply IH. }
  constructor.
  - apply StronglySorted_app_intro; [done|repeat constructor|].
    intros a b Ha ->%list_elem_of_singleton. apply Hx. right. apply elem_of_app. by right.
  - apply Forall_app. split; [|repeat constructor; apply Hx; by left].
    apply Forall_forall. intros m Hm. apply Hall, elem_of_app. by right.
Qed.

(** ** Properties *)

(** A compression summarises the oldest part of a conversation, not
    everything but the newest messages: of a session that opens with its
    system prompt, exactly the five messages after the prompt are replaced,
    by one summary that is stored after all others; every other message, the
    other sessions and the token count are kept exact. *)
Theorem compression_exact p reply w sys old recent text :
  let id := s_ID (session_at w p) in
  tables_wf w → session_messages id w = sys :: old ++ recent →
  length old = 5%nat → (3 ≤ length recent)%nat →
  is_system_prompt sys = true → Forall (λ m, is_system_prompt m = false) (old ++ recent) →
  StronglySorted created_lt (sys :: old ++ recent) →
  (∀ m, m ∈ sys :: old ++ recent → f64_ltb (m_CreatedAt m) (now_f (clock (S (ticks w)))) = true) →
  (∀ g, has_message (m_ID (summary_message id text g w)) (messages_tbl w) = false) →
  reply (summary_part <$> old) = Ok (Ok text) → text ≠ "" →
  ∃ w' g, compressContext p reply w = (Ok (), w') ∧
    session_messages id w' = sys :: recent ++ [summary_message id text g w] ∧
    s_TotalTokens (session_at w' p) = total_tokens (session_messages id w') ∧
    ∀ other, other ≠ id → session_messages other w' = session_messages other w.
Proof.
  intros id Hwf Hm Hold Hrec Hsys Hall Hsort Hnow Hfresh Hreply Htext.
  assert (go_len (sys :: old ++ recent) = 6 + go_len recent ∧ 3 <= go_len recent) as [Hlen Hlen'].
  { unfold go_len. simpl. rewrite length_app. lia. }
  unfold compressContext, M_bind at 1, M_gets. fold id. unfold M_bind at 1.
  rewrite get_messages_ok, Hm by done.
  rewrite (proj2 (Z.leb_gt _ _)) by (rewrite Hlen; unfold RecentMessageKeep; lia).
  rewrite (splitIdx_conversation sys (old ++ recent)) by (try done; rewrite length_app; lia).
  change (6 <=? 1) with false. change (Z.to_nat 6 - 1)%nat with 5%nat.
  change (drop 1 (sys :: old ++ recent)) with (old ++ recent).
  rewrite (take_app_length' old recent) by done. cbv zeta. rewrite Hreply.
  rewrite (proj2 (String.eqb_neq _ _) Htext).
  set (g := int_add _ 1). set (w1 := add_stmts 1 w).
  assert (session_messages id w1 = sys :: old ++ recent) as Hm1 by exact Hm.
  destruct (compress_messages_ok id 6 text g w1 _ Hm1) as [k Hk]; [lia|apply Hfresh|].
  unfold M_bind at 1, M_wrap. rewrite Hk. clear Hk.
  change (Z.to_nat 6 - 1)%nat with 5%nat. change (drop 1 (sys :: old ++ recent)) with (old ++ recent).
  rewrite (take_app_length' old recent) by done.
  set (w2 := set_messages _ _).
  destruct (auditLog_ok p "system" ("[Context compressed] " +:+ truncStr text 500) (estimateTokens text) g
    true w2) as (a & n & Ha).
  unfold M_bind at 1. rewrite Ha. unfold M_bind, M_try. rewrite get_messages_ok by done.
  set (w3 := set_audit a n _).
  assert (filter (λ m, m_SessionID m = id) (messages_tbl w) ≡ₚ sys :: old ++ recent) as Hp.
  { rewrite <-Hm. unfold session_messages. by rewrite by_created_perm. }
  assert (∀ w', messages_tbl w' = messages_tbl w3 →
    session_messages id w' = sys :: recent ++ [summary_message id text g w] ∧
    ∀ other, other ≠ id → session_messages other w' = session_messages other w) as Hafter.
  { intros w' Hw'. assert (messages_tbl w3 = filter (λ m, m_ID m ∉ m_ID <$> old) (messages_tbl w)
                             ++ [summary_message id text g w]) as Ht by reflexivity.
    split.
    - apply session_messages_unique; [by apply (sorted_with_summary sys _ old recent)| |].
      { simpl. rewrite length_app. lia. }
      rewrite Hw', Ht, filter_app, (filter_removed id w sys old recent), filter_all; [done| |apply Hwf|done].
      by intros m ->%list_elem_of_singleton.
    - intros other Hne. unfold session_messages. f_equal.
      rewrite Hw', Ht, filter_app, (filter_removed_other id other w sys old recent) by (done || apply Hwf).
      rewrite (filter_none _ [summary_message id text g w]); [by rewrite app_nil_r|]. intros m ->%list_elem_of_singleton. simpl. congruence. }
  eexists _, g. split; [reflexivity|]. split_and!.
  - by apply Hafter.
  - unfold session_at at 1. cbn [AgentDB.heap set_cache]. rewrite lookup_insert_eq. reflexivity.
  - by apply Hafter.
Qed.
End compression.

(** The fields of a world under construction. *)
Ltac world_simpl :=
  cbn [AgentDB.heap AgentDB.next sessions_tbl messages_tbl audit_tbl audit_next cache ticks stmts detector
    set_cache set_sessions set_tables set_audit set_messages count_tick count_stmt add_stmts set_stmts].

Section messages.
Context `{!Store}.
Hypothesis no_fault : ∀ n, fault n = None.

Definition stored (m : CodingAgentMessage) : CodingAgentMessage :=
  if String.eqb (m_MetadataJSON m) "" then
    mk_Message (m_ID m) (m_SessionID m) (m_Role m) (m_Content m) (m_TokenCount m)
      (m_CompressGroup m) (m_IsSummary m) "{}" (m_CreatedAt m)
  else m.

Lemma stored_ID m : m_ID (stored m) = m_ID m.
Proof. unfold stored. by case_match. Qed.

Lemma insert_message_ok msg w :
  has_message (m_ID msg) (messages_tbl w) = false →
  InsertCodingAgentMessage msg w = (Ok (), set_messages (messages_tbl w ++ [stored msg]) (add_stmts 1 w)).
Proof.
  intros Hf. unfold InsertCodingAgentMessage. fold (stored msg).
  apply insert_row_ok; [done|]. by rewrite stored_ID.
Qed.

Lemma insert_message_duplicate msg w :
  has_message (m_ID msg) (messages_tbl w) = true →
  InsertCodingAgentMessage msg w =
    (Err "UNIQUE constraint failed: coding_agent_messages.id", add_stmts 1 w).
Proof.
  intros Hf. unfold InsertCodingAgentMessage, insert_message_row. fold (stored msg).
  rewrite stmt_ok by done. cbn [messages_tbl add_stmts]. by rewrite stored_ID, Hf.
Qed.

(** The message a prompt or a reply becomes, at a clock position. *)
Definition message_at (id role content md : string) (n : nat) : CodingAgentMessage :=
  mk_Message ("msg-" +:+ id +:+ "-" +:+ fmt_d (UnixMilli (clock n))) id role content
    (estimateTokens content) 0 false md (now_f (clock (S n))).

Definition audit_at (s : CodingAgentSession) (a_id : Z) (role content : string) (n : nat)
    : CodingAgentAuditEntry :=
  mk_AuditEntry a_id (s_ID s) (s_AgentType s) (s_Model s) role content (estimateTokens content) 0 false
    (now_f (clock n)).

Lemma M_bind_ok {A B} (m : M A) (f : A → M B) w a w' : m w = (Ok a, w') → M_bind m f w = f a w'.
Proof. unfold M_bind. by intros ->. Qed.

Lemma try_insert_ok msg w :
  ∃ r, M_try (InsertCodingAgentMessage msg) w =
    (Ok r, set_messages (if has_message (m_ID msg) (messages_tbl w) then messages_tbl w
                         else messages_tbl w ++ [stored msg]) (add_stmts 1 w)).
Proof.
  unfold M_try. destruct (has_message _ _) eqn:Hd.
  - rewrite insert_message_duplicate by done. by eexists.
  - rewrite insert_message_ok by done. by eexists.
Qed.

Lemma auditLog_exact p role content t g b w :
  auditLog p role content t g b w =
  (Ok (), set_audit (audit_tbl w ++ [mk_AuditEntry (audit_next w) (s_ID (session_at w p))
                                       (s_AgentType (session_at w p)) (s_Model (session_at w p)) role
                                       content t g b (now_f (clock (ticks w)))])
            (audit_next w + 1) (count_tick (add_stmts 1 w))).
Proof.
  unfold auditLog, M_bind, M_gets, M_now, M_try, InsertCodingAgentAuditEntry, M_ret.
  by rewrite stmt_ok by done.
Qed.

Lemma session_at_update f p w c n :
  session_at (set_cache c (<[p := f]> (AgentDB.heap w)) n w) p = f.
Proof. unfold session_at. cbn [AgentDB.heap set_cache]. by rewrite lookup_insert_eq. Qed.

Lemma row_ids_update s (rows : list session_row) :
  (λ r, s_ID (r_session r)) <$>
    ((λ r, if String.eqb (s_ID (r_session r)) (s_ID s)
           then mk_row (set_stats s (r_session r)) (r_metadata r) else r) <$> rows)
  = (λ r, s_ID (r_session r)) <$> rows.
Proof. rewrite <-list_fmap_compose. apply list_fmap_ext. intros i r _. simpl. by case_match. Qed.

Lemma update_session_ok f p w :
  update_session f p w =
  (Ok (), set_cache (cache w) (<[p := f (session_at w p)]> (AgentDB.heap w)) (AgentDB.next w) w).
Proof. done. Qed.

(** What [finishMessage] does when no statement fails. *)
Lemma finishMessage_ok p response w :
  let s := session_at w p in
  let out := message_at (s_ID s) "assistant" response "" (ticks w) in
  ∃ w', finishMessage p response false w = (Ok (response, p), w') ∧
    messages_tbl w' = (if has_message (m_ID out) (messages_tbl w) then messages_tbl w
                       else messages_tbl w ++ [stored out]) ∧
    audit_tbl w' = audit_tbl w ++ [audit_at s (audit_next w) "assistant" response (3 + ticks w)] ∧
    (λ r, s_ID (r_session r)) <$> sessions_tbl w' = (λ r, s_ID (r_session r)) <$> sessions_tbl w ∧
    cache w' = <[s_ID s := p]> (cache w) ∧
    s_TotalMessages (session_at w' p) = int_incr (s_TotalMessages s) ∧
    s_TotalTokens (session_at w' p) = int_add (s_TotalTokens s) (estimateTokens response).
Proof.
  intros s out. destruct (try_insert_ok out (count_tick (count_tick w))) as [r Hins].
  eexists. split.
  - unfold finishMessage. do 3 (erewrite M_bind_ok; [|reflexivity]). cbv zeta.
    erewrite M_bind_ok; [|exact Hins]. erewrite M_bind_ok; [|reflexivity].
    erewrite M_bind_ok; [|apply update_session_ok]. erewrite M_bind_ok; [|apply auditLog_exact]. do 2 (erewrite M_bind_ok; [|reflexivity]).
    erewrite M_bind_ok; [|unfold M_try, UpdateCodingAgentSession; rewrite stmt_ok by done; reflexivity].
    erewrite M_bind_ok; [|reflexivity]. reflexivity.
  - world_simpl. rewrite row_ids_update. unfold s, out, session_at, audit_at. world_simpl.
    rewrite !lookup_insert_eq. split_and!; reflexivity.
Qed.
(** What happens before the reply is awaited, when the budget holds. *)
Lemma send_begin_ok p id role content md an w :
  let s := session_at w p in
  let inm := message_at id role content (match md with Some md => marshal_md md | None => "" end) (ticks w) in
  cache w !! id = Some p → s_ID s = id → s_Status s = SessionActive →
  has_message (m_ID inm) (messages_tbl w) = false →
  int_add (s_TotalTokens s) (estimateTokens content) <= threshold s →
  ∃ jobID w', send_begin id role content md an w = (Ok (p, false, jobID), w') ∧
    messages_tbl w' = messages_tbl w ++ [stored inm] ∧
    audit_tbl w' = audit_tbl w ++ [audit_at s (audit_next w) role content (2 + ticks w)] ∧
    audit_next w' = audit_next w + 1 ∧ sessions_tbl w' = sessions_tbl w ∧ cache w' = cache w ∧
    session_at w' p = add_message (estimateTokens content) s ∧ ticks w' = (4 + ticks w)%nat.
Proof.
  intros s inm Hc Hid Hst Hf Hb. eexists _, _. split.
  - unfold send_begin, GetSession.
    erewrite M_bind_ok;
      [|unfold M_bind at 1, M_gets at 1; rewrite Hc; reflexivity].
    erewrite M_bind_ok; [|reflexivity]. fold s. rewrite Hst. change (negb _) with false. cbv iota.
    do 2 (erewrite M_bind_ok; [|reflexivity]). cbv zeta.
    erewrite M_bind_ok; [|unfold M_wrap; rewrite (insert_message_ok inm) by exact Hf; reflexivity].
    erewrite M_bind_ok; [|apply update_session_ok]. erewrite M_bind_ok; [|apply auditLog_exact].
    erewrite M_bind_ok.
    2: { unfold maybeCompress. erewrite M_bind_ok; [|reflexivity].
         rewrite (proj2 (Z.leb_le _ _)); [reflexivity|].
         unfold session_at. world_simpl. rewrite lookup_insert_eq. exact Hb. }
    erewrite M_bind_ok; [|unfold buildOllamaMessages, M_wrap, M_bind at 1, M_gets at 1;
      erewrite M_bind_ok; [|apply get_messages_ok; done]; reflexivity].
    erewrite M_bind_ok; [|reflexivity]. reflexivity.
  - world_simpl. unfold session_at, audit_at. world_simpl. rewrite !lookup_insert_eq.
    split_and!; reflexivity.
Qed.


(** A fast answer is lost: when the prompt and the reply fall in the same
    millisecond they get the same id, the reply is not stored, and yet the
    caller gets it and the counters include it. *)
Theorem fast_reply_lost fmt_v p id role content md an w response :
  let s := session_at w p in
  let inm := message_at id role content (match md with Some md => marshal_md md | None => "" end) (ticks w) in
  cache w !! id = Some p → s_ID s = id → s_Status s = SessionActive →
  int_add (s_TotalTokens s) (estimateTokens content) <= threshold s →
  has_message (m_ID inm) (messages_tbl w) = false →
  UnixMilli (clock (ticks w)) = UnixMilli (clock (4 + ticks w)) →
  (∀ jobID, obtain_response fmt_v jobID an = Ok response) →
  ∃ w', SendMessage fmt_v id role content md an w = (Ok (response, p), w') ∧
    messages_tbl w' = messages_tbl w ++ [stored inm] ∧
    s_TotalMessages (session_at w' p) = int_incr (int_incr (s_TotalMessages s)).
Proof.
  intros s inm Hc Hid Hst Hb Hin Hms Hr.
  destruct (send_begin_ok p id role content md an w Hc Hid Hst Hin Hb)
    as (jobID & w1 & Hs & Hm & _ & _ & _ & _ & Hs1 & Ht).
  destruct (finishMessage_ok p response w1) as (w2 & Hf & Hm2 & _ & _ & _ & Htm & _).
  exists w2. split_and!.
  - unfold SendMessage. erewrite M_bind_ok; [|exact Hs]. cbv beta iota zeta.
    erewrite M_bind_ok; [exact Hf|]. unfold M_of_result. by rewrite Hr.
  - assert (s_ID (session_at w1 p) = id) as Hid1 by (rewrite Hs1; exact Hid).
    rewrite Hm2, Hid1, Ht, Hm. fold inm.
    assert (has_message (m_ID (message_at id "assistant" response "" (4 + ticks w)))
              (messages_tbl w ++ [stored inm]) = true) as Hdup.
    { unfold has_message. rewrite existsb_app. simpl. rewrite stored_ID. unfold inm, message_at. cbn [m_ID].
      change (S (S (S (S (ticks w))))) with (4 + ticks w)%nat.
      rewrite <-Hms, String.eqb_refl. by rewrite orb_true_r. }
    by rewrite Hdup.
  - by rewrite Htm, Hs1.
Qed.

(** A session deleted while its reply is awaited comes back: when the
    reply arrives the session is found again in the cache, and the reply is
    stored for a session that has no row any more. *)
Theorem deleted_session_resurrected p response w :
  let id := s_ID (session_at w p) in
  let w1 := (DeleteSession id w).2 in
  has_message (m_ID (message_at id "assistant" response "" (ticks w1))) (messages_tbl w1) = false →
  let w2 := (finishMessage p response false w1).2 in
  (GetSession id w2).1 = Ok (Some p) ∧
  (∃ m, m ∈ messages_tbl w2 ∧ m_SessionID m = id) ∧
  (∀ r, r ∈ sessions_tbl w2 → s_ID (r_session r) ≠ id).
Proof.
  intros id w1 Hf w2.
  assert (session_at w1 p = session_at w p ∧ ∀ r, r ∈ sessions_tbl w1 → s_ID (r_session r) ≠ id) as [Hs Hrow].
  { unfold w1, DeleteSession, DeleteCodingAgentSession, transaction.
    erewrite M_bind_ok; [|reflexivity]. rewrite stmt_ok by done. unfold M_bind. rewrite !stmt_ok by done.
    split; [done|]. by intros r [? _]%list_elem_of_filter. }
  destruct (finishMessage_ok p response w1) as (w2' & Hfin & Hm & _ & Hrows & Hcache & _).
  assert (w2 = w2') as -> by (unfold w2; by rewrite Hfin). rewrite Hs in Hm, Hcache. fold id in Hm, Hcache.
  split_and!.
  - unfold GetSession, M_bind at 1, M_gets. by rewrite Hcache, lookup_insert_eq.
  - rewrite Hm, Hf. eexists. split; [apply elem_of_app; right; by left|]. unfold stored. by case_match.
  - intros r Hr Hid. assert (id ∈ (λ r, s_ID (r_session r)) <$> sessions_tbl w2') as Hin.
    { rewrite <-Hid. by apply (list_elem_of_fmap_2 (λ r, s_ID (r_session r))). }
    rewrite Hrows in Hin. apply list_elem_of_fmap in Hin as (r' & Hr' & Hin). by apply (Hrow r').
Qed.

End messages.


(** ** A concrete store *)

(** Insertion by creation time: what [ORDER BY created_at] may return. *)
Fixpoint insert_by_time (m : CodingAgentMessage) (l : list CodingAgentMessage) : list CodingAgentMessage :=
  match l with
  | [] => [m]
  | x :: l' => if f64_ltb (m_CreatedAt m) (m_CreatedAt x) then m :: l else x :: insert_by_time m l'
  end.
Definition time_sort (l : list CodingAgentMessage) : list CodingAgentMessage := foldr insert_by_time [] l.

Lemma insert_by_time_perm m l : insert_by_time m l ≡ₚ m :: l.
Proof.
  induction l as [|x l IH]; simpl; [done|]. case_match; [done|]. rewrite IH. apply perm_swap.
Qed.

Lemma insert_by_time_sorted m l : StronglySorted created_le l → StronglySorted created_le (insert_by_time m l).
Proof.
  induction 1 as [|x l Hl IH Hall]; simpl; [repeat constructor|].
  rewrite Forall_forall in Hall. destruct (f64_ltb (m_CreatedAt m) (m_CreatedAt x)) eqn:Hm.
  - constructor; [by constructor; [|apply Forall_forall]|]. apply Forall_forall.
    intros y [->|Hy]%elem_of_cons; unfold created_le; [by apply f64_ltb_asym|].
    apply not_true_iff_false. intros Hym. pose proof (f64_ltb_trans _ _ _ Hym Hm) as Hyx.
    specialize (Hall y Hy). unfold created_le in Hall. congruence.
  - constructor; [done|]. apply Forall_forall. intros y. rewrite insert_by_time_perm.
    intros [->|Hy]%elem_of_cons; [done|by apply Hall].
Qed.

Definition example_store (ms : nat → Z) : Store :=
  mk_Store (λ _, None) (λ n, unix_epoch + ms n * Millisecond) time_sort (λ l, l) (λ l, l)
    (λ _ _, true) (λ _, "{}") (λ _, None).

Lemma example_store_laws ms : @StoreLaws (example_store ms).
Proof.
  split.
  - intros l. simpl. induction l as [|m l IH]; simpl; [done|]. by rewrite insert_by_time_perm, IH.
  - intros l _. simpl. induction l as [|m l IH]; simpl; [constructor|]. by apply insert_by_time_sorted.
Qed.

(** Readings one second apart, and readings that never advance. *)
Definition ticking : Store := example_store (λ n, 1000 * Z.of_nat n + 100000).
Definition frozen : Store := example_store (λ _, 100000).

(** ** Witnesses *)

Definition example_session (tokens : Z) : CodingAgentSession :=
  mk_Session "s" "custom" "llama3" 32000 "active" "" None f64_zero f64_zero 1 tokens 0.
Definition example_world (ms : list CodingAgentMessage) : world :=
  mk_world [mk_row (example_session 10) "{}"] ms [] 1 {["s" := 0%nat]} {[0%nat := example_session 10]} 1 ∅ 0 0.
Definition example_message (i : nat) (role : string) : CodingAgentMessage :=
  mk_Message (fmt_d (Z.of_nat i)) "s" role "text" 1 0 false "{}" (f64_of_Z (Z.of_nat i)).
Definition example_old : list CodingAgentMessage := (λ i, example_message i "user") <$> seq 1 5.
Definition example_recent : list CodingAgentMessage := (λ i, example_message i "user") <$> seq 6 3.
Definition example_msgs : list CodingAgentMessage :=
  example_message 0 "system" :: example_old ++ example_recent.

Lemma example_tables_wf : tables_wf (example_world example_msgs).
Proof.
  split; [|apply NoDup_singleton|constructor|by intros a ?%not_elem_of_nil].
  apply (bool_decide_unpack _). vm_compute. exact I.
Qed.

Lemma example_sorted : StronglySorted created_lt example_msgs.
Proof. repeat constructor. Qed.

Lemma compression_exact_witness :
  ∃ w' g, @compressContext ticking 0%nat (λ _, Ok (Ok "summary")) (example_world example_msgs) = (Ok (), w') ∧
    @session_messages ticking "s" w' =
      example_message 0 "system" :: example_recent ++
      [@summary_message ticking "s" "summary" g (example_world example_msgs)].
Proof.
  destruct (@compression_exact ticking (example_store_laws _) (λ _, eq_refl) 0%nat (λ _, Ok (Ok "summary"))
    (example_world example_msgs) (example_message 0 "system") example_old example_recent "summary")
    as (w' & g & H1 & H2 & _); [exact example_tables_wf|vm_compute; reflexivity|reflexivity|simpl; lia|reflexivity
      |repeat constructor|exact example_sorted| |intros g; vm_compute; reflexivity|reflexivity|discriminate|].
  - apply Forall_forall. repeat constructor.
  - exists w', g. split; [exact H1|exact H2].
Defined.

Definition example_answers : answers :=
  mk_answers (λ _, Err "") false [] None (Ok (Ok (200, mk_chat_reply "hello" ""))).


Lemma fast_reply_lost_witness :
  ∃ w', @SendMessage frozen (λ _, "") "s" "user" "hi" None example_answers (example_world example_msgs)
          = (Ok ("hello", 0%nat), w') ∧ length (messages_tbl w') = 10%nat.
Proof.
  destruct (@fast_reply_lost frozen (λ _, eq_refl) (λ _, "") 0%nat "s" "user" "hi" None example_answers
    (example_world example_msgs) "hello") as (w' & H1 & H2 & _);
    [reflexivity|reflexivity|reflexivity|vm_compute; discriminate|vm_compute; reflexivity
      |reflexivity|reflexivity|].
  exists w'. split; [exact H1|]. rewrite H2. reflexivity.
Defined.

Lemma deleted_session_resurrected_witness :
  (@GetSession ticking "s" (@finishMessage ticking 0%nat "late" false
     (@DeleteSession ticking "s" (example_world example_msgs)).2).2).1 = Ok (Some 0%nat).
Proof.
  apply (@deleted_session_resurrected ticking (λ _, eq_refl) 0%nat "late" (example_world example_msgs)).
  vm_compute. reflexivity.
Defined.

