(* ===== verification/AuditTrail.v ===== *)
(** * The audit trail ([hive-server-go/audit.go], [main.go])

    Every request a server handles leaves a request and a response event.
    Events go to a buffer; a background goroutine empties the buffer into an
    SQLite table, from which the queries read them back.  The handlers that
    log and the background loop interleave where the code takes or releases
    the manager's lock or uses a channel: [exec] is one such step.  The
    database and JSON text are the class [AuditLib]. *)

From S2P Require Import Prelude GoFloat GoFloatExact GoText GoHttp.

Local Open Scope string_scope.
Local Open Scope list_scope.
Local Open Scope Z_scope.

(** ** Data *)

Record AuditEvent := mk_Event {
  e_ID : Z;
  e_RequestID : string;
  e_ParentID : string;
  e_EventType : string;
  e_Category : string;
  e_Method : string;
  e_Path : string;
  e_StatusCode : Z;
  e_ClientID : string;
  e_AgentType : string;
  e_Model : string;
  e_JobType : string;
  e_JobID : string;
  e_Content : string;
  e_Query : string;
  e_Prompt : string;
  e_Overrides : option (gmap string json);
  e_DurationMs : f64;
  e_TokenCount : Z;
  e_ServedBy : string;
  e_Metadata : option (gmap string json);
  e_ErrorMessage : string;
  e_CreatedAt : Time }.

(** An event with another identity: its row id, request id and time. *)
Definition with_identity (i : Z) (rid : string) (t : Time) (e : AuditEvent) : AuditEvent :=
  mk_Event i rid (e_ParentID e) (e_EventType e) (e_Category e) (e_Method e) (e_Path e) (e_StatusCode e)
    (e_ClientID e) (e_AgentType e) (e_Model e) (e_JobType e) (e_JobID e) (e_Content e) (e_Query e)
    (e_Prompt e) (e_Overrides e) (e_DurationMs e) (e_TokenCount e) (e_ServedBy e) (e_Metadata e)
    (e_ErrorMessage e) t.

(** An event with other maps. *)
Definition with_maps (o md : option (gmap string json)) (e : AuditEvent) : AuditEvent :=
  mk_Event (e_ID e) (e_RequestID e) (e_ParentID e) (e_EventType e) (e_Category e) (e_Method e) (e_Path e)
    (e_StatusCode e) (e_ClientID e) (e_AgentType e) (e_Model e) (e_JobType e) (e_JobID e) (e_Content e)
    (e_Query e) (e_Prompt e) o (e_DurationMs e) (e_TokenCount e) (e_ServedBy e) md
    (e_ErrorMessage e) (e_CreatedAt e).

(** A row of [request_audit_trail].  The plain columns are the fields of
    [r_event], which holds no maps and the zero time: those columns are text
    and a [REAL]. *)
Record audit_row := mk_row {
  r_event : AuditEvent;
  r_overrides : string;
  r_metadata : string;
  r_created_at : f64 }.

Class AuditLib := mk_AuditLib {
  marshal_map : option (gmap string json) → result string;
  unmarshal_map : string → result (option (gmap string json));
  by_created_at : list audit_row → list audit_row;
  by_created_at_desc : list audit_row → list audit_row;
  sql_like : string → string → bool }.

(** [ORDER BY created_at] returns the same rows, sorted by the number in the
    column; the source stores whole seconds, which a [REAL] holds exactly. *)
Definition whole_second (r : audit_row) : Prop :=
  ∃ z, Z.abs z <= 2 ^ 53 - 1 ∧ r_created_at r = f64_of_Z z.

Class AuditLaws `{!AuditLib} : Prop := mk_AuditLaws {
  by_created_at_perm l : by_created_at l ≡ₚ l;
  by_created_at_sorted l : Forall whole_second l →
    StronglySorted (λ a b, f64_to_int (r_created_at a) <= f64_to_int (r_created_at b)) (by_created_at l);
  by_created_at_desc_perm l : by_created_at_desc l ≡ₚ l }.

(** ** Events of requests *)

Definition hex_digit (t : Time) : string :=
  from_opt "" ((λ c, String c "") <$> String.get (Z.to_nat (Z.rem (wrap64 (t - unix_epoch)) 16)) "0123456789abcdef").

(** One clock reading per digit. *)
Definition randomHex (rd : list Time) : string := join "" (hex_digit <$> rd).

Definition generateRequestID (now : Time) (rd : list Time) : string :=
  "req_" +:+ fmt_d (wrap64 (Z.div (now - unix_epoch) Millisecond)) +:+ "_" +:+ randomHex rd.

(** [msgs[len(msgs)-1]["content"]], when there is one. *)
Definition last_content (m : gmap string json) : option string :=
  msgs ← obj_get as_arr m "messages";
  lastMsg ← last msgs ≫= as_obj;
  obj_get as_str lastMsg "content".

(** [if v, ok := ...; ok && x == "" { x = v }]. *)
Definition fill (x : string) (v : option string) : string :=
  match v with Some v => if String.eqb x "" then v else x | None => x end.

Record request_fields := mk_fields {
  f_prompt : string;
  f_query : string;
  f_model : string;
  f_jobType : string }.

(** What [LogRequest] takes out of a decoded body. *)
Definition fields_of (body : gmap string json) : request_fields :=
  let prompt := obj_str body "prompt" in
  let query := obj_str body "query" in
  let model := obj_str body "model" in
  let jobType := obj_str body "job_type" in
  let '(prompt, model) :=
    match obj_get as_obj body "payload" with
    | Some payload =>
        let prompt := fill prompt (obj_get as_str payload "prompt") in
        let model := fill model (obj_get as_str payload "model") in
        (fill prompt (last_content payload), model)
    | None => (prompt, model)
    end in
  let prompt := fill prompt (last_content body) in
  mk_fields prompt query model jobType.

Definition category_of (path : string) : string :=
  if has_prefix path "/api/agent" then "coding_agent"
  else if has_prefix path "/v1/" then "openai_compat"
  else if has_prefix path "/api/jobs" then "job_queue"
  else if has_prefix path "/api/peers" then "mesh"
  else "system".

Record http_request := mk_http {
  q_Method : string;
  q_Path : string;
  q_RemoteAddr : string;
  q_UserAgent : string }.

(** [body] is the outcome of [json.Unmarshal] into a map, [None] when there
    is no body or it is not an object; a JSON [null] gives the nil map. *)
Definition LogRequest (requestID : string) (r : http_request) (body : option (option (gmap string json)))
    (clientID : string) : AuditEvent :=
  let f := match body with
           | Some b => fields_of (from_opt ∅ b)
           | None => mk_fields "" "" "" ""
           end in
  let overrides := match body with Some b => b | None => Some ∅ end in
  mk_Event 0 requestID "" "request" (category_of (q_Path r)) (q_Method r) (q_Path r) 0 clientID ""
    (f_model f) (f_jobType f) "" "" (f_query f) (f_prompt f) overrides f64_zero 0 ""
    (Some (jmap [("remote_addr", JStr (q_RemoteAddr r)); ("user_agent", JStr (q_UserAgent r))])) "" 0.

(** [choices[0].message.content]. *)
Definition choice_content (body : gmap string json) : option string :=
  choices ← obj_get as_arr body "choices";
  choice ← head choices ≫= as_obj;
  msg ← obj_get as_obj choice "message";
  obj_get as_str msg "content".

Definition response_content (body : gmap string json) : string :=
  match choice_content body with Some c => c | None => obj_str body "content" end.

Definition response_tokens (body : gmap string json) : Z :=
  match obj_get as_obj body "usage" ≫= (λ usage, obj_get as_num usage "total_tokens") with
  | Some total => f64_to_int total
  | None => 0
  end.

Definition LogResponse (serverID requestID : string) (statusCode : Z)
    (body : option (option (gmap string json))) (durationMs : f64) : AuditEvent :=
  let b := from_opt ∅ (from_opt None body) in
  mk_Event 0 requestID "" "response" "" "" "" statusCode "" "" "" "" "" (response_content b) "" "" None
    durationMs (response_tokens b) serverID None "" 0.

Definition LogJobEvent (requestID jobID jobType model eventType : string)
    (metadata : option (gmap string json)) : AuditEvent :=
  mk_Event 0 requestID "" eventType "job_queue" "" "" 0 "" "" model jobType jobID "" "" "" None f64_zero 0 ""
    metadata "" 0.

Definition LogForwardEvent (requestID peerID model eventType : string) : AuditEvent :=
  mk_Event 0 requestID "" eventType "mesh" "" "" 0 "" "" model "" "" "" "" "" None f64_zero 0 ""
    (Some (jmap [("peer_id", JStr peerID)])) "" 0.

Definition LogError (requestID errorMsg : string) (metadata : option (gmap string json)) : AuditEvent :=
  mk_Event 0 requestID "" "error" "" "" "" 0 "" "" "" "" "" "" "" "" None f64_zero 0 "" metadata errorMsg 0.

(** [auditMiddleware]: the paths that leave no event, and the two events of
    the others around the handler. *)
Definition audit_skipped (method path : string) : bool :=
  existsb (String.eqb path)
    ["/api/health"; "/api/status"; "/metrics"; "/api/peers"; "/api/peers/health"]
  || has_prefix path "/static/"
  || existsb (String.eqb path) ["/api/logs"; "/api/logs/clear"; "/api/clients"; "/version"]
  || existsb (λ p, String.eqb path p && String.eqb method "GET")
       ["/api/reports/usage"; "/api/reports/usage/timeseries"; "/api/reports/usage/histogram";
        "/api/reports/usage/recent"; "/api/ollama/health"].

Definition audit_events (serverID requestID : string) (r : http_request)
    (reqBody : option (option (gmap string json))) (code : Z)
    (respBody : option (option (gmap string json))) (durationMs : f64) : list AuditEvent :=
  if audit_skipped (q_Method r) (q_Path r) then []
  else [LogRequest requestID r reqBody ""; LogResponse serverID requestID code respBody durationMs].

(** ** The buffer and the background loop *)

(** Where the loop is: in its [select], about to take the lock in [flush],
    inserting the events it copied, or returned.  [last] tells the flush of
    the stop case. *)
Inductive loop_state :=
  | LWait
  | LFlush (last : bool)
  | LInsert (es : list AuditEvent) (last : bool)
  | LDone.

(** The manager, its table and its goroutines: [signal] is the one-place
    channel [flushCh], [senders] the handlers between their append and their
    send.  [attempts] records the insertions in order with their success. *)
Record sys := mk_sys {
  table : list audit_row;
  next_id : Z;
  buffer : list AuditEvent;
  signal : bool;
  stopped : bool;
  loop : loop_state;
  senders : nat;
  attempts : list (AuditEvent * bool) }.

Definition NewAuditTrailManager : sys := mk_sys [] 1 [] false false LWait 0 [].

Inductive op :=
  | OAppend (e : AuditEvent) (now : Time) (rid : string)
  | OSignal
  | OStop
  | OWake_stop
  | OWake_signal
  | OTick
  | OFlush
  | OInsert (ok : bool)
  | OReturn.

(** The two defaults [LogEvent] fills in. *)
Definition complete_event (e : AuditEvent) (now : Time) (rid : string) : AuditEvent :=
  with_identity (e_ID e) (if String.eqb (e_RequestID e) "" then rid else e_RequestID e)
    (if IsZero (e_CreatedAt e) then now else e_CreatedAt e) e.

Section audit.
Context `{AL : !AuditLib}.

(** [overridesJSON, _ := json.Marshal(...)], as text. *)
Definition map_text (m : option (gmap string json)) : string :=
  match marshal_map m with Ok s => s | Err _ => "" end.

(** [make(map[string]interface{})], then [json.Unmarshal] into it. *)
Definition map_of_text (s : string) : option (gmap string json) :=
  match unmarshal_map s with Ok m => m | Err _ => Some ∅ end.

Definition row_of (i : Z) (e : AuditEvent) : audit_row :=
  mk_row (with_maps None None (with_identity i (e_RequestID e) 0 e))
    (map_text (e_Overrides e)) (map_text (e_Metadata e)) (f64_of_Z (Unix (e_CreatedAt e))).

(** One iteration of [scanEvents]. *)
Definition scan_row (r : audit_row) : AuditEvent :=
  with_maps (map_of_text (r_overrides r)) (map_of_text (r_metadata r))
    (with_identity (e_ID (r_event r)) (e_RequestID (r_event r))
       (unix_epoch + f64_to_int (r_created_at r) * Second) (r_event r)).

(** One step; [None] when it cannot happen in this state (or, for a second
    [Stop], panics). *)
Definition exec (o : op) (S : sys) : option sys :=
  let '(mk_sys tbl nid buf sig stop lp snd att) := S in
  match o, lp with
  | OAppend e now rid, _ =>
      Some (mk_sys tbl nid (buf ++ [complete_event e now rid]) sig stop lp (Datatypes.S snd) att)
  | OSignal, _ =>
      match snd with
      | O => None
      | Datatypes.S n => Some (mk_sys tbl nid buf true stop lp n att)
      end
  | OStop, _ => if stop then None else Some (mk_sys tbl nid buf sig true lp snd att)
  | OWake_stop, LWait => if stop then Some (mk_sys tbl nid buf sig stop (LFlush true) snd att) else None
  | OWake_signal, LWait => if sig then Some (mk_sys tbl nid buf false stop (LFlush false) snd att) else None
  | OTick, LWait => Some (mk_sys tbl nid buf sig stop (LFlush false) snd att)
  | OFlush, LFlush l =>
      match buf with
      | [] => Some (mk_sys tbl nid buf sig stop (if l then LDone else LWait) snd att)
      | _ => Some (mk_sys tbl nid [] sig stop (LInsert buf l) snd att)
      end
  | OInsert true, LInsert (e :: es) l =>
      Some (mk_sys (tbl ++ [row_of nid e]) (nid + 1) buf sig stop (LInsert es l) snd (att ++ [(e, true)]))
  | OInsert false, LInsert (e :: es) l =>
      Some (mk_sys tbl nid buf sig stop (LInsert es l) snd (att ++ [(e, false)]))
  | OReturn, LInsert [] l => Some (mk_sys tbl nid buf sig stop (if l then LDone else LWait) snd att)
  | _, _ => None
  end.

Fixpoint run (os : list op) (S : sys) : option sys :=
  match os with
  | [] => Some S
  | o :: os => S' ← exec o S; run os S'
  end.

(** ** Queries *)

(** [LIMIT n]; a negative one is no limit. *)
Definition limit_rows {A} (n : Z) (l : list A) : list A :=
  if n <? 0 then l else take (Z.to_nat n) l.

(** A query answers with the database's error, if it has one, or with the
    rows scanned. *)
Definition query (fault : option string) (rows : list audit_row) : result (list AuditEvent) :=
  match fault with Some e => Err e | None => Ok (scan_row <$> rows) end.

Definition timeline_rows (requestID : string) (tbl : list audit_row) : list audit_row :=
  by_created_at (filter (λ r, e_RequestID (r_event r) = requestID) tbl).

Definition GetRequestTimeline (fault : option string) (requestID : string) (tbl : list audit_row)
    : result (list AuditEvent) :=
  query fault (timeline_rows requestID tbl).

Definition GetRecentEvents (fault : option string) (limit : Z) (category : string) (tbl : list audit_row)
    : result (list AuditEvent) :=
  let rows := if String.eqb category "" then tbl
              else filter (λ r, e_Category (r_event r) = category) tbl in
  query fault (limit_rows limit (by_created_at_desc rows)).

Definition matches (pattern : string) (r : audit_row) : bool :=
  let e := r_event r in
  existsb (sql_like pattern)
    [e_Content e; e_Query e; e_Prompt e; e_Model e; e_Path e; e_Method e; e_JobType e; e_ErrorMessage e].

Definition SearchEvents (fault : option string) (searchQuery : string) (limit : Z) (tbl : list audit_row)
    : result (list AuditEvent) :=
  query fault (limit_rows limit
    (by_created_at_desc (filter (λ r, matches ("%" +:+ searchQuery +:+ "%") r = true) tbl))).

Definition event_counts (events : list AuditEvent) : gmap string Z :=
  foldl (λ m e, <[e_EventType e := int_incr (from_opt 0 (m !! e_EventType e))]> m) ∅ events.

(** [events[len(events)-1].CreatedAt.Sub(events[0].CreatedAt).Seconds() * 1000]. *)
Definition span_ms (events : list AuditEvent) : f64 :=
  match head events, last events with
  | Some a, Some b => f64_mul (Seconds (time_Sub (e_CreatedAt b) (e_CreatedAt a))) (f64_of_Z 1000)
  | _, _ => f64_zero
  end.

Definition map_json (m : option (gmap string json)) : json :=
  match m with Some m => JObj m | None => JNull end.

(** The keys the first request event sets. *)
Definition request_keys (e : AuditEvent) : list (string * json) :=
  [("method", JStr (e_Method e)); ("path", JStr (e_Path e)); ("model", JStr (e_Model e));
   ("prompt", JStr (e_Prompt e)); ("query", JStr (e_Query e)); ("client_id", JStr (e_ClientID e));
   ("agent_type", JStr (e_AgentType e)); ("job_type", JStr (e_JobType e));
   ("overrides", map_json (e_Overrides e))].

(** [if cond && detail[k] == nil { detail[k] = v }]. *)
Definition set_once (cond : bool) (k : string) (v : json) (detail : gmap string json) : gmap string json :=
  if cond then match detail !! k with Some _ => detail | None => <[k := v]> detail end else detail.

#[local] Arguments set_once : simpl never.

Definition add_response (detail : gmap string json) (e : AuditEvent) : gmap string json :=
  if String.eqb (e_EventType e) "response" then
    let detail := set_once (negb (String.eqb (e_Content e) "")) "response_content" (JStr (e_Content e)) detail in
    let detail := set_once true "status_code" (JInt (e_StatusCode e)) detail in
    let detail := set_once (0 <? e_TokenCount e) "token_count" (JInt (e_TokenCount e)) detail in
    set_once (negb (String.eqb (e_ServedBy e) "")) "served_by" (JStr (e_ServedBy e)) detail
  else detail.

(** The keys of the reply, the events apart. *)
Definition detail_of (requestID : string) (events : list AuditEvent) : gmap string json :=
  let detail := jmap [("request_id", JStr requestID); ("total_events", JInt (go_len events))] in
  let detail := match find_first (λ e, String.eqb (e_EventType e) "request") events with
                | Some (_, e) => jmap (request_keys e) ∪ detail
                | None => detail
                end in
  let detail := foldl add_response detail events in
  let totalDuration := if 1 <? go_len events then span_ms events else f64_zero in
  let detail := <["total_duration_ms" := JNum totalDuration]> detail in
  <["event_counts" := JObj (JInt <$> event_counts events)]> detail.

Definition GetRequestDetail (fault : option string) (requestID : string) (tbl : list audit_row)
    : result (option (gmap string json * list AuditEvent)) :=
  match GetRequestTimeline fault requestID tbl with
  | Err e => Err e
  | Ok [] => Ok None
  | Ok events => Ok (Some (detail_of requestID events, events))
  end.

Record request_summary := mk_summary {
  first_event : Time;
  last_event : Time;
  event_count : Z;
  sum_events : list AuditEvent;
  total_duration_ms : option f64;
  sum_event_counts : gmap string Z }.

Definition GetRequestSummary (fault : option string) (requestID : string) (tbl : list audit_row)
    : result (option request_summary) :=
  match GetRequestTimeline fault requestID tbl with
  | Err e => Err e
  | Ok [] => Ok None
  | Ok (e :: _ as events) =>
      Ok (Some (mk_summary (e_CreatedAt e) (from_opt 0 (e_CreatedAt <$> last events)) (go_len events) events
                  (if 1 <? go_len events then Some (span_ms events) else None) (event_counts events)))
  end.

(** ** Notions of the properties *)

Definition in_flight (l : loop_state) : list AuditEvent :=
  match l with LInsert es _ => es | _ => [] end.

(** The events a sequence of steps logged, as they went into the buffer. *)
Definition logged (os : list op) : list AuditEvent :=
  omap (λ o, match o with OAppend e now rid => Some (complete_event e now rid) | _ => None end) os.

Definition stored (att : list (AuditEvent * bool)) : list AuditEvent :=
  fst <$> filter (λ a, a.2 = true) att.

(** The table holding [es], in order of insertion. *)
Definition rows_of (es : list AuditEvent) : list audit_row := imap (λ i e, row_of (1 + Z.of_nat i) e) es.

(** The background loop is on its way to the buffer without the ticker. *)
Definition will_flush (S : sys) : Prop :=
  signal S = true ∨ (0 < senders S)%nat ∨ ∃ l, loop S = LFlush l.

Definition is_tick (o : op) : bool := match o with OTick => true | _ => false end.
Definition of_loop (o : op) : bool :=
  match o with OAppend _ _ _ | OSignal | OStop => false | _ => true end.

(** The event as a query can return it: without its row id, to the second. *)
Definition to_second (e : AuditEvent) : AuditEvent :=
  with_identity 0 (e_RequestID e) (unix_epoch + Unix (e_CreatedAt e) * Second) e.
Definition without_ID (e : AuditEvent) : AuditEvent :=
  with_identity 0 (e_RequestID e) (e_CreatedAt e) e.

(** Nothing is on its way and the database has refused nothing. *)
Definition settled (S : sys) : Prop :=
  in_flight (loop S) ++ buffer S = [] ∧ Forall (λ a, a.2 = true) (attempts S).

(** The event's maps survive their trip through JSON text, and its time the
    one through a [REAL]. *)
Definition survives (e : AuditEvent) : Prop :=
  map_of_text (map_text (e_Overrides e)) = e_Overrides e ∧
  map_of_text (map_text (e_Metadata e)) = e_Metadata e ∧
  Z.abs (Unix (e_CreatedAt e)) <= 2 ^ 53 - 1.

(** The first of the candidates that is present and not empty. *)
Definition first_nonempty (l : list (option string)) : string :=
  from_opt "" (head (filter (λ s, s ≠ "") (omap id l))).

(** ** Lemmas *)

Ltac step_cases o S :=
  destruct S as [tbl nid buf sig stop lp snd att];
  destruct o as [e now rid| | | | | | |[]|]; destruct lp as [|lst|[|x es] lst|]; simpl in *; try done.

Lemma logged_cons o os : logged (o :: os) = logged [o] ++ logged os.
Proof. unfold logged. by destruct o. Qed.

Lemma rows_of_snoc es e : rows_of (es ++ [e]) = rows_of es ++ [row_of (1 + go_len es) e].
Proof. unfold rows_of, go_len. rewrite imap_app. simpl. by rewrite Nat.add_0_r. Qed.

Lemma stored_app att att' : stored (att ++ att') = stored att ++ stored att'.
Proof. unfold stored. by rewrite filter_app, fmap_app. Qed.

Lemma stored_all es : stored ((λ e, (e, true)) <$> es) = es.
Proof.
  induction es as [|e es IH]; [done|]. unfold stored in *. rewrite fmap_cons, filter_cons_True by done.
  by rewrite fmap_cons, IH.
Qed.

Lemma stored_snoc att e ok :
  stored (att ++ [(e, ok)]) = stored att ++ (if ok then [e] else []).
Proof. rewrite stored_app. by destruct ok. Qed.

(** A step moves the events along the same path. *)
Lemma exec_order o S S' :
  exec o S = Some S' →
  (fst <$> attempts S') ++ in_flight (loop S') ++ buffer S' =
  (fst <$> attempts S) ++ in_flight (loop S) ++ buffer S ++ logged [o].
Proof.
  intros He. step_cases o S; repeat case_match; simplify_eq/=; rewrite ?app_nil_r; try done;
    rewrite ?fmap_app, <-?(assoc_L (++)); try done.
Qed.

Definition table_inv (S : sys) : Prop :=
  table S = rows_of (stored (attempts S)) ∧ next_id S = 1 + go_len (stored (attempts S)).

Lemma exec_table o S S' : exec o S = Some S' → table_inv S → table_inv S'.
Proof.
  unfold table_inv. intros He [Ht Hn]. step_cases o S; repeat case_match; simplify_eq/=; try done;
    rewrite stored_snoc; rewrite ?app_nil_r, ?rows_of_snoc, ?go_len_app; try done.
  split; [done|]. change (go_len [x]) with 1. lia.
Qed.

Lemma exec_flush o S S' :
  exec o S = Some S' → (buffer S ≠ [] → loop S ≠ LDone → will_flush S) →
  buffer S' ≠ [] → loop S' ≠ LDone → will_flush S'.
Proof.
  unfold will_flush. intros He Hw.
  step_cases o S; repeat case_match; simplify_eq/=; intros Hb Hl; try done; eauto with lia; try naive_solver lia.
Qed.

Lemma exec_done o S S' :
  exec o S = Some S' → loop S = LDone →
  loop S' = LDone ∧ table S' = table S ∧ attempts S' = attempts S ∧ buffer S' = buffer S ++ logged [o].
Proof.
  intros He Hl. step_cases o S; repeat case_match; simplify_eq/=; rewrite ?app_nil_r; done.
Qed.

Lemma audit_run_app os1 os2 S : run (os1 ++ os2) S = S' ← run os1 S; run os2 S'.
Proof. revert S. induction os1 as [|o os1 IH]; intros S; simpl; [done|]. destruct (exec o S); simpl; auto. Qed.

(** Invariants along runs. *)
Lemma run_inv (P : sys → Prop) os S S' :
  (∀ o S S', exec o S = Some S' → P S → P S') → run os S = Some S' → P S → P S'.
Proof.
  intros Hstep. revert S. induction os as [|o os IH]; intros S Hr HP; simpl in *; [by simplify_eq|].
  destruct (exec o S) as [S1|] eqn:He; simplify_eq/=. eauto.
Qed.

Lemma run_order os S S' :
  run os S = Some S' →
  (fst <$> attempts S') ++ in_flight (loop S') ++ buffer S' =
  (fst <$> attempts S) ++ in_flight (loop S) ++ buffer S ++ logged os.
Proof.
  revert S. induction os as [|o os IH]; intros S Hr; simpl in Hr.
  - simplify_eq. by rewrite app_nil_r.
  - apply bind_Some in Hr as (S1 & He & Hr). rewrite (IH _ Hr), logged_cons.
    pose proof (exec_order _ _ _ He) as H1. rewrite !(assoc_L (++)) in *. by rewrite H1.
Qed.

Lemma scan_row_of i e :
  survives e → without_ID (scan_row (row_of i e)) = to_second e.
Proof.
  intros (Ho & Hm & Hz). unfold without_ID, scan_row, row_of, to_second. simpl.
  rewrite f64_round_trip by done. unfold with_maps, with_identity. simpl. by rewrite Ho, Hm.
Qed.

Lemma rows_of_request rid es :
  (λ r, without_ID (scan_row r)) <$> filter (λ r, e_RequestID (r_event r) = rid) (rows_of es) =
  (λ e, without_ID (scan_row (row_of 1 e))) <$> filter (λ e, e_RequestID e = rid) es.
Proof.
  unfold rows_of.
  assert (∀ n, (λ r, without_ID (scan_row r)) <$>
      filter (λ r, e_RequestID (r_event r) = rid) (imap (λ i e, row_of (1 + Z.of_nat (n + i)) e) es) =
    (λ e, without_ID (scan_row (row_of 1 e))) <$> filter (λ e, e_RequestID e = rid) es) as Hn.
  { induction es as [|e es IH]; intros n; [done|]. simpl. rewrite !filter_cons.
    rewrite (imap_ext _ (λ i e, row_of (1 + Z.of_nat (S n + i)) e) es)
      by (intros i x _; unfold compose; f_equal; lia).
    case_decide as Hd; simpl in Hd; rewrite ?decide_True, ?decide_False by done; [|apply IH].
    rewrite !fmap_cons. f_equal. apply IH. }
  apply (Hn 0%nat).
Qed.

(** The loop alone, woken by its channel, moves the whole buffer. *)
Lemma insert_all es l S :
  loop S = LInsert es l →
  ∃ S', run (replicate (length es) (OInsert true) ++ [OReturn]) S = Some S' ∧
    attempts S' = attempts S ++ ((λ e, (e, true)) <$> es) ∧ buffer S' = buffer S ∧
    loop S' = (if l then LDone else LWait) ∧ stopped S' = stopped S ∧ signal S' = signal S.
Proof.
  revert S. induction es as [|e es IH]; intros [tbl nid buf sig stop lp snd att] Hl; simpl in *; subst lp; simpl.
  - eexists. split; [done|]. by rewrite app_nil_r.
  - edestruct (IH (mk_sys (tbl ++ [row_of nid e]) (nid + 1) buf sig stop (LInsert es l) snd (att ++ [(e, true)])))
      as (S' & Hr & Ha & Hb & Hl & Hst & Hsg); [done|].
    exists S'. simpl in *. split_and!; try done. by rewrite Ha, <-(assoc_L (++)).
Qed.

Lemma fill_first l v : fill (first_nonempty l) v = first_nonempty (l ++ [v]).
Proof.
  unfold first_nonempty. rewrite omap_app, filter_app. destruct v as [v|]; simpl; [|by rewrite app_nil_r].
  rewrite filter_cons, filter_nil.
  destruct (filter (λ s, s ≠ "") (omap id l)) as [|s ss] eqn:Hf; simpl.
  - case_decide; [done|]. by destruct (decide (v = "")) as [->|].
  - assert (s ∈ filter (λ s, s ≠ "") (omap id l)) as Hin by (rewrite Hf; by left).
    apply list_elem_of_filter in Hin as [Hs _]. by rewrite (proj2 (String.eqb_neq _ _) Hs).
Qed.

Lemma obj_str_first m k : obj_str m k = first_nonempty [obj_get as_str m k].
Proof. unfold obj_str, first_nonempty. destruct (obj_get as_str m k) as [s|]; [|done]. by destruct s. Qed.

Lemma set_once_ne c k v m k' : k ≠ k' → set_once c k v m !! k' = m !! k'.
Proof. intros Hk. unfold set_once. repeat case_match; by rewrite ?lookup_insert_ne. Qed.

Lemma set_once_new k v m : m !! k = None → set_once true k v m !! k = Some v.
Proof. intros Hm. unfold set_once. rewrite Hm. apply lookup_insert_eq. Qed.

Lemma add_response_other d e k :
  k ∉ ["response_content"; "status_code"; "token_count"; "served_by"] → add_response d e !! k = d !! k.
Proof.
  intros Hk. unfold add_response. case_match; [|done].
  by rewrite !set_once_ne by (intros <-; apply Hk; set_solver).
Qed.

Lemma add_response_request d e : e_EventType e = "request" → add_response d e = d.
Proof. intros He. unfold add_response. by rewrite He. Qed.

Lemma add_response_new d e :
  e_EventType e = "response" → d !! "status_code" = None → d !! "response_content" = None →
  add_response d e !! "status_code" = Some (JInt (e_StatusCode e)) ∧
  (e_Content e ≠ "" → add_response d e !! "response_content" = Some (JStr (e_Content e))).
Proof.
  intros He Hs Hc. unfold add_response. rewrite He. simpl. split.
  - rewrite !(set_once_ne _ _ _ _ "status_code") by done. rewrite set_once_new; [done|].
    by rewrite set_once_ne.
  - intros Hne. rewrite !(set_once_ne _ _ _ _ "response_content") by done.
    rewrite (proj2 (String.eqb_neq _ _) Hne). by apply set_once_new.
Qed.

(** What a settled manager's table reads back for one request. *)
Lemma timeline_spec `{!AuditLaws} os S rid :
  run os NewAuditTrailManager = Some S → settled S → Forall survives (logged os) →
  let t := scan_row <$> timeline_rows rid (table S) in
  without_ID <$> t ≡ₚ to_second <$> filter (λ e, e_RequestID e = rid) (logged os) ∧
  StronglySorted (λ a b, e_CreatedAt a <= e_CreatedAt b) t.
Proof.
  simpl. intros Hr [Hq Hall] Hsv.
  assert (logged os = stored (attempts S) ∧ table S = rows_of (logged os)) as [_ ->].
  { pose proof (run_order _ _ _ Hr) as Ho. simpl in Ho. rewrite Hq, app_nil_r in Ho.
    destruct (run_inv table_inv _ _ _ exec_table Hr ltac:(done)) as [-> _].
    unfold stored. rewrite (filter_all _ (attempts S)) by (by apply Forall_forall).
    by rewrite <-Ho. }
  split.
  - unfold timeline_rows. rewrite by_created_at_perm, <-list_fmap_compose.
    change (without_ID ∘ scan_row) with (λ r, without_ID (scan_row r)). rewrite rows_of_request.
    rewrite Forall_forall in Hsv. erewrite list_fmap_ext; [reflexivity|].
    intros i e He%list_elem_of_lookup_2. apply list_elem_of_filter in He as [_ He].
    by apply scan_row_of, Hsv.
  - unfold timeline_rows. eapply StronglySorted_fmap; [|apply by_created_at_sorted].
    + intros a b Hab. cbv beta in Hab. unfold scan_row, Second. cbn [e_CreatedAt with_maps with_identity]. lia.
    + apply Forall_forall. intros r [_ Hin]%list_elem_of_filter.
      unfold rows_of in Hin. apply elem_of_lookup_imap in Hin as (i & e & -> & He).
      rewrite Forall_forall in Hsv. destruct (Hsv e ltac:(by eapply list_elem_of_lookup_2)) as (_ & _ & Hz).
      by eexists.
Qed.

Lemma read_back_fields a e :
  without_ID a = to_second e →
  e_EventType a = e_EventType e ∧ request_keys a = request_keys e ∧ e_StatusCode a = e_StatusCode e ∧
  e_Content a = e_Content e ∧ e_CreatedAt a = unix_epoch + Unix (e_CreatedAt e) * Second.
Proof.
  intros Hae.
  assert (∀ {A} (f : AuditEvent → A), f (without_ID a) = f (to_second e)) as Hf by (intros; by rewrite Hae).
  split_and!; [exact (Hf _ e_EventType)|exact (Hf _ request_keys)|exact (Hf _ e_StatusCode)|
    exact (Hf _ e_Content)|exact (Hf _ e_CreatedAt)].
Qed.

(** What the detail says of a request event [e1] and a response event [e2],
    read back in either order. *)
Lemma detail_of_two rid e1 e2 a b :
  [without_ID a; without_ID b] ≡ₚ [to_second e1; to_second e2] →
  e_EventType e1 = "request" → e_EventType e2 = "response" →
  let d := detail_of rid [a; b] in
  (∀ k v, (k, v) ∈ request_keys e1 → d !! k = Some v) ∧
  d !! "status_code" = Some (JInt (e_StatusCode e2)) ∧
  (e_Content e2 ≠ "" → d !! "response_content" = Some (JStr (e_Content e2))) ∧
  (Unix (e_CreatedAt e1) = Unix (e_CreatedAt e2) → d !! "total_duration_ms" = Some (JNum f64_zero)).
Proof.
  intros Hp H1 H2 d.
  assert (∃ i q s, find_first (λ e, String.eqb (e_EventType e) "request") [a; b] = Some (i, q) ∧
    without_ID q = to_second e1 ∧ without_ID s = to_second e2 ∧
    (∀ d0, foldl add_response d0 [a; b] = add_response d0 s) ∧
    (e_CreatedAt q = e_CreatedAt s → e_CreatedAt a = e_CreatedAt b)) as (i & q & s & Hq & Hq1 & Hs2 & Hfold & Hab).
  { apply symmetry, Permutation_length_2_inv in Hp as [Hl|Hl];
      apply (inj2 cons) in Hl as [Ha Hl]; apply (inj2 cons) in Hl as [Hb _];
      pose proof (read_back_fields _ _ Ha) as (Hta & _); pose proof (read_back_fields _ _ Hb) as (Htb & _);
      rewrite ?H1, ?H2 in *; simpl; rewrite Hta, Htb; simpl.
    - exists 0%nat, a, b. split_and!; try done. intros d0. by rewrite (add_response_request _ a).
    - exists 1%nat, b, a. split_and!; try done. intros d0. by rewrite (add_response_request _ b). }
  destruct (read_back_fields _ _ Hq1) as (_ & Hkeys & _ & _ & Ht1).
  destruct (read_back_fields _ _ Hs2) as (Hst & _ & Hcode & Hcont & Ht2).
  subst d. unfold detail_of. rewrite Hq, Hfold, Hkeys. rewrite H2 in Hst.
  set (d0 := jmap (request_keys e1) ∪ _).
  destruct (add_response_new d0 s Hst ltac:(reflexivity) ltac:(reflexivity)) as [Hc Ht].
  rewrite Hcode in Hc. rewrite Hcont in Ht. split_and!.
  - intros k v Hkv. unfold request_keys in Hkv.
    repeat (apply elem_of_cons in Hkv as [[= -> ->]|Hkv];
      [rewrite !lookup_insert_ne by done; rewrite add_response_other by set_solver; reflexivity|]).
    by apply not_elem_of_nil in Hkv.
  - by rewrite !lookup_insert_ne by done.
  - intros Hne. rewrite !lookup_insert_ne by done. auto.
  - intros Hu. rewrite lookup_insert_ne by done. rewrite lookup_insert_eq. do 2 f_equal.
    change (1 <? go_len [a; b]) with true. cbn match. unfold span_ms. simpl.
    rewrite Hab by (rewrite Ht1, Ht2; by rewrite Hu).
    unfold time_Sub. rewrite Z.sub_diag. reflexivity.
Qed.

(** ** Properties *)

(** C22: No audit event is lost, repeated or reordered.  In every state the
    manager reaches, the events logged so far, in order, are those whose
    insertion was tried, followed by those the flush in progress holds and
    those in the buffer; the table has exactly the rows of the insertions the
    database accepted, numbered in that order. *)
Theorem audit_events_conserved os S :
  run os NewAuditTrailManager = Some S →
  logged os = (fst <$> attempts S) ++ in_flight (loop S) ++ buffer S ∧
  table S = rows_of (stored (attempts S)).
Proof.
  intros Hr. split.
  - by rewrite (run_order _ _ _ Hr).
  - by eapply (run_inv table_inv _ _ _ exec_table Hr).
Qed.

(** C23: No event waits for the ticker.  While the background loop lives and
    the buffer is not empty, a flush has been asked for, is about to be, or
    is starting; and a loop that waits and has been asked moves the whole
    buffer to the table in one round of its own steps. *)
Theorem audit_prompt_flush os S :
  run os NewAuditTrailManager = Some S → buffer S ≠ [] → loop S ≠ LDone →
  will_flush S ∧
  (loop S = LWait → signal S = true → ∃ os' S',
     Forall (λ o, of_loop o = true ∧ is_tick o = false) os' ∧ run os' S = Some S' ∧
     buffer S' = [] ∧ loop S' = LWait ∧
     table S' = rows_of (stored (attempts S) ++ buffer S)).
Proof.
  intros Hr Hb Hl. split.
  - eapply (run_inv (λ S, buffer S ≠ [] → loop S ≠ LDone → will_flush S)); try done.
    intros. by eapply exec_flush.
  - intros Hw Hsig.
    pose proof (run_inv table_inv _ _ _ exec_table Hr ltac:(done)) as Hti.
    destruct S as [tbl nid buf sig stop lp snd att]. simpl in *. subst lp sig.
    destruct (insert_all buf false (mk_sys tbl nid [] false stop (LInsert buf false) snd att) eq_refl)
      as (S' & Hr' & Ha & Hb' & Hl' & _).
    assert (run ([OWake_signal; OFlush] ++ replicate (length buf) (OInsert true) ++ [OReturn])
              (mk_sys tbl nid buf true stop LWait snd att) = Some S') as Hrun.
    { simpl. destruct buf; [done|]. exact Hr'. }
    eexists _, S'. split_and!; [|exact Hrun|done..|].
    + repeat (apply Forall_cons; split; [done|]). apply Forall_app. split; [by apply Forall_replicate|].
      by repeat constructor.
    + destruct (run_inv table_inv _ _ _ exec_table Hrun Hti) as [-> _]. rewrite Ha. f_equal. simpl.
      by rewrite stored_app, stored_all.
Qed.

(** Events logged after the manager has stopped are lost: once the loop
    has returned they only fill the buffer, and the table never changes. *)
Theorem events_after_stop_lost os S os' S' :
  run os NewAuditTrailManager = Some S → loop S = LDone → run os' S = Some S' →
  table S' = table S ∧ buffer S' = buffer S ++ logged os'.
Proof.
  intros _ Hl Hr. revert S Hl Hr. induction os' as [|o os' IH]; intros S Hl Hr.
  - simpl in Hr. simplify_eq. by rewrite app_nil_r.
  - apply bind_Some in Hr as (S1 & He & Hr).
    destruct (exec_done _ _ _ He Hl) as (Hl1 & Ht1 & _ & Hb1).
    destruct (IH _ Hl1 Hr) as [-> ->]. by rewrite Ht1, Hb1, (logged_cons o os'), (assoc_L (++)).
Qed.

(** The trail can be read back.  When every event logged has been
    stored, the timeline of a request consists of exactly its events, every
    field as logged but the row id and the time, which has lost the fraction
    of the second; and it is in order of time. *)
Theorem timeline_roundtrip `{!AuditLaws} os S rid :
  run os NewAuditTrailManager = Some S → settled S → Forall survives (logged os) →
  ∃ t, GetRequestTimeline None rid (table S) = Ok t ∧
    without_ID <$> t ≡ₚ to_second <$> filter (λ e, e_RequestID e = rid) (logged os) ∧
    StronglySorted (λ a b, e_CreatedAt a <= e_CreatedAt b) t.
Proof. intros Hr Hs Hsv. eexists. split; [reflexivity|]. by apply timeline_spec. Qed.

(** The prompt and the model recorded for a request are the first that is
    not empty, of the prompt of the body, that of the payload, the last
    message of the payload and the last message of the body, in this order,
    and of the model of the body and that of the payload. *)
Theorem logged_prompt_first body :
  let payload := obj_get as_obj body "payload" in
  f_prompt (fields_of body) = first_nonempty
    [obj_get as_str body "prompt"; payload ≫= (λ p, obj_get as_str p "prompt");
     payload ≫= last_content; last_content body] ∧
  f_model (fields_of body) = first_nonempty
    [obj_get as_str body "model"; payload ≫= (λ p, obj_get as_str p "model")].
Proof.
  unfold fields_of. rewrite !obj_str_first.
  destruct (obj_get as_obj body "payload") as [payload|]; simpl; rewrite !fill_first; split; try done;
    unfold first_nonempty; simpl; by repeat case_match.
Qed.

(** C24: A request can be looked up with its outcome.  Once the two events of
    a request are stored, its detail page has the method, path, prompt and
    body of the request and the code and text of the response, whatever order
    the database returns rows of the same second in; but if both fall in one
    second the total duration shown is zero. *)
Theorem audit_detail_roundtrip `{!AuditLaws} os S rid sid r body code rbody dur t1 t2 x :
  run os NewAuditTrailManager = Some S → settled S → Forall survives (logged os) →
  let e1 := complete_event (LogRequest rid r body "") t1 x in
  let e2 := complete_event (LogResponse sid rid code rbody dur) t2 x in
  filter (λ e, e_RequestID e = rid) (logged os) = [e1; e2] →
  ∃ d evs, GetRequestDetail None rid (table S) = Ok (Some (d, evs)) ∧ length evs = 2%nat ∧
    d !! "method" = Some (JStr (q_Method r)) ∧ d !! "path" = Some (JStr (q_Path r)) ∧
    d !! "prompt" = Some (JStr (e_Prompt e1)) ∧ d !! "overrides" = Some (map_json (e_Overrides e1)) ∧
    d !! "status_code" = Some (JInt code) ∧
    (e_Content e2 ≠ "" → d !! "response_content" = Some (JStr (e_Content e2))) ∧
    (Unix t1 = Unix t2 → d !! "total_duration_ms" = Some (JNum f64_zero)).
Proof.
  intros Hr Hs Hsv e1 e2 Hf.
  destruct (timeline_spec os S rid Hr Hs Hsv) as [Hp _]. rewrite Hf in Hp. simpl in Hp.
  unfold GetRequestDetail, GetRequestTimeline, query.
  destruct (scan_row <$> timeline_rows rid (table S)) as [|a [|b []]] eqn:Ht;
    try (apply Permutation_length in Hp; discriminate Hp).
  simpl in Hp. destruct (detail_of_two rid e1 e2 a b Hp eq_refl eq_refl) as (Hk & Hc & Hct & Hz).
  exists (detail_of rid [a; b]), [a; b]. split_and!; try done; try (apply Hk; set_solver).
Qed.

(** Responses carry no category, so the recent events of a category
    never include one: a trail filtered by any category shows requests
    without their outcome. *)
Theorem responses_have_no_category `{!AuditLaws} limit category tbl es e sid rid code body dur now x :
  category ≠ "" → GetRecentEvents None limit category tbl = Ok es → e ∈ es →
  without_ID e ≠ to_second (complete_event (LogResponse sid rid code body dur) now x).
Proof.
  intros Hc Hes Hin Heq. unfold GetRecentEvents, query in Hes.
  rewrite (proj2 (String.eqb_neq _ _) Hc) in Hes. simplify_eq.
  apply list_elem_of_fmap in Hin as (r & -> & Hin).
  assert (r ∈ by_created_at_desc (filter (λ r, e_Category (r_event r) = category) tbl)) as Hr.
  { unfold limit_rows in Hin. case_match; [done|]. eapply elem_of_subseteq; [|exact Hin].
    apply sublist_subseteq, sublist_take. }
  rewrite by_created_at_desc_perm in Hr. apply list_elem_of_filter in Hr as [Hcat _].
  apply (f_equal e_Category) in Heq. simpl in Heq. congruence.
Qed.

End audit.

(** ** Witnesses *)

Definition created_before (a b : audit_row) : Prop := f64_to_int (r_created_at a) <= f64_to_int (r_created_at b).

#[local] Instance created_before_dec a b : Decision (created_before a b).
Proof. unfold created_before. apply _. Defined.

#[local] Instance created_before_total : Total created_before.
Proof. intros a b. unfold created_before. lia. Qed.

#[local] Instance created_before_trans : Transitive created_before.
Proof. intros a b c. unfold created_before. lia. Qed.

Definition example_body : gmap string json := jmap [("prompt", JStr "hi"); ("model", JStr "llama3")].
Definition example_client : http_request := mk_http "POST" "/api/jobs" "10.0.0.7:4000" "curl".
Definition example_md : gmap string json :=
  jmap [("remote_addr", JStr "10.0.0.7:4000"); ("user_agent", JStr "curl")].

(** A library that knows the texts of the example. *)
Definition example_lib : AuditLib :=
  mk_AuditLib
    (λ m, match m with
          | None => Ok "null"
          | Some m => match m !! "prompt" with Some _ => Ok "body" | None => Ok "metadata" end
          end)
    (λ s, if String.eqb s "null" then Ok None
          else if String.eqb s "body" then Ok (Some example_body) else Ok (Some example_md))
    (merge_sort created_before) (λ l, reverse (merge_sort created_before l)) String.eqb.

Lemma example_laws : @AuditLaws example_lib.
Proof.
  constructor; intros l; simpl.
  - apply merge_sort_Permutation.
  - intros _. apply (StronglySorted_merge_sort created_before).
  - by rewrite reverse_Permutation, merge_sort_Permutation.
Qed.

Definition example_t1 : Time := unix_epoch + 1700000000 * Second + 1.
Definition example_t2 : Time := unix_epoch + 1700000000 * Second + 900000000.

Definition example_log : list op :=
  [OAppend (LogRequest "req_1" example_client (Some (Some example_body)) "") example_t1 "req_1"; OSignal;
   OAppend (LogResponse "hive-1" "req_1" 200 None f64_zero) example_t2 "req_1"; OSignal].
Definition example_flush : list op := [OWake_signal; OFlush; OInsert true; OInsert true; OReturn].

Definition example_state (os : list op) : sys :=
  from_opt NewAuditTrailManager (run (AL := example_lib) os NewAuditTrailManager).

Lemma example_run os :
  is_Some (run (AL := example_lib) os NewAuditTrailManager) →
  run (AL := example_lib) os NewAuditTrailManager = Some (example_state os).
Proof. unfold example_state. by intros [S ->]. Qed.

Lemma audit_events_conserved_witness :
  ∃ os, run (AL := example_lib) os NewAuditTrailManager = Some (example_state os) ∧
    logged os = (fst <$> attempts (example_state os)) ++ in_flight (loop (example_state os)) ++
                buffer (example_state os).
Proof.
  exists (example_log ++ take 3 example_flush). split; [by apply example_run; eexists|].
  apply (audit_events_conserved (AL := example_lib) (example_log ++ take 3 example_flush)).
  by apply example_run; eexists.
Defined.

Lemma audit_prompt_flush_witness : will_flush (example_state example_log).
Proof.
  apply (audit_prompt_flush (AL := example_lib) example_log); [by apply example_run; eexists|done..].
Defined.

Lemma events_after_stop_lost_witness :
  table (example_state (OStop :: OWake_stop :: OFlush :: example_log)) = [].
Proof.
  destruct (events_after_stop_lost (AL := example_lib) [OStop; OWake_stop; OFlush]
              (example_state [OStop; OWake_stop; OFlush]) example_log
              (example_state (OStop :: OWake_stop :: OFlush :: example_log))) as [-> _]; [|done..].
  by apply example_run; eexists.
Defined.

Lemma example_survives : Forall (survives (AL := example_lib)) (logged (example_log ++ example_flush)).
Proof. repeat constructor; vm_compute; congruence. Qed.

Lemma timeline_roundtrip_witness :
  ∃ t, GetRequestTimeline (AL := example_lib) None "req_1"
         (table (example_state (example_log ++ example_flush))) = Ok t ∧
    without_ID <$> t ≡ₚ
      to_second <$> filter (λ e, e_RequestID e = "req_1") (logged (example_log ++ example_flush)) ∧
    StronglySorted (λ a b, e_CreatedAt a <= e_CreatedAt b) t.
Proof.
  pose proof example_laws as Hl.
  apply (timeline_roundtrip (AL := example_lib) (example_log ++ example_flush)).
  - by apply example_run; eexists.
  - split; [done|by repeat constructor].
  - exact example_survives.
Defined.

Lemma audit_detail_roundtrip_witness :
  ∃ d evs, GetRequestDetail (AL := example_lib) None "req_1"
             (table (example_state (example_log ++ example_flush))) = Ok (Some (d, evs)) ∧
    d !! "status_code" = Some (JInt 200) ∧ d !! "total_duration_ms" = Some (JNum f64_zero).
Proof.
  pose proof example_laws as Hl.
  destruct (audit_detail_roundtrip (AL := example_lib) (example_log ++ example_flush)
              (example_state (example_log ++ example_flush)) "req_1" "hive-1" example_client
              (Some (Some example_body)) 200 None f64_zero example_t1 example_t2 "req_1")
    as (d & evs & Hd & _ & _ & _ & _ & _ & Hc & _ & Hz); [| | |done|].
  - by apply example_run; eexists.
  - split; [done|by repeat constructor].
  - exact example_survives.
  - exists d, evs. split_and!; [exact Hd|exact Hc|]. by apply Hz.
Defined.

Lemma responses_have_no_category_witness :
  ∃ es e, GetRecentEvents (AL := example_lib) None 10 "job_queue"
            (table (example_state (example_log ++ example_flush))) = Ok es ∧ e ∈ es ∧
    without_ID e ≠ to_second (complete_event (LogResponse "hive-1" "req_1" 200 None f64_zero) example_t2 "").
Proof.
  pose proof example_laws as Hl.
  assert (∃ e es, GetRecentEvents (AL := example_lib) None 10 "job_queue"
                    (table (example_state (example_log ++ example_flush))) = Ok es ∧ e ∈ es)
    as (e & es & Hes & He).
  { eexists _, _. split; [reflexivity|]. apply list_elem_of_fmap. eexists. split; [reflexivity|].
    vm_compute. left. }
  exists es, e. split_and!; [exact Hes|exact He|].
  eapply (responses_have_no_category (AL := example_lib)); [|exact Hes|exact He]. done.
Defined.
