(* ===== verification/OpenAI.v ===== *)
(** * The OpenAI-compatible API ([hive-server-go/openai_compat.go])

    Translation of a chat request, choice of the model and of the place it
    runs, the direct path through the job queue, streaming, and the list of
    models.  What Ollama, the peers and the queue's workers answer are
    inputs.  The path through a coding-agent session is in [OpenAIAgent]. *)

From S2P Require Import Prelude GoFloat GoText GoHttp Job Agent MeshNet Mesh ModelRegistry.

Local Open Scope string_scope.
Local Open Scope list_scope.
Local Open Scope Z_scope.

(** ** Data *)

Record OpenAIMessage := mk_OMessage {
  om_Role : string;
  om_Content : string }.

(** The decoded request, the fields the handler reads. *)
Record OpenAIChatRequest := mk_ORequest {
  or_Model : string;
  or_Messages : list OpenAIMessage;
  or_Stream : bool }.

Record OpenAIUsage := mk_Usage {
  PromptTokens : Z;
  CompletionTokens : Z;
  TotalTokens : Z }.

Record OpenAIChatResponse := mk_OResponse {
  oc_ID : string;
  oc_Created : Z;
  oc_Model : string;
  oc_Content : string;  (** of the one choice, with role [assistant] and finish reason [stop] *)
  oc_Usage : option OpenAIUsage }.

Record OpenAIModel := mk_OModel {
  ol_ID : string;
  ol_Created : Z;
  ol_OwnedBy : string }.

(** A message as it is sent to Ollama: role and content. *)
Abbreviation chat_message := (string * string)%type (only parsing).

(** ** Translation of the messages *)

(** One iteration of the loop over the request's messages. *)
Definition translate_step (acc : string * list chat_message) (m : OpenAIMessage)
    : string * list chat_message :=
  let '(systemPrompt, msgs) := acc in
  let role := to_lower (om_Role m) in
  if String.eqb role "system" && String.eqb systemPrompt "" then (om_Content m, msgs)
  else
    let role := if String.eqb role "developer" then "system" else role in
    (systemPrompt, if negb (String.eqb (om_Content m) "") then msgs ++ [(role, om_Content m)] else msgs).

Definition translate (messages : list OpenAIMessage) : string * list chat_message :=
  foldl translate_step ("", []) messages.

Definition default_system_prompt : string :=
  "You are a helpful coding assistant. Write clean, production-ready code.".

Definition system_prompt_of (messages : list OpenAIMessage) : string :=
  let systemPrompt := fst (translate messages) in
  if String.eqb systemPrompt "" then default_system_prompt else systemPrompt.

(** ** Choice of the model *)

Record selection := mk_selection {
  sel_model : string;
  sel_endpoint : string;
  sel_compatible : bool }.

(** The orders are those of the three searches over the registry's maps. *)
Definition selectBestModel (ollamaURL : string) (mr : ModelRegistry) (requestedModel : string)
    (ordL : list (string * LoadedModelInfo)) (ordP ordP' : list (string * gmap string LoadedModelInfo))
    (ords : string → list (string * LoadedModelInfo)) (now : Time) : selection * ModelRegistry :=
  if IsLoadedLocally mr requestedModel
  then (mk_selection requestedModel ollamaURL false, MarkModelUsed mr requestedModel true "" now)
  else
    match FindCompatibleLocalModel ordL requestedModel with
    | Some compatible =>
        (mk_selection (Name compatible) (Endpoint compatible) true,
         MarkModelUsed mr (Name compatible) true "" now)
    | None =>
        let rest :=
          let fallback := (mk_selection requestedModel ollamaURL false, mr) in
          match FindPeerWithCompatibleModel ordP' ords requestedModel with
          | Some (peerNodeID, peerInfo) =>
              if negb (String.eqb peerNodeID "")
              then (mk_selection (Name peerInfo) (Endpoint peerInfo) true,
                    MarkModelUsed mr (Name peerInfo) false peerNodeID now)
              else fallback
          | None => fallback
          end in
        match FindPeerWithLoadedModel ordP requestedModel with
        | Some (peerNodeID, peerInfo) =>
            if negb (String.eqb peerNodeID "")
            then (mk_selection requestedModel (Endpoint peerInfo) false,
                  MarkModelUsed mr requestedModel false peerNodeID now)
            else rest
        | None => rest
        end
    end.

(** ** Peers that have a model *)

(** The loop over the alive peers: [fetch] is the reply a peer gives if its
    list is fetched and the two clock readings made for it. *)
Fixpoint peer_models_loop (fetch : nat → option (list string) * Time * Time) (alive : list nat)
    (m : MeshDiscovery) : list (nat * list string) * MeshDiscovery :=
  match alive with
  | [] => ([], m)
  | p :: alive =>
      let '(reply, now, stored) := fetch p in
      let (models, m) := GetCachedPeerModels (peer_at m p) reply now stored m in
      let (rest, m) := peer_models_loop fetch alive m in ((p, models) :: rest, m)
  end.

Definition least_loaded (m : MeshDiscovery) (model : string) (best : option nat) (pm : nat * list string)
    : option nat :=
  if existsb (String.eqb model) pm.2 then
    match best with
    | None => Some pm.1
    | Some b => if f64_ltb (p_Load (peer_at m pm.1)) (p_Load (peer_at m b)) then Some pm.1 else best
    end
  else best.

Definition findPeerWithModel (rs : list (nat * f64)) (fetch : nat → option (list string) * Time * Time)
    (model : string) (mesh : option MeshDiscovery) : option nat * option MeshDiscovery :=
  match mesh with
  | None => (None, None)
  | Some m =>
      let (alive, m) := GetAlivePeers rs m in
      let (lists, m) := peer_models_loop fetch alive m in
      (foldl (least_loaded m model) None lists, Some m)
  end.

(** ** The direct path *)

(** The body posted to Ollama, directly or by the queue's worker. *)
Definition chat_body (model : string) (msgs : list chat_message) (stream : bool) : gmap string json :=
  jmap [("model", JStr model);
        ("messages", JArr ((λ m, jobj [("role", JStr m.1); ("content", JStr m.2)]) <$> msgs));
        ("stream", JBool stream)].

(** The model's name at a peer, and the job a peer is sent. *)
Definition forward_model (mesh : option MeshDiscovery) (model : string) : string :=
  match mesh with None => model | Some m => MapModel (modelMap m) model end.

Definition forward_body (mesh : option MeshDiscovery) (origin : string) (now : Time) (model : string)
    (msgs : list chat_message) : gmap string json :=
  jmap [("job_id", JStr ("mesh-openai:" +:+ fmt_d (UnixMilli now))); ("client_id", JStr "mesh-openai");
        ("job_type", JStr "chat"); ("payload", JObj (chat_body (forward_model mesh model) msgs false));
        ("origin", JStr origin)].

(** The peer a request may be forwarded to: its address, the time of the
    request, and how it answers a body posted to an address. *)
Record forwarding := mk_forwarding {
  fw_endpoint : string;
  fw_now : Time;
  fw_post : string → gmap string json → result (result forward_reply) }.

Definition forwardOpenAIToPeer (fmt_v : json → string) (mesh : option MeshDiscovery) (origin : string)
    (peer : forwarding) (model : string) (msgs : list chat_message) : result (string * OpenAIUsage) :=
  match fw_post peer (fw_endpoint peer +:+ "/api/jobs/forward")
          (forward_body mesh origin (fw_now peer) model msgs) with
  | Err e => Err ("forward request failed: " +:+ e)
  | Ok (Err e) => Err ("decode forward response failed: " +:+ e)
  | Ok (Ok r) =>
      if String.eqb (fr_Status r) "failed" then Err ("peer execution failed: " +:+ fr_Error r)
      else Ok (extractChatResponse fmt_v (fr_Result r), mk_Usage 0 0 0)
  end.

(** The reply of [/api/chat] as [callOllamaDirect] decodes it; the status
    code is not looked at. *)
Record direct_reply := mk_direct {
  dr_status : Z;
  dr_content : string;
  dr_EvalCount : f64;
  dr_PromptEval : f64 }.

Definition callOllamaDirect (reply : result (result direct_reply)) : result (string * OpenAIUsage) :=
  match reply with
  | Err e => Err e
  | Ok (Err e) => Err e
  | Ok (Ok r) =>
      Ok (dr_content r, mk_Usage (f64_to_int (dr_PromptEval r)) (f64_to_int (dr_EvalCount r))
                          (f64_to_int (f64_add (dr_PromptEval r) (dr_EvalCount r))))
  end.

(** What the outside answers to one direct request: whether the queue takes
    the job, the snapshots of [GetJob] until the deadline, the peer that has
    the model if there is one, and Ollama's reply. *)
Record direct_answers := mk_dans {
  da_accepted : bool;
  da_polls : list (option Job);
  da_peer : option forwarding;
  da_direct : result (result direct_reply) }.

(** [forward] is what forwarding to the peer gives, if there is one. *)
Fixpoint wait_job (fmt_v : json → string) (forward : option (result (string * OpenAIUsage)))
    (polls : list (option Job)) : result (string * OpenAIUsage) :=
  match polls with
  | [] => Err "job timeout"
  | None :: polls => wait_job fmt_v forward polls
  | Some j :: polls =>
      if String.eqb (Status j) JobFailed then
        match (if strings_Contains (Error j) "not found" || strings_Contains (Error j) "404"
               then forward else None) with
        | Some (Ok r) => Ok r
        | _ => Err ("ollama error: " +:+ Error j)
        end
      else if String.eqb (Status j) JobCompleted then
        Ok (extractChatResponse fmt_v (Result j), mk_Usage (Job.PromptTokens j) (EvalTokens j) (Job.TotalTokens j))
      else wait_job fmt_v forward polls
  end.

(** [answer] is what the outside answers to the body, an error when the body
    cannot be marshalled. *)
Definition handleOpenAIDirect (fmt_v : json → string) (mesh : option MeshDiscovery) (origin : string)
    (answer : gmap string json → result direct_answers) (model : string) (msgs : list chat_message)
    : result (string * OpenAIUsage) :=
  match answer (chat_body model msgs false) with
  | Err e => Err e
  | Ok a =>
      let forward := (λ peer, forwardOpenAIToPeer fmt_v mesh origin peer model msgs) <$> da_peer a in
      if da_accepted a then wait_job fmt_v forward (da_polls a)
      else
        match forward with
        | Some (Ok r) => Ok r
        | _ => callOllamaDirect (da_direct a)
        end
  end.

(** ** Streaming *)

(** The events of the reply: a text delta, the final chunk, [[DONE]], an
    error, and a line of a peer's stream passed on. *)
Inductive sse :=
  | SText (content : string)
  | SFinal
  | SDone
  | SError (msg : string)
  | SRaw (line : string).

Record stream_chunk := mk_chunk { ck_Content : string; ck_Done : bool }.

(** The loop over the lines the scanner yields. *)
Fixpoint stream_lines (decode : string → option stream_chunk) (lines : list string) : list sse :=
  match lines with
  | [] => [SDone]
  | line :: lines =>
      if String.eqb line "" then stream_lines decode lines
      else match decode line with
           | None => stream_lines decode lines
           | Some chunk =>
               if ck_Done chunk then [SFinal; SDone]
               else if negb (String.eqb (ck_Content chunk) "")
               then SText (ck_Content chunk) :: stream_lines decode lines
               else stream_lines decode lines
           end
  end.

Definition writeSSEError (errMsg : string) : list sse := [SError errMsg; SDone].

(** An answer to a streaming request: the connection's error, or the status,
    the error body as [%v] prints it, and the lines of the body. *)
Record stream_answer := mk_sanswer { sa_status : Z; sa_error : string; sa_lines : list string }.

Definition forwardOpenAIToPeerStreaming (mesh : option MeshDiscovery)
    (post : string → gmap string json → result stream_answer) (endpoint model : string)
    (msgs : list chat_message) : list sse :=
  match post (endpoint +:+ "/v1/chat/completions") (chat_body (forward_model mesh model) msgs true) with
  | Err e => writeSSEError ("peer forward failed: " +:+ e)
  | Ok a =>
      if 400 <=? sa_status a
      then writeSSEError ("peer error (status " +:+ fmt_d (sa_status a) +:+ "): " +:+ sa_error a)
      else SRaw <$> filter (λ l, l ≠ "") (sa_lines a)
  end.

(** [None]: the writer cannot stream, and the reply is a plain 500.  [post]
    answers a body posted to Ollama, with an error when it cannot be
    marshalled; [peer] is the address of a peer that has the model, if there
    is one, and [post'] its answers. *)
Definition handleOpenAIStreamWithEndpoint (flusher : bool) (decode : string → option stream_chunk)
    (post : string → gmap string json → result (result stream_answer)) (mesh : option MeshDiscovery)
    (peer : option string) (post' : string → gmap string json → result stream_answer)
    (model endpoint : string) (msgs : list chat_message) : option (list sse) :=
  if negb flusher then None
  else Some
    match post (endpoint +:+ "/api/chat") (chat_body model msgs true) with
    | Err e => writeSSEError e
    | Ok (Err e) => writeSSEError ("ollama request failed: " +:+ e)
    | Ok (Ok a) =>
        if 400 <=? sa_status a then
          match (if sa_status a =? 404 then peer else None) with
          | Some address => forwardOpenAIToPeerStreaming mesh post' address model msgs
          | None => writeSSEError ("ollama error (status " +:+ fmt_d (sa_status a) +:+ "): " +:+ sa_error a)
          end
        else stream_lines decode (sa_lines a)
    end.

(** ** The list of models *)

(** [models[name] = ...] and [modelOrder = append(modelOrder, name)]. *)
Definition put_model (name owner : string) (now : Z) (acc : gmap string OpenAIModel * list string)
    : gmap string OpenAIModel * list string :=
  (<[name := mk_OModel name now owner]> acc.1, acc.2 ++ [name]).

Definition put_new (name owner : string) (now : Z) (acc : gmap string OpenAIModel * list string)
    : gmap string OpenAIModel * list string :=
  match acc.1 !! name with Some _ => acc | None => put_model name owner now acc end.

(** [tags] are the names Ollama reports, if it does; [lists] the peers' ids
    and models in the order they are asked.  [now] is [time.Now().Unix()],
    the same reading for all. *)
Definition handleOpenAIListModels (tags : option (list string)) (lists : list (string * list string))
    (defaultModel : string) (now : Z) : list OpenAIModel :=
  let acc := foldl (λ acc name, put_model name "local" now acc) (∅, []) (from_opt [] tags) in
  let acc := foldl (λ acc pl, foldl (λ acc pm, put_new pm pl.1 now acc) acc pl.2) acc lists in
  let acc := put_new defaultModel "local" now acc in
  omap (λ name, acc.1 !! name) acc.2.

Definition handleOpenAIHealth (serverVersion : string) : response :=
  write_json (jobj [("status", JStr "ok"); ("server", JStr "hive-server-go"); ("version", JStr serverVersion)]).

(** ** Notions of the properties *)

(** No local model will do for a request, and no peer has the model itself
    loaded. *)
Definition no_local (mr : ModelRegistry) (requested : string) : Prop :=
  ∀ n, IsLoadedLocally mr n = true → extractModelFamily n ≠ extractModelFamily requested.
Definition no_peer (mr : ModelRegistry) (requested : string) : Prop :=
  ∀ node models i, ModelRegistry.peerModels mr !! node = Some models →
    models !! requested = Some i → is_loaded i = false.

(** Where a model may come from, in the order of preference: the relation
    leaves open which of several candidates is taken, as the range over Go's
    maps does. *)
Inductive selects (ollamaURL : string) (mr : ModelRegistry) (requested : string) : selection → Prop :=
  | selects_local :
      IsLoadedLocally mr requested = true →
      selects ollamaURL mr requested (mk_selection requested ollamaURL false)
  | selects_compatible i :
      IsLoadedLocally mr requested = false → GetLocalModel mr (Name i) = Some i →
      extractModelFamily (Name i) = extractModelFamily requested →
      selects ollamaURL mr requested (mk_selection (Name i) (Endpoint i) true)
  | selects_peer node models i :
      no_local mr requested → ModelRegistry.peerModels mr !! node = Some models →
      models !! requested = Some i → is_loaded i = true →
      selects ollamaURL mr requested (mk_selection requested (Endpoint i) false)
  | selects_compatible_peer node models name i :
      no_local mr requested → no_peer mr requested →
      ModelRegistry.peerModels mr !! node = Some models → models !! name = Some i →
      is_loaded i = true → Family i = extractModelFamily requested →
      selects ollamaURL mr requested (mk_selection (Name i) (Endpoint i) true)
  | selects_default :
      no_local mr requested → no_peer mr requested →
      (∀ node models name i, ModelRegistry.peerModels mr !! node = Some models →
         models !! name = Some i → is_loaded i = true → Family i ≠ extractModelFamily requested) →
      selects ollamaURL mr requested (mk_selection requested ollamaURL false).

(** The reference reading of a request: the prompt is the first system
    message with a text; the system messages before it carry none and are
    dropped; everything else that has a text is sent. *)
Definition is_system (m : OpenAIMessage) : bool := String.eqb (to_lower (om_Role m)) "system".
Definition has_text (m : OpenAIMessage) : bool := negb (String.eqb (om_Content m) "").

Definition sent_role (m : OpenAIMessage) : string :=
  if String.eqb (to_lower (om_Role m)) "developer" then "system" else to_lower (om_Role m).
Definition sent (l : list OpenAIMessage) : list chat_message :=
  (λ m, (sent_role m, om_Content m)) <$> filter (λ m, has_text m = true) l.
Definition not_system (l : list OpenAIMessage) : list OpenAIMessage := filter (λ m, is_system m = false) l.

Definition reference_translation (messages : list OpenAIMessage) : string * list chat_message :=
  match find_first (λ m, is_system m && has_text m) messages with
  | Some (i, m) => (om_Content m, sent (not_system (take i messages)) ++ sent (drop (S i) messages))
  | None => ("", sent (not_system messages))
  end.

(** The chunks of a stream up to the one that ends it. *)
Definition chunks (decode : string → option stream_chunk) (lines : list string) : list stream_chunk :=
  omap decode (filter (λ l, l ≠ "") lines).
Definition deltas (cs : list stream_chunk) : list sse :=
  (λ c, SText (ck_Content c)) <$> filter (λ c, ck_Content c ≠ "") cs.

(** A snapshot of a job that has ended. *)
Definition settled_job (j : Job) : bool :=
  String.eqb (Status j) JobFailed || String.eqb (Status j) JobCompleted.

(** ** Lemmas *)

Lemma sent_app l k : sent (l ++ k) = sent l ++ sent k.
Proof. unfold sent. by rewrite filter_app, fmap_app. Qed.

Lemma sent_cons m l :
  sent (m :: l) = (if has_text m then [(sent_role m, om_Content m)] else []) ++ sent l.
Proof. unfold sent. rewrite filter_cons. by destruct (has_text m). Qed.

Lemma translate_open sp acc m l :
  sp = "" → foldl translate_step (sp, acc) (m :: l) =
    if is_system m then foldl translate_step (om_Content m, acc) l
    else foldl translate_step ("", acc ++ sent [m]) l.
Proof.
  intros ->. simpl. fold (is_system m). destruct (is_system m) eqn:Hs; simpl; [done|].
  rewrite sent_cons. unfold has_text, sent_role, sent. by destruct (om_Content m); rewrite ?app_nil_r.
Qed.

Lemma translate_closed sp acc l :
  sp ≠ "" → foldl translate_step (sp, acc) l = (sp, acc ++ sent l).
Proof.
  intros Hsp. revert acc. induction l as [|m l IH]; intros acc; [by rewrite app_nil_r|].
  simpl. rewrite (proj2 (String.eqb_neq _ _) Hsp), andb_false_r, IH. f_equal.
  rewrite sent_cons. unfold has_text, sent_role. destruct (om_Content m); simpl; [done|].
  by rewrite <-(assoc_L (++)).
Qed.

Lemma is_loaded_local mr i n :
  ModelRegistry.localModels mr !! n = Some i → IsLoadedLocally mr n = is_loaded i.
Proof. unfold IsLoadedLocally. by intros ->. Qed.

(** The peer searches find a loaded model exactly when there is one. *)
Lemma find_peer_spec mr ord requested :
  map_range (ModelRegistry.peerModels mr) ord →
  match FindPeerWithLoadedModel ord requested with
  | Some (node, i) => ∃ models, ModelRegistry.peerModels mr !! node = Some models ∧
      models !! requested = Some i ∧ is_loaded i = true
  | None => no_peer mr requested
  end.
Proof.
  intros Hord. unfold FindPeerWithLoadedModel. destruct (find_first _ ord) as [[k [node models]]|] eqn:Hf.
  - apply find_first_lookup in Hf as [Hk Hl]. simpl in Hl. destruct (models !! requested) as [i|] eqn:Hi; [|done].
    simpl. exists models. split_and!; [|done..].
    by apply (map_range_elem _ _ _ _ Hord); eapply list_elem_of_lookup_2.
  - apply find_first_None in Hf. rewrite Forall_forall in Hf. intros node models i Hn Hi.
    specialize (Hf (node, models)). simpl in Hf. rewrite Hi in Hf. apply Hf.
    by apply (map_range_elem _ _ _ _ Hord).
Qed.

Lemma find_compatible_peer_spec mr ord ords requested :
  map_range (ModelRegistry.peerModels mr) ord →
  (∀ node models, ModelRegistry.peerModels mr !! node = Some models → map_range models (ords node)) →
  extractModelFamily requested ≠ "" →
  match FindPeerWithCompatibleModel ord ords requested with
  | Some (node, i) => ∃ models name, ModelRegistry.peerModels mr !! node = Some models ∧
      models !! name = Some i ∧ is_loaded i = true ∧ Family i = extractModelFamily requested
  | None => ∀ node models name i, ModelRegistry.peerModels mr !! node = Some models →
      models !! name = Some i → is_loaded i = true → Family i ≠ extractModelFamily requested
  end.
Proof.
  intros Hord Hords Hfam. unfold FindPeerWithCompatibleModel. rewrite (proj2 (String.eqb_neq _ _) Hfam).
  destruct (find_first _ _) as [[k [node i]]|] eqn:Hf.
  - apply find_first_lookup in Hf as [Hk Hl]. simpl in Hl. apply andb_true_iff in Hl as [Hl Hfi].
    apply String.eqb_eq in Hfi. apply list_elem_of_lookup_2, list_elem_of_bind in Hk as ([n models] & Hin & Hn).
    apply list_elem_of_fmap in Hin as ([name j] & [= -> ->] & Hj). simpl in *.
    apply (map_range_elem _ _ _ _ Hord) in Hn.
    exists models, name. split_and!; try done. by apply (map_range_elem _ _ _ _ (Hords _ _ Hn)).
  - apply find_first_None in Hf. rewrite Forall_forall in Hf. intros node models name i Hn Hi Hl Hfi.
    specialize (Hf (node, i)). simpl in Hf. rewrite Hl, Hfi, String.eqb_refl in Hf.
    assert ((true && true)%bool = false) as [=]. apply Hf. apply list_elem_of_bind. exists (node, models). split.
    + apply list_elem_of_fmap. exists (name, i). split; [done|]. by apply (map_range_elem _ _ _ _ (Hords _ _ Hn)).
    + by apply (map_range_elem _ _ _ _ Hord).
Qed.

Lemma existsb_eqb x (l : list string) : existsb (String.eqb x) l = true ↔ x ∈ l.
Proof.
  rewrite existsb_exists. split.
  - intros (y & Hy & ->%String.eqb_eq). by apply list_elem_of_In.
  - intros Hx. exists x. by rewrite String.eqb_refl, <-list_elem_of_In.
Qed.

(** Fetching models does not touch the peers. *)
Lemma peer_models_loop_spec fetch alive m :
  (peer_models_loop fetch alive m).1.*1 = alive ∧
  Mesh.heap (peer_models_loop fetch alive m).2 = Mesh.heap m.
Proof.
  revert m. induction alive as [|p alive IH]; intros m; simpl; [done|].
  destruct (fetch p) as [[reply now] stored].
  assert (Mesh.heap (GetCachedPeerModels (peer_at m p) reply now stored m).2 = Mesh.heap m) as Hh
    by (unfold GetCachedPeerModels; by repeat case_match).
  destruct (GetCachedPeerModels _ _ _ _ _) as [models m1]. simpl in Hh.
  destruct (IH m1) as [Hf Hm]. destruct (peer_models_loop fetch alive m1) as [rest m2]. cbn [fst snd] in *.
  by rewrite fmap_cons, Hf, Hm.
Qed.

Lemma least_loaded_fold m model best l :
  (∀ q, q ∈ option_list best ++ l.*1 → f64_is_nan (p_Load (peer_at m q)) = false) →
  match foldl (least_loaded m model) best l with
  | Some p => (best = Some p ∨ ∃ ms, (p, ms) ∈ l ∧ model ∈ ms) ∧
      (∀ b, best = Some b → f64_ltb (p_Load (peer_at m b)) (p_Load (peer_at m p)) = false) ∧
      ∀ q ms, (q, ms) ∈ l → model ∈ ms → f64_ltb (p_Load (peer_at m q)) (p_Load (peer_at m p)) = false
  | None => best = None ∧ ∀ q ms, (q, ms) ∈ l → model ∉ ms
  end.
Proof.
  revert best. induction l as [|[q ms] l IH]; intros best Hnan; simpl.
  - destruct best as [b|]; [|split; [done|]; by intros ?? ?%not_elem_of_nil].
    split_and!; [by left| |by intros ?? ?%not_elem_of_nil]. intros ? [= ->]. apply f64_ltb_irrefl.
  - pose proof (existsb_eqb model ms) as Hex.
    assert (∀ x, x ∈ option_list (least_loaded m model best (q, ms)) ++ l.*1 →
              f64_is_nan (p_Load (peer_at m x)) = false) as Hnan'.
    { intros x Hx. apply Hnan. unfold least_loaded in Hx. simpl in Hx. set_unfold.
      repeat case_match; simplify_eq; set_solver. }
    specialize (IH _ Hnan'). destruct (foldl _ _ l) as [p|].
    + destruct IH as (Hfrom & Hb & Hall).
      assert (∀ b, best = Some b ∨ (b = q ∧ model ∈ ms) →
                f64_ltb (p_Load (peer_at m b)) (p_Load (peer_at m p)) = false) as Hge.
      { intros b Hcase. unfold least_loaded in Hb. simpl in Hb.
        destruct (existsb (String.eqb model) ms); [|destruct Hcase as [->|[_ Hms]]; [by apply Hb|]; by apply Hex in Hms].
        destruct best as [b'|]; [|destruct Hcase as [?|[-> _]]; [done|by apply Hb]].
        destruct (f64_ltb (p_Load (peer_at m q)) (p_Load (peer_at m b'))) eqn:Hlt.
        - destruct Hcase as [[= ->]|[-> _]]; [|by apply Hb].
          apply (f64_nlt_trans _ (p_Load (peer_at m q))); [apply Hnan; set_solver|by apply Hb|].
          by apply f64_ltb_asym.
        - destruct Hcase as [[= ->]|[-> _]]; [by apply Hb|].
          apply (f64_nlt_trans _ (p_Load (peer_at m b'))); [apply Hnan; set_solver|by apply Hb|done]. }
      split_and!.
      * destruct Hfrom as [Hs|(ms' & Hin & Hms)]; [|by right; exists ms'; split; [right|]].
        unfold least_loaded in Hs. simpl in Hs. destruct (existsb (String.eqb model) ms); [|by left].
        assert (model ∈ ms) by (by apply Hex).
        repeat case_match; simplify_eq; try (by left); right; exists ms; by split; [left|].
      * intros b Hbest. apply Hge. by left.
      * intros q' ms' [[= -> ->]|Hin]%elem_of_cons Hms; [apply Hge; by right|by eapply Hall].
    + destruct IH as [Hs Hall]. unfold least_loaded in Hs. simpl in Hs.
      destruct (existsb (String.eqb model) ms) eqn:He; [by repeat case_match|].
      split; [done|]. intros q' ms' [[= -> ->]|Hin]%elem_of_cons; [|by eapply Hall].
      intros Hms. apply Hex in Hms. congruence.
Qed.

(** *** The list of models *)

Definition acc_ok (acc : gmap string OpenAIModel * list string) : Prop :=
  NoDup acc.2 ∧ (∀ n, n ∈ acc.2 ↔ is_Some (acc.1 !! n)) ∧ ∀ n x, acc.1 !! n = Some x → ol_ID x = n.

Lemma put_model_ok name owner now acc :
  acc_ok acc → acc.1 !! name = None → acc_ok (put_model name owner now acc).
Proof.
  intros (Hnd & Hdom & Hid) Hn. unfold acc_ok, put_model. simpl. split_and!.
  - apply NoDup_app. split_and!; [done| |apply NoDup_singleton].
    intros x Hx ->%list_elem_of_singleton. apply Hdom in Hx as [? ?]. congruence.
  - intros n. rewrite elem_of_app, list_elem_of_singleton, Hdom, lookup_insert_is_Some.
    destruct (decide (name = n)); naive_solver.
  - intros n x. rewrite lookup_insert_Some. intros [[<- <-]|[_ Hx]]; [done|by apply Hid].
Qed.

Lemma put_new_spec name owner now acc :
  acc_ok acc → acc_ok (put_new name owner now acc) ∧
  ∀ n, (put_new name owner now acc).1 !! n =
    match acc.1 !! n with
    | Some x => Some x
    | None => if decide (n = name) then Some (mk_OModel n now owner) else None
    end.
Proof.
  intros Hok. unfold put_new. destruct (acc.1 !! name) as [y|] eqn:Hn.
  - split; [done|]. intros n. destruct (acc.1 !! n) eqn:Hx; [done|]. case_decide; [congruence|done].
  - split; [by apply put_model_ok|]. intros n. simpl. rewrite lookup_insert. case_decide; subst.
    + by rewrite Hn, decide_True.
    + rewrite decide_False by done. by destruct (acc.1 !! n).
Qed.

Lemma put_all_spec owner now ms acc :
  acc_ok acc → acc_ok (foldl (λ acc pm, put_new pm owner now acc) acc ms) ∧
  ∀ n, (foldl (λ acc pm, put_new pm owner now acc) acc ms).1 !! n =
    match acc.1 !! n with
    | Some x => Some x
    | None => if decide (n ∈ ms) then Some (mk_OModel n now owner) else None
    end.
Proof.
  revert acc. induction ms as [|pm ms IH]; intros acc Hok; simpl.
  - split; [done|]. intros n. by destruct (acc.1 !! n).
  - destruct (put_new_spec pm owner now acc Hok) as [Hok' Hl]. destruct (IH _ Hok') as [Hok2 Hl2].
    split; [done|]. intros n. rewrite Hl2, Hl. destruct (acc.1 !! n); [done|].
    repeat case_decide; set_solver.
Qed.

(** The peer that lists a model first. *)
Definition first_owner (lists : list (string * list string)) (n : string) : option string :=
  match find_first (λ pl, existsb (String.eqb n) pl.2) lists with Some (_, pl) => Some pl.1 | None => None end.

Lemma put_peers_spec now lists acc :
  acc_ok acc → let r := foldl (λ acc pl, foldl (λ acc pm, put_new pm pl.1 now acc) acc pl.2) acc lists in
  acc_ok r ∧
  ∀ n, r.1 !! n = match acc.1 !! n with
                  | Some x => Some x
                  | None => (λ o, mk_OModel n now o) <$> first_owner lists n
                  end.
Proof.
  revert acc. induction lists as [|[o ms] lists IH]; intros acc Hok; simpl.
  - split; [done|]. intros n. by destruct (acc.1 !! n).
  - destruct (put_all_spec o now ms acc Hok) as [Hok' Hl]. destruct (IH _ Hok') as [Hok2 Hl2].
    split; [done|]. intros n. rewrite Hl2, Hl. destruct (acc.1 !! n); [done|].
    unfold first_owner. simpl. pose proof (existsb_eqb n ms) as He.
    destruct (existsb (String.eqb n) ms).
    + by rewrite decide_True by (by apply He).
    + rewrite decide_False by (intros H; apply He in H; done).
      by destruct (find_first _ lists) as [[]|].
Qed.

Lemma put_tags_spec now tags acc :
  acc_ok acc → NoDup tags → (∀ n, n ∈ tags → acc.1 !! n = None) →
  let r := foldl (λ acc name, put_model name "local" now acc) acc tags in
  acc_ok r ∧ ∀ n, r.1 !! n = if decide (n ∈ tags) then Some (mk_OModel n now "local") else acc.1 !! n.
Proof.
  revert acc. induction tags as [|g tags IH]; intros acc Hok Hnd Hfresh; simpl; [done|].
  apply NoDup_cons in Hnd as [Hg Hnd].
  destruct (IH (put_model g "local" now acc)) as [Hok2 Hl]; [apply put_model_ok; [done|apply Hfresh; by left]|done| |].
  { intros n Hn. simpl. rewrite lookup_insert_ne by (intros ->; done). apply Hfresh. by right. }
  split; [done|]. intros n. rewrite Hl. simpl. rewrite lookup_insert.
  repeat case_decide; set_solver.
Qed.

Lemma acc_ok_result acc :
  acc_ok acc → ol_ID <$> omap (λ name, acc.1 !! name) acc.2 = acc.2 ∧
  ∀ x, x ∈ omap (λ name, acc.1 !! name) acc.2 → acc.1 !! ol_ID x = Some x.
Proof.
  intros (_ & Hdom & Hid). split.
  - assert (∀ n, n ∈ acc.2 → is_Some (acc.1 !! n)) as Hs by (intros; by apply Hdom). clear Hdom.
    induction acc.2 as [|n l IH]; [done|]. simpl.
    destruct (Hs n ltac:(by left)) as [x Hx]. rewrite Hx. simpl. f_equal; [by apply Hid|].
    apply IH. intros m Hm. apply Hs. by right.
  - intros x (n & _ & Hx)%list_elem_of_omap. by rewrite (Hid _ _ Hx).
Qed.

(** ** Properties *)


(** C19: The messages of a request are translated as the reference reading
    says: the first system message with a text is the prompt, and every other
    message with a text is sent, in order, but for the system messages before
    the prompt, which have none. *)
Theorem translate_reference messages : translate messages = reference_translation messages.
Proof.
  unfold translate, reference_translation.
  assert (∀ acc, foldl translate_step ("", acc) messages =
    let r := match find_first (λ m, is_system m && has_text m) messages with
             | Some (i, m) => (om_Content m, sent (not_system (take i messages)) ++ sent (drop (S i) messages))
             | None => ("", sent (not_system messages))
             end in (r.1, acc ++ r.2)) as ->; [|by destruct (find_first _ _) as [[]|]].
  induction messages as [|m l IH]; intros acc; [simpl; by rewrite app_nil_r|].
  rewrite translate_open by done. simpl find_first.
  destruct (is_system m) eqn:Hs; simpl.
  - destruct (has_text m) eqn:Ht; simpl.
    + rewrite translate_closed by (intros Hc; unfold has_text in Ht; by rewrite Hc in Ht). done.
    + assert (om_Content m = "") as -> by (unfold has_text in Ht; by destruct (om_Content m)).
      rewrite IH. destruct (find_first _ l) as [[i m']|]; simpl; unfold not_system;
        by rewrite filter_cons_False by (rewrite Hs; done).
  - rewrite IH. destruct (find_first _ l) as [[i m']|]; simpl; unfold not_system;
      rewrite filter_cons_True by done; rewrite (sent_cons m (filter _ _)), (sent_cons m []), ?app_nil_r;
      change (sent []) with (@nil chat_message); by rewrite ?app_nil_r, ?(assoc_L (++)).
Qed.

(** C20: A stream passes on exactly what Ollama sent: one event per text delta
    up to the chunk that ends the stream, in order, then the final chunk, and
    [[DONE]] once, at the end; blank lines and lines that are not JSON are
    skipped.  A stream that breaks off differs only in the missing final
    chunk. *)
Theorem stream_exact decode lines :
  stream_lines decode lines =
  match find_first ck_Done (chunks decode lines) with
  | Some (i, _) => deltas (take i (chunks decode lines)) ++ [SFinal; SDone]
  | None => deltas (chunks decode lines) ++ [SDone]
  end.
Proof.
  unfold chunks. induction lines as [|l lines IH]; [done|]. simpl.
  destruct (String.eqb_spec l "") as [->|Hne]; [by rewrite filter_cons_False by (intros H; by apply H)|].
  rewrite filter_cons_True by done. simpl.
  destruct (decode l) as [c|]; [|done]. simpl.
  destruct (ck_Done c); simpl; [done|]. rewrite IH.
  destruct (String.eqb_spec (ck_Content c) "") as [He|He]; simpl;
    destruct (find_first _ _) as [[i x]|]; unfold deltas; simpl;
    rewrite ?filter_cons_True, ?filter_cons_False by (done || (intros H; by apply H)); done.
Qed.

(** A request for a model the machine does not have goes to the peer that
    has it and carries the least load: the peer returned was seen less than
    thirty seconds ago and lists the model, and no such peer has a lower
    load; none is returned only if no such peer lists the model. *)
Theorem find_peer_least_loaded unmarshal m rs fetch model :
  reachable unmarshal m → visits m rs →
  (∀ id p, peers m !! id = Some p → int64_range (p_MaxConcurrent (peer_at m p))) →
  let load p := calcLoad (p_RunningJobs (peer_at m p)) (p_PendingJobs (peer_at m p)) (p_MaxConcurrent (peer_at m p)) in
  let '(alive, m') := GetAlivePeers rs m in
  let lists := (peer_models_loop fetch alive m').1 in
  lists.*1 = alive_in m rs ∧
  match (findPeerWithModel rs fetch model (Some m)).1 with
  | Some p => (∃ ms, (p, ms) ∈ lists ∧ model ∈ ms) ∧
      ∀ q ms, (q, ms) ∈ lists → model ∈ ms → f64_ltb (load q) (load p) = false
  | None => ∀ q ms, (q, ms) ∈ lists → model ∉ ms
  end.
Proof.
  intros Hwf%mesh_reachable_wf Hv Hty load. unfold findPeerWithModel, GetAlivePeers.
  destruct (alive_loop_spec rs m (visits_NoDup _ _ Hwf Hv)) as (Hal & _ & Hat).
  destruct (alive_loop rs m) as [alive m']. simpl in *. subst alive.
  destruct (peer_models_loop_spec fetch (alive_in m rs) m') as [Hf Hh].
  destruct (peer_models_loop fetch (alive_in m rs) m') as [lists m2]. simpl in *. split; [done|].
  assert (∀ p, p ∈ lists.*1 → p_Load (peer_at m2 p) = load p ∧ f64_is_nan (load p) = false) as Hload.
  { intros p Hp. rewrite Hf in Hp. assert (peer_at m2 p = peer_at m' p) as -> by (unfold peer_at; by rewrite Hh).
    rewrite Hat, decide_True by done. split; [done|].
    apply alive_in_elem in Hp as (now & Hp & _).
    destruct (proj1 (visits_elem m rs p Hv)) as [id Hid]; [by apply (list_elem_of_fmap_2 fst _ (p, now))|].
    eapply calcLoad_number, Hty, Hid. }
  pose proof (least_loaded_fold m2 model None lists) as Hfold. simpl in Hfold.
  destruct (foldl (least_loaded m2 model) None lists) as [p|].
  - destruct Hfold as (Hfrom & _ & Hall); [intros q Hq; destruct (Hload _ Hq) as [-> ?]; done|].
    destruct Hfrom as [?|Hfrom]; [done|]. split; [done|]. intros q ms Hq Hms. specialize (Hall q ms Hq Hms).
    destruct Hfrom as (ms' & Hp & _).
    destruct (Hload q) as [Hlq _]; [by apply (list_elem_of_fmap_2 fst _ (q, ms))|].
    destruct (Hload p) as [Hlp _]; [by apply (list_elem_of_fmap_2 fst _ (p, ms'))|].
    by rewrite Hlq, Hlp in Hall.
  - destruct Hfold as [_ Hall]; [intros q Hq; destruct (Hload _ Hq) as [-> ?]; done|done].
Qed.

(** The list of models is complete and without repetition: it has the
    models of the local Ollama, of every alive peer and the default model,
    each once; a model is the machine's own if Ollama reports it, else it
    belongs to the first peer that lists it, else (the default) it is the
    machine's own. *)
Theorem list_models_exact tags lists defaultModel now :
  NoDup (from_opt [] tags) →
  let r := handleOpenAIListModels tags lists defaultModel now in
  NoDup (ol_ID <$> r) ∧
  (∀ n, n ∈ ol_ID <$> r ↔ n ∈ from_opt [] tags ∨ (∃ o ms, (o, ms) ∈ lists ∧ n ∈ ms) ∨ n = defaultModel) ∧
  ∀ x, x ∈ r → ol_OwnedBy x = if decide (ol_ID x ∈ from_opt [] tags) then "local"
                              else from_opt "local" (first_owner lists (ol_ID x)).
Proof.
  intros Hnd. unfold handleOpenAIListModels.
  destruct (put_tags_spec now (from_opt [] tags) (∅, [])) as [Hok1 Hl1];
    [split_and!; simpl; [constructor|intros; by rewrite lookup_empty, is_Some_alt; set_solver|done]|done|done|].
  set (acc1 := foldl _ _ (from_opt [] tags)) in *.
  destruct (put_peers_spec now lists acc1 Hok1) as [Hok2 Hl2]. set (acc2 := foldl _ acc1 lists) in *.
  destruct (put_new_spec defaultModel "local" now acc2 Hok2) as [Hok3 Hl3].
  set (acc3 := put_new _ _ _ acc2) in *.
  assert (∀ n, acc3.1 !! n =
    if decide (n ∈ from_opt [] tags) then Some (mk_OModel n now "local")
    else match first_owner lists n with
         | Some o => Some (mk_OModel n now o)
         | None => if decide (n = defaultModel) then Some (mk_OModel n now "local") else None
         end) as Hl.
  { intros n. rewrite Hl3, Hl2, Hl1. simpl. rewrite lookup_empty. case_decide; [done|].
    by destruct (first_owner lists n). }
  destruct (acc_ok_result acc3 Hok3) as [Hids Hin]. destruct Hok3 as (Hnd3 & Hdom & _).
  simpl. rewrite Hids. split_and!; [done| |].
  - intros n. rewrite Hdom, Hl. unfold first_owner. case_decide; [by split; [left|]|].
    destruct (find_first _ lists) as [[i [o ms]]|] eqn:Hf.
    + apply find_first_lookup in Hf as [Hi He]. simpl in He. apply existsb_eqb in He. simpl. split; [|by eauto].
      intros _. right; left. exists o, ms. split; [by eapply list_elem_of_lookup_2|done].
    + apply find_first_None in Hf. rewrite Forall_forall in Hf.
      assert (¬ ∃ o ms, (o, ms) ∈ lists ∧ n ∈ ms) as Hno.
      { intros (o & ms & Hin' & Hms). specialize (Hf _ Hin'). simpl in Hf. apply existsb_eqb in Hms. congruence. }
      case_decide; [by split; [right; right|]|]. split; [by intros []|]. by intros [?|[?|?]].
  - intros x Hx. specialize (Hin x Hx). rewrite Hl in Hin.
    repeat case_match; simplify_eq; by rewrite <-Hin.
Qed.

(** A request on the direct path ends as its job does.  If the queue takes
    the job, the first snapshot of an ended job decides: the text and the
    token counts of a completed job; of a failed job its error, unless the
    model was not found and a peer that has it answers; a timeout if there is
    none before the deadline. *)
Theorem direct_follows_job fmt_v mesh origin answer model msgs a :
  answer (chat_body model msgs false) = Ok a → da_accepted a = true →
  match find_first settled_job (omap id (da_polls a)) with
  | None => handleOpenAIDirect fmt_v mesh origin answer model msgs = Err "job timeout"
  | Some (_, j) =>
      if String.eqb (Status j) JobCompleted then
        handleOpenAIDirect fmt_v mesh origin answer model msgs =
          Ok (extractChatResponse fmt_v (Result j),
              mk_Usage (Job.PromptTokens j) (EvalTokens j) (Job.TotalTokens j))
      else handleOpenAIDirect fmt_v mesh origin answer model msgs = Err ("ollama error: " +:+ Error j) ∨
           (strings_Contains (Error j) "not found" || strings_Contains (Error j) "404" = true ∧
            ∃ peer r, da_peer a = Some peer ∧ forwardOpenAIToPeer fmt_v mesh origin peer model msgs = Ok r ∧
              handleOpenAIDirect fmt_v mesh origin answer model msgs = Ok r)
  end.
Proof.
  intros Ha Hacc. unfold handleOpenAIDirect. rewrite Ha, Hacc. clear Ha Hacc.
  induction (da_polls a) as [|[j|] polls IH]; simpl; [done| |done].
  unfold settled_job at 1. destruct (String.eqb_spec (Status j) JobFailed) as [Hf|Hf]; simpl.
  - rewrite Hf. simpl. destruct (_ || _)%bool; [|by left].
    destruct (da_peer a) as [peer|]; [|by left]. simpl.
    destruct (forwardOpenAIToPeer fmt_v mesh origin peer model msgs) eqn:Hr; [|by left].
    right. split; [done|]. by eexists _, _.
  - destruct (String.eqb_spec (Status j) JobCompleted) as [->|Hc]; simpl; [done|].
    change (list_omap _ _ id polls) with (omap id polls).
    destruct (find_first settled_job (omap id polls)) as [[i j']|]; exact IH.
Qed.

(** An error of Ollama can pass for an answer: when the queue refuses the
    job and no peer helps, the reply of Ollama is decoded whatever its status
    code, so an error, whose body has no message, is a successful completion
    with an empty text. *)
Theorem queue_full_error_hidden fmt_v mesh origin answer model msgs a r :
  answer (chat_body model msgs false) = Ok a → da_accepted a = false → da_peer a = None →
  da_direct a = Ok (Ok r) → dr_content r = "" →
  ∃ usage, handleOpenAIDirect fmt_v mesh origin answer model msgs = Ok ("", usage).
Proof.
  intros Ha Hacc Hp Hd Hc. unfold handleOpenAIDirect. rewrite Ha, Hacc, Hp, Hd. simpl. rewrite Hc. eauto.
Qed.

(** ** Witnesses *)

Definition example_events : list event :=
  [ERegister "llama3.1:8b" "ollama" "http://localhost:11434" 4700000000 8192 Second].
Definition example_registry : ModelRegistry := run "s1" NewModelRegistry example_events.

Definition example_orders : list (string * gmap string LoadedModelInfo) :=
  map_to_list (ModelRegistry.peerModels example_registry).


Lemma find_peer_least_loaded_witness :
  ∃ p, (findPeerWithModel example_rs (λ _, (Some ["llama3"], 0, 0)) "llama3" (Some example_mesh)).1 = Some p ∧
    ∃ ms, (p, ms) ∈ (peer_models_loop (λ _, (Some ["llama3"], 0, 0)) (GetAlivePeers example_rs example_mesh).1
                       (GetAlivePeers example_rs example_mesh).2).1 ∧ "llama3" ∈ ms.
Proof.
  pose proof (find_peer_least_loaded example_unmarshal example_mesh example_rs
    (λ _, (Some ["llama3"], 0, 0)) "llama3" mesh_example_reachable example_visits mesh_example_ranges) as H.
  destruct (GetAlivePeers example_rs example_mesh) as [alive m'].
  assert (is_Some (findPeerWithModel example_rs (λ _, (Some ["llama3"], 0, 0)) "llama3" (Some example_mesh)).1)
    as [p Hp] by (vm_compute; eauto).
  destruct H as [_ H]. rewrite Hp in H. exists p. split; [exact Hp|]. apply H.
Defined.

Lemma list_models_exact_witness :
  NoDup (ol_ID <$> handleOpenAIListModels (Some ["llama3"; "qwen2"]) [("hive-b", ["llama3"; "phi3"])] "phi3" 0).
Proof.
  apply (list_models_exact (Some ["llama3"; "qwen2"]) [("hive-b", ["llama3"; "phi3"])] "phi3" 0).
  repeat constructor; set_solver.
Defined.

Definition example_job : Job := set_result (JObj (jmap [("response", JStr "hello")])) zero_Job.

Lemma direct_follows_job_witness :
  handleOpenAIDirect (λ _, "") None "s1"
    (λ _, Ok (mk_dans true [None; Some zero_Job; Some example_job] None (Err "unused"))) "llama3" [("user", "hi")]
  = Ok ("hello", mk_Usage 0 0 0).
Proof.
  pose proof (direct_follows_job (λ _, "") None "s1"
    (λ _, Ok (mk_dans true [None; Some zero_Job; Some example_job] None (Err "unused"))) "llama3" [("user", "hi")]
    (mk_dans true [None; Some zero_Job; Some example_job] None (Err "unused")) eq_refl eq_refl) as H.
  exact H.
Defined.

Lemma queue_full_error_hidden_witness :
  ∃ usage, handleOpenAIDirect (λ _, "") None "s1"
    (λ _, Ok (mk_dans false [] None (Ok (Ok (mk_direct 500 "" f64_zero f64_zero))))) "llama3" [("user", "hi")]
  = Ok ("", usage).
Proof. by eapply (queue_full_error_hidden (λ _, "") None "s1"). Defined.
