(* ===== verification/OpenAIAgent.v ===== *)
(** * Chat completions ([hive-server-go/openai_compat.go])

    The handler of [/v1/chat/completions]: a streaming reply, an answer
    through a coding-agent session, or the direct path when there is no
    agent or it fails.  The agent's computations are those of [Agent]; what
    Ollama, the peers and the clock contribute is the record [outside]. *)

From S2P Require Import Prelude GoFloat GoText GoHttp ModelRegistry Mesh AgentDB Agent OpenAI.

Local Open Scope string_scope.
Local Open Scope list_scope.
Local Open Scope Z_scope.
Local Open Scope agent_scope.

(** What the rest of the world contributes to one request. *)
Record outside := mk_outside {
  o_ordL : list (string * LoadedModelInfo);
  o_ordP : list (string * gmap string LoadedModelInfo);
  o_ordP' : list (string * gmap string LoadedModelInfo);
  o_ords : string → list (string * LoadedModelInfo);
  o_now : Time;
  o_flusher : bool;
  o_decode : string → option stream_chunk;
  o_post : string → gmap string json → result (result stream_answer);
  o_stream_peer : option string;
  o_stream_post : string → gmap string json → result stream_answer;
  o_show : option (Z * Z);  (** the two replies of [/api/show] *)
  o_show' : option (Z * Z);
  o_stats : option (Z * Z);  (** and the one for the statistics *)
  o_answers : nat → answers;  (** for the i-th message replayed *)
  o_direct : gmap string json → result direct_answers }.

Inductive chat_result :=
  | RHttp (r : response)
  | RStream (events : option (list sse))
  | RChat (r : OpenAIChatResponse).

Section chat.
Context `{!Store}.
Variable fmt_v : json → string.
(** [hs.cfg.OllamaURL] and [hs.cfg.OllamaModel], which is also the queue's
    default model. *)
Variable ollamaURL : string.
Variable ollamaModel : string.
(** [hs.mesh] and [getServerID()]. *)
Variable mesh : option MeshDiscovery.
Variable origin : string.

(** ** Through a coding-agent session *)

Definition agent_type_of (model : string) : string :=
  if strings_Contains model "hermes" || strings_Contains model "Hermes" then "hermes"
  else if strings_Contains model "codex" || strings_Contains model "Codex" then "codex"
  else if strings_Contains model "opencode" || strings_Contains model "OpenCode" then "opencode"
  else "custom".

(** One iteration of the replay: an error is only logged. *)
Definition replay_one (sessionID : string) (m : string * string) (an : answers) : M unit :=
  let role := if String.eqb m.1 "" then "user" else m.1 in
  if String.eqb role "system" then M_ret ()
  else _ ⇐ M_try (SendMessage fmt_v sessionID role m.2 None an); M_ret ().

Fixpoint replay (sessionID : string) (msgs : list (string * string)) (ans : nat → answers) : M unit :=
  match msgs with
  | [] => M_ret ()
  | m :: msgs => replay_one sessionID m (ans 0%nat) ;;; replay sessionID msgs (λ i, ans (S i))
  end.

(** The loop from the last entry of the log to the first. *)
Definition last_assistant (auditLogs : list CodingAgentAuditEntry) : string :=
  match find_first (λ a, String.eqb (a_Role a) "assistant") (reverse auditLogs) with
  | Some (_, a) => a_Content a
  | None => ""
  end.

Definition M_unix : M Z := λ w, (Ok (Unix (clock (ticks w))), count_tick w).

(** From the audit log to the response. *)
Definition agent_response (model sessionID : string) (p : nat) (reply : option (Z * Z)) : M OpenAIChatResponse :=
  logs ⇐ M_try (GetCodingAgentAuditLogs sessionID 5);
  match logs with
  | Err _ | Ok [] => M_fail "no response in session"
  | Ok logs =>
      let lastResponse := last_assistant logs in
      if String.eqb lastResponse "" then M_fail "no assistant response found"
      else
        stats ⇐ M_try (GetContextStats sessionID reply);
        session ⇐ M_gets (λ w, session_at w p);
        let completion := estimateTokens lastResponse in
        let total := match stats with Ok s => cs_total_tokens s | Err _ => s_TotalTokens session end in
        ms ⇐ M_millis;
        created ⇐ M_unix;
        M_ret (mk_OResponse ("chatcmpl-hive-" +:+ ms) created model lastResponse
                 (Some (mk_Usage (int_sub total completion) completion total)))
  end.

Definition handleOpenAIViaAgent (model systemPrompt : string) (msgs : list (string * string)) (o : outside)
    : M OpenAIChatResponse :=
  r ⇐ M_wrap "create session"
        (CreateSession ollamaModel (agent_type_of model) model systemPrompt 0 None (o_show o) (o_show' o));
  session ⇐ M_gets (λ w, session_at w r.1);
  replay (s_ID session) msgs (o_answers o) ;;;
  agent_response model (s_ID session) r.1 (o_stats o).

(** ** The handler *)

(** The direct path's part of the handler. *)
Definition direct_completion (model : string) (msgs : list (string * string)) (o : outside)
    : M chat_result :=
  match handleOpenAIDirect fmt_v mesh origin (o_direct o) model msgs with
  | Err e => M_ret (RHttp (http_Error
               ("{" +:+ dq +:+ "error" +:+ dq +:+ ":{" +:+ dq +:+ "message" +:+ dq +:+ ":" +:+ dq +:+ e
                +:+ dq +:+ "," +:+ dq +:+ "type" +:+ dq +:+ ":" +:+ dq +:+ "server_error" +:+ dq +:+ "}}")
               StatusInternalServerError))
  | Ok (text, usage) =>
      ms ⇐ M_millis;
      created ⇐ M_unix;
      M_ret (RChat (mk_OResponse ("chatcmpl-hive-" +:+ ms) created model text (Some usage)))
  end.

(** [read] tells whether the body could be read, [req] is its decoding,
    [agent] whether there is a coding agent. *)
Definition handleOpenAIChatCompletions (method : string) (read : bool) (req : result OpenAIChatRequest)
    (agent : bool) (mr : ModelRegistry) (o : outside) : M (chat_result * ModelRegistry) :=
  if negb (String.eqb method "POST")
  then M_ret (RHttp (http_Error "POST required" StatusMethodNotAllowed), mr)
  else if negb read then M_ret (RHttp (http_Error "failed to read body" StatusBadRequest), mr)
  else match req with
  | Err _ => M_ret (RHttp (http_Error "invalid JSON" StatusBadRequest), mr)
  | Ok req =>
      match or_Messages req with
      | [] => M_ret (RHttp (http_Error "messages required" StatusBadRequest), mr)
      | _ =>
          let requestedModel := if String.eqb (or_Model req) "" then ollamaModel else or_Model req in
          let '(sel, mr) := selectBestModel ollamaURL mr requestedModel (o_ordL o) (o_ordP o) (o_ordP' o)
                              (o_ords o) (o_now o) in
          let endpoint := if String.eqb (sel_endpoint sel) "" then ollamaURL else sel_endpoint sel in
          let model := sel_model sel in
          let msgs := snd (translate (or_Messages req)) in
          if or_Stream req then
            M_ret (RStream (handleOpenAIStreamWithEndpoint (o_flusher o) (o_decode o) (o_post o)
                              mesh (o_stream_peer o) (o_stream_post o) model endpoint msgs), mr)
          else
            a ⇐ (if agent
                 then M_try (handleOpenAIViaAgent model (system_prompt_of (or_Messages req)) msgs o)
                 else M_ret (Err ""));
            match a with
            | Ok resp => M_ret (RChat resp, mr)
            | Err _ => r ⇐ direct_completion model msgs o; M_ret (r, mr)
            end
      end
  end.

(** ** Notions of the properties *)

(** The audit entries of a conversation: a prompt and its answer per turn. *)
Definition turn_rows (turns : list (CodingAgentAuditEntry * CodingAgentAuditEntry))
    : list CodingAgentAuditEntry := turns ≫= λ t, [t.1; t.2].

Definition is_turn (t : CodingAgentAuditEntry * CodingAgentAuditEntry) : Prop :=
  a_Role t.1 ≠ "assistant" ∧ a_Role t.2 = "assistant".

(** The request the handler serves, if it does. *)
Definition accepted_request (method : string) (read : bool) (req : result OpenAIChatRequest)
    : option OpenAIChatRequest :=
  if String.eqb method "POST" && read then
    match req with
    | Ok r => match or_Messages r with [] => None | _ => Some r end
    | Err _ => None
    end
  else None.

Definition choice (mr : ModelRegistry) (o : outside) (r : OpenAIChatRequest) : selection :=
  (selectBestModel ollamaURL mr (if String.eqb (or_Model r) "" then ollamaModel else or_Model r)
     (o_ordL o) (o_ordP o) (o_ordP' o) (o_ords o) (o_now o)).1.

(** ** Lemmas *)

Lemma refused e code (mr : ModelRegistry) (w : world) :
  code ∈ [StatusMethodNotAllowed; StatusBadRequest] →
  ∃ res mr' w', M_ret (RHttp (http_Error e code), mr) w = (Ok (res, mr'), w') ∧
    mr' = mr ∧ w' = w ∧ ∃ h, res = RHttp h ∧ rs_code h ∈ [StatusMethodNotAllowed; StatusBadRequest].
Proof. intros Hc. eexists _, _, _. split; [reflexivity|]. split_and!; [done..|]. by eexists. Qed.

Lemma direct_completion_outcome model msgs o w :
  ∃ res w', direct_completion model msgs o w = (Ok res, w') ∧
  match res with
  | RStream _ => False
  | RChat _ => True
  | RHttp h => rs_code h = StatusInternalServerError ∧
      ∃ e, handleOpenAIDirect fmt_v mesh origin (o_direct o) model msgs = Err e
  end.
Proof.
  unfold direct_completion. destruct (handleOpenAIDirect _ _ _ _ _ _) as [[text usage]|e]; [by eexists _, _|].
  eexists _, _. split; [reflexivity|]. by split; [|eexists].
Qed.

Lemma reverse_turn_rows turns t : reverse (turn_rows (turns ++ [t])) = t.2 :: t.1 :: reverse (turn_rows turns).
Proof. unfold turn_rows. rewrite bind_app. simpl. by rewrite reverse_app. Qed.

Lemma last_assistant_cons_other a l :
  a_Role a ≠ "assistant" → last_assistant (l ++ [a]) = last_assistant l.
Proof.
  intros Ha. unfold last_assistant. rewrite reverse_snoc. simpl.
  rewrite (proj2 (String.eqb_neq _ _) Ha). by destruct (find_first _ (reverse l)) as [[]|].
Qed.

Lemma last_assistant_snoc a l : a_Role a = "assistant" → last_assistant (l ++ [a]) = a_Content a.
Proof. intros Ha. unfold last_assistant. rewrite reverse_snoc. simpl. by rewrite Ha. Qed.

(** Of the last five entries the search picks the oldest answer: that of the
    third turn from the end, or of the first turn. *)
Lemma last_assistant_turns turns :
  Forall is_turn turns →
  last_assistant (take 5 (reverse (turn_rows turns))) =
  from_opt "" ((λ t, a_Content t.2) <$> turns !! (length turns - 3)%nat).
Proof.
  intros Hall.
  destruct turns as [|t turns _] using rev_ind; [done|].
  apply Forall_app in Hall as [Hall [Ht Ht2]%Forall_singleton].
  rewrite reverse_turn_rows, length_app. simpl (length [t]).
  destruct turns as [|t' turns _] using rev_ind.
  { etrans; [exact (last_assistant_cons_other t.1 [t.2] Ht)|exact (last_assistant_snoc t.2 [] Ht2)]. }
  apply Forall_app in Hall as [Hall [Ht' Ht2']%Forall_singleton].
  rewrite reverse_turn_rows, length_app. simpl (length [t']).
  destruct turns as [|t'' turns _] using rev_ind.
  { etrans; [exact (last_assistant_cons_other t'.1 [t.2; t.1; t'.2] Ht')
              |exact (last_assistant_snoc t'.2 [t.2; t.1] Ht2')]. }
  apply Forall_app in Hall as [Hall [_ Ht2'']%Forall_singleton].
  rewrite reverse_turn_rows, length_app. simpl (length [t'']).
  etrans; [exact (last_assistant_snoc t''.2 [t.2; t.1; t'.2; t'.1] Ht2'')|].
  replace (length turns + 1 + 1 + 1 - 3)%nat with (length turns) by lia.
  by rewrite !lookup_app_l, list_lookup_middle by (rewrite ?length_app; simpl; lia).
Qed.

Lemma stmt_total {A} (f : world → result A * world) w :
  (∀ n, fault n = None) → M_stmt f w = f (count_stmt w).
Proof. intros Hf. unfold M_stmt. by rewrite Hf. Qed.

(** [translate] treats two prompts alike. *)
Lemma translate_prompt pre role c post :
  to_lower role = "system" → c ≠ "" → Forall (λ m, is_system m && has_text m = false) pre →
  (translate (pre ++ mk_OMessage role c :: post)).2 = sent (not_system pre) ++ sent post.
Proof.
  intros Hr Hc Hpre. unfold translate. rewrite foldl_app.
  assert (foldl translate_step ("", []) pre = ("", sent (not_system pre))) as ->.
  { assert (∀ acc, foldl translate_step ("", acc) pre = ("", acc ++ sent (not_system pre))) as Hg; [|apply Hg].
    induction pre as [|m pre IH]; intros acc; [by rewrite app_nil_r|].
    apply Forall_cons in Hpre as [Hm Hpre]. rewrite translate_open by done. unfold not_system.
    destruct (is_system m) eqn:Hs; simpl in Hm.
    - assert (om_Content m = "") as -> by (unfold has_text in Hm; by destruct (om_Content m)).
      rewrite filter_cons_False by (rewrite Hs; done). by apply IH.
    - rewrite filter_cons_True by done. rewrite IH by done. f_equal.
      rewrite (sent_cons m (filter _ _)), (sent_cons m []). change (sent []) with (@nil (string * string)).
      by rewrite app_nil_r, (assoc_L (++)). }
  rewrite translate_open by done. unfold is_system. simpl. rewrite Hr. simpl. by rewrite translate_closed.
Qed.

(** ** Properties *)

(** A chat of several turns gets an old answer.  The replay leaves one
    prompt and one answer per turn in the audit log; the response is the
    answer to the third prompt from the end, and to the first prompt if there
    are at most three, so the answer to the question asked is returned only
    when it is the only one. *)
Theorem agent_reply_is_stale model sessionID p reply w turns :
  (∀ n, fault n = None) → (2 ≤ length turns)%nat → Forall is_turn turns →
  filter (λ a, a_SessionID a = sessionID) (audit_tbl w) = turn_rows turns →
  ∀ t, turns !! (length turns - 3)%nat = Some t → a_Content t.2 ≠ "" →
  ∃ r w', agent_response model sessionID p reply w = (Ok r, w') ∧ oc_Content r = a_Content t.2.
Proof.
  intros Hf Hlen Hturns Hrows t Ht Hne. unfold agent_response, M_bind, M_try, GetCodingAgentAuditLogs.
  rewrite stmt_total by done. simpl. rewrite Hrows. change (Z.to_nat 5) with 5%nat.
  pose proof (last_assistant_turns turns Hturns) as Hlast. rewrite Ht in Hlast. simpl in Hlast.
  destruct (take 5 (reverse (turn_rows turns))) as [|a l] eqn:Htake.
  { apply (f_equal length) in Htake. rewrite length_take, length_reverse in Htake.
    unfold turn_rows in Htake. destruct turns as [|? turns]; [simpl in Hlen; lia|]. simpl in Htake. lia. }
  rewrite Hlast, (proj2 (String.eqb_neq _ _) Hne).
  destruct (GetContextStats sessionID reply _) as [s w1]. unfold M_gets, M_millis, M_unix, M_ret. simpl.
  by eexists _, _.
Qed.

(** Without a session the system prompt is ignored: a request that streams,
    or that is handled without a coding agent, gets the same reply whatever
    the text of its system prompt is. *)
Theorem system_prompt_ignored method read model pre role c c' post stream agent mr o w :
  to_lower role = "system" → c ≠ "" → c' ≠ "" →
  Forall (λ m, is_system m && has_text m = false) pre → stream = true ∨ agent = false →
  let req c := mk_ORequest model (pre ++ mk_OMessage role c :: post) stream in
  handleOpenAIChatCompletions method read (Ok (req c)) agent mr o w =
  handleOpenAIChatCompletions method read (Ok (req c')) agent mr o w.
Proof.
  intros Hr Hc Hc' Hpre Hcase req. unfold handleOpenAIChatCompletions. simpl.
  destruct (negb _); [done|]. destruct (negb read); [done|].
  destruct (pre ++ mk_OMessage role c :: post) as [|m1 l1] eqn:H1; [by destruct pre|].
  destruct (pre ++ mk_OMessage role c' :: post) as [|m2 l2] eqn:H2; [by destruct pre|].
  rewrite <-H1, <-H2, !translate_prompt by done.
  destruct (selectBestModel _ _ _ _ _ _ _ _) as [sel mr']. destruct stream; [done|].
  destruct Hcase as [[=]| ->]; reflexivity.
Qed.


End chat.

(** ** Witnesses *)

(** Two questions, answered ["first"] and ["second"]: the reply to the second
    is not what the client gets. *)
Definition example_answer (i : nat) : answers :=
  mk_answers (λ _, Err "") false [] None
    (Ok (Ok (200, mk_chat_reply (match i with 0%nat => "first" | _ => "second" end) ""))).

Definition example_outside : outside :=
  mk_outside [] [] [] (λ _, []) Minute true (λ _, None) (λ _ _, Err "refused") None (λ _ _, Err "refused") None None None example_answer
    (λ _, Ok (mk_dans false [] None (Err "refused"))).

Definition example_replay : result OpenAIChatResponse * world :=
  @handleOpenAIViaAgent ticking (λ _, "") "llama3" "llama3" "be brief"
    [("user", "one?"); ("user", "two?")] example_outside empty_world.

Example agent_reply_example :
  match example_replay.1 with Ok r => oc_Content r | Err e => e end = "first".
Proof. vm_compute. reflexivity. Qed.

Definition example_log : list CodingAgentAuditEntry := audit_tbl example_replay.2.
Definition no_row : CodingAgentAuditEntry := from_opt (mk_AuditEntry 0 "" "" "" "" "" 0 0 false f64_zero) (head example_log).
Definition example_turns : list (CodingAgentAuditEntry * CodingAgentAuditEntry) :=
  [(nth 0 example_log no_row, nth 1 example_log no_row); (nth 2 example_log no_row, nth 3 example_log no_row)].

Lemma agent_reply_is_stale_witness :
  ∃ r w', @agent_response ticking "llama3" (a_SessionID no_row) 0%nat None example_replay.2 = (Ok r, w') ∧
    oc_Content r = "first".
Proof.
  destruct (@agent_reply_is_stale ticking "llama3" (a_SessionID no_row) 0%nat None example_replay.2 example_turns
    (λ _, eq_refl) ltac:(simpl; lia)) with (nth 0 example_log no_row, nth 1 example_log no_row)
    as (r & w' & Hr & Hc).
  - repeat constructor; vm_compute; discriminate.
  - vm_compute. reflexivity.
  - reflexivity.
  - vm_compute. discriminate.
  - exists r, w'. split; [exact Hr|]. rewrite Hc. vm_compute. reflexivity.
Defined.

Lemma system_prompt_ignored_witness :
  let req c := mk_ORequest "llama3" [mk_OMessage "system" c; mk_OMessage "user" "hi"] false in
  @handleOpenAIChatCompletions ticking (λ _, "") "http://localhost:11434" "llama3" None "s1" "POST" true
    (Ok (req "be brief")) false NewModelRegistry example_outside empty_world =
  @handleOpenAIChatCompletions ticking (λ _, "") "http://localhost:11434" "llama3" None "s1" "POST" true
    (Ok (req "be long")) false NewModelRegistry example_outside empty_world.
Proof.
  apply (@system_prompt_ignored ticking (λ _, "") "http://localhost:11434" "llama3" None "s1" "POST" true "llama3" []
    "system" "be brief" "be long" [mk_OMessage "user" "hi"] false false NewModelRegistry example_outside empty_world
    eq_refl ltac:(discriminate) ltac:(discriminate) ltac:(constructor)).
  right. reflexivity.
Defined.
