(* ===== verification/ModelLists.v ===== *)
(** * The lists of models of a mesh ([openai_compat.go], [mesh.go])

    A server that lists its models asks its peers for theirs, and a peer
    answers by the same handler, asking its own peers.  The servers are put
    together here: [list_models] is a request for the list of one of them,
    with the requests it causes.  Requests inside it see the same clock
    reading. *)

From S2P Require Import Prelude GoFloat GoText GoHttp Mesh OpenAI.

Local Open Scope string_scope.
Local Open Scope list_scope.
Local Open Scope Z_scope.

(** ** Servers *)

(** A server: what its Ollama reports, its default model, its alive peers in
    the order of the table, and its mesh.  The servers are kept by endpoint. *)
Record site := mk_site {
  st_tags : option (list string);
  st_default : string;
  st_alive : list nat;
  st_mesh : MeshDiscovery }.

Abbreviation sites := (gmap string site) (only parsing).

Definition set_st_mesh (m : MeshDiscovery) (s : site) : site :=
  mk_site (st_tags s) (st_default s) (st_alive s) m.

(** The two halves of [GetCachedPeerModels], between which the peer is
    asked. *)
Definition cached (now : Time) (m : MeshDiscovery) (id : string) : option (list string) :=
  match peerModels m !! id with
  | Some models =>
      if time_Since now (from_opt time_zero (peerModelsTime m !! id)) <? 30 * Second then Some models else None
  | None => None
  end.

Definition store_models (now : Time) (id : string) (models : list string) (m : MeshDiscovery) : MeshDiscovery :=
  set_models (<[id := models]> (peerModels m)) (<[id := now]> (peerModelsTime m)) m.

(** The loop over the alive peers of the server at [ep]: [fetch] is a request
    for the list of the server at an endpoint. *)
Fixpoint ask_peers (fetch : sites → string → option (option (list string) * sites)) (now : Time) (ep : string)
    (alive : list nat) (W : sites) : option (list (string * list string) * sites) :=
  match alive, W !! ep with
  | p :: alive, Some s =>
      let peer := peer_at (st_mesh s) p in
      let id := p_ServerID peer in
      '(models, W) ←
        match cached now (st_mesh s) id with
        | Some models => Some (models, W)
        | None =>
            '(reply, W) ← fetch W (p_Endpoint peer);
            let models := fetchPeerModelNames reply in
            Some (models, alter (λ s, set_st_mesh (store_models now id models (st_mesh s)) s) ep W)
        end;
      '(rest, W) ← ask_peers fetch now ep alive W;
      Some ((id, models) :: rest, W)
  | _, _ => Some ([], W)
  end.

Definition names_of (s : site) (lists : list (string * list string)) (now : Time) : list string :=
  ol_ID <$> handleOpenAIListModels (st_tags s) lists (st_default s) (Unix now).

(** [None] when [fuel] requests inside each other are not enough; a reply
    [None] when nobody answers at the endpoint. *)
Fixpoint list_models (fuel : nat) (now : Time) (W : sites) (ep : string)
    : option (option (list string) * sites) :=
  match fuel with
  | O => None
  | S fuel =>
      match W !! ep with
      | None => Some (None, W)
      | Some s =>
          '(lists, W') ← ask_peers (list_models fuel now) now ep (st_alive s) W;
          Some (Some (names_of s lists now), W')
      end
  end.

(** Two servers asked in turns, every twenty seconds: what they answer. *)
Fixpoint in_turns (n : nat) (ask other : string) (t : Time) (W : sites) : list (option (list string)) :=
  match n with
  | O => []
  | S n =>
      match list_models 2 t W ask with
      | Some (reply, W) => reply :: in_turns n other ask (t + 20 * Second) W
      | None => [None]
      end
  end.

(** ** Lemmas *)

(** The two halves are [GetCachedPeerModels]. *)
Lemma cached_halves peer reply now m :
  GetCachedPeerModels peer reply now now m =
  match cached now m (p_ServerID peer) with
  | Some models => (models, m)
  | None => let models := fetchPeerModelNames reply in (models, store_models now (p_ServerID peer) models m)
  end.
Proof. unfold GetCachedPeerModels, cached. by repeat case_match. Qed.

Lemma listed s lists now o ms x :
  NoDup (from_opt [] (st_tags s)) → (o, ms) ∈ lists → x ∈ ms → x ∈ names_of s lists now.
Proof. intros Hnd Hl Hx. apply (list_models_exact _ lists (st_default s) (Unix now) Hnd). right; left. eauto. Qed.

Lemma since_ago t d now : now - t = d → 0 <= d <= Minute → time_Since now t = d.
Proof.
  intros Ht Hd. unfold time_Since. rewrite time_Sub_exact;
    unfold int64_range, int64_min, int64_max, Minute, Second in *; lia.
Qed.

Lemma list_models_step fuel now W ep s :
  W !! ep = Some s →
  list_models (S fuel) now W ep =
  '(lists, W') ← ask_peers (list_models fuel now) now ep (st_alive s) W; Some (Some (names_of s lists now), W').
Proof. intros Hs. cbn [list_models]. by rewrite Hs. Qed.

(** The server at [ask] has one peer, at [other]. *)
Definition only_peer (W : sites) (ask other id : string) (s : site) : Prop :=
  W !! ask = Some s ∧ ∃ p, st_alive s = [p] ∧ p_Endpoint (peer_at (st_mesh s) p) = other ∧
    p_ServerID (peer_at (st_mesh s) p) = id.

Lemma ask_fresh fetch now ask other id s W models :
  only_peer W ask other id s → cached now (st_mesh s) id = Some models →
  ask_peers fetch now ask (st_alive s) W = Some ([(id, models)], W).
Proof.
  intros (Hs & p & Hal & _ & Hid) Hc. rewrite Hal. cbn [ask_peers]. rewrite Hs. cbv zeta. by rewrite Hid, Hc.
Qed.

Lemma ask_stale fetch now ask other id s W W' reply :
  only_peer W ask other id s → cached now (st_mesh s) id = None → fetch W other = Some (reply, W') →
  ask_peers fetch now ask (st_alive s) W =
  Some ([(id, fetchPeerModelNames reply)],
        alter (λ s, set_st_mesh (store_models now id (fetchPeerModelNames reply) (st_mesh s)) s) ask W').
Proof.
  intros (Hs & p & Hal & Hep & Hid) Hc Hf. rewrite Hal. cbn [ask_peers]. rewrite Hs. cbv zeta. by rewrite Hid, Hc, Hep, Hf.
Qed.

(** What is needed at [t] for a name to survive a request to [ask]: the
    server at [other] has it in a list it fetched twenty seconds ago. *)
Definition carries (x : string) (t : Time) (ask other : string) (W : sites) : Prop :=
  ∃ s s' id id' ms,
    only_peer W ask other id s ∧ only_peer W other ask id' s' ∧
    NoDup (from_opt [] (st_tags s)) ∧ NoDup (from_opt [] (st_tags s')) ∧
    cached t (st_mesh s) id = None ∧
    peerModels (st_mesh s') !! id' = Some ms ∧ peerModelsTime (st_mesh s') !! id' = Some (t - 20 * Second) ∧
    x ∈ ms.

Lemma carried_over x t ask other W :
  x ≠ "" → ask ≠ other → carries x t ask other W →
  ∃ names W', list_models 2 t W ask = Some (Some names, W') ∧ x ∈ names ∧
    carries x (t + 20 * Second) other ask W'.
Proof.
  intros Hx Hne (s & s' & id & id' & ms & Hs & Hs' & Hnd & Hnd' & Hstale & Hms & Htm & Hin).
  assert (cached t (st_mesh s') id' = Some ms) as Hfresh.
  { unfold cached. rewrite Hms, Htm. cbn [from_opt].
    by rewrite (since_ago _ (20 * Second)) by (unfold Minute, Second; lia). }
  assert (list_models 1 t W other = Some (Some (names_of s' [(id', ms)] t), W)) as Hother.
  { rewrite (list_models_step _ _ _ _ s') by apply Hs'. by rewrite (ask_fresh _ _ _ _ _ _ _ _ Hs' Hfresh). }
  assert (x ∈ names_of s' [(id', ms)] t) as Hin' by (eapply listed; [done|by left|done]).
  set (names := fetchPeerModelNames (Some (names_of s' [(id', ms)] t))).
  assert (x ∈ names) as Hn by (by apply list_elem_of_filter).
  eexists _, _. split_and!.
  - rewrite (list_models_step _ _ _ _ s) by apply Hs. rewrite (ask_stale _ _ _ _ _ _ _ _ _ Hs Hstale Hother). reflexivity.
  - eapply listed; [done|by left|done].
  - destruct Hs as (Hs & p & Hal & Hep & Hid), Hs' as (Hs' & p' & Hal' & Hep' & Hid').
    exists s', (set_st_mesh (store_models t id names (st_mesh s)) s), id', id, names. unfold only_peer.
    rewrite lookup_alter_eq, Hs, lookup_alter_ne, Hs' by done. split_and!; try done.
    + by exists p'.
    + by exists p.
    + unfold cached. rewrite Hms, Htm. cbn [from_opt].
      by rewrite (since_ago _ (40 * Second)) by (unfold Minute, Second; lia).
    + simpl. by rewrite lookup_insert_eq.
    + simpl. rewrite lookup_insert_eq. f_equal. lia.
Qed.

(** ** Properties *)

(** Listing the models of a mesh need not end.  If every server of some
    set has as its first alive peer a server of the set whose list it has not
    fetched in the last half minute, a request for the list of any of them
    causes a request to the next, and so on without end: no number of nested
    requests is enough, and only time-outs stop them. *)
Theorem endless_listing (C : gset string) now W :
  (∀ e, e ∈ C → ∃ s p rest, W !! e = Some s ∧ st_alive s = p :: rest ∧
     cached now (st_mesh s) (p_ServerID (peer_at (st_mesh s) p)) = None ∧
     p_Endpoint (peer_at (st_mesh s) p) ∈ C) →
  ∀ fuel e, e ∈ C → list_models fuel now W e = None.
Proof.
  intros HC fuel. induction fuel as [|fuel IH]; intros e He; [done|].
  destruct (HC e He) as (s & p & rest & Hs & Hal & Hc & Hep). rewrite (list_models_step _ _ _ _ s Hs), Hal.
  cbn [ask_peers]. rewrite Hs. cbv zeta. by rewrite Hc, (IH _ Hep).
Qed.

(** C35: a model that is gone can stay listed for ever.  Of two servers that
    are asked for their models in turns every twenty seconds, each takes the
    list of the other, which contains what the other took from it before; so
    a name that was once in such a list is in every later answer, whatever
    the machines have. *)
Theorem phantom_model_persists x t ask other W n :
  x ≠ "" → ask ≠ other → carries x t ask other W →
  length (in_turns n ask other t W) = n ∧
  Forall (λ reply, ∃ names, reply = Some names ∧ x ∈ names) (in_turns n ask other t W).
Proof.
  intros Hx. revert t ask other W. induction n as [|n IH]; intros t ask other W Hne Hc; [by split|].
  destruct (carried_over _ _ _ _ _ Hx Hne Hc) as (names & W' & Hl & Hin & Hc').
  cbn [in_turns]. rewrite Hl. destruct (IH _ _ _ _ (not_eq_sym Hne) Hc') as [Hlen Hall]. simpl. split; [lia|].
  constructor; [by exists names|done].
Qed.

(** ** Witnesses *)

(** Two servers that know each other; their Ollamas have no models. *)
Definition example_site (me other default : string) (models : option (list string * Time)) : site :=
  let m := RegisterPeer other ("http://" +:+ other) 2 default f64_zero
             (NewMeshDiscovery me 8081 8082 2 default ("http://" +:+ me) None) in
  mk_site (Some []) default [0%nat]
    match models with Some (ms, t) => store_models t other ms m | None => m end.

Lemma endless_listing_witness :
  list_models 100 Minute
    {[ "http://a" := example_site "a" "b" "llama3" None; "http://b" := example_site "b" "a" "qwen3" None ]}
    "http://a" = None.
Proof.
  apply (endless_listing {[ "http://a"; "http://b" ]}); [|set_solver].
  intros e [->%elem_of_singleton| ->%elem_of_singleton]%elem_of_union.
  - exists (example_site "a" "b" "llama3" None), 0%nat, []. split_and!; [by vm_compute..|set_solver].
  - exists (example_site "b" "a" "qwen3" None), 0%nat, []. split_and!; [by vm_compute..|set_solver].
Defined.

(** [a] took "old" from [b] twenty seconds ago. *)
Definition example_sites : sites :=
  {[ "http://b" := example_site "b" "a" "qwen3" None;
     "http://a" := example_site "a" "b" "llama3" (Some (["old"], Minute - 20 * Second)) ]}.

Lemma phantom_model_persists_witness :
  Forall (λ reply, ∃ names, reply = Some names ∧ "old" ∈ names)
    (in_turns 1000 "http://b" "http://a" Minute example_sites).
Proof.
  apply (phantom_model_persists "old" Minute "http://b" "http://a" example_sites 1000); [done|done|].
  exists (example_site "b" "a" "qwen3" None),
    (example_site "a" "b" "llama3" (Some (["old"], Minute - 20 * Second))), "a", "b", ["old"].
  split_and!; try by vm_compute.
  - split; [by vm_compute|]. exists 0%nat. by vm_compute.
  - split; [by vm_compute|]. exists 0%nat. by vm_compute.
  - constructor.
  - constructor.
  - by left.
Defined.
