(* ===== verification/Usage.v ===== *)
(** * Usage reports ([hive-server-go/db.go], [handlers.go])

    The table of finished requests: insertion, pruning, and the queries with
    the computations made of their rows, among them the histogram of speeds.
    A query that fails is an argument; SQLite's [ORDER BY] is used through the
    contract of [GoSort], its sum of reals is a function argument. *)

From S2P Require Import Prelude GoFloat GoFloatExact GoFloatSign GoText GoScan GoHttp GoSort Job JobQueue.

Local Open Scope string_scope.
Local Open Scope list_scope.
Local Open Scope Z_scope.

(** ** The table *)

Abbreviation token_usage := (list TokenRecord) (only parsing).

(** [failed] is the error of a statement that fails. *)
Definition Insert (failed : option string) (rec : TokenRecord) (db : token_usage)
    : result unit * token_usage :=
  match failed with Some e => (Err e, db) | None => (Ok (), db ++ [rec]) end.

Definition Prune (failed : option string) (now maxAge : f64) (db : token_usage) : result unit * token_usage :=
  match failed with
  | Some e => (Err e, db)
  | None => (Ok (), filter (λ r, f64_ltb (tr_Timestamp r) (f64_sub now maxAge) = false) db)
  end.

Definition GetRecent (failed : option string) (limit : Z) (db : token_usage) : result (list TokenRecord) :=
  match failed with
  | Some e => Err ("query recent: " +:+ e)
  | None => Ok (if limit <? 0 then reverse db else take (Z.to_nat limit) (reverse db))
  end.

(** [created_at >= ? [AND model = ?]]. *)
Definition wanted (model : string) (since : f64) (r : TokenRecord) : bool :=
  f64_leb since (tr_Timestamp r) && (String.eqb model "" || String.eqb (tr_Model r) model).

Record UsageReport := mk_Report {
  u_Provider : string; u_Model : string; u_TotalPrompts : Z; u_TotalCompletions : Z;
  u_TotalTokens : Z; u_TotalDuration : f64; u_AvgTPS : f64; u_AvgDuration : f64;
  u_JobCount : Z; u_ServingNode : string; u_ServingType : string }.

Record HistogramBin := mk_Bin { b_Min : f64; b_Max : f64; b_Count : Z }.

Record HistogramResult := mk_Histogram {
  h_Bins : list HistogramBin; h_Min : f64; h_Max : f64; h_Avg : f64; h_Median : f64;
  h_Count : Z; h_Model : string; h_Since : f64 }.

Section queries.
Context `{!GoSort}.
(** SQLite's [SUM] of reals. *)
Variable sum_real : list f64 → f64.
Variable failed : option string.

(** ** Reports *)

Abbreviation group := (string * string * string * string)%type (only parsing).

Definition group_of (r : TokenRecord) : group :=
  (tr_Provider r, tr_Model r, tr_ServingNode r, tr_ServingType r).

Definition sumZ {A} (f : A → Z) (l : list A) : Z := foldr (λ a z, f a + z) 0 l.

(** One row of the result, and the averages computed from it. *)
Definition report_of (rows : token_usage) (k : group) : UsageReport :=
  let rs := filter (λ r, group_of r = k) rows in
  let tokens := sumZ tr_TotalTokens rs in
  let dur := sum_real (tr_DurationSeconds <$> rs) in
  let n := go_len rs in
  let avg := (0 <? n) && f64_ltb f64_zero dur in
  mk_Report k.1.1.1 k.1.1.2 (sumZ tr_PromptTokens rs) (sumZ tr_CompletionTokens rs) tokens dur
    (if avg then f64_div (f64_of_Z tokens) dur else f64_zero)
    (if avg then f64_div dur (f64_of_Z n) else f64_zero) n k.1.2 k.2.

Definition in_range (u : UsageReport) : bool :=
  bool_decide (int64_range (u_TotalPrompts u)) && bool_decide (int64_range (u_TotalCompletions u)) &&
  bool_decide (int64_range (u_TotalTokens u)).

(** A sum out of range makes the query fail. *)
Definition GetReports (db : token_usage) : result (list UsageReport) :=
  match failed with
  | Some e => Err ("query reports: " +:+ e)
  | None =>
      let reports := report_of db <$> remove_dups (group_of <$> db) in
      if forallb in_range reports
      then Ok (sort_slice (λ a b, u_TotalTokens b <? u_TotalTokens a) reports)
      else Err "integer overflow"
  end.

Record summary := mk_Summary {
  su_prompts : Z; su_completions : Z; su_tokens : Z; su_jobs : Z; su_duration : f64;
  su_avgTPS : f64; su_avgDur : f64; su_reports : list UsageReport }.

Definition GetSummary (db : token_usage) : result summary :=
  match GetReports db with
  | Err e => Err e
  | Ok reports =>
      let tot (f : UsageReport → Z) := foldl (λ z r, int_add z (f r)) 0 reports in
      let tokens := tot u_TotalTokens in
      let jobs := tot u_JobCount in
      let dur := foldl (λ z r, f64_add z (u_TotalDuration r)) f64_zero reports in
      let avg := (0 <? jobs) && f64_ltb f64_zero dur in
      Ok (mk_Summary (tot u_TotalPrompts) (tot u_TotalCompletions) tokens jobs dur
            (if avg then f64_div (f64_of_Z tokens) dur else f64_zero)
            (if avg then f64_div dur (f64_of_Z jobs) else f64_zero) reports)
  end.

Definition GetTimeSeries (model : string) (since : f64) (db : token_usage)
    : result (list (f64 * f64 * string)) :=
  match failed with
  | Some e => Err ("query timeseries: " +:+ e)
  | None => Ok ((λ r, (tr_Timestamp r, tr_TokensPerSecond r, tr_Model r)) <$>
                sort_slice (λ a b, f64_ltb (tr_Timestamp a) (tr_Timestamp b))
                  (filter (λ r, wanted model since r = true) db))
  end.

(** Text compares byte by byte. *)
Definition GetModels (db : token_usage) : result (list string) :=
  match failed with
  | Some e => Err ("query models: " +:+ e)
  | None => Ok (sort_slice String.ltb (remove_dups (tr_Model <$> db)))
  end.

(** ** The histogram of speeds *)

(** The values of the query, in ascending order. *)
Definition speeds (model : string) (since : f64) (db : token_usage) : list f64 :=
  sort_slice f64_ltb
    (tr_TokensPerSecond <$>
       filter (λ r, wanted model since r && f64_ltb f64_zero (tr_TokensPerSecond r) = true) db).

Definition hist_index (vmin binSize : f64) (numBins : Z) (v : f64) : Z :=
  let idx := f64_to_int (f64_div (f64_sub v vmin) binSize) in
  if numBins <=? idx then int_decr numBins else idx.

(** [counts[idx]++], which panics when [idx] is out of range. *)
Definition hist_step (vmin binSize : f64) (numBins : Z) (counts : panics (list Z)) (v : f64)
    : panics (list Z) :=
  counts ← counts;
  let idx := hist_index vmin binSize numBins v in
  if (0 <=? idx) && (idx <? go_len counts) then Some (alter int_incr (Z.to_nat idx) counts) else None.

Definition median (values : list f64) : f64 :=
  let mid := (length values / 2)%nat in
  if Nat.even (length values)
  then f64_div (f64_add (nth (mid - 1) values f64_zero) (nth mid values f64_zero)) (f64_of_Z 2)
  else nth mid values f64_zero.

Definition bin_size (vmin vmax : f64) (numBins : Z) : f64 :=
  let rng := f64_sub vmax vmin in
  f64_div (if f64_eqb rng f64_zero then f64_of_Z 1 else rng) (f64_of_Z numBins).

Definition bin_at (vmin binSize : f64) (i : nat) (c : Z) : HistogramBin :=
  mk_Bin (f64_add vmin (f64_mul (f64_of_Z (Z.of_nat i)) binSize))
    (f64_add vmin (f64_mul (f64_of_Z (Z.of_nat i + 1)) binSize)) c.

Definition GetHistogram (model : string) (since : f64) (numBins : Z) (db : token_usage)
    : panics (result HistogramResult) :=
  match failed with
  | Some e => Some (Err ("query histogram: " +:+ e))
  | None =>
      let values := speeds model since db in
      let n := go_len values in
      match values with
      | [] => Some (Ok (mk_Histogram [] f64_zero f64_zero f64_zero f64_zero n model since))
      | vmin :: _ =>
          let vmax := List.last values f64_zero in
          let avg := f64_div (foldl f64_add f64_zero values) (f64_of_Z n) in
          let binSize := bin_size vmin vmax numBins in
          if numBins <? 0 then None
          else
            counts ← foldl (hist_step vmin binSize numBins) (Some (replicate (Z.to_nat numBins) 0)) values;
            Some (Ok (mk_Histogram (imap (bin_at vmin binSize) counts) vmin vmax avg (median values)
                        n model since))
      end
  end.
End queries.

(** ** Handlers *)

Section handlers.
Context `{!GoSort}.
Variable sum_real : list f64 → f64.
(** The value [Sscanf(s, "%f", &f)] leaves in a zero [f]. *)
Variable Sscanf_f : string → f64.

Definition report_json (u : UsageReport) : json := jobj [
  ("provider", JStr (u_Provider u)); ("model", JStr (u_Model u));
  ("total_prompts", JInt (u_TotalPrompts u)); ("total_completions", JInt (u_TotalCompletions u));
  ("total_tokens", JInt (u_TotalTokens u)); ("total_duration_seconds", JNum (u_TotalDuration u));
  ("avg_tokens_per_second", JNum (u_AvgTPS u)); ("avg_duration_seconds", JNum (u_AvgDuration u));
  ("job_count", JInt (u_JobCount u)); ("serving_node", JStr (u_ServingNode u));
  ("serving_type", JStr (u_ServingType u))].

Definition record_json (r : TokenRecord) : json := jobj [
  ("provider", JStr (tr_Provider r)); ("model", JStr (tr_Model r));
  ("prompt_tokens", JInt (tr_PromptTokens r)); ("completion_tokens", JInt (tr_CompletionTokens r));
  ("total_tokens", JInt (tr_TotalTokens r)); ("duration_seconds", JNum (tr_DurationSeconds r));
  ("tokens_per_second", JNum (tr_TokensPerSecond r)); ("job_type", JStr (tr_JobType r));
  ("client_id", JStr (tr_ClientID r)); ("job_id", JStr (tr_JobID r));
  ("serving_node", JStr (tr_ServingNode r)); ("serving_type", JStr (tr_ServingType r));
  ("timestamp", JNum (tr_Timestamp r))].

Definition histogram_json (h : HistogramResult) : json := jobj [
  ("bins", JArr ((λ b, jobj [("min_tps", JNum (b_Min b)); ("max_tps", JNum (b_Max b)); ("count", JInt (b_Count b))])
                 <$> h_Bins h));
  ("min_tps", JNum (h_Min h)); ("max_tps", JNum (h_Max h)); ("avg_tps", JNum (h_Avg h));
  ("median_tps", JNum (h_Median h)); ("count", JInt (h_Count h)); ("model", JStr (h_Model h));
  ("since", JNum (h_Since h))].

(** A nil slice is encoded as [null]. *)
Definition jslice {A} (f : A → json) (l : list A) : json :=
  match l with [] => JNull | _ => JArr (f <$> l) end.

Definition error_json (e : string) : response := write_json (jobj [("error", JStr e)]).

(** [since] of a request made at [now]. *)
Definition since_of (now : f64) (sinceStr : string) : f64 :=
  let default := f64_sub now (f64_of_Z 3600) in
  if String.eqb sinceStr "" then default
  else let s := Sscanf_f sinceStr in if f64_ltb f64_zero s then s else default.

Definition bins_of (binsStr : string) : Z :=
  if String.eqb binsStr "" then 20
  else let b := from_opt 0 (Sscanf_d binsStr) in if (0 <? b) && (b <=? 200) then b else 20.

(** The database is [None] when it could not be opened; [failed] tells which
    queries fail, the second of [failed'] being that of the list of models. *)
Definition handleUsageTimeSeries (db : option token_usage) (failed failed' : option string) (now : f64)
    (q : string → string) : response :=
  match db with
  | None => write_json (jobj [("points", JArr [])])
  | Some db =>
      match GetTimeSeries failed (q "model") (since_of now (q "since")) db with
      | Err e => error_json e
      | Ok points =>
          let models := match GetModels failed' db with Ok ms => ms | Err _ => [] end in
          write_json (jobj [
            ("points", jslice (λ p, jobj [("timestamp", JNum p.1.1); ("tps", JNum p.1.2); ("model", JStr p.2)]) points);
            ("models", jslice JStr models)])
      end
  end.

Definition handleUsageHistogram (db : option token_usage) (failed : option string) (now : f64)
    (q : string → string) : panics response :=
  match db with
  | None => Some (error_json "no database")
  | Some db =>
      r ← GetHistogram failed (q "model") (since_of now (q "since")) (bins_of (q "bins")) db;
      Some (match r with
            | Err e => error_json e
            | Ok h => write_json (jobj [("histogram", histogram_json h)])
            end)
  end.

Definition summary_json (s : summary) : json := jobj [
  ("total_prompts", JInt (su_prompts s)); ("total_completions", JInt (su_completions s));
  ("total_tokens", JInt (su_tokens s)); ("total_jobs", JInt (su_jobs s));
  ("total_duration_seconds", JNum (su_duration s)); ("avg_tokens_per_second", JNum (su_avgTPS s));
  ("avg_duration_seconds", JNum (su_avgDur s)); ("by_provider_model", jslice report_json (su_reports s))].

Definition handleUsageReport (db : option token_usage) (failed : option string) : response :=
  match db with
  | None => error_json "database not available"
  | Some db =>
      match GetSummary sum_real failed db with
      | Err e => error_json e
      | Ok s => write_json (summary_json s)
      end
  end.

Definition handleUsageRecent (db : option token_usage) (failed : option string) : response :=
  match db with
  | None => write_json (jobj [("records", JArr [])])
  | Some db =>
      match GetRecent failed 100 db with
      | Err e => error_json e
      | Ok records => write_json (jobj [("records", jslice record_json records)])
      end
  end.
End handlers.

(** ** Notions of the properties *)

(** The rows a histogram is made of. *)
Definition counted (model : string) (since : f64) (r : TokenRecord) : bool :=
  wanted model since r && f64_ltb f64_zero (tr_TokensPerSecond r).

(** The quotient a bin is found by can be converted to an [int]. *)
Definition index_fits (vmin binSize v : f64) : Prop :=
  ∃ z, f64_trunc_Z (f64_div (f64_sub v vmin) binSize) = Some z ∧ z <= int64_max.

Definition positive_finite (v : f64) : Prop :=
  valid v = true ∧ f64_ltb f64_zero v = true ∧ f64_trunc_Z v ≠ None.

(** ** Sums *)

Lemma sumZ_cons {A} (f : A → Z) a l : sumZ f (a :: l) = f a + sumZ f l.
Proof. done. Qed.

Lemma sumZ_perm {A} (f : A → Z) l k : l ≡ₚ k → sumZ f l = sumZ f k.
Proof. induction 1; rewrite ?sumZ_cons; lia. Qed.

Lemma sumZ_fmap {A B} (f : B → Z) (g : A → B) l : sumZ f (g <$> l) = sumZ (λ a, f (g a)) l.
Proof. induction l; [done|]. rewrite fmap_cons, !sumZ_cons. lia. Qed.

Lemma sumZ_ext {A} (f g : A → Z) l : (∀ a, f a = g a) → sumZ f l = sumZ g l.
Proof. intros Hfg. induction l; [done|]. rewrite !sumZ_cons, Hfg. lia. Qed.

Lemma sumZ_nonneg {A} (f : A → Z) l : (∀ a, a ∈ l → 0 <= f a) → 0 <= sumZ f l.
Proof.
  induction l as [|a l IH]; intros Hf; [done|]. rewrite sumZ_cons.
  specialize (Hf a ltac:(by left)) as Ha. assert (0 <= sumZ f l); [|lia]. apply IH. intros b Hb. apply Hf. by right.
Qed.

Lemma sumZ_filter_le {A} (f : A → Z) (P : A → Prop) `{∀ a, Decision (P a)} l :
  (∀ a, a ∈ l → 0 <= f a) → sumZ f (filter P l) <= sumZ f l.
Proof.
  induction l as [|a l IH]; intros Hf; [done|]. rewrite filter_cons.
  specialize (Hf a ltac:(by left)) as Ha. assert (sumZ f (filter P l) <= sumZ f l) by (apply IH; intros b Hb; apply Hf; by right).
  case_decide; rewrite ?sumZ_cons; lia.
Qed.

Lemma sumZ_one {A} (l : list A) : sumZ (λ _, 1) l = go_len l.
Proof. induction l; [done|]. rewrite sumZ_cons, go_len_cons. lia. Qed.

(** Summing group by group is summing all. *)
Lemma sumZ_groups {A B} `{EqDecision B} (f : A → Z) (g : A → B) (ks : list B) (l : list A) :
  NoDup ks → (∀ a, a ∈ l → g a ∈ ks) →
  sumZ (λ k, sumZ f (filter (λ a, g a = k) l)) ks = sumZ f l.
Proof.
  intros Hks. induction l as [|a l IH]; intros Hin.
  - clear. by induction ks.
  - rewrite sumZ_cons, <-IH by (intros b Hb; apply Hin; by right).
    assert (∀ ks', NoDup ks' → sumZ (λ k, sumZ f (filter (λ b, g b = k) (a :: l))) ks' =
      (if decide (g a ∈ ks') then f a else 0) + sumZ (λ k, sumZ f (filter (λ b, g b = k) l)) ks') as Hg.
    { clear. induction 1 as [|k ks Hk Hnd IH]; [done|].
      rewrite !sumZ_cons, IH, filter_cons. destruct (decide (g a = k)) as [<-|Hne].
      - rewrite sumZ_cons. rewrite (decide_False (P := g a ∈ ks)) by done.
        rewrite decide_True by (by left). lia.
      - destruct (decide (g a ∈ ks)) as [Ha|Ha].
        + rewrite decide_True by (by right). lia.
        + rewrite decide_False by (by intros [|]%elem_of_cons). lia. }
    rewrite Hg, decide_True by (done || (apply Hin; by left)). done.
Qed.

Lemma int_add_foldl {A} (f : A → Z) l : foldl (λ z a, int_add z (f a)) 0 l = wrap64 (sumZ f l).
Proof.
  assert (∀ z, foldl (λ z a, int_add z (f a)) (wrap64 z) l = wrap64 (z + sumZ f l)) as Hg.
  { induction l as [|a l IH]; intros z; simpl; [by rewrite Z.add_0_r|].
    rewrite int_add_wrap, IH. f_equal. lia. }
  exact (Hg 0).
Qed.

Lemma StronglySorted_weaken {A} (R Q : relation A) l :
  (∀ a b, R a b → Q a b) → StronglySorted R l → StronglySorted Q l.
Proof. intros HRQ. induction 1; constructor; [done|]. eapply Forall_impl; eauto. Qed.

(** ** The summary *)

Section summary.
Context `{GoSortSpec}.
Variable sum_real : list f64 → f64.

Lemma report_sums (db : token_usage) (f : TokenRecord → Z) (u : UsageReport → Z) :
  (∀ k, u (report_of sum_real db k) = sumZ f (filter (λ r, group_of r = k) db)) →
  sumZ u (report_of sum_real db <$> remove_dups (group_of <$> db)) = sumZ f db.
Proof.
  intros Hu. rewrite sumZ_fmap.
  rewrite (sumZ_ext _ (λ k, sumZ f (filter (λ r, group_of r = k) db))) by done.
  apply sumZ_groups; [apply NoDup_remove_dups|]. intros r Hr.
  by apply elem_of_remove_dups, list_elem_of_fmap_2.
Qed.

(** The summary loses nothing: the rows are reported group by group, the
    largest first, every group once with the sums of its rows, and the totals
    are those of the table. *)
Theorem summary_totals db :
  (∀ r, r ∈ db → 0 <= tr_PromptTokens r ∧ 0 <= tr_CompletionTokens r ∧ 0 <= tr_TotalTokens r) →
  sumZ tr_PromptTokens db <= int64_max → sumZ tr_CompletionTokens db <= int64_max →
  sumZ tr_TotalTokens db <= int64_max → go_len db <= int64_max →
  ∃ s, GetSummary sum_real None db = Ok s ∧
    su_prompts s = sumZ tr_PromptTokens db ∧ su_completions s = sumZ tr_CompletionTokens db ∧
    su_tokens s = sumZ tr_TotalTokens db ∧ su_jobs s = go_len db ∧
    su_reports s ≡ₚ report_of sum_real db <$> remove_dups (group_of <$> db) ∧
    StronglySorted (λ a b, u_TotalTokens b <= u_TotalTokens a) (su_reports s).
Proof.
  intros Hpos Hp Hc Ht Hn. unfold GetSummary, GetReports.
  set (reports := report_of sum_real db <$> remove_dups (group_of <$> db)).
  assert (∀ f k, (∀ r, r ∈ db → 0 <= f r) → sumZ f db <= int64_max →
            int64_range (sumZ f (filter (λ r, group_of r = k) db))) as Hr.
  { intros f k Hf Hm. pose proof (sumZ_filter_le f (λ r, group_of r = k) db Hf).
    assert (0 <= sumZ f (filter (λ r, group_of r = k) db)).
    { apply sumZ_nonneg. intros r [_ Hr]%list_elem_of_filter. by apply Hf. }
    unfold int64_range, int64_min in *. lia. }
  assert (forallb in_range reports = true) as ->.
  { apply forallb_forall. intros u [k [-> _]]%list_elem_of_In%list_elem_of_fmap.
    unfold in_range. rewrite !andb_true_iff, !bool_decide_eq_true. simpl.
    split_and!; apply Hr; try done; intros r Hin; by apply Hpos. }
  eexists. split; [reflexivity|]. simpl. rewrite !int_add_foldl.
  rewrite !(sumZ_perm _ _ _ (sort_slice_perm _ reports)). unfold reports.
  rewrite (report_sums db tr_PromptTokens u_TotalPrompts), (report_sums db tr_CompletionTokens u_TotalCompletions),
    (report_sums db tr_TotalTokens u_TotalTokens), (report_sums db (λ _, 1) u_JobCount)
    by (intros; simpl; rewrite ?sumZ_one; done).
  rewrite sumZ_one. fold reports.
  assert (∀ f, (∀ r, r ∈ db → 0 <= f r) → sumZ f db <= int64_max → wrap64 (sumZ f db) = sumZ f db) as Hw.
  { intros f Hf Hm. apply wrap64_id. pose proof (sumZ_nonneg f db Hf). unfold int64_range, int64_min. lia. }
  rewrite !Hw by (done || (intros r Hin; by apply Hpos)).
  split_and!; [done..| |apply sort_slice_perm|].
  - apply wrap64_id. pose proof (go_len_nonneg db). unfold int64_range, int64_min. lia.
  - eapply StronglySorted_weaken; [|apply (sort_slice_sorted (λ a b, u_TotalTokens b <? u_TotalTokens a)),
      (weak_order_on_Z_key_desc u_TotalTokens)].
    intros a b. simpl. rewrite Z.ltb_ge. done.
Qed.

End summary.

(** ** The histogram *)

Section histogram.
Context `{GoSortSpec}.

Lemma hist_index_range vmin binSize n v :
  0 < n <= int64_max → sign_of (f64_sub v vmin) = Some false → sign_of binSize = Some false ∨ f64_is_nan binSize = true →
  index_fits vmin binSize v → 0 <= hist_index vmin binSize n v < n.
Proof.
  intros Hn Hs Hb (z & Hz & Hm). unfold hist_index, f64_to_int. rewrite Hz.
  assert (f64_is_nan (f64_div (f64_sub v vmin) binSize) = false) as Hnan by (by destruct (f64_div _ _)).
  destruct Hb as [Hb|Hb]; [|by destruct binSize, (f64_sub v vmin)].
  pose proof (trunc_nonneg _ _ (f64_div_sign _ _ Hs Hb Hnan) Hz) as Hz0.
  rewrite bool_decide_eq_true_2 by (unfold int64_range, int64_min; lia).
  destruct (Z.leb_spec n z); [|lia]. unfold int_decr. rewrite int_sub_id; unfold int64_range, int64_min; lia.
Qed.

Lemma sumZ_incr j counts c :
  counts !! j = Some c → int_incr c = c + 1 → sumZ id (alter int_incr j counts) = sumZ id counts + 1.
Proof.
  revert j. induction counts as [|d counts IH]; intros [|j] Hj Hc; try done.
  - injection Hj as ->. change (alter int_incr 0%nat (c :: counts)) with (int_incr c :: counts).
    rewrite !sumZ_cons, Hc. unfold id. lia.
  - change (alter int_incr (S j) (d :: counts)) with (d :: alter int_incr j counts).
    rewrite !sumZ_cons, IH by done. lia.
Qed.

(** The loop that counts: each value is counted once, in its own bin. *)
Lemma hist_loop vmin binSize n values counts :
  (∀ v, v ∈ values → 0 <= hist_index vmin binSize n v < go_len counts) →
  (∀ i c, counts !! i = Some c → 0 <= c ∧ c + go_len values <= int64_max) →
  ∃ counts', foldl (hist_step vmin binSize n) (Some counts) values = Some counts' ∧
    length counts' = length counts ∧
    (∀ i c, counts !! i = Some c → counts' !! i =
       Some (c + Z.of_nat (count_if (λ v, hist_index vmin binSize n v =? Z.of_nat i) values))) ∧
    sumZ id counts' = sumZ id counts + go_len values.
Proof.
  revert counts. induction values as [|v values IH]; intros counts Hi Hc.
  { eexists. split_and!; [done|done| |by rewrite go_len_nil, Z.add_0_r]. intros i c ->. by rewrite Z.add_0_r. }
  simpl. specialize (Hi v ltac:(by left)) as Hv.
  rewrite (proj2 (Z.leb_le _ _)), (proj2 (Z.ltb_lt _ _)) by lia. simpl.
  set (j := Z.to_nat (hist_index vmin binSize n v)).
  destruct (lookup_lt_is_Some_2 counts j) as [c Hcj]; [unfold j, go_len in *; lia|].
  destruct (Hc j c Hcj) as [Hc0 Hc1]. rewrite go_len_cons in Hc1. pose proof (go_len_nonneg values).
  assert (int_incr c = c + 1) as Hincr by (apply int_add_id; unfold int64_range, int64_min; lia).
  destruct (IH (alter int_incr j counts)) as (counts' & Hf & Hlen & Hl & Hsum).
  - intros w Hw. unfold go_len. rewrite length_alter. apply Hi. by right.
  - intros i d Hd. rewrite list_lookup_alter in Hd. case_decide as Hij.
    + subst i. rewrite Hcj in Hd. injection Hd as <-. rewrite Hincr. lia.
    + destruct (Hc i d Hd). rewrite go_len_cons in *. lia.
  - exists counts'. split_and!; [done|by rewrite Hlen, length_alter| |].
    + intros i d Hd. rewrite count_if_cons. destruct (Z.eqb_spec (hist_index vmin binSize n v) (Z.of_nat i)) as [He|He].
      * assert (j = i) as Hji by lia. rewrite Hji in *. rewrite Hd in Hcj. injection Hcj as ->.
        rewrite (Hl i (int_incr c)) by (by rewrite list_lookup_alter_eq, Hd). rewrite Hincr. f_equal. lia.
      * rewrite (Hl i d); [f_equal; lia|]. rewrite list_lookup_alter_ne by lia. done.
    + rewrite Hsum, go_len_cons.
      rewrite (sumZ_incr j counts c) by done. lia.
Qed.

Lemma speeds_elem model since db v :
  v ∈ speeds model since db ↔ ∃ r, r ∈ db ∧ counted model since r = true ∧ tr_TokensPerSecond r = v.
Proof.
  unfold speeds. rewrite sort_slice_elem, list_elem_of_fmap.
  split.
  - intros (r & -> & [Hc Hr]%list_elem_of_filter). by exists r.
  - intros (r & Hr & Hc & <-). exists r. split; [done|]. by apply list_elem_of_filter.
Qed.

Lemma speeds_length model since db : length (speeds model since db) = count_if (counted model since) db.
Proof.
  unfold speeds, count_if. rewrite sort_slice_length, length_fmap. done.
Qed.

Lemma speeds_sorted model since db :
  (∀ v, v ∈ speeds model since db → f64_is_nan v = false) →
  StronglySorted (λ x y, f64_ltb y x = false) (speeds model since db).
Proof.
  intros Hnan. unfold speeds. apply sort_slice_sorted. split; [intros x y _ _; apply f64_ltb_asym|].
  intros x y z _ Hy _. apply f64_nlt_trans, Hnan. unfold speeds. by rewrite sort_slice_elem.
Qed.

Lemma sorted_last (l : list f64) :
  StronglySorted (λ x y, f64_ltb y x = false) l → l ≠ [] →
  List.last l f64_zero ∈ l ∧ ∀ v, v ∈ l → f64_ltb (List.last l f64_zero) v = false.
Proof.
  intros Hs Hne. destruct l as [|x l _] using rev_ind; [done|]. rewrite List.last_last.
  split; [set_solver|]. intros v [Hv| ->%list_elem_of_singleton]%elem_of_app; [|apply f64_ltb_irrefl].
  revert Hs Hv. clear. induction l as [|y l IH]; intros Hs Hv; [by apply not_elem_of_nil in Hv|].
  apply StronglySorted_inv in Hs as [Hs Hall]. apply elem_of_cons in Hv as [->|Hv]; [|by apply IH].
  rewrite Forall_forall in Hall. apply Hall. set_solver.
Qed.

Lemma sorted_head (x : f64) l v :
  StronglySorted (λ x y, f64_ltb y x = false) (x :: l) → v ∈ x :: l → f64_ltb v x = false.
Proof.
  intros [_ Hall]%StronglySorted_inv [->|Hv]%elem_of_cons; [apply f64_ltb_irrefl|].
  rewrite Forall_forall in Hall. by apply Hall.
Qed.

Lemma bin_size_sign vmin vmax n :
  sign_of (f64_sub vmax vmin) = Some false → 0 <= n →
  sign_of (bin_size vmin vmax n) = Some false ∨ f64_is_nan (bin_size vmin vmax n) = true.
Proof.
  intros Hs Hn. unfold bin_size.
  set (x := if f64_eqb _ _ then f64_of_Z 1 else _).
  destruct (f64_is_nan (f64_div x (f64_of_Z n))) eqn:Hnan; [by right|left].
  apply f64_div_sign; [unfold x; by case_match|by apply normalize_sign|done].
Qed.

Lemma imap_bins vmin binSize (counts : list Z) : b_Count <$> imap (bin_at vmin binSize) counts = counts.
Proof.
  apply list_eq. intros i. rewrite list_lookup_fmap, list_lookup_imap. by destruct (counts !! i).
Qed.

End histogram.

(** ** Handlers *)

Lemma bins_of_range binsStr : 0 < bins_of binsStr <= 200.
Proof.
  unfold bins_of. destruct (String.eqb binsStr ""); [done|].
  destruct (Z.ltb_spec 0 (from_opt 0 (Sscanf_d binsStr))); [|done].
  destruct (Z.leb_spec (from_opt 0 (Sscanf_d binsStr)) 200); simpl; lia.
Qed.

(** A retained row is one that pruning keeps: exactly the rows younger than
    the limit remain, in order. *)
Theorem prune_exact now maxAge db r :
  r ∈ (Prune None now maxAge db).2 ↔ r ∈ db ∧ f64_ltb (tr_Timestamp r) (f64_sub now maxAge) = false.
Proof. simpl. rewrite list_elem_of_filter. tauto. Qed.

(** ** Witnesses *)

Definition example_record (provider : string) (tokens tps : Z) : TokenRecord :=
  mk_TokenRecord provider "llama3" 1 (tokens - 1) tokens (f64_of_Z 2) (f64_of_Z tps) "chat" "c" "j" "s1" "cpu"
    (f64_of_Z 1000).
Definition example_db : token_usage :=
  [example_record "ollama" 30 10; example_record "mlx" 50 40; example_record "ollama" 40 20;
   example_record "ollama" 10 0].

Definition sum_in_order : list f64 → f64 := foldl f64_add f64_zero.

Lemma summary_totals_witness :
  ∃ s, GetSummary sum_in_order None example_db = Ok s ∧ su_tokens s = 130 ∧ su_jobs s = 4.
Proof.
  destruct (summary_totals sum_in_order example_db) as (s & Hs & _ & _ & Ht & Hj & _);
    [|vm_compute; discriminate..|].
  - intros r Hr. repeat (apply elem_of_cons in Hr as [->|Hr]; [by vm_compute|]). by apply not_elem_of_nil in Hr.
  - exists s. split; [exact Hs|]. rewrite Ht, Hj. split; reflexivity.
Defined.

