(* ===== verification/Accounting.v ===== *)
(** * Accounting of the jobs ([hive-server-go/queue.go], [db.go])

    The end of [executeJob] hands the usage of a completed job to a goroutine
    that inserts it into the table ([insertDB]).  Here the workers of
    [JobQueue] run together with those goroutines and the table of
    [Usage]. *)

From S2P Require Import Prelude GoFloat GoHttp Job JobQueue Usage.

Local Open Scope string_scope.
Local Open Scope list_scope.

(** The insertions a worker starts when the call has returned: none without a
    database, after an error, or when the reply has no token counts. *)
Definition insertDB (open : bool) (servingNodeID servingType : string) (job : Job) (r : result json) (now : Time) :
    list TokenRecord :=
  match r with
  | Ok res => if open then option_list (recordFromResult servingNodeID servingType job res now) else []
  | Err _ => []
  end.

(** [lg_pending] are the goroutines that have not inserted yet, [lg_lost] the
    records whose insertion failed; [lg_charged] notes the jobs of all
    records in the order of their execution. *)
Record ledger := mk_ledger {
  lg_sys : sys;
  lg_open : bool;
  lg_node : string;
  lg_type : string;
  lg_pending : list TokenRecord;
  lg_table : list TokenRecord;
  lg_lost : list TokenRecord;
  lg_charged : list nat }.

Definition set_lg_sys (S : sys) (L : ledger) : ledger :=
  mk_ledger S (lg_open L) (lg_node L) (lg_type L) (lg_pending L) (lg_table L) (lg_lost L) (lg_charged L).

(** A worker executes its job. *)
Definition execute (w job : nat) (r : result json) (now now' : Time) (L : ledger) : ledger :=
  let S := lg_sys L in
  let q := worker_execute job r now (oq S) in
  let recs := insertDB (lg_open L) (lg_node L) (lg_type L) (job_of q job) r now' in
  mk_ledger (mk_sys q (<[w := Executed job]> (workers S)) (started S) (finished S))
    (lg_open L) (lg_node L) (lg_type L) (lg_pending L ++ recs) (lg_table L) (lg_lost L)
    (lg_charged L ++ match recs with [] => [] | _ => [job] end).

(** A pending goroutine inserts its record. *)
Definition insert_record (failed : option string) (rec : TokenRecord) (pending : list TokenRecord) (L : ledger) : ledger :=
  mk_ledger (lg_sys L) (lg_open L) (lg_node L) (lg_type L) pending (Insert failed rec (lg_table L)).2
    (lg_lost L ++ match failed with Some _ => [rec] | None => [] end) (lg_charged L).

(** All other steps of the queue are those in which no worker executes. *)
Definition no_execution (S S' : sys) : Prop :=
  ∀ w job, workers S !! w = Some (Entered job) → workers S' !! w = Some (Entered job).

Inductive lstep : ledger → ledger → Prop :=
  | ls_other L o S' : step o (lg_sys L) S' → no_execution (lg_sys L) S' → lstep L (set_lg_sys S' L)
  | ls_execute L w job r now now' :
      workers (lg_sys L) !! w = Some (Entered job) → lstep L (execute w job r now now' L)
  | ls_insert L l1 rec l2 failed :
      lg_pending L = l1 ++ rec :: l2 → lstep L (insert_record failed rec (l1 ++ l2) L).

(** A server that has just started, with the table of earlier runs empty. *)
Definition opening (L : ledger) : Prop :=
  initial (lg_sys L) ∧ lg_pending L = [] ∧ lg_table L = [] ∧ lg_lost L = [] ∧ lg_charged L = [].

(** ** Lemmas *)

(** The jobs whose call has returned. *)
Definition executed (S : sys) : list nat := finished S ++ omap done_by (workers S).

Lemma executed_known S p : p ∈ executed S → p ∈ all_jobs S.
Proof.
  unfold executed, all_jobs. rewrite !elem_of_app. intros [?|Hp]; [by right; right|right; left].
  eapply elem_of_sublist; [exact Hp|]. apply omap_sublist. by intros [].
Qed.

Lemma all_jobs_NoDup S : inv S → NoDup (all_jobs S).
Proof. intros HI. by eapply NoDup_fmap_inv, inv_ids. Qed.

(** A job that is being executed has not been. *)
Lemma entered_not_executed S w job :
  inv S → workers S !! w = Some (Entered job) → job ∉ executed S.
Proof.
  intros HI Hw Hin. pose proof (all_jobs_NoDup S HI) as Hnd. unfold all_jobs in Hnd.
  apply NoDup_app in Hnd as (_ & _ & Hnd). apply NoDup_app in Hnd as (Hnd & Hdis & _).
  pose proof (omap_insert_perm held _ _ _ Idle Hw) as Hh. simpl in Hh.
  pose proof (omap_insert_perm done_by _ _ _ Idle Hw) as Hd. simpl in Hd.
  unfold executed in Hin. apply elem_of_app in Hin as [Hin|Hin].
  - apply (Hdis job); [|done]. apply list_elem_of_omap. exists (Entered job). split; [|done].
    by eapply list_elem_of_lookup_2.
  - rewrite <-Hd, app_nil_r in Hin. rewrite <-Hh in Hnd. apply NoDup_app in Hnd as (_ & Hni & _).
    apply (Hni job); [|by left]. eapply elem_of_sublist; [exact Hin|]. apply omap_sublist. by intros [].
Qed.

Lemma execute_executed S w job q :
  workers S !! w = Some (Entered job) →
  executed (mk_sys q (<[w := Executed job]> (workers S)) (started S) (finished S)) ≡ₚ job :: executed S.
Proof.
  intros Hw. pose proof (omap_insert_perm done_by _ _ _ (Executed job) Hw) as Hd. simpl in Hd.
  unfold executed. simpl. rewrite app_nil_r in Hd. rewrite Hd. by rewrite <-Permutation_middle.
Qed.

(** The other steps execute no job and leave the executed ones alone. *)
Lemma other_executed o S S' :
  inv S → step o S S' → no_execution S S' →
  executed S' ≡ₚ executed S ∧ ∀ p, p ∈ executed S → job_of (oq S') p = job_of (oq S) p.
Proof.
  intros HI Hstep Hno. pose proof (all_jobs_NoDup S HI) as Hnd.
  destruct Hstep as [S job q Hj Hf Hs|S job q Hs|S w job now q Hw Ht|S w job Hw|S w job r now Hw|S w job Hw|S
    |S w Hw Hst|S hours now]; unfold executed; simpl.
  - unfold Submit in Hs. case_match; by simplify_eq.
  - unfold Submit in Hs. case_match; by simplify_eq.
  - pose proof (omap_insert_perm done_by _ _ _ (Taken job) Hw) as Hd. simpl in Hd. rewrite app_nil_r in Hd.
    rewrite Hd. split; [done|]. intros p Hp. apply executed_known in Hp as Hk.
    unfold worker_take in Ht. destruct (jobCh (oq S)) as [|j rest] eqn:Hch; simplify_eq.
    rewrite job_of_write, decide_False; [done|]. intros [-> _].
    unfold all_jobs in Hnd. rewrite Hch in Hnd. simpl in Hnd. apply NoDup_cons in Hnd as [Hni _]. apply Hni.
    unfold executed in Hp. rewrite !elem_of_app in *. destruct Hp as [Hp|Hp]; [by right; right|right; left].
    eapply elem_of_sublist; [exact Hp|]. apply omap_sublist. by intros [].
  - pose proof (omap_insert_perm done_by _ _ _ (Entered job) Hw) as Hd. simpl in Hd. rewrite app_nil_r in Hd.
    by rewrite Hd.
  - specialize (Hno w job Hw). simpl in Hno. rewrite list_lookup_insert_eq in Hno; [done|]. by eapply lookup_lt_Some.
  - pose proof (omap_insert_perm done_by _ _ _ Idle Hw) as Hd. simpl in Hd. split; [|done].
    rewrite <-Hd, <-app_assoc. by rewrite (Permutation_app_comm _ [job]).
  - done.
  - pose proof (omap_insert_perm done_by _ _ _ Exited Hw) as Hd. simpl in Hd. rewrite app_nil_r in Hd.
    by rewrite Hd.
  - done.
Qed.

(** Whether a result is recorded does not depend on the clock, and the record
    carries the id of the job. *)
Lemma record_clock node ty job res now now' :
  is_Some (recordFromResult node ty job res now) → is_Some (recordFromResult node ty job res now').
Proof.
  unfold recordFromResult. destruct (as_obj res); simpl; [|done]. by case_match.
Qed.

Lemma record_ID node ty job res now rec : recordFromResult node ty job res now = Some rec → tr_JobID rec = ID job.
Proof.
  unfold recordFromResult. destruct (as_obj res); simpl; [|done]. case_match; [done|]. by intros [= <-].
Qed.

Lemma parseTokenMetrics_result job res : Result (parseTokenMetrics job res) = Result job.
Proof.
  unfold parseTokenMetrics. destruct (as_obj res) as [m|]; [|done].
  destruct (_ && _); [|done]. by destruct (obj_get as_obj m "usage").
Qed.

(** ** The invariant *)

(** The record of a job, made of its fields and of its result as they are
    kept. *)
Definition record_for (L : ledger) (p : nat) (rec : TokenRecord) : Prop :=
  let job := job_of (oq (lg_sys L)) p in
  ∃ now, recordFromResult (lg_node L) (lg_type L) job (Result job) now = Some rec.

Record books (L : ledger) : Prop := mk_books {
  bk_sys : inv (lg_sys L);
  bk_charged : NoDup (lg_charged L);
  bk_executed : ∀ p, p ∈ lg_charged L → p ∈ executed (lg_sys L);
  bk_records : ∃ recs, recs ≡ₚ lg_table L ++ lg_pending L ++ lg_lost L ∧ Forall2 (record_for L) (lg_charged L) recs;
  bk_complete : lg_open L = true → ∀ p, p ∈ executed (lg_sys L) →
    Status (job_of (oq (lg_sys L)) p) = JobCompleted → (∃ rec, record_for L p rec) → p ∈ lg_charged L }.

Lemma opening_books L : opening L → books L.
Proof.
  intros (Hi & Hp & Ht & Hl & Hc). pose proof (jobs_initial_inv _ Hi) as HI. destruct Hi as (cfg & h & Hs).
  split; rewrite ?Hp, ?Ht, ?Hl, ?Hc; try done.
  - constructor.
  - by intros p ?%not_elem_of_nil.
  - exists []. split; [done|constructor].
  - intros _ p Hin. unfold executed in Hin. rewrite Hs in Hin. simpl in Hin.
    rewrite omap_replicate_Idle in Hin by done. by apply not_elem_of_nil in Hin.
Qed.

Lemma records_transfer (L L' : ledger) ps recs :
  (∀ p rec, p ∈ ps → record_for L p rec → record_for L' p rec) →
  Forall2 (record_for L) ps recs → Forall2 (record_for L') ps recs.
Proof.
  intros Hp H2. induction H2 as [|p rec ps recs Hr H2 IH]; constructor.
  - apply Hp; [by left|done].
  - apply IH. intros q r Hq. apply Hp. by right.
Qed.

Lemma books_other L o S' :
  books L → step o (lg_sys L) S' → no_execution (lg_sys L) S' → books (set_lg_sys S' L).
Proof.
  intros [HI Hnd Hex Hrec Hco] Hstep Hno. destruct (other_executed _ _ _ HI Hstep Hno) as [Hperm Hsame].
  assert (∀ p rec, p ∈ executed (lg_sys L) → record_for (set_lg_sys S' L) p rec ↔ record_for L p rec) as Heq.
  { intros p rec Hp. unfold record_for. simpl. by rewrite (Hsame p Hp). }
  split; simpl.
  - by eapply jobs_step_inv.
  - done.
  - intros p Hp. rewrite Hperm. by apply Hex.
  - destruct Hrec as (recs & Hr & H2). exists recs. split; [done|]. eapply records_transfer; [|exact H2].
    intros p rec Hp. apply Heq, Hex, Hp.
  - intros Ho p Hp Hst (rec & Hfor). rewrite Hperm in Hp. rewrite (Hsame p Hp) in Hst.
    apply Hco; [done..|]. exists rec. by apply Heq.
Qed.

(** The job just executed. *)
Lemma execute_job w job r now now' L :
  inv (lg_sys L) → workers (lg_sys L) !! w = Some (Entered job) →
  let L' := execute w job r now now' L in
  job_of (oq (lg_sys L')) job = record_result (job_of (oq (lg_sys L)) job) r now ∧
  ∀ p, p ∈ executed (lg_sys L) → job_of (oq (lg_sys L')) p = job_of (oq (lg_sys L)) p.
Proof.
  intros HI Hw. simpl. unfold worker_execute. split.
  - rewrite job_of_write, decide_True; [done|]. split; [done|]. apply (inv_alloc _ HI). by eapply held_all.
  - intros p Hp. rewrite job_of_write, decide_False; [done|]. intros [-> _].
    by apply (entered_not_executed _ _ _ HI Hw).
Qed.

Lemma insertDB_one open node ty job r now :
  insertDB open node ty job r now = [] ∨
  ∃ res rec, insertDB open node ty job r now = [rec] ∧ r = Ok res ∧ open = true ∧
    recordFromResult node ty job res now = Some rec.
Proof.
  unfold insertDB. destruct r as [res|], open; [|by left..].
  destruct (recordFromResult node ty job res now) as [rec|] eqn:Hr; [right|by left]. by exists res, rec.
Qed.

Lemma record_result_kept job res now : Result (record_result job (Ok res) now) = res.
Proof. simpl. by rewrite parseTokenMetrics_result. Qed.

Lemma books_execute L w job r now now' :
  books L → workers (lg_sys L) !! w = Some (Entered job) → books (execute w job r now now' L).
Proof.
  intros [HI Hnd Hex Hrec Hco] Hw. destruct (execute_job w job r now now' L HI Hw) as [Hjob Hsame].
  pose proof (entered_not_executed _ _ _ HI Hw) as Hnew.
  set (L' := execute w job r now now' L) in *.
  assert (executed (lg_sys L') ≡ₚ job :: executed (lg_sys L)) as Hperm by by apply execute_executed.
  assert (∀ p rec, p ∈ executed (lg_sys L) → record_for L' p rec ↔ record_for L p rec) as Heq.
  { intros p rec Hp. unfold record_for. by rewrite (Hsame p Hp). }
  assert (Hrecs' : ∀ recs, recs ≡ₚ lg_table L ++ lg_pending L ++ lg_lost L → Forall2 (record_for L) (lg_charged L) recs →
            Forall2 (record_for L') (lg_charged L) recs).
  { intros recs _ H2. eapply records_transfer; [|exact H2]. intros p rec Hp. apply Heq, Hex, Hp. }
  assert (inv (lg_sys L')) as HI' by (by apply step_execute_inv).
  destruct (insertDB_one (lg_open L) (lg_node L) (lg_type L) (job_of (oq (lg_sys L')) job) r now')
    as [Hnone|(res & rec & Hone & Hr & Ho & Hfrom)].
  - assert (lg_charged L' = lg_charged L ∧ lg_pending L' = lg_pending L) as [Hch Hpe].
    { unfold L', execute. cbn [lg_charged lg_pending]. unfold L' in Hnone. cbn [execute lg_sys oq] in Hnone.
      rewrite Hnone. by rewrite !app_nil_r. }
    split; rewrite ?Hch, ?Hpe; try done.
    + intros p Hp. rewrite Hperm. right. by apply Hex.
    + destruct Hrec as (recs & Hr & H2). exists recs. split; [done|]. by apply Hrecs'.
    + intros Ho p Hp Hst (rec & Hfor). rewrite Hperm in Hp. apply elem_of_cons in Hp as [->|Hp].
      * exfalso. destruct r as [res|e].
        -- destruct Hfor as [t Ht]. unfold insertDB in Hnone.
           change (lg_open L') with (lg_open L) in Ho. rewrite Ho in Hnone.
           change (lg_node L') with (lg_node L) in Ht. change (lg_type L') with (lg_type L) in Ht.
           rewrite Hjob, record_result_kept, <-Hjob in Ht.
           destruct (record_clock _ _ _ _ t now' (mk_is_Some _ _ Ht)) as [rec' Hrec']. by rewrite Hrec' in Hnone.
        -- rewrite Hjob in Hst. done.
      * rewrite (Hsame p Hp) in Hst. apply Hco; [done..|]. exists rec. by apply Heq.
  - assert (lg_charged L' = lg_charged L ++ [job] ∧ lg_pending L' = lg_pending L ++ [rec]) as [Hch Hpe].
    { unfold L', execute. cbn [lg_charged lg_pending]. unfold L' in Hone. cbn [execute lg_sys oq] in Hone.
      by rewrite Hone. }
    split; rewrite ?Hch, ?Hpe; try done.
    + apply NoDup_app. split_and!; [done| |apply NoDup_singleton].
      intros p Hp ->%list_elem_of_singleton. by apply Hnew, Hex.
    + intros p [Hp|Hp]%elem_of_app; rewrite Hperm; [right; by apply Hex|].
      apply list_elem_of_singleton in Hp as ->. by left.
    + destruct Hrec as (recs & Hr' & H2). exists (recs ++ [rec]). split.
      * rewrite Hr'. change (lg_table L') with (lg_table L). change (lg_lost L') with (lg_lost L).
        solve_Permutation.
      * apply Forall2_app; [by apply Hrecs'|]. constructor; [|constructor].
        exists now'. change (lg_node L') with (lg_node L). change (lg_type L') with (lg_type L).
        rewrite Hjob, Hr, record_result_kept, <-Hr, <-Hjob. done.
    + intros _ p Hp Hst (rec' & Hfor). rewrite Hperm in Hp. apply elem_of_app.
      apply elem_of_cons in Hp as [->|Hp]; [right; by left|left].
      rewrite (Hsame p Hp) in Hst. apply Hco; [done..|]. exists rec'. by apply Heq.
Qed.

Lemma books_insert L l1 rec l2 failed :
  books L → lg_pending L = l1 ++ rec :: l2 → books (insert_record failed rec (l1 ++ l2) L).
Proof.
  intros [HI Hnd Hex Hrec Hco] Hp. split; try done.
  destruct Hrec as (recs & Hr & H2). exists recs. split; [|done]. rewrite Hr, Hp. simpl.
  destruct failed; simpl; solve_Permutation.
Qed.

Lemma lstep_books L L' : books L → lstep L L' → books L'.
Proof. intros HB. destruct 1; eauto using books_other, books_execute, books_insert. Qed.

Lemma lsteps_books L0 L : opening L0 → rtc lstep L0 L → books L.
Proof. intros H0 Hr. apply opening_books in H0. induction Hr; eauto using lstep_books. Qed.

(** ** Properties *)

(** C14: The usage table is exact: no job is in it twice, and every row is the
    record of a job that has been executed and completed, made of that job's
    fields and of the counts of its reply; and with a database, once all
    insertions have been made without an error, every completed job whose
    reply had counts is in it. *)
Theorem usage_accounting L0 L :
  opening L0 → rtc lstep L0 L →
  NoDup (tr_JobID <$> lg_table L) ∧
  (∀ rec, rec ∈ lg_table L → ∃ p, p ∈ executed (lg_sys L) ∧ record_for L p rec ∧
     tr_JobID rec = ID (job_of (oq (lg_sys L)) p)) ∧
  (lg_open L = true → lg_pending L = [] → lg_lost L = [] →
     ∀ p rec, p ∈ executed (lg_sys L) → Status (job_of (oq (lg_sys L)) p) = JobCompleted → record_for L p rec →
       ∃ rec', rec' ∈ lg_table L ∧ tr_JobID rec' = ID (job_of (oq (lg_sys L)) p)).
Proof.
  intros H0 Hr. destruct (lsteps_books _ _ H0 Hr) as [HI Hnd Hex (recs & Hperm & H2) Hco].
  assert (tr_JobID <$> recs = (λ p, ID (job_of (oq (lg_sys L)) p)) <$> lg_charged L) as Hids.
  { clear -H2. induction H2 as [|p rec ps recs [t Ht] H2 IH]; [done|]. rewrite !fmap_cons, IH.
    by rewrite (record_ID _ _ _ _ _ _ Ht). }
  split_and!.
  - assert (NoDup (tr_JobID <$> recs)) as Hnr.
    { rewrite Hids. pose proof (inv_ids _ HI) as Hk. unfold known_ids in Hk.
      apply NoDup_fmap_2_strong; [|done]. intros p q Hp Hq Heq.
      eapply (NoDup_fmap_inj _ _ p q Hk); [by apply executed_known, Hex..|done]. }
    rewrite Hperm, fmap_app in Hnr. by apply NoDup_app in Hnr as [? _].
  - intros rec Hin. assert (rec ∈ recs) as Hin' by (rewrite Hperm; apply elem_of_app; by left).
    apply list_elem_of_lookup in Hin' as [i Hi]. destruct (Forall2_lookup_r _ _ _ _ _ H2 Hi) as (p & Hp & Hfor).
    exists p. split_and!; [by eapply Hex, list_elem_of_lookup_2|done|].
    destruct Hfor as [t Ht]. by eapply record_ID.
  - intros Ho Hpe Hlo p rec Hp Hst Hfor. assert (p ∈ lg_charged L) as Hin by (apply Hco; eauto).
    apply list_elem_of_lookup in Hin as [i Hi]. destruct (Forall2_lookup_l _ _ _ _ _ H2 Hi) as (rec' & Hi' & [t Ht]).
    exists rec'. split; [|by eapply record_ID]. apply list_elem_of_lookup_2 in Hi'.
    rewrite Hperm, Hpe, Hlo, !app_nil_r in Hi'. done.
Qed.

(** ** Witness *)

Definition example_opening : ledger := mk_ledger example_S0 true "s1" "CPU" [] [] [] [].
Definition example_entered : ledger :=
  set_lg_sys (mk_sys (worker_enter 1 (oq example_S3)) [Entered 1%nat] [1%nat] []) example_opening.
Definition example_result : result json :=
  Ok (jobj [("model", JStr "llama3"); ("prompt_eval_count", JNum (f64_of_Z 3)); ("eval_count", JNum (f64_of_Z 5))]).
Definition example_executed : ledger := execute 0 1 example_result 0 0 example_entered.
Definition example_books : ledger := insert_record None (hd (mk_TokenRecord "" "" 0 0 0 f64_zero f64_zero "" "" "" "" "" f64_zero)
  (lg_pending example_executed)) [] example_executed.

Lemma accounting_example_run : rtc lstep example_opening example_books.
Proof.
  assert (∀ S o S' L, step o S S' → lg_sys L = S → Forall (λ ph, in_map ph = None) (workers S) → lstep L (set_lg_sys S' L)) as Hother.
  { intros S o S' L Hs <- Hall. eapply ls_other; [done|]. intros w job Hw.
    eapply Forall_lookup_1 in Hall; [|exact Hw]. done. }
  eapply (rtc_l _ _ (set_lg_sys example_S1 example_opening)).
  { eapply Hother; [|done|by repeat constructor].
    apply (step_submit example_S0 1%nat); [by eexists|by apply not_elem_of_nil|reflexivity]. }
  eapply (rtc_l _ _ (set_lg_sys example_S2 example_opening)).
  { apply (Hother example_S1 (OSubmit (Some 2%nat)) _ (set_lg_sys example_S1 example_opening)); [|done|by repeat constructor].
    apply (step_submit example_S1 2%nat); [by eexists| |reflexivity].
    vm_compute. by intros [?|?%not_elem_of_nil]%elem_of_cons. }
  eapply (rtc_l _ _ (set_lg_sys example_S3 example_opening)).
  { apply (Hother example_S2 OWorker _ (set_lg_sys example_S2 example_opening)); [|done|by repeat constructor].
    apply (step_take example_S2 0%nat 1%nat 0); reflexivity. }
  eapply (rtc_l _ _ example_entered).
  { apply (Hother example_S3 OWorker _ (set_lg_sys example_S3 example_opening)); [|done|by repeat constructor].
    by apply (step_enter example_S3 0%nat 1%nat). }
  eapply (rtc_l _ _ example_executed); [by apply ls_execute|].
  apply rtc_once. by apply (ls_insert example_executed [] _ [] None).
Qed.

Lemma usage_accounting_witness :
  tr_TotalTokens <$> lg_table example_books = [8]%Z ∧ NoDup (tr_JobID <$> lg_table example_books).
Proof.
  split; [by vm_compute|].
  refine (proj1 (usage_accounting example_opening example_books _ accounting_example_run)).
  split; [exact jobs_example_initial|done].
Defined.
