(* ===== verification/Clients.v ===== *)
(** * The client manager ([hive-server-go/handlers.go])

    The table of clients, its bound, the removal of silent clients, and the
    handlers over it.  Clients are shared: the table holds pointers, and a
    handler keeps one after the client has left the table. *)

From S2P Require Import Prelude GoFloat GoText GoHttp.

Local Open Scope string_scope.
Local Open Scope list_scope.
Local Open Scope Z_scope.

Record ClientInfo := mk_Client {
  c_ClientID : string;
  c_Name : string;
  c_ConnectedAt : f64;
  c_LastHeartbeat : f64;
  c_JobsSubmitted : Z;
  c_JobsCompleted : Z }.

Definition zero_Client : ClientInfo := mk_Client "" "" f64_zero f64_zero 0 0.

Record ClientManager := mk_CM {
  clients : gmap string nat;
  c_heap : gmap nat ClientInfo;
  c_next : nat;
  maxClients : Z }.

Definition NewClientManager (maxClients : Z) : ClientManager := mk_CM ∅ ∅ 0 maxClients.

Definition client_at (cm : ClientManager) (p : nat) : ClientInfo := from_opt zero_Client (c_heap cm !! p).
Definition update_client (f : ClientInfo → ClientInfo) (p : nat) (cm : ClientManager) : ClientManager :=
  mk_CM (clients cm) (alter f p (c_heap cm)) (c_next cm) (maxClients cm).
Definition set_clients (m : gmap string nat) (cm : ClientManager) : ClientManager :=
  mk_CM m (c_heap cm) (c_next cm) (maxClients cm).

Definition set_heartbeat (t : f64) (c : ClientInfo) : ClientInfo :=
  mk_Client (c_ClientID c) (c_Name c) (c_ConnectedAt c) t (c_JobsSubmitted c) (c_JobsCompleted c).
Definition set_name (name : string) (c : ClientInfo) : ClientInfo :=
  mk_Client (c_ClientID c) name (c_ConnectedAt c) (c_LastHeartbeat c) (c_JobsSubmitted c) (c_JobsCompleted c).
Definition incr_submitted (c : ClientInfo) : ClientInfo :=
  mk_Client (c_ClientID c) (c_Name c) (c_ConnectedAt c) (c_LastHeartbeat c) (int_incr (c_JobsSubmitted c))
    (c_JobsCompleted c).
Definition incr_completed (c : ClientInfo) : ClientInfo :=
  mk_Client (c_ClientID c) (c_Name c) (c_ConnectedAt c) (c_LastHeartbeat c) (c_JobsSubmitted c)
    (int_incr (c_JobsCompleted c)).

(** ** Operations

    [now] and [now'] are the readings of the clock, in the order made. *)

Definition Register (clientID name : string) (now now' : f64) (cm : ClientManager)
    : result nat * ClientManager :=
  if (maxClients cm <=? Z.of_nat (size (clients cm))) && negb (bool_decide (is_Some (clients cm !! clientID)))
  then (Err ("max clients (" +:+ fmt_d (maxClients cm) +:+ ") reached"), cm)
  else
    match clients cm !! clientID with
    | Some existing =>
        let cm := update_client (set_heartbeat now) existing cm in
        (Ok existing, if negb (String.eqb name "") then update_client (set_name name) existing cm else cm)
    | None =>
        let p := c_next cm in
        (Ok p, mk_CM (<[clientID := p]> (clients cm)) (<[p := mk_Client clientID name now now' 0 0]> (c_heap cm))
                 (S p) (maxClients cm))
    end.

Definition Unregister (clientID : string) (cm : ClientManager) : ClientManager :=
  set_clients (delete clientID (clients cm)) cm.

Definition update_known (f : ClientInfo → ClientInfo) (clientID : string) (cm : ClientManager) : ClientManager :=
  match clients cm !! clientID with Some p => update_client f p cm | None => cm end.

Definition Heartbeat (clientID : string) (now : f64) (cm : ClientManager) : ClientManager :=
  update_known (set_heartbeat now) clientID cm.

(** [ord] is the order in which the range visits the map. *)
Definition GetAll (ord : list (string * nat)) (cm : ClientManager) : list ClientInfo :=
  (λ e, client_at cm e.2) <$> ord.

Definition Count (cm : ClientManager) : Z := Z.of_nat (size (clients cm)).

Definition IncrementSubmitted (clientID : string) (cm : ClientManager) : ClientManager :=
  update_known incr_submitted clientID cm.
Definition IncrementCompleted (clientID : string) (cm : ClientManager) : ClientManager :=
  update_known incr_completed clientID cm.

Definition is_stale (now : f64) (c : ClientInfo) : bool :=
  f64_ltb (c_LastHeartbeat c) (f64_sub now (f64_of_Z 120)).

(** One tick of [heartbeatCheckLoop]. *)
Definition heartbeat_tick (now : f64) (cm : ClientManager) : ClientManager :=
  set_clients (filter (λ e, is_stale now (client_at cm e.2) = false) (clients cm)) cm.

(** ** Handlers *)

Definition client_json (c : ClientInfo) : json := jobj [
  ("client_id", JStr (c_ClientID c)); ("name", JStr (c_Name c)); ("connected_at", JNum (c_ConnectedAt c));
  ("last_heartbeat", JNum (c_LastHeartbeat c)); ("jobs_submitted", JInt (c_JobsSubmitted c));
  ("jobs_completed", JInt (c_JobsCompleted c))].

Definition status_ok : response := write_json (jobj [("status", JStr "ok")]).

Definition handleClients (ord : list (string * nat)) (cm : ClientManager) : response :=
  write_json (jobj [("clients", JArr (client_json <$> GetAll ord cm))]).

(** The decoded body: client id and name; [None] if it cannot be decoded. *)
Definition handleClientRegister (is_POST : bool) (body : option (string * string)) (now now' : f64)
    (cm : ClientManager) : response * ClientManager :=
  if negb is_POST then (http_Error "POST required" StatusMethodNotAllowed, cm)
  else match body with
  | None => (http_Error "bad json" StatusBadRequest, cm)
  | Some (clientID, name) =>
      if String.eqb clientID "" || String.eqb name ""
      then (http_Error "client_id and name required" StatusBadRequest, cm)
      else match Register clientID name now now' cm with
           | (Err e, cm) => (http_Error e StatusTooManyRequests, cm)
           | (Ok p, cm) => (write_json (client_json (client_at cm p)), cm)
           end
  end.

Definition handleClientHeartbeatPath (query_id : string) (body : option string) (now : f64)
    (cm : ClientManager) : response * ClientManager :=
  let clientID := if String.eqb query_id "" then from_opt "" body else query_id in
  if String.eqb clientID "" then (http_Error "client_id required" StatusBadRequest, cm)
  else (status_ok, Heartbeat clientID now cm).

Definition handleClientUnregister (is_POST : bool) (body : option string) (cm : ClientManager)
    : response * ClientManager :=
  if negb is_POST then (http_Error "POST required" StatusMethodNotAllowed, cm)
  else match body with
       | None => (http_Error "bad json" StatusBadRequest, cm)
       | Some clientID => (status_ok, Unregister clientID cm)
       end.

(** ** Runs of the manager *)

Inductive op :=
  | ORegister (clientID name : string) (now now' : f64)
  | OUnregister (clientID : string)
  | OHeartbeat (clientID : string) (now : f64)
  | OSubmitted (p : nat)  (** [client.JobsSubmitted++] by a handler that holds the client *)
  | OTick (now : f64).

Definition apply_op (cm : ClientManager) (o : op) : ClientManager :=
  match o with
  | ORegister id name now now' => (Register id name now now' cm).2
  | OUnregister id => Unregister id cm
  | OHeartbeat id now => Heartbeat id now cm
  | OSubmitted p => update_client incr_submitted p cm
  | OTick now => heartbeat_tick now cm
  end.

(** The table is a partial bijection between ids and live clients, and within
    its bound. *)
Record wf (cm : ClientManager) : Prop := mk_wf {
  wf_live : ∀ id p, clients cm !! id = Some p → ∃ c, c_heap cm !! p = Some c ∧ c_ClientID c = id;
  wf_fresh : ∀ p, is_Some (c_heap cm !! p) → (p < c_next cm)%nat;
  wf_bound : Z.of_nat (size (clients cm)) <= Z.max 0 (maxClients cm) }.

Lemma update_wf f p cm : (∀ c, c_ClientID (f c) = c_ClientID c) → wf cm → wf (update_client f p cm).
Proof.
  intros Hf [H1 H2 H3]. split; simpl; [|intros q; rewrite lookup_alter_is_Some; apply H2|done].
  intros id q Hq. destruct (H1 id q Hq) as (c & Hc & Hid). rewrite lookup_alter. case_decide; subst.
  - rewrite Hc. exists (f c). by rewrite Hf.
  - by exists c.
Qed.

Lemma subset_wf m cm : m ⊆ clients cm → wf cm → wf (set_clients m cm).
Proof.
  intros Hm [H1 H2 H3]. split; simpl; [|done|].
  - intros id p Hp. apply H1. by eapply lookup_weaken.
  - pose proof (map_subseteq_size _ _ Hm). lia.
Qed.

Lemma clients_inj cm i j p : wf cm → clients cm !! i = Some p → clients cm !! j = Some p → i = j.
Proof. intros Hwf (c & Hc & <-)%(wf_live cm Hwf) (d & Hd & <-)%(wf_live cm Hwf). by simplify_eq. Qed.

Lemma update_known_wf f id cm : (∀ c, c_ClientID (f c) = c_ClientID c) → wf cm → wf (update_known f id cm).
Proof. intros Hf Hwf. unfold update_known. case_match; [by apply update_wf|done]. Qed.

Lemma register_wf id name t t' cm : wf cm → wf (Register id name t t' cm).2.
Proof.
  intros Hwf. unfold Register. destruct (clients cm !! id) as [p|] eqn:Hp.
  - rewrite bool_decide_eq_true_2, andb_false_r by eauto.
    simpl. destruct (negb _); repeat apply update_wf; done.
  - rewrite bool_decide_eq_false_2, andb_true_r by (by intros []).
    destruct (Z.leb_spec (maxClients cm) (Z.of_nat (size (clients cm)))) as [|Hlt]; [done|].
    destruct Hwf as [H1 H2 H3]. split; simpl.
    + intros j q. rewrite lookup_insert. case_decide; [intros [= <-]; subst|].
      * rewrite lookup_insert_eq. by eexists.
      * intros (c & Hc & Hid)%H1. exists c. split; [|done]. rewrite lookup_insert_ne; [done|].
        pose proof (H2 q ltac:(eauto)). lia.
    + intros q. rewrite lookup_insert. case_decide; [lia|]. intros Hq%H2. lia.
    + rewrite map_size_insert_None by done. lia.
Qed.

Lemma client_op_wf cm o : wf cm → wf (apply_op cm o).
Proof.
  intros Hwf. destruct o; simpl.
  - by apply register_wf.
  - apply subset_wf, Hwf. apply delete_subseteq.
  - by apply update_known_wf.
  - by apply update_wf.
  - apply subset_wf, Hwf. apply map_filter_subseteq.
Qed.

Lemma new_wf n : wf (NewClientManager n).
Proof. split; simpl; [by intros ? ?; rewrite lookup_empty|by intros ?; rewrite lookup_empty => -[]|].
  rewrite map_size_empty. lia. Qed.

Lemma client_at_alter f p q cm :
  client_at (update_client f p cm) q =
  if decide (p = q) then match c_heap cm !! q with Some c => f c | None => zero_Client end else client_at cm q.
Proof.
  unfold client_at. simpl. rewrite lookup_alter. case_decide; [subst|done]. by destruct (c_heap cm !! q).
Qed.

(** An operation that is not about a client leaves its entry and the time it
    was last heard. *)
Definition about (id : string) (o : op) : bool :=
  match o with
  | ORegister i _ _ _ | OUnregister i | OHeartbeat i _ => String.eqb i id
  | OSubmitted _ | OTick _ => false
  end.

Definition tick_keeps (t : f64) (o : op) : bool :=
  match o with OTick now => negb (f64_ltb t (f64_sub now (f64_of_Z 120))) | _ => true end.

Definition last_heard (cm : ClientManager) (id : string) : option f64 :=
  (λ p, c_LastHeartbeat (client_at cm p)) <$> clients cm !! id.

Lemma last_heard_update cm f id p :
  (∀ c, c_LastHeartbeat (f c) = c_LastHeartbeat c) ∨ clients cm !! id ≠ Some p →
  last_heard (update_client f p cm) id = last_heard cm id.
Proof.
  intros Hf. unfold last_heard. simpl. destruct (clients cm !! id) as [q|] eqn:Hq; [|done]. simpl. f_equal.
  rewrite client_at_alter. case_decide; [subst|done]. destruct Hf as [Hf|Hf]; [|done].
  unfold client_at. destruct (c_heap cm !! q); [apply Hf|done].
Qed.

Lemma last_heard_known cm f id i :
  wf cm → i ≠ id → last_heard (update_known f i cm) id = last_heard cm id.
Proof.
  intros Hwf Hne. unfold update_known. destruct (clients cm !! i) as [q|] eqn:Hq; [|done].
  apply last_heard_update. right. intros Hid. by destruct Hne; eapply clients_inj.
Qed.

Lemma last_heard_register cm id i name t t' :
  wf cm → i ≠ id → last_heard (Register i name t t' cm).2 id = last_heard cm id.
Proof.
  intros Hwf Hne. unfold Register. destruct (_ && _); [done|].
  destruct (clients cm !! i) as [q|] eqn:Hq.
  - assert (clients cm !! id ≠ Some q) as Hid by (intros Hid; by destruct Hne; eapply clients_inj).
    simpl. destruct (negb _); rewrite ?last_heard_update; auto.
  - unfold last_heard, client_at. simpl. rewrite lookup_insert_ne by done.
    destruct (clients cm !! id) as [q|] eqn:Hid; [|done]. simpl.
    destruct (wf_live cm Hwf id q Hid) as (c & Hc & _).
    pose proof (wf_fresh cm Hwf q ltac:(eauto)). by rewrite lookup_insert_ne by lia.
Qed.

Lemma last_heard_op cm o id :
  wf cm → about id o = false →
  last_heard (apply_op cm o) id =
  match last_heard cm id with Some t => if tick_keeps t o then Some t else None | None => None end.
Proof.
  intros Hwf Ho. assert (∀ x : option f64, x = match x with Some t => Some t | None => None end) as Hx by (by intros []).
  destruct o as [i name t t'|i|i t|p|now]; simpl in *.
  - rewrite last_heard_register by (done || by apply String.eqb_neq). apply Hx.
  - unfold last_heard at 1. simpl. rewrite lookup_delete_ne by (by apply String.eqb_neq). apply Hx.
  - unfold Heartbeat. rewrite last_heard_known by (done || by apply String.eqb_neq). apply Hx.
  - rewrite last_heard_update by (by left). apply Hx.
  - unfold last_heard. simpl. rewrite map_lookup_filter. destruct (clients cm !! id) as [p|]; [|done]. simpl.
    unfold is_stale, client_at at 1. simpl.
    change (from_opt zero_Client (c_heap cm !! p)) with (client_at cm p).
    by destruct (f64_ltb _ _).
Qed.

(** ** Properties *)

(** The table of clients is well formed after any operations: there are
    never more clients than the maximum, every entry is a live client with
    the id it is filed under, and so no client is filed twice. *)
Theorem clients_reachable_wf n ops :
  let cm := foldl apply_op (NewClientManager n) ops in
  Z.of_nat (size (clients cm)) <= Z.max 0 n ∧
  (∀ id p, clients cm !! id = Some p → ∃ c, c_heap cm !! p = Some c ∧ c_ClientID c = id) ∧
  (∀ i j p, clients cm !! i = Some p → clients cm !! j = Some p → i = j).
Proof.
  intros cm. assert (wf cm) as Hwf.
  { apply (foldl_inv wf); [apply new_wf|]. intros cm' o _. apply client_op_wf. }
  assert (maxClients cm = n) as Hn.
  { apply (foldl_inv (λ cm, maxClients cm = n)); [done|]. intros cm' o _ <-. destruct o; simpl; try done.
    - unfold Register. destruct (_ && _); [done|]. by destruct (clients cm' !! clientID), (String.eqb name "").
    - unfold Heartbeat, update_known. by case_match. }
  pose proof (wf_bound cm Hwf) as Hb. rewrite Hn in Hb. split_and!; [done|by apply wf_live|]. intros i j p. by apply clients_inj.
Qed.

(** A client stays exactly as long as it is heard: one last heard at [t],
    and not heard again, is in the table after further operations of others
    if and only if no check was made more than two minutes after [t]. *)
Theorem client_kept_while_heard cm id t ops :
  wf cm → last_heard cm id = Some t → Forall (λ o, about id o = false) ops →
  is_Some (clients (foldl apply_op cm ops) !! id) ↔ Forall (λ o, tick_keeps t o = true) ops.
Proof.
  intros Hwf Ht Hops.
  assert (last_heard (foldl apply_op cm ops) id = if forallb (tick_keeps t) ops then Some t else None) as Hl.
  { revert cm Hwf Ht. induction Hops as [|o ops Ho Hops IH]; intros cm Hwf Ht; [done|]. simpl.
    pose proof (last_heard_op cm o id Hwf Ho) as Hop. rewrite Ht in Hop.
    destruct (tick_keeps t o); [by apply IH; [apply client_op_wf|]|]. simpl.
    pose proof (client_op_wf cm o Hwf) as Hwf'. revert Hwf' Hop. generalize (apply_op cm o).
    clear -Hops. induction Hops as [|o ops Ho Hops IH]; intros cm Hwf Hnone; [done|]. simpl. apply IH.
    - by apply client_op_wf.
    - by rewrite last_heard_op, Hnone. }
  assert (Forall (λ o, tick_keeps t o = true) ops ↔ forallb (tick_keeps t) ops = true) as ->.
  { rewrite forallb_forall, Forall_forall. by setoid_rewrite list_elem_of_In. }
  rewrite <-(fmap_is_Some (λ p, c_LastHeartbeat (client_at (foldl apply_op cm ops) p))).
  fold (last_heard (foldl apply_op cm ops) id). rewrite Hl. by destruct (forallb _ _); split; [|eexists|intros []|].
Qed.

(** ** Witnesses *)

Definition example_clients : ClientManager :=
  (Register "a" "Alice" (f64_of_Z 100) (f64_of_Z 100) (NewClientManager 5)).2.

Lemma client_kept_while_heard_witness :
  ¬ is_Some (clients (foldl apply_op example_clients
    [OTick (f64_of_Z 200); ORegister "b" "Bob" (f64_of_Z 210) (f64_of_Z 210); OTick (f64_of_Z 230)]) !! "a").
Proof.
  assert (wf example_clients) as Hwf by (apply register_wf, new_wf).
  rewrite (client_kept_while_heard example_clients "a" (f64_of_Z 100)
    [OTick (f64_of_Z 200); ORegister "b" "Bob" (f64_of_Z 210) (f64_of_Z 210); OTick (f64_of_Z 230)]
    Hwf eq_refl ltac:(repeat constructor)).
  intros H. apply Forall_cons in H as [_ H]. apply Forall_cons in H as [_ H].
  apply Forall_cons in H as [H _]. vm_compute in H. discriminate.
Defined.
