(* ===== verification/Hive.v ===== *)
(** * Jobs over HTTP ([hive-server-go/handlers.go])

    Submission of a job, locally or forwarded to a peer, the peer's side of
    forwarding, and the handlers that read the queue.  [hs.queue] is used with
    the operations of [OllamaQueue], the only type of the package that has
    them.  What other requests do while a handler waits is a function of the
    server's state; the replies of peers are functions of what is sent. *)

From S2P Require Import Prelude GoFloat GoText GoHttp Job JobQueue Mesh Agent RateLimit Clients OpenAI.

Local Open Scope string_scope.
Local Open Scope list_scope.
Local Open Scope Z_scope.

Record server := mk_server {
  hs_clients : ClientManager;
  hs_queue : OllamaQueue;
  hs_mesh : option MeshDiscovery }.

Definition set_hs_clients (c : ClientManager) (s : server) : server := mk_server c (hs_queue s) (hs_mesh s).
Definition set_hs_queue (q : OllamaQueue) (s : server) : server := mk_server (hs_clients s) q (hs_mesh s).
Definition set_hs_mesh (m : option MeshDiscovery) (s : server) : server :=
  mk_server (hs_clients s) (hs_queue s) m.

(** [NewJob] followed by [Submit]: the job is a new object whether or not the
    queue takes it. *)
Definition submit_new (j : Job) (q : OllamaQueue) : bool * nat * OllamaQueue :=
  let p := fresh (dom (JobQueue.heap q)) in
  let q := mk_OQ (jobCh q) (stopped q) (running q) (completed q) (oq_config q)
             (<[p := j]> (JobQueue.heap q)) in
  let (ok, q) := Submit q p in (ok, p, q).

Section hive.
(** [getServerID()] and [cfg.MeshEnabled]. *)
Variable getServerID : string.
Variable MeshEnabled : bool.
(** The text of a time in a JSON document. *)
Variable fmt_time : Time → string.

(** ** Rendering a job *)

Definition omit_str (key s : string) (m : gmap string json) : gmap string json :=
  if String.eqb s "" then m else <[key := JStr s]> m.
Definition omit_int (key : string) (z : Z) (m : gmap string json) : gmap string json :=
  if z =? 0 then m else <[key := JInt z]> m.
Definition omit_num (key : string) (o : option f64) (m : gmap string json) : gmap string json :=
  match o with Some f => <[key := JNum f]> m | None => m end.

(** The JSON document of a [Job], by its struct tags. *)
Definition job_json (j : Job) : gmap string json :=
  let m := jmap [
    ("job_id", JStr (ID j)); ("client_id", JStr (ClientID j)); ("job_type", JStr (JobType j));
    ("payload", JObj (PayloadMap j)); ("status", JStr (Status j)); ("created_at", JNum (CreatedAt j));
    ("queue_position", JInt (QueuePosition j)); ("deadline", JStr (fmt_time (Deadline j)))] in
  let m := match Result j with JNull => m | r => <["result" := r]> m end in
  let m := omit_num "completed_at" (CompletedAt j) (omit_num "started_at" (StartedAt j)
             (omit_str "model" (Model j) (omit_str "error" (Error j) m))) in
  let m := omit_int "total_tokens" (Job.TotalTokens j) (omit_int "completion_tokens" (EvalTokens j)
             (omit_int "prompt_tokens" (Job.PromptTokens j) m)) in
  omit_int "max_retries" (MaxRetries j) (omit_int "retry_count" (RetryCount j)
    (omit_int "priority" (Priority j) m)).

(** ** Submission *)

Definition forward_request (origin jobID clientID jobType : string) (payload : gmap string json)
    : gmap string json :=
  jmap [("job_id", JStr jobID); ("client_id", JStr clientID); ("job_type", JStr jobType);
        ("payload", JObj payload); ("origin", JStr origin)].

(** [None]: no reply, or one that is not an object. *)
Definition forwardJobToPeer (post : string → gmap string json → option (gmap string json)) (peer : PeerInfo)
    (jobID clientID jobType : string) (payload : gmap string json) : option (gmap string json) :=
  post (p_Endpoint peer +:+ "/api/jobs/forward") (forward_request getServerID jobID clientID jobType payload).

Definition job_id (clientID jobType : string) (t : Time) : string :=
  clientID +:+ ":" +:+ jobType +:+ ":" +:+ fmt_d (UnixMilli t).

Record job_body := mk_job_body {
  jb_ClientID : string; jb_JobType : string; jb_Payload : gmap string json }.

(** What the outside contributes to a submission: the two readings of
    [Register], the visits of [GetAlivePeers], the time of the forwarding and
    the peers' replies, what else happens meanwhile, and the times of the
    local job's id and creation. *)
Record submit_env := mk_submit_env {
  se_now : f64; se_now' : f64;
  se_rs : list (nat * f64);
  se_fwd : Time;
  se_post : string → gmap string json → option (gmap string json);
  se_meanwhile : server → server;
  se_time : Time; se_created : Time }.

(** The forwarding branch: the reply, if a peer took the job. *)
Definition try_forward (e : submit_env) (b : job_body) (s : server) : option (gmap string json) * server :=
  match hs_mesh s with
  | Some m =>
      if MeshEnabled && (GetAvailableCapacity (hs_queue s) <=? 0) then
        let (best, m) := GetBestPeer (se_rs e) m in
        let s := set_hs_mesh (Some m) s in
        match best with
        | Some p =>
            let jobID := job_id (jb_ClientID b) (jb_JobType b) (se_fwd e) in
            let reply := forwardJobToPeer (se_post e) (peer_at m p) jobID (jb_ClientID b) (jb_JobType b)
                           (jb_Payload b) in
            (reply, se_meanwhile e s)
        | None => (None, s)
        end
      else (None, s)
  | None => (None, s)
  end.

Definition count_submitted (client : nat) (s : server) : server :=
  set_hs_clients (update_client incr_submitted client (hs_clients s)) s.

Definition submitJob (e : submit_env) (body : option job_body) (s : server) : response * server :=
  match body with
  | None => (http_Error "bad json" StatusBadRequest, s)
  | Some b =>
      if String.eqb (jb_ClientID b) "" || String.eqb (jb_JobType b) ""
      then (http_Error "client_id and job_type required" StatusBadRequest, s)
      else
        let (r, cm) := Register (jb_ClientID b) (jb_ClientID b) (se_now e) (se_now' e) (hs_clients s) in
        let s := set_hs_clients cm s in
        match r with
        | Err err => (http_Error err StatusTooManyRequests, s)
        | Ok client =>
            let (forwarded, s) := try_forward e b s in
            match forwarded with
            | Some reply => (write_json (JObj reply), count_submitted client s)
            | None =>
                let jobID := job_id (jb_ClientID b) (jb_JobType b) (se_time e) in
                let job := NewJob jobID (jb_ClientID b) (jb_JobType b) (jb_Payload b) (se_created e) in
                let '(_, p, q) := submit_new job (hs_queue s) in
                let s := count_submitted client (set_hs_queue q s) in
                (write_json (JObj (job_json (job_of (hs_queue s) p))), s)
            end
        end
  end.

(** [GET] lists the jobs, in the orders of the two ranges. *)
Definition handleJobs (method : string) (e : submit_env) (body : option job_body)
    (ordr ordc : list (string * nat)) (rd : nat → Time) (s : server) : response * server :=
  if String.eqb method "GET"
  then (write_json (jobj [("jobs", JArr (JObj <$> GetAllJobs (hs_queue s) ordr ordc rd))]), s)
  else if String.eqb method "POST" then submitJob e body s
  else (http_Error "method not allowed" StatusMethodNotAllowed, s).

Definition not_found_json : string :=
  "{" +:+ dq +:+ "error" +:+ dq +:+ ":" +:+ dq +:+ "job not found" +:+ dq +:+ "}".

(** [query_id] is the value of [job_id] in the query string. *)
Definition handleJobGet (query_id : string) (s : server) : response :=
  match GetJob (hs_queue s) query_id with
  | None => http_Error not_found_json StatusNotFound
  | Some p => write_json (JObj (jobToMap (job_of (hs_queue s) p)))
  end.

Definition handleQueue (ord : list (string * nat)) (rd : nat → Time) (s : server) : response :=
  write_json (JObj (GetQueueStatus (hs_queue s) ord rd)).

(** ** The peer's side of forwarding *)

Record forward_job := mk_forward_job {
  fj_JobID : string; fj_ClientID : string; fj_JobType : string;
  fj_Payload : gmap string json; fj_Origin : string }.

(** Decoding into the struct: a missing field or [null] is the zero value,
    another type an error. *)
Definition field_str (m : gmap string json) (key : string) : option string :=
  match m !! key with None | Some JNull => Some "" | Some (JStr s) => Some s | _ => None end.
Definition field_obj (m : gmap string json) (key : string) : option (gmap string json) :=
  match m !! key with None | Some JNull => Some ∅ | Some (JObj o) => Some o | _ => None end.

Definition decode_forward (m : gmap string json) : option forward_job :=
  id ← field_str m "job_id"; c ← field_str m "client_id"; t ← field_str m "job_type";
  p ← field_obj m "payload"; o ← field_str m "origin"; Some (mk_forward_job id c t p o).

Definition peer_job_id (b : forward_job) : string := "mesh:" +:+ fj_Origin b +:+ ":" +:+ fj_JobID b.

(** The ticks until the deadline: the snapshots [GetJob] gives. *)
Fixpoint await_job (jobID : string) (snaps : list (option Job)) : response :=
  match snaps with
  | [] => write_json (jobj [("job_id", JStr jobID); ("status", JStr "failed"); ("error", JStr "forward timeout")])
  | None :: snaps => await_job jobID snaps
  | Some j :: snaps =>
      if negb (String.eqb (Status j) JobPending) && negb (String.eqb (Status j) JobRunning) then
        if String.eqb (Status j) JobFailed
        then write_json (jobj [("job_id", JStr jobID); ("status", JStr "failed"); ("error", JStr (Error j))])
        else write_json (jobj [("job_id", JStr jobID); ("status", JStr "completed"); ("result", Result j)])
      else await_job jobID snaps
  end.

(** [states] are the states of the server at the ticks, given the state after
    the submission. *)
Definition handleJobForward (is_POST : bool) (body : option forward_job) (now : Time)
    (states : server → list server) (s : server) : response * server :=
  if negb is_POST then (http_Error "POST required" StatusMethodNotAllowed, s)
  else match body with
  | None => (http_Error "bad json" StatusBadRequest, s)
  | Some b =>
      if String.eqb (fj_JobID b) "" || String.eqb (fj_ClientID b) "" || String.eqb (fj_JobType b) ""
      then (http_Error "job_id, client_id, and job_type required" StatusBadRequest, s)
      else
        let job := NewJob (peer_job_id b) (fj_ClientID b) (fj_JobType b) (fj_Payload b) now in
        let '(_, _, q) := submit_new job (hs_queue s) in
        let s := set_hs_queue q s in
        let look s' := job_of (hs_queue s') <$> GetJob (hs_queue s') (peer_job_id b) in
        (await_job (fj_JobID b) (look <$> states s), List.last (states s) s)
  end.
End hive.

(** ** Notions of the properties *)

(** A job that has ended. *)
Definition ended (j : Job) : bool :=
  negb (String.eqb (Status j) JobPending) && negb (String.eqb (Status j) JobRunning).

(** The reply of a peer as [forwardOpenAIToPeer] decodes it; [parse] decodes
    a text that is a JSON object. *)
Definition decode_reply (parse : string → option (gmap string json)) (r : response) : result forward_reply :=
  match (match rs_body r with BJson (JObj m) => Some m | BText s => parse s | _ => None end) with
  | Some m =>
      match field_str m "status", field_str m "error" with
      | Some status, Some error => Ok (mk_forward_reply status (from_opt JNull (m !! "result")) error)
      | _, _ => Err "cannot unmarshal"
      end
  | None => Err "invalid character"
  end.

(** The request of [http.Client.Post] for a forwarded job, from [addr]: it
    carries no credentials. *)
Definition forward_http (addr : string) : Request := mk_Request "/api/jobs/forward" "POST" addr "" "" "".

(** A peer reached over the network: what it is posted goes through its
    middleware and its handler, and its reply is decoded. *)
Definition remote (parse : string → option (gmap string json)) (apiKey : string) (rl : RateLimiter) (addr : string)
    (endpoint : string) (sent now : Time) (states : server → list server) (sB : server) : forwarding :=
  mk_forwarding endpoint sent (λ _ body, Ok (decode_reply parse
    match (AuthMiddleware apiKey rl (forward_http addr) now now).1 with
    | Some refusal => refusal
    | None => (handleJobForward true (decode_forward body) now states sB).1
    end)).

(** The peer's state when it has put the job on its queue. *)
Definition peer_submitted (now : Time) (b : forward_job) (sB : server) : server :=
  set_hs_queue (submit_new (NewJob (peer_job_id b) (fj_ClientID b) (fj_JobType b) (fj_Payload b) now) (hs_queue sB)).2 sB.

(** What the peer sees of the job, tick by tick. *)
Definition snapshots (states : server → list server) (now : Time) (b : forward_job) (sB : server)
    : list (option Job) :=
  (λ s', job_of (hs_queue s') <$> GetJob (hs_queue s') (peer_job_id b)) <$> states (peer_submitted now b sB).

(** ** Lemmas *)

Lemma await_job_first jobID snaps :
  await_job jobID snaps =
  match find_first ended (omap id snaps) with
  | Some (_, j) =>
      if String.eqb (Status j) JobFailed
      then write_json (jobj [("job_id", JStr jobID); ("status", JStr "failed"); ("error", JStr (Error j))])
      else write_json (jobj [("job_id", JStr jobID); ("status", JStr "completed"); ("result", Result j)])
  | None => await_job jobID []
  end.
Proof.
  induction snaps as [|[j|] snaps IH]; [done| |exact IH]. simpl. unfold ended at 1.
  destruct (negb _ && negb _); [done|]. rewrite IH. change (list_omap _ _ id snaps) with (omap id snaps).
  by destruct (find_first ended (omap id snaps)) as [[]|].
Qed.

Lemma decode_forward_body mesh origin now model msgs :
  decode_forward (forward_body mesh origin now model msgs) =
  Some (mk_forward_job ("mesh-openai:" +:+ fmt_d (UnixMilli now)) "mesh-openai" "chat"
          (chat_body (forward_model mesh model) msgs false) origin).
Proof.
  unfold decode_forward, field_str, field_obj, forward_body, jmap. simpl. by simplify_map_eq.
Qed.

Lemma submit_new_spec j q :
  let '(ok, p, q') := submit_new j q in
  JobQueue.heap q !! p = None ∧ job_of q' p = j ∧ running q' = running q ∧ completed q' = completed q ∧
  if ok then jobCh q' = jobCh q ++ [p] ∧ go_len (jobCh q) < jobCh_cap
  else jobCh q' = jobCh q ∧ jobCh_cap <= go_len (jobCh q).
Proof.
  unfold submit_new, Submit. simpl. set (p := fresh _).
  assert (JobQueue.heap q !! p = None) as Hp by (apply not_elem_of_dom, is_fresh).
  destruct (Z.ltb_spec (go_len (jobCh q)) jobCh_cap); simpl;
    (split_and!; [done| |done..]; unfold job_of, Job.deref; simpl; by rewrite lookup_insert_eq).
Qed.

Lemma open_middleware rl addr now :
  (Allow rl addr now now).1 = true → (AuthMiddleware "" rl (forward_http addr) now now).1 = None.
Proof. intros Ha. unfold AuthMiddleware. simpl. unfold clientIP. simpl. by destruct (Allow _ _ _ _) as [[] ?]. Qed.

(** ** Properties *)


(** With an API key forwarding fails silently: requests between servers
    carry no key, the peer refuses them with 401, and the refusal, a JSON
    object without a status, is taken for an empty answer; so the client gets
    an empty completion and no error. *)
Theorem refused_forward_is_empty_answer parse apiKey rl addr fmt_v mesh origin endpoint sent now states sB model msgs :
  apiKey ≠ "" → (Allow rl addr now now).1 = true →
  parse (json_error "unauthorized") = Some (jmap [("error", JStr "unauthorized")]) →
  forwardOpenAIToPeer fmt_v mesh origin (remote parse apiKey rl addr endpoint sent now states sB) model msgs =
  Ok ("", mk_Usage 0 0 0).
Proof.
  intros Hk Ha Hp. unfold forwardOpenAIToPeer, remote. simpl fw_post. cbv beta.
  assert ((AuthMiddleware apiKey rl (forward_http addr) now now).1 =
          Some (http_Error (json_error "unauthorized") StatusUnauthorized)) as ->.
  { unfold AuthMiddleware. simpl. unfold clientIP. simpl.
    destruct (Allow _ _ _ _) as [[] rl']; [|done]. rewrite (proj2 (String.eqb_neq _ _) Hk). simpl.
    by destruct apiKey. }
  unfold decode_reply. simpl rs_body. cbv iota. rewrite Hp. unfold field_str, jmap. simpl. by simplify_map_eq.
Qed.

Section properties.
Variable getServerID : string.
Variable MeshEnabled : bool.
Variable fmt_time : Time → string.

(** The branch that forwards was taken, to a peer that answered. *)
Definition went_to_peer (e : submit_env) (b : job_body) (s : server) (reply : gmap string json) : Prop :=
  ∃ m p, hs_mesh s = Some m ∧ MeshEnabled = true ∧ GetAvailableCapacity (hs_queue s) <= 0 ∧
    (GetBestPeer (se_rs e) m).1 = Some p ∧
    forwardJobToPeer getServerID (se_post e) (peer_at (GetBestPeer (se_rs e) m).2 p)
      (job_id (jb_ClientID b) (jb_JobType b) (se_fwd e)) (jb_ClientID b) (jb_JobType b) (jb_Payload b) = Some reply.

Lemma try_forward_spec e b s :
  match (try_forward getServerID MeshEnabled e b s).1 with
  | Some reply => went_to_peer e b s reply
  | None => ∀ reply, ¬ went_to_peer e b s reply
  end.
Proof.
  unfold try_forward, went_to_peer. destruct (hs_mesh s) as [m|]; [|by intros ? (? & ? & ? & _)].
  destruct MeshEnabled; [|by intros ? (? & ? & _ & ? & _)].
  destruct (Z.leb_spec (GetAvailableCapacity (hs_queue s)) 0); [|intros ? (? & ? & _ & _ & ? & _); lia].
  simpl. destruct (GetBestPeer (se_rs e) m) as [[p|] m'] eqn:Hb.
  - simpl. destruct (forwardJobToPeer _ _ _ _ _ _ _) as [reply|] eqn:Hf.
    + exists m, p. rewrite Hb. by split_and!.
    + intros reply (m1 & q & [= <-] & _ & _ & Hq & Hr). rewrite Hb in Hq, Hr. simplify_eq/=.
  - intros reply (m1 & q & [= <-] & _ & _ & Hq & _). by rewrite Hb in Hq.
Qed.

(** C25: A submission is served in one of two ways.  If the mesh is on, the
    machine has no capacity left and the best peer answers, the client gets
    the peer's answer; otherwise a new pending job is put at the end of the
    local queue, if there is room, and the client gets its description.  In
    both cases the client's counter goes up by one. *)
Theorem submitJob_exact e b s client cm :
  jb_ClientID b ≠ "" → jb_JobType b ≠ "" →
  Register (jb_ClientID b) (jb_ClientID b) (se_now e) (se_now' e) (hs_clients s) = (Ok client, cm) →
  let s1 := set_hs_clients cm s in
  let s2 := (try_forward getServerID MeshEnabled e b s1).2 in
  let '(res, s') := submitJob getServerID MeshEnabled fmt_time e (Some b) s in
  hs_clients s' = update_client incr_submitted client (hs_clients s2) ∧
  ((∃ reply, went_to_peer e b s1 reply ∧ res = write_json (JObj reply) ∧ hs_queue s' = hs_queue s2) ∨
   (∃ p, (∀ reply, ¬ went_to_peer e b s1 reply) ∧
      let j := NewJob (job_id (jb_ClientID b) (jb_JobType b) (se_time e)) (jb_ClientID b) (jb_JobType b)
                 (jb_Payload b) (se_created e) in
      res = write_json (JObj (job_json fmt_time j)) ∧ job_of (hs_queue s') p = j ∧
      jobCh (hs_queue s') = jobCh (hs_queue s2) ++ (if go_len (jobCh (hs_queue s2)) <? jobCh_cap then [p] else []))).
Proof.
  intros Hc Ht Hr s1 s2. unfold submitJob.
  rewrite (proj2 (String.eqb_neq _ _) Hc), (proj2 (String.eqb_neq _ _) Ht). simpl orb. cbv iota.
  rewrite Hr. fold s1. pose proof (try_forward_spec e b s1) as Hf. subst s2.
  destruct (try_forward getServerID MeshEnabled e b s1) as [[reply|] s2]; simpl in Hf |- *.
  - split; [done|]. left. by exists reply.
  - set (j := NewJob _ _ _ _ _). pose proof (submit_new_spec j (hs_queue s2)) as Hsub.
    destruct (submit_new j (hs_queue s2)) as [[ok p] q]. destruct Hsub as (_ & Hj & _ & _ & Hok).
    split; [done|]. right. exists p. simpl. rewrite Hj. split_and!; [done..|].
    destruct ok, Hok as [-> Hlen]; [by rewrite (proj2 (Z.ltb_lt _ _) Hlen)|].
    by rewrite (proj2 (Z.ltb_ge _ _) Hlen), app_nil_r.
Qed.

(** A full queue loses jobs silently: when a thousand jobs are waiting and
    no peer helps, the client is answered with a pending job that is neither
    on the queue nor known to it, so it will never run and asking for it finds
    nothing. *)
Theorem full_queue_loses_job e b s client cm :
  jb_ClientID b ≠ "" → jb_JobType b ≠ "" → MeshEnabled = false →
  Register (jb_ClientID b) (jb_ClientID b) (se_now e) (se_now' e) (hs_clients s) = (Ok client, cm) →
  jobCh_cap <= go_len (jobCh (hs_queue s)) →
  let id := job_id (jb_ClientID b) (jb_JobType b) (se_time e) in
  GetJob (hs_queue s) id = None →
  let '(res, s') := submitJob getServerID MeshEnabled fmt_time e (Some b) s in
  rs_code res = StatusOK ∧ (∃ m, rs_body res = BJson (JObj m) ∧ m !! "status" = Some (JStr JobPending)) ∧
  jobCh (hs_queue s') = jobCh (hs_queue s) ∧ GetJob (hs_queue s') id = None.
Proof.
  intros Hc Ht HM Hr Hfull id Hget. unfold submitJob, try_forward. rewrite HM.
  rewrite (proj2 (String.eqb_neq _ _) Hc), (proj2 (String.eqb_neq _ _) Ht). simpl orb. cbv iota.
  rewrite Hr. simpl.
  assert (∀ s1, match hs_mesh s with Some _ => (@None (gmap string json), s1) | None => (None, s1) end = (None, s1))
    as -> by (by destruct (hs_mesh s)).
  set (j := NewJob _ _ _ _ _). simpl. pose proof (submit_new_spec j (hs_queue s)) as Hsub.
  destruct (submit_new j (hs_queue s)) as [[ok p] q]. destruct Hsub as (_ & Hj & Hrun & Hcomp & Hok).
  simpl. rewrite Hj. split_and!; [done| | |].
  - eexists. split; [reflexivity|]. done.
  - destruct ok, Hok as [-> Hlen]; [unfold go_len in *; lia|done].
  - unfold GetJob. rewrite Hrun, Hcomp. exact Hget.
Qed.

(** Submitting a job renames the client: the registration that every
    submission makes passes the id as the name, so a registered name is lost
    with the first job. *)
Theorem submission_renames_client e b s p c :
  jb_ClientID b ≠ "" → jb_JobType b ≠ "" → MeshEnabled = false →
  clients (hs_clients s) !! jb_ClientID b = Some p → c_heap (hs_clients s) !! p = Some c →
  let s' := (submitJob getServerID MeshEnabled fmt_time e (Some b) s).2 in
  client_at (hs_clients s') p =
    mk_Client (c_ClientID c) (jb_ClientID b) (c_ConnectedAt c) (se_now e) (int_incr (c_JobsSubmitted c))
      (c_JobsCompleted c).
Proof.
  intros Hc Ht HM Hp Hc'. simpl. unfold submitJob, try_forward. rewrite HM.
  rewrite (proj2 (String.eqb_neq _ _) Hc), (proj2 (String.eqb_neq _ _) Ht). simpl orb. cbv iota.
  unfold Register. rewrite Hp, bool_decide_eq_true_2, andb_false_r by eauto. cbv iota.
  rewrite (proj2 (String.eqb_neq _ _) Hc). simpl.
  assert (∀ s1, match hs_mesh s with Some _ => (@None (gmap string json), s1) | None => (None, s1) end = (None, s1))
    as -> by (by destruct (hs_mesh s)).
  simpl. destruct (submit_new _ _) as [[ok q] qu]. simpl. unfold client_at. simpl.
  by rewrite !lookup_alter_eq, Hc'.
Qed.
End properties.

(** ** Witnesses *)

Definition example_env : submit_env :=
  mk_submit_env (f64_of_Z 200) (f64_of_Z 200) [] Minute (λ _ _, None) (λ s, s) Minute Minute.
Definition example_server (waiting : nat) : server :=
  mk_server example_clients
    (mk_OQ (replicate waiting 0%nat) false ∅ ∅ (mk_config "http://localhost:11434" "llama3" 2)
       {[0%nat := zero_Job]}) None.
Definition example_body : job_body := mk_job_body "a" "chat" ∅.

Lemma submitJob_exact_witness :
  ∃ p, jobCh (hs_queue (submitJob "s1" false (λ _, "") example_env (Some example_body) (example_server 1)).2) = [0%nat; p].
Proof.
  pose proof (submitJob_exact "s1" false (λ _, "") example_env example_body (example_server 1)
    0%nat (Register "a" "a" (f64_of_Z 200) (f64_of_Z 200) example_clients).2
    ltac:(discriminate) ltac:(discriminate) eq_refl) as H.
  destruct (submitJob _ _ _ _ _ _) as [res s'].
  destruct H as [_ [(reply & (m & p & Hm & _) & _)|(p & _ & _ & _ & Hq)]]; [discriminate Hm|].
  exists p. exact Hq.
Defined.

Lemma full_queue_loses_job_witness :
  jobCh (hs_queue (submitJob "s1" false (λ _, "") example_env (Some example_body) (example_server 1000)).2)
  = replicate 1000 0%nat.
Proof.
  pose proof (full_queue_loses_job "s1" false (λ _, "") example_env example_body (example_server 1000)
    0%nat (Register "a" "a" (f64_of_Z 200) (f64_of_Z 200) example_clients).2
    ltac:(discriminate) ltac:(discriminate) eq_refl eq_refl ltac:(vm_compute; discriminate) eq_refl) as H.
  destruct (submitJob _ _ _ _ _ _) as [res s']. destruct H as (_ & _ & Hq & _). exact Hq.
Defined.

Lemma submission_renames_client_witness :
  c_Name (client_at (hs_clients (submitJob "s1" false (λ _, "") example_env (Some example_body) (example_server 1)).2) 0%nat)
  = "a".
Proof.
  rewrite (submission_renames_client "s1" false (λ _, "") example_env example_body (example_server 1) 0%nat
    (mk_Client "a" "Alice" (f64_of_Z 100) (f64_of_Z 100) 0 0)
    ltac:(discriminate) ltac:(discriminate) eq_refl eq_refl eq_refl). reflexivity.
Defined.

Definition example_parse (s : string) : option (gmap string json) :=
  if String.eqb s (json_error "unauthorized") then Some (jmap [("error", JStr "unauthorized")]) else None.

(** The peer's worker has finished the job by the first tick. *)
Definition example_finish (s : server) : list server :=
  match jobCh (hs_queue s) with
  | [0%nat; p] => [set_hs_queue (worker_file p (worker_execute p (Ok (jobj [("response", JStr "hello")])) Minute
                    (worker_enter p (hs_queue s)))) s]
  | _ => []
  end.


Lemma refused_forward_is_empty_answer_witness :
  forwardOpenAIToPeer (λ _, "") None "s1"
    (remote example_parse "secret" (NewRateLimiter 10 Minute) "10.0.0.7:4000" "http://10.0.0.8:8081" Minute Minute
       example_finish (example_server 1)) "llama3" [("user", "hi")] = Ok ("", mk_Usage 0 0 0).
Proof.
  apply (refused_forward_is_empty_answer example_parse "secret" (NewRateLimiter 10 Minute) "10.0.0.7:4000" (λ _, "")
    None "s1" "http://10.0.0.8:8081" Minute Minute example_finish (example_server 1) "llama3" [("user", "hi")]);
    [discriminate|reflexivity|reflexivity].
Defined.
