(* ===== verification/AgentApi.v ===== *)
(** * The coding-agent handlers ([hive-server-go/handlers.go])

    The HTTP interface of the coding agent: validation of the request, the
    call of the manager, and the reply.  A request is the method, the query
    string and the decoded body; the wildcard of the route is not part of it,
    since the handlers do not read it. *)

From S2P Require Import Prelude GoFloat GoText GoScan GoHttp ModelContext AgentDB Agent Usage.

Local Open Scope string_scope.
Local Open Scope list_scope.
Local Open Scope Z_scope.
Local Open Scope agent_scope.

(** ** Rendering *)

Definition session_json (s : CodingAgentSession) : json :=
  let m := jmap [
    ("session_id", JStr (s_ID s)); ("agent_type", JStr (s_AgentType s)); ("model", JStr (s_Model s));
    ("token_budget", JInt (s_TokenBudget s)); ("status", JStr (s_Status s));
    ("created_at", JNum (s_CreatedAt s)); ("updated_at", JNum (s_UpdatedAt s));
    ("total_messages", JInt (s_TotalMessages s)); ("total_tokens", JInt (s_TotalTokens s));
    ("compressions", JInt (s_Compressions s))] in
  let m := if String.eqb (s_SystemPrompt s) "" then m else <["system_prompt" := JStr (s_SystemPrompt s)]> m in
  JObj (match s_Metadata s with
        | Some md => if bool_decide (md = ∅) then m else <["metadata" := JObj md]> m
        | None => m
        end).

Definition message_json (x : CodingAgentMessage) : json :=
  let m := jmap [
    ("id", JStr (m_ID x)); ("session_id", JStr (m_SessionID x)); ("role", JStr (m_Role x));
    ("content", JStr (m_Content x)); ("token_count", JInt (m_TokenCount x));
    ("compress_group", JInt (m_CompressGroup x)); ("is_summary", JBool (m_IsSummary x));
    ("created_at", JNum (m_CreatedAt x))] in
  JObj (if String.eqb (m_MetadataJSON x) "" then m else <["metadata" := JStr (m_MetadataJSON x)]> m).

Definition audit_json (a : CodingAgentAuditEntry) : json := jobj [
  ("id", JInt (a_ID a)); ("session_id", JStr (a_SessionID a)); ("agent_type", JStr (a_AgentType a));
  ("model", JStr (a_Model a)); ("role", JStr (a_Role a)); ("content", JStr (a_Content a));
  ("token_count", JInt (a_TokenCount a)); ("compress_group", JInt (a_CompressGroup a));
  ("is_summary", JBool (a_IsSummary a)); ("created_at", JNum (a_CreatedAt a))].

Definition window_json (x : ModelContextWindow) : json := jobj [
  ("model", JStr (ModelContext.Model x)); ("context_length", JInt (ContextLength x));
  ("max_output_tokens", JInt (MaxOutput x)); ("source", JStr (Source x))].

Definition stats_json (c : context_stats) : json := jobj [
  ("session_id", JStr (cs_session_id c)); ("token_budget", JInt (cs_token_budget c));
  ("total_tokens", JInt (cs_total_tokens c)); ("budget_used_pct", JNum (cs_budget_used_pct c));
  ("total_messages", JInt (cs_total_messages c)); ("summary_messages", JInt (cs_summary_messages c));
  ("compressions", JInt (cs_compressions c)); ("role_breakdown", JObj (JInt <$> cs_role_breakdown c));
  ("needs_compression", JBool (cs_needs_compression c));
  ("model_context", jobj [
     ("model", JStr (cs_model c)); ("context_length", JInt (ContextLength (cs_context c)));
     ("detection_source", JStr (Source (cs_context c))); ("budget_ratio", JStr (fmt_d (cs_ratio c) +:+ "%"))])].

(** [{"error":"..."}] as [Sprintf] writes it: the message is not escaped. *)
Definition error_text (e : string) : string :=
  "{" +:+ dq +:+ "error" +:+ dq +:+ ":" +:+ dq +:+ e +:+ dq +:+ "}".

(** ** Requests *)

Inductive agent_endpoint :=
  | ECreate | EList | EGet | EDelete | EArchive | ESend | EMessages | EContext | EAudit | ESearch.

(** The fields of the bodies: [None] if the body cannot be decoded.  A number
    that is absent is 0, a string empty. *)
Record agent_body := mk_abody {
  ab_AgentType : string; ab_Model : string; ab_SystemPrompt : string; ab_TokenBudget : Z;
  ab_Role : string; ab_Content : string; ab_Metadata : option (gmap string json) }.

Record agent_request := mk_areq {
  ar_method : string;
  ar_query : string → string;
  ar_body : option agent_body }.

(** What Ollama and the job queue answer. *)
Record agent_env := mk_aenv {
  ae_show : option (Z * Z); ae_show' : option (Z * Z); ae_answers : answers }.

Section api.
Context `{!Store}.
Variable fmt_v : json → string.
Variable ollamaModel : string.
(** [hs.codingAgent != nil]. *)
Variable available : bool.

Definition reply (code : Z) (e : string) : M response := M_ret (http_Error e code).

Definition POST_required (r : agent_request) (k : M response) : M response :=
  if String.eqb (ar_method r) "POST" then k else reply StatusMethodNotAllowed "POST required".

Definition agent_available (k : M response) : M response :=
  if available then k else reply StatusServiceUnavailable (error_text "coding agent not available").

(** [sessionID := r.URL.Query().Get("session_id")]. *)
Definition with_session (r : agent_request) (k : string → M response) : M response :=
  let sessionID := ar_query r "session_id" in
  if String.eqb sessionID "" then reply StatusBadRequest "session_id required" else k sessionID.

Definition with_body (r : agent_request) (k : agent_body → M response) : M response :=
  match ar_body r with Some b => k b | None => reply StatusBadRequest "bad json" end.

(** An error of the manager is reported with [code]. *)
Definition or_error {A} (code : Z) (m : M A) (k : A → M response) : M response :=
  x ⇐ M_try m;
  match x with Ok a => k a | Err e => reply code (error_text e) end.

Definition limit_of (r : agent_request) (default : Z) : Z :=
  let l := ar_query r "limit" in if String.eqb l "" then default else from_opt default (Sscanf_d l).

Definition handleAgentSessionCreate (e : agent_env) (r : agent_request) : M response :=
  POST_required r
    (if negb available
     then reply StatusServiceUnavailable (error_text "coding agent not available (no database)")
     else with_body r (λ b,
       let agentType := if String.eqb (ab_AgentType b) "" then "custom" else ab_AgentType b in
       or_error StatusInternalServerError
         (CreateSession ollamaModel agentType (ab_Model b) (ab_SystemPrompt b) (ab_TokenBudget b)
            (ab_Metadata b) (ae_show e) (ae_show' e))
         (λ x, session ⇐ M_gets (λ w, session_at w x.1);
               M_ret (write_json (jobj [("session", session_json session); ("model_context", window_json x.2)]))))).

Definition handleAgentSessionList (r : agent_request) : M response :=
  agent_available (or_error StatusInternalServerError (ListCodingAgentSessions (ar_query r "agent_type"))
    (λ sessions, M_ret (write_json (jobj [("sessions", jslice session_json sessions);
                                          ("count", JInt (go_len sessions))])))).

Definition handleAgentSessionGet (r : agent_request) : M response :=
  with_session r (λ sessionID, agent_available (
    x ⇐ M_try (GetSession sessionID);
    match x with
    | Ok (Some p) => session ⇐ M_gets (λ w, session_at w p); M_ret (write_json (session_json session))
    | _ => reply StatusNotFound (error_text "session not found")
    end)).

Definition handleAgentSessionDelete (r : agent_request) : M response :=
  with_session r (λ sessionID, agent_available (
    or_error StatusInternalServerError (DeleteSession sessionID)
      (λ _, M_ret (write_json (jobj [("status", JStr "deleted"); ("session_id", JStr sessionID)]))))).

Definition handleAgentSessionArchive (r : agent_request) : M response :=
  POST_required r (with_session r (λ sessionID, agent_available (
    or_error StatusInternalServerError (ArchiveSession sessionID)
      (λ _, M_ret (write_json (jobj [("status", JStr "archived"); ("session_id", JStr sessionID)])))))).

Definition handleAgentMessageSend (e : agent_env) (r : agent_request) : M response :=
  POST_required r (with_session r (λ sessionID, agent_available (with_body r (λ b,
    let role := if String.eqb (ab_Role b) "" then "user" else ab_Role b in
    if String.eqb (ab_Content b) "" then reply StatusBadRequest "content required"
    else or_error StatusInternalServerError
      (SendMessage fmt_v sessionID role (ab_Content b) (ab_Metadata b) (ae_answers e))
      (λ x, session ⇐ M_gets (λ w, session_at w x.2);
            M_ret (write_json (jobj [
              ("session_id", JStr sessionID); ("response", JStr x.1); ("agent_type", JStr (s_AgentType session));
              ("model", JStr (s_Model session)); ("total_tokens", JInt (s_TotalTokens session));
              ("token_budget", JInt (s_TokenBudget session)); ("compressions", JInt (s_Compressions session))]))))))).

Definition handleAgentMessagesGet (r : agent_request) : M response :=
  with_session r (λ sessionID, agent_available (
    or_error StatusInternalServerError (GetCodingAgentMessages sessionID (limit_of r 0))
      (λ msgs, M_ret (write_json (jobj [("session_id", JStr sessionID); ("messages", jslice message_json msgs);
                                        ("count", JInt (go_len msgs))]))))).

Definition handleAgentContextStats (e : agent_env) (r : agent_request) : M response :=
  with_session r (λ sessionID, agent_available (
    or_error StatusNotFound (GetContextStats sessionID (ae_show e)) (λ stats, M_ret (write_json (stats_json stats))))).

Definition handleAgentAuditLogs (r : agent_request) : M response :=
  with_session r (λ sessionID, agent_available (
    or_error StatusInternalServerError (GetCodingAgentAuditLogs sessionID (limit_of r 500))
      (λ logs, M_ret (write_json (jobj [("session_id", JStr sessionID); ("audit_logs", jslice audit_json logs);
                                        ("count", JInt (go_len logs))]))))).

Definition handleAgentSearch (r : agent_request) : M response :=
  agent_available (
    let query := ar_query r "q" in
    if String.eqb query "" then reply StatusBadRequest "q parameter required"
    else or_error StatusInternalServerError (SearchCodingAgentMessages query (limit_of r 50))
      (λ msgs, M_ret (write_json (jobj [("query", JStr query); ("messages", jslice message_json msgs);
                                        ("count", JInt (go_len msgs))])))).

(** A model Ollama reports: its name and size, and the two answers of
    [/api/show] about it.  [fmt_1f] renders a double with one decimal. *)
Fixpoint live_models (fmt_1f : f64 → string) (tags : list (string * Z * option (Z * Z) * option (Z * Z)))
    (d : gmap string ModelContextWindow) : list json * gmap string ModelContextWindow :=
  match tags with
  | [] => ([], d)
  | (name, size, show, show') :: tags =>
      let (detected, d) := DetectContextWindow d name show in
      let (budget, d) := GetContextBudgetForModel d name 0 show' in
      let (rest, d) := live_models fmt_1f tags d in
      (jobj [("name", JStr name); ("context_length", JInt (ContextLength detected));
             ("recommended_budget", JInt budget); ("detection_source", JStr (Source detected));
             ("size_gb", JStr (fmt_1f (f64_div (f64_of_Z size) (f64_of_Z 1000000000))))] :: rest, d)
  end.

(** [tags]: what Ollama reports, if there is a URL and it answers. *)
Definition handleAgentModels (fmt_1f : f64 → string) (ord : list (string * Z))
    (tags : option (list (string * Z * option (Z * Z) * option (Z * Z)))) : M response :=
  agent_available (
    d ⇐ M_gets detector;
    let (live, d) := live_models fmt_1f (from_opt [] tags) d in
    M_modify (set_detector d) ;;;
    M_ret (write_json (jobj [("live_models", jslice id live);
                             ("registry", jslice window_json (GetAllKnownModels ord))]))).

(** The routes. *)
Definition serve_agent (ep : agent_endpoint) (e : agent_env) (r : agent_request) : M response :=
  match ep with
  | ECreate => handleAgentSessionCreate e r
  | EList => handleAgentSessionList r
  | EGet => handleAgentSessionGet r
  | EDelete => handleAgentSessionDelete r
  | EArchive => handleAgentSessionArchive r
  | ESend => handleAgentMessageSend e r
  | EMessages => handleAgentMessagesGet r
  | EContext => handleAgentContextStats e r
  | EAudit => handleAgentAuditLogs r
  | ESearch => handleAgentSearch r
  end.

(** The handlers of the routes with a session id in their path. *)
Definition of_session (ep : agent_endpoint) : bool :=
  match ep with ECreate | EList | ESearch => false | _ => true end.

(** ** Lemmas *)

Definition refusals : list Z := [StatusBadRequest; StatusMethodNotAllowed; StatusServiceUnavailable].
Definition codes : list Z :=
  [StatusOK; StatusNotFound; StatusInternalServerError] ++ refusals.

(** A handler that always replies, and changes nothing when it refuses. *)
Definition well_behaved (m : M response) : Prop :=
  ∀ w, ∃ res w', m w = (Ok res, w') ∧ rs_code res ∈ codes ∧ (rs_code res ∈ refusals → w' = w).

(** A continuation that replies 200. *)
Definition succeeds (m : M response) : Prop :=
  ∀ w, ∃ res w', m w = (Ok res, w') ∧ rs_code res = StatusOK.

Lemma reply_ok code e : code ∈ codes → well_behaved (reply code e).
Proof. intros Hc w. eexists _, _. by split_and!. Qed.

Lemma POST_required_ok r k : well_behaved k → well_behaved (POST_required r k).
Proof. intros Hk. unfold POST_required. case_match; [done|]. apply reply_ok. set_solver. Qed.

Lemma available_ok k : well_behaved k → well_behaved (agent_available k).
Proof. intros Hk. unfold agent_available. case_match; [done|]. apply reply_ok. set_solver. Qed.

Lemma with_session_ok r k : (∀ id, well_behaved (k id)) → well_behaved (with_session r k).
Proof. intros Hk. unfold with_session. case_match; [|done]. apply reply_ok. set_solver. Qed.

Lemma with_body_ok r k : (∀ b, well_behaved (k b)) → well_behaved (with_body r k).
Proof. intros Hk. unfold with_body. case_match; [done|]. apply reply_ok. set_solver. Qed.

Lemma not_a_refusal code :
  code ∈ [StatusOK; StatusNotFound; StatusInternalServerError] → code ∈ codes ∧ code ∉ refusals.
Proof.
  rewrite !elem_of_cons. intros [->|[->|[->|[]%not_elem_of_nil]]]; split;
    apply (bool_decide_unpack _); vm_compute; exact I.
Qed.

Lemma or_error_ok {A} code (m : M A) k :
  code ∈ [StatusNotFound; StatusInternalServerError] → (∀ a, succeeds (k a)) → well_behaved (or_error code m k).
Proof.
  intros Hc Hk w. unfold or_error, M_bind, M_try. destruct (m w) as [[a|e] w'].
  - destruct (Hk a w') as (res & w'' & -> & Hres). exists res, w''. rewrite Hres.
    destruct (not_a_refusal StatusOK) as [H1 H2]; [by left|]. by split_and!.
  - eexists _, _. split; [reflexivity|]. simpl.
    destruct (not_a_refusal code) as [H1 H2]; [by right|]. by split.
Qed.

Lemma succeeds_ret j : succeeds (M_ret (write_json j)).
Proof. intros w. by eexists _, _. Qed.

Lemma succeeds_gets {A} (f : world → A) (g : A → json) : succeeds (x ⇐ M_gets f; M_ret (write_json (g x))).
Proof. intros w. by eexists _, _. Qed.

(** ** Properties *)

(** Every request to the agent is answered, and a refused one changes
    nothing: whatever the request, the state and the faults of the database,
    the handler replies with 200, 400, 404, 405, 500 or 503, and with 400, 405
    or 503 the store, the cached sessions and the detector are as before. *)
Theorem agent_refusals_change_nothing ep e r w :
  ∃ res w', serve_agent ep e r w = (Ok res, w') ∧ rs_code res ∈ codes ∧ (rs_code res ∈ refusals → w' = w).
Proof.
  cut (well_behaved (serve_agent ep e r)); [intros Hw; exact (Hw w)|].
  destruct ep; simpl.
  - apply POST_required_ok. destruct available; simpl; [|apply reply_ok; set_solver].
    apply with_body_ok. intros b. apply or_error_ok; [set_solver|]. intros x. apply succeeds_gets.
  - apply available_ok, or_error_ok; [set_solver|]. intros x. apply succeeds_ret.
  - apply with_session_ok. intros id. apply available_ok. intros w'. unfold M_bind, M_try.
    destruct (not_a_refusal StatusOK) as [H1 H2]; [by left|].
    destruct (not_a_refusal StatusNotFound) as [H3 H4]; [by right; left|].
    destruct (GetSession id w') as [[[p|]|] w'']; eexists _, _; (split; [reflexivity|by split]).
  - apply with_session_ok. intros id. apply available_ok, or_error_ok; [set_solver|]. intros x. apply succeeds_ret.
  - apply POST_required_ok, with_session_ok. intros id. apply available_ok, or_error_ok; [set_solver|].
    intros x. apply succeeds_ret.
  - apply POST_required_ok, with_session_ok. intros id. apply available_ok, with_body_ok. intros b.
    destruct (String.eqb (ab_Content b) ""); [apply reply_ok; set_solver|].
    apply or_error_ok; [set_solver|]. intros x. apply succeeds_gets.
  - apply with_session_ok. intros id. apply available_ok, or_error_ok; [set_solver|]. intros x. apply succeeds_ret.
  - apply with_session_ok. intros id. apply available_ok, or_error_ok; [set_solver|]. intros x. apply succeeds_ret.
  - apply with_session_ok. intros id. apply available_ok, or_error_ok; [set_solver|]. intros x. apply succeeds_ret.
  - unfold handleAgentSearch. cbv zeta. apply available_ok. destruct (String.eqb (ar_query r "q") ""); [apply reply_ok; set_solver|].
    apply or_error_ok; [set_solver|]. intros x. apply succeeds_ret.
Qed.

(** The documented paths do not work: the handlers of the routes that
    carry the session id in the path look for it in the query string, so a
    request that follows the route is refused, whatever session it names. *)
Theorem documented_path_refused ep e r w :
  of_session ep = true → ar_query r "session_id" = "" → ar_method r = "POST" ∨ ep ∉ [EArchive; ESend] →
  serve_agent ep e r w = (Ok (http_Error "session_id required" StatusBadRequest), w).
Proof.
  intros Hep Hq Hm.
  destruct ep; try done; simpl;
    unfold handleAgentSessionGet, handleAgentSessionDelete, handleAgentSessionArchive, handleAgentMessageSend,
      handleAgentMessagesGet, handleAgentContextStats, handleAgentAuditLogs, POST_required, with_session;
    rewrite Hq; try done; destruct Hm as [-> |Hm]; try done; destruct Hm; set_solver.
Qed.

End api.

(** ** Witnesses *)

Lemma documented_path_refused_witness :
  @serve_agent ticking (λ _, "") "llama3" true EGet (mk_aenv None None example_answers)
    (mk_areq "GET" (λ _, "") None) (example_world example_msgs) =
  (Ok (http_Error "session_id required" StatusBadRequest), example_world example_msgs).
Proof.
  apply (@documented_path_refused ticking (λ _, "") "llama3" true EGet (mk_aenv None None example_answers)
    (mk_areq "GET" (λ _, "") None) (example_world example_msgs) eq_refl eq_refl).
  right. rewrite !not_elem_of_cons. repeat split; [discriminate..|]. apply not_elem_of_nil.
Defined.
