(* ===== verification/NodeAgent.v ===== *)
(** * The node agent ([cmd/agent/main.go])

    The program that runs on a machine of the cluster: what it finds out about
    the machine, its registration and its heartbeats, composed with the
    manager of [Cluster] they are sent to.  The output of a command is [None]
    when it fails; JSON carries a payload unchanged, a nil slice as [null]. *)

From S2P Require Import Prelude GoFloat GoText GoScan GoHttp Cluster.

Local Open Scope string_scope.
Local Open Scope list_scope.
Local Open Scope Z_scope.

(** ** The machine *)

Section host.
Variable GOOS : string.
(** [sysctl -n name], [nvidia-smi --query-gpu=field], a shell pipeline. *)
Variable sysctl : string → option string.
Variable nvidia_smi : string → option string.
Variable bash : string → option string.
(** [strconv.ParseFloat] with 64 bits. *)
Variable ParseFloat : string → option f64.

Definition detectHardware : string :=
  if String.eqb GOOS "darwin" then
    match sysctl "machdep.cpu.brand_string" with
    | Some s => if strings_Contains s "Apple" then "apple-silicon" else "cpu"
    | None => "cpu"
    end
  else if String.eqb GOOS "linux" then
    match nvidia_smi "name" with
    | Some out =>
        let s := trim_space out in
        if String.eqb s "" then "cpu"
        else if strings_Contains (to_lower s) "dgx" then "nvidia-dgx" else "nvidia-gpu"
    | None => "cpu"
    end
  else "cpu".

Definition detectGPUMemory : Z :=
  match nvidia_smi "memory.total" ≫= (λ out, Atoi (trim_space out)) with
  | Some mb => int_quot mb 1024
  | None =>
      match (if String.eqb GOOS "darwin" then sysctl "hw.memsize" ≫= (λ out, Atoi (trim_space out)) else None) with
      | Some bytes => int_quot (int_quot (int_quot (int_quot bytes 1024) 1024) 1024) 3
      | None => 8
      end
  end.

(** A number a pipeline prints, on Linux. *)
Definition linux_number (command : string) : option f64 :=
  if String.eqb GOOS "linux" then bash command ≫= (λ out, ParseFloat (trim_space out)) else None.

Definition getCPUUsage : f64 :=
  from_opt f64_zero (linux_number "top -bn1 | grep 'Cpu(s)' | awk '{print $2}'").

(** [alloc]: what the Go runtime has allocated. *)
Definition getMemoryUsedGB (alloc : Z) : f64 :=
  let gb x := f64_div x (f64_of_Z 1024) in
  from_opt (gb (gb (gb (f64_of_Z alloc)))) (linux_number "free -g | awk '/Mem:/ {print $3}'").

Definition getMemoryTotalGB : f64 :=
  from_opt (f64_of_Z 16) (linux_number "free -g | awk '/Mem:/ {print $2}'").

Definition getVRAMUsed : f64 :=
  match nvidia_smi "memory.used" ≫= (λ out, ParseFloat (trim_space out)) with
  | Some mb => f64_div mb (f64_of_Z 1024)
  | None => f64_zero
  end.

(** The interfaces: up, loopback, and their addresses as bytes, an IPv4
    address in the four-byte form of [To4]. *)
Record interface := mk_interface { i_up : bool; i_loopback : bool; i_addrs : list (list Z) }.

(** [To4() != nil && !IsLoopback()]. *)
Definition usable_v4 (ip : list Z) : bool :=
  match ip with [a; _; _; _] => negb (a =? 127) | _ => false end.

Definition dotted (ip : list Z) : string := join "." (fmt_d <$> ip).

Definition getLocalIP (ifaces : option (list interface)) : string :=
  match ifaces with
  | None => "127.0.0.1"
  | Some l =>
      match find_first usable_v4 (l ≫= (λ i, if i_up i && negb (i_loopback i) then i_addrs i else [])) with
      | Some (_, ip) => dotted ip
      | None => "127.0.0.1"
      end
  end.
End host.

(** ** Configuration *)

Definition envOr (val fallback : string) : string := if String.eqb val "" then fallback else val.
Definition envIntOr (val : string) (fallback : Z) : Z :=
  if String.eqb val "" then fallback else from_opt fallback (Atoi val).

(** [url_port]: the port of the parsed URL, empty without one, [None] when
    the URL cannot be parsed. *)
Definition parsePort (url_port : string → option string) (addr : string) : Z :=
  match url_port addr with
  | Some port => if String.eqb port "" then 11434 else from_opt 11434 (Atoi port)
  | None => 11434
  end.

(** What the agent finds on the machine when it starts. *)
Record probes := mk_probes {
  pr_hostname : string; pr_hardware : string; pr_gpu_memory : Z; pr_local_ip : string;
  pr_ollama_version : string; pr_models : option (list string) }.

(** [getOllamaVersion]: [reply] is [None] when the connection fails, else the
    version decoded, empty if there is none. *)
Definition getOllamaVersion (reply : option string) : string := from_opt "unknown" reply.

(** [getOllamaModels]: nil when the connection fails. *)
Definition getOllamaModels (reply : option (list string)) : option (list string) := reply.

Definition registration (env : string → string) (url_port : string → option string) (pr : probes)
    : RegistrationPayload :=
  let name := envOr (env "NODE_NAME") (pr_hostname pr) in
  let nodeID := envOr (env "NODE_ID") (name +:+ "-node") in
  let hw := envOr (env "HARDWARE") "unknown" in
  mk_RegistrationPayload nodeID name (pr_local_ip pr)
    (parsePort url_port (envOr (env "OLLAMA_ADDR") "http://localhost:11434"))
    (if String.eqb hw "unknown" then pr_hardware pr else hw) (env "GPU_MODEL") (pr_gpu_memory pr)
    (envIntOr (env "CAPACITY") 5) (from_opt [] (pr_models pr)) (pr_ollama_version pr).

(** ** Talking to the manager *)

(** A clock reading per registration and heartbeat; [up] tells whether the
    manager can be reached. *)
Definition register (up : bool) (reg : RegistrationPayload) (now1 now2 : Time) (m : Manager) : bool * Manager :=
  if up then
    let (m, res) := HandleRegister m "POST" (Ok reg) now1 now2 in (rs_code res =? 200, m)
  else (false, m).

Definition sendHeartbeat (up : bool) (hb : HeartbeatPayload) (now : Time) (m : Manager) : bool * Manager :=
  if up then (true, (HandleHeartbeat m "POST" (Ok hb) now).1) else (false, m).

(** The registration loop: at most five attempts. *)
Fixpoint register_loop (attempts : nat) (up : nat → bool) (now : nat → Time) (reg : RegistrationPayload)
    (m : Manager) : Manager :=
  match attempts with
  | O => m
  | S attempts =>
      let (ok, m) := register (up 0%nat) reg (now 0%nat) (now 0%nat) m in
      if ok then m else register_loop attempts (λ i, up (S i)) (λ i, now (S i)) reg m
  end.

(** The measurements of one tick. *)
Record measurements := mk_measurements {
  me_cpu : f64; me_memUsed : f64; me_memTotal : f64; me_vramUsed : f64; me_models : option (list string) }.

(** [ActiveConns] is not set. *)
Definition heartbeat (reg : RegistrationPayload) (x : measurements) : HeartbeatPayload :=
  mk_HeartbeatPayload (reg_ID reg) (me_cpu x) (me_memUsed x) (me_memTotal x) (me_vramUsed x)
    (f64_of_Z (reg_GPUMemory reg)) 0 (me_models x).

(** One tick of the heartbeat loop; [up'] is for the registration that
    follows a failed heartbeat. *)
Definition agent_tick (reg : RegistrationPayload) (up up' : bool) (x : measurements) (now : Time) (m : Manager)
    : Manager :=
  let (ok, m) := sendHeartbeat up (heartbeat reg x) now m in
  if ok then m else (register up' reg now now m).2.

(** ** A cluster of agents *)

(** What happens to a manager whose nodes all run this agent. *)
Inductive cluster_event :=
  | CStart (reg : RegistrationPayload) (up : nat → bool) (now : nat → Time)
  | CTick (reg : RegistrationPayload) (up up' : bool) (x : measurements) (now : Time)
  | CLeave (nodeID : string)
  | CStale (rd : string → Time).

Definition apply_cluster (m : Manager) (e : cluster_event) : Manager :=
  match e with
  | CStart reg up now => register_loop 5 up now reg m
  | CTick reg up up' x now => agent_tick reg up up' x now m
  | CLeave nodeID => (HandleDeregister m "POST" (Ok nodeID)).1
  | CStale rd => CheckStale_tick m rd
  end.

(** ** Lemmas *)

Definition idle (m : Manager) : Prop := map_Forall (λ _ n, ActiveConns n = 0) (nodes m).

Lemma idle_register up reg now1 now2 m : idle m → idle (register up reg now1 now2 m).2.
Proof.
  intros Hm. unfold register. destruct up; [|done]. unfold HandleRegister. simpl.
  destruct (_ || _); [done|]. simpl. unfold idle, RegisterNode. rewrite nodes_call_onUpdate.
  destruct (nodes m !! _) as [n|] eqn:Hn; apply map_Forall_insert_2; try done. exact (Hm _ _ Hn).
Qed.

Lemma idle_heartbeat up reg x now m : idle m → idle (sendHeartbeat up (heartbeat reg x) now m).2.
Proof.
  intros Hm. unfold sendHeartbeat. destruct up; [|done]. simpl. unfold HandleHeartbeat. simpl.
  assert (idle (UpdateNodeHeartbeat m (reg_ID reg) (load_of_heartbeat (heartbeat reg x)) now)) as Hu.
  { unfold UpdateNodeHeartbeat. case_match; [|done]. unfold idle. rewrite nodes_call_onUpdate.
    by apply map_Forall_insert_2. }
  destruct (me_models x); [|done]. unfold GetNode. simpl.
  destruct (nodes (UpdateNodeHeartbeat _ _ _ _) !! _) as [n|] eqn:Hn; [|done].
  apply map_Forall_insert_2; [by apply (Hu _ _ Hn)|done].
Qed.

Lemma idle_loop n up now reg m : idle m → idle (register_loop n up now reg m).
Proof.
  revert up now m. induction n as [|n IH]; intros up now m Hm; [done|]. simpl.
  pose proof (idle_register (up 0%nat) reg (now 0%nat) (now 0%nat) m Hm) as Hr.
  destruct (register _ _ _ _ _) as [[] m']; [done|]. by apply IH.
Qed.

Lemma idle_apply m e : idle m → idle (apply_cluster m e).
Proof.
  intros Hm. destruct e as [reg up now|reg up up' x now|id|rd]; cbn [apply_cluster].
  - by apply idle_loop.
  - unfold agent_tick. pose proof (idle_heartbeat up reg x now m Hm) as Hh.
    destruct (sendHeartbeat _ _ _ _) as [[] m']; [done|]. by apply idle_register.
  - unfold HandleDeregister. simpl. unfold DeregisterNode. case_match; [|done].
    simpl. unfold idle. rewrite nodes_call_onUpdate. by apply map_Forall_delete.
  - unfold CheckStale_tick, idle. rewrite nodes_call_onUpdate. simpl. intros i n.
    rewrite map_lookup_imap. destruct (nodes m !! i) as [n'|] eqn:Hi; [|done]. intros [= <-].
    unfold mark_stale. destruct (_ && _); by apply (Hm _ _ Hi).
Qed.

(** ** Properties *)

(** The capacity of a node never fills up: the agent does not report
    connections, and nothing else counts them, so in a cluster of these
    agents every node has all its slots free whatever it is doing. *)
Theorem slots_never_used timeout onUpdate es id n :
  nodes (foldl apply_cluster (NewManager timeout onUpdate) es) !! id = Some n →
  int64_range (Capacity n) → AvailableSlots n = Z.max 0 (Capacity n).
Proof.
  intros Hn Hc. assert (idle (foldl apply_cluster (NewManager timeout onUpdate) es)) as Hidle.
  { apply (foldl_inv idle); [apply map_Forall_empty|]. intros m e _. apply idle_apply. }
  pose proof (Hidle id n Hn) as Ha. simpl in Ha. unfold AvailableSlots.
  rewrite Ha, int_sub_id, Z.sub_0_r by (by rewrite Z.sub_0_r). destruct (Z.ltb_spec (Capacity n) 0); lia.
Qed.

(** A manager that forgets a node never learns of it again: the agent
    registers again only when a heartbeat cannot be delivered, and a manager
    that does not know the node answers the heartbeat like any other; so
    after a restart of the manager the node stays unknown as long as its
    agent can reach it. *)
Theorem forgotten_node_stays_unknown reg m ticks :
  nodes m !! reg_ID reg = None →
  nodes (foldl (λ m t, agent_tick reg true t.1.1 t.1.2 t.2 m) m ticks) = nodes m.
Proof.
  intros Hnone. apply (foldl_inv (λ m', nodes m' = nodes m)); [done|]. intros m' [[up' x] now] _ Heq.
  unfold agent_tick, sendHeartbeat, HandleHeartbeat, UpdateNodeHeartbeat, GetNode. simpl.
  rewrite Heq, Hnone. destruct (me_models x); [|done]. by rewrite Heq, Hnone.
Qed.

(** ** Witnesses *)

Definition example_probes : probes :=
  mk_probes "mini" "apple-silicon" 16 "10.0.0.7" "0.5.1" (Some ["llama3:latest"]).
Definition example_env (key : string) : string :=
  if String.eqb key "CAPACITY" then "4" else if String.eqb key "NODE_ID" then "n1" else "".
Definition example_reg : RegistrationPayload := registration example_env (λ _, Some "11434") example_probes.
Definition example_measurements : measurements :=
  mk_measurements (f64_of_Z 50) (f64_of_Z 8) (f64_of_Z 16) f64_zero (Some ["llama3:latest"]).

Example example_reg_fields :
  reg_ID example_reg = "n1" ∧ reg_Name example_reg = "mini" ∧ reg_Port example_reg = 11434 ∧
  reg_Capacity example_reg = 4 ∧ reg_Hardware example_reg = "apple-silicon".
Proof. by vm_compute. Qed.

Definition example_events : list cluster_event :=
  [CStart example_reg (λ _, true) (λ _, 5 * Second); CTick example_reg true true example_measurements (8 * Second)].

Lemma slots_never_used_witness :
  ∃ n, nodes (foldl apply_cluster (NewManager (10 * Second) false) example_events) !! "n1" = Some n ∧
    AvailableSlots n = 4.
Proof.
  destruct (nodes (foldl apply_cluster (NewManager (10 * Second) false) example_events) !! "n1") as [n|] eqn:Hn;
    [|vm_compute in Hn; discriminate].
  exists n. split; [reflexivity|].
  assert (Capacity n = 4) as Hc by (vm_compute in Hn; injection Hn as <-; reflexivity).
  rewrite (slots_never_used (10 * Second) false example_events "n1" n Hn); rewrite Hc; [reflexivity|].
  split; vm_compute; discriminate.
Defined.

Lemma forgotten_node_stays_unknown_witness :
  nodes (foldl (λ m t, agent_tick example_reg true t.1.1 t.1.2 t.2 m) (NewManager (10 * Second) false)
    [(true, example_measurements, 8 * Second); (true, example_measurements, 11 * Second)]) !! "n1" = None.
Proof.
  rewrite (forgotten_node_stays_unknown example_reg (NewManager (10 * Second) false)
    [(true, example_measurements, 8 * Second); (true, example_measurements, 11 * Second)] eq_refl).
  reflexivity.
Defined.
