(* ===== verification/Provider.v ===== *)
(** * Provider probes ([hive-server-go/provider.go], [handlers.go])

    Which model servers run on this machine and on the peers: the probes, the
    cache of their results, the registration of what they report, and the
    views made of it.  The servers are functions of the address asked; the
    handlers call the manager [hs.provider], which is read as [providerMgr]. *)

From S2P Require Import Prelude GoFloat GoText GoHttp Mesh ModelRegistry OpenAI Usage.

Local Open Scope string_scope.
Local Open Scope list_scope.
Local Open Scope Z_scope.

Definition ProviderOllama : string := "ollama".
Definition ProviderLMStudio : string := "lm_studio".
Definition ProviderVLLM : string := "vllm".
Definition ProviderCustom : string := "custom".

Record ModelInfo := mk_ModelInfo {
  mi_Name : string; mi_Provider : string; mi_NodeID : string; mi_SizeGB : string }.

Record ProviderInfo := mk_ProviderInfo {
  pi_Type : string; pi_BaseURL : string; pi_Healthy : bool; pi_Error : string; pi_Models : list ModelInfo }.

Record NodeInfo := mk_NodeInfo {
  ni_ID : string; ni_Endpoint : string; ni_IsSelf : bool; ni_Alive : bool; ni_Load : f64; ni_Clients : Z;
  ni_Providers : list ProviderInfo }.

Record ProviderManager := mk_PM {
  selfID : string;
  selfPort : Z;
  pm_ollamaURL : string;
  customURLs : list string;
  nodesCache : list NodeInfo;
  lastRefresh : Time;
  interval : Duration;
  pm_registry : option ModelRegistry }.

Definition NewProviderManager (selfID : string) (selfPort : Z) (ollamaURL : string) (customURLs : list string)
    (registry : option ModelRegistry) : ProviderManager :=
  mk_PM selfID selfPort ollamaURL customURLs [] time_zero (30 * Second) registry.

Definition set_cache (nodes : list NodeInfo) (t : Time) (pm : ProviderManager) : ProviderManager :=
  mk_PM (selfID pm) (selfPort pm) (pm_ollamaURL pm) (customURLs pm) nodes t (interval pm) (pm_registry pm).
Definition set_registry (r : option ModelRegistry) (pm : ProviderManager) : ProviderManager :=
  mk_PM (selfID pm) (selfPort pm) (pm_ollamaURL pm) (customURLs pm) (nodesCache pm) (lastRefresh pm)
    (interval pm) r.

(** ** Probes *)

Section probes.
(** The names and sizes an Ollama at an address reports under [/api/tags],
    the names of [/v1/models]; [None] if there is no answer or it cannot be
    decoded.  The host of a URL, if it can be parsed. *)
Variable tags : string → option (list (string * Z)).
Variable v1_models : string → option (list string).
Variable hostname : string → option string.
Variable fmt_1f : f64 → string.
(** [getServerID()], which the registry stamps its entries with. *)
Variable serverID : string.
(** The time of the registrations of a probe. *)
Variable now : Time.

Definition ollama_model (nodeID : string) (m : string * Z) : ModelInfo :=
  mk_ModelInfo m.1 ProviderOllama nodeID
    (if 0 <? m.2 then fmt_1f (f64_div (f64_of_Z m.2) (f64_of_Z 1000000000)) else "").

Definition register_models (baseURL : string) (ms : list (string * Z)) (r : option ModelRegistry)
    : option ModelRegistry :=
  (λ r, foldl (λ r m, RegisterLocalModel serverID r m.1 ProviderOllama baseURL m.2 0 now) r ms) <$> r.

Definition probeOllama (baseURL nodeID : string) (pm : ProviderManager) : option ProviderInfo * ProviderManager :=
  match tags (baseURL +:+ "/api/tags") with
  | None => (None, pm)
  | Some ms =>
      (Some (mk_ProviderInfo ProviderOllama baseURL true "" (ollama_model nodeID <$> ms)),
       set_registry (register_models baseURL ms (pm_registry pm)) pm)
  end.

Definition probeOpenAICompatible (baseURL : string) : option (list ModelInfo) :=
  match v1_models (baseURL +:+ "/v1/models") with
  | None => None
  | Some names => Some ((λ n, mk_ModelInfo n "" "" "") <$> names)
  end.

Definition with_provider (t : string) (ms : list ModelInfo) : list ModelInfo :=
  (λ m, mk_ModelInfo (mi_Name m) t (mi_NodeID m) (mi_SizeGB m)) <$> ms.

Definition probe_at (t baseURL : string) : option ProviderInfo :=
  (λ ms, mk_ProviderInfo t baseURL true "" (with_provider t ms)) <$> probeOpenAICompatible baseURL.

Definition probeLMStudioAt (baseURL nodeID : string) : option ProviderInfo := probe_at ProviderLMStudio baseURL.
Definition probeVLLMAt (baseURL nodeID : string) : option ProviderInfo := probe_at ProviderVLLM baseURL.
Definition probeLMStudio (nodeID : string) : option ProviderInfo := probeLMStudioAt "http://localhost:1234" nodeID.
Definition probeVLLM (nodeID : string) : option ProviderInfo := probeVLLMAt "http://localhost:8000" nodeID.

(** Healthy whether or not the server answers. *)
Definition probeCustom (baseURL nodeID : string) : option ProviderInfo :=
  Some (mk_ProviderInfo ProviderCustom baseURL true ""
          (with_provider ProviderCustom (from_opt [] (probeOpenAICompatible baseURL)))).

Definition found (ps : list (option ProviderInfo)) : list ProviderInfo := omap id ps.

Definition detectLocalProviders (pm : ProviderManager) : list ProviderInfo * ProviderManager :=
  let (ollama, pm) := probeOllama (pm_ollamaURL pm) (selfID pm) pm in
  (found ([ollama; probeLMStudio (selfID pm); probeVLLM (selfID pm)] ++
          ((λ cu, probeCustom cu (selfID pm)) <$> customURLs pm)), pm).

Definition detectPeerProviders (peer : PeerInfo) (pm : ProviderManager) : list ProviderInfo * ProviderManager :=
  match hostname (p_Endpoint peer) with
  | None => ([], pm)
  | Some host =>
      let (ollama, pm) := probeOllama ("http://" +:+ host +:+ ":11434") (p_ServerID peer) pm in
      (found [ollama; probeLMStudioAt ("http://" +:+ host +:+ ":1234") (p_ServerID peer);
              probeVLLMAt ("http://" +:+ host +:+ ":8000") (p_ServerID peer)], pm)
  end.

(** ** The cache *)

Definition peer_alive (p : PeerInfo) : bool :=
  time_Since now (unix_epoch + f64_to_int (p_LastSeen p) * Second) <? 30 * Second.

Fixpoint peer_nodes (peers : list PeerInfo) (pm : ProviderManager) : list NodeInfo * ProviderManager :=
  match peers with
  | [] => ([], pm)
  | p :: peers =>
      let (providers, pm) := detectPeerProviders p pm in
      let (rest, pm) := peer_nodes peers pm in
      (mk_NodeInfo (p_ServerID p) (p_Endpoint p) false (peer_alive p) (p_Load p) (p_Clients p) providers :: rest, pm)
  end.

Definition refresh (peers : list PeerInfo) (pm : ProviderManager) : ProviderManager :=
  let (selfProviders, pm) := detectLocalProviders pm in
  let self := mk_NodeInfo (selfID pm) ("http://localhost:" +:+ fmt_d (selfPort pm)) true true f64_zero 0
                selfProviders in
  let (others, pm) := peer_nodes peers pm in
  set_cache (self :: others) now pm.

Definition GetNodes (peers : list PeerInfo) (pm : ProviderManager) : list NodeInfo * ProviderManager :=
  let pm := if interval pm <? time_Since now (lastRefresh pm) then refresh peers pm else pm in
  (nodesCache pm, pm).

(** ** Views *)

Definition model_key (m : ModelInfo) : string := mi_Provider m +:+ ":" +:+ mi_Name m.

Definition add_model (acc : gset string * list ModelInfo) (m : ModelInfo) : gset string * list ModelInfo :=
  if bool_decide (model_key m ∈ acc.1) then acc else ({[model_key m]} ∪ acc.1, acc.2 ++ [m]).

Definition all_models (nodes : list NodeInfo) : list ModelInfo :=
  nodes ≫= λ n, ni_Providers n ≫= pi_Models.

Definition GetAggregatedModels (pm : ProviderManager) : list ModelInfo * ProviderManager :=
  let (nodes, pm) := GetNodes [] pm in
  ((foldl add_model (∅, []) (all_models nodes)).2, pm).

(** The types, as a set: Go ranges over a map. *)
Definition GetProviderTypes (pm : ProviderManager) : gset string * ProviderManager :=
  let (nodes, pm) := GetNodes [] pm in
  (list_to_set (nodes ≫= λ n, pi_Type <$> ni_Providers n), pm).

(** ** Handlers *)

Definition model_json (m : ModelInfo) : json :=
  let o := jmap [("name", JStr (mi_Name m)); ("provider", JStr (mi_Provider m)); ("node_id", JStr (mi_NodeID m))] in
  JObj (if String.eqb (mi_SizeGB m) "" then o else <["size_gb" := JStr (mi_SizeGB m)]> o).

Definition provider_json (p : ProviderInfo) : json :=
  let o := jmap [("type", JStr (pi_Type p)); ("base_url", JStr (pi_BaseURL p)); ("healthy", JBool (pi_Healthy p));
                 ("models", JArr (model_json <$> pi_Models p))] in
  JObj (if String.eqb (pi_Error p) "" then o else <["error" := JStr (pi_Error p)]> o).

(** A zero load and a zero count are omitted. *)
Definition node_json (n : NodeInfo) : json :=
  let o := jmap [("id", JStr (ni_ID n)); ("endpoint", JStr (ni_Endpoint n)); ("is_self", JBool (ni_IsSelf n));
                 ("alive", JBool (ni_Alive n)); ("providers", jslice provider_json (ni_Providers n))] in
  let o := if f64_eqb (ni_Load n) f64_zero then o else <["load" := JNum (ni_Load n)]> o in
  JObj (if ni_Clients n =? 0 then o else <["clients" := JInt (ni_Clients n)]> o).

(** [peers]: the alive peers, empty without a mesh. *)
Definition handleNodes (peers : list PeerInfo) (pm : ProviderManager) : response * ProviderManager :=
  let (nodes, pm) := GetNodes peers pm in
  (write_json (jobj [("nodes", JArr (node_json <$> nodes))]), pm).

Definition handleModels (pm : ProviderManager) : response * ProviderManager :=
  let (models, pm) := GetAggregatedModels pm in
  (write_json (jobj [("models", jslice model_json models)]), pm).

(** [ord] is the order in which the types are ranged over. *)
Definition handleProviders (ord : list string) (pm : ProviderManager) : response * ProviderManager :=
  (write_json (jobj [("providers", jslice JStr ord)]), (GetProviderTypes pm).2).

(** ** Lemmas *)

Definition loaded_in (r : option ModelRegistry) (name : string) : Prop :=
  match r with Some r => IsLoadedLocally r name = true | None => True end.

Lemma IsLoadedLocally_register r name p url size ctx name' :
  IsLoadedLocally (RegisterLocalModel serverID r name p url size ctx now) name' =
  if decide (name = name') then true else IsLoadedLocally r name'.
Proof.
  unfold IsLoadedLocally. rewrite RegisterLocalModel_local, lookup_insert. by case_decide.
Qed.

Lemma loaded_register_models url ms r name :
  (∃ size, (name, size) ∈ ms) ∨ loaded_in r name → loaded_in (register_models url ms r) name.
Proof.
  destruct r as [r|]; [|done]. simpl. revert r. induction ms as [|[n size] ms IH]; intros r Hn.
  - destruct Hn as [[size Hn]|Hn]; [by apply not_elem_of_nil in Hn|done].
  - apply IH. simpl. rewrite IsLoadedLocally_register. destruct Hn as [[size' Hn]|Hn].
    + apply elem_of_cons in Hn as [[= -> ->]|Hn]; [right; by rewrite decide_True|left; eauto].
    + right. by case_decide.
Qed.

Lemma loaded_probe url id pm name :
  loaded_in (pm_registry pm) name → loaded_in (pm_registry (probeOllama url id pm).2) name.
Proof. intros Hn. unfold probeOllama. case_match; [|done]. simpl. apply loaded_register_models. by right. Qed.

Lemma loaded_peers peers pm name :
  loaded_in (pm_registry pm) name ∨
  (∃ p host ms size, p ∈ peers ∧ hostname (p_Endpoint p) = Some host ∧
     tags ("http://" +:+ host +:+ ":11434" +:+ "/api/tags") = Some ms ∧ (name, size) ∈ ms) →
  loaded_in (pm_registry (peer_nodes peers pm).2) name.
Proof.
  revert pm. induction peers as [|p peers IH]; intros pm Hn; simpl.
  { destruct Hn as [|(p & ? & ? & ? & Hp & _)]; [done|by apply not_elem_of_nil in Hp]. }
  unfold detectPeerProviders. destruct (hostname (p_Endpoint p)) as [host|] eqn:Hh.
  - pose proof (loaded_probe ("http://" +:+ host +:+ ":11434") (p_ServerID p) pm name) as Hold.
    assert (∀ ms size, tags ("http://" +:+ host +:+ ":11434" +:+ "/api/tags") = Some ms → (name, size) ∈ ms →
      loaded_in (pm_registry (probeOllama ("http://" +:+ host +:+ ":11434") (p_ServerID p) pm).2) name) as Hnew.
    { intros ms size Ht Hms. unfold probeOllama.
      replace (("http://" +:+ host +:+ ":11434") +:+ "/api/tags") with ("http://" +:+ host +:+ ":11434" +:+ "/api/tags")
        by (rewrite <-!str_app_assoc; done).
      rewrite Ht. simpl. apply loaded_register_models. left. eauto. }
    destruct (probeOllama _ _ pm) as [o pm']. simpl in Hold, Hnew.
    specialize (IH pm'). destruct (peer_nodes peers pm') as [rest pm'']. simpl. apply IH.
    destruct Hn as [Hn|(q & h & ms & size & [->|Hq]%elem_of_cons & Hqh & Ht & Hms)]; [left; by apply Hold| |right; eauto 8].
    left. simplify_eq. eauto.
  - specialize (IH pm). destruct (peer_nodes peers pm) as [rest pm'']. simpl. apply IH.
    destruct Hn as [Hn|(q & h & ms & size & [->|Hq]%elem_of_cons & Hqh & Ht & Hms)]; [by left|congruence|right; eauto 8].
Qed.

Lemma loaded_refresh peers pm name :
  (∃ p host ms size, p ∈ peers ∧ hostname (p_Endpoint p) = Some host ∧
     tags ("http://" +:+ host +:+ ":11434" +:+ "/api/tags") = Some ms ∧ (name, size) ∈ ms) →
  loaded_in (pm_registry (refresh peers pm)) name.
Proof.
  intros Hn. unfold refresh. destruct (detectLocalProviders pm) as [ps pm'].
  pose proof (loaded_peers peers pm' name (or_intror Hn)) as Hl.
  by destruct (peer_nodes peers pm') as [others pm''].
Qed.

End probes.

Lemma add_model_fold ms acc :
  NoDup (model_key <$> acc.2) → (∀ k, k ∈ acc.1 ↔ k ∈ model_key <$> acc.2) →
  let r := foldl add_model acc ms in
  NoDup (model_key <$> r.2) ∧ (∀ k, k ∈ r.1 ↔ k ∈ model_key <$> r.2) ∧
  (∀ k, k ∈ model_key <$> r.2 ↔ k ∈ model_key <$> acc.2 ∨ k ∈ model_key <$> ms) ∧
  (∀ m, m ∈ r.2 → m ∈ acc.2 ∨ m ∈ ms).
Proof.
  revert acc. induction ms as [|m ms IH]; intros acc Hnd Hk; simpl; [set_solver|].
  unfold add_model at 2 4 6 8 10. case_bool_decide as Hm.
  - destruct (IH acc Hnd Hk) as (H1 & H2 & H3 & H4). split_and!; [done..| |set_solver].
    intros k. rewrite H3. rewrite Hk in Hm. set_solver.
  - destruct (IH ({[model_key m]} ∪ acc.1, acc.2 ++ [m])) as (H1 & H2 & H3 & H4); simpl.
    + rewrite fmap_app. apply NoDup_app. split_and!; [done| |apply NoDup_singleton]. intros k Hk'. simpl.
      rewrite Hk in Hm. set_solver.
    + intros k. rewrite fmap_app. set_solver.
    + split_and!; [done..| |set_solver]. intros k. rewrite H3. simpl. rewrite fmap_app. set_solver.
Qed.
(** ** Properties *)

Section properties.
Variable tags : string → option (list (string * Z)).
Variable v1_models : string → option (list string).
Variable hostname : string → option string.
Variable fmt_1f : f64 → string.
Variable serverID : string.

Abbreviation GetNodes := (GetNodes tags v1_models hostname fmt_1f serverID).
Abbreviation GetAggregatedModels := (GetAggregatedModels tags v1_models hostname fmt_1f serverID).

(** A model of a peer is taken for a model of this machine: the probe of a
    peer registers what the peer's Ollama has as loaded here, so after a
    refresh a request for such a model is sent to the local Ollama, which
    need not have it, and not to the peer. *)
Theorem peer_model_taken_for_local now pm peers p host ms name size r ollamaURL ordL ordP ordP' ords t :
  interval pm < time_Since now (lastRefresh pm) → p ∈ peers → hostname (p_Endpoint p) = Some host →
  tags ("http://" +:+ host +:+ ":11434" +:+ "/api/tags") = Some ms → (name, size) ∈ ms →
  pm_registry (GetNodes now peers pm).2 = Some r →
  (selectBestModel ollamaURL r name ordL ordP ordP' ords t).1 = mk_selection name ollamaURL false.
Proof.
  intros Hold Hp Hh Ht Hms Hr. unfold Provider.GetNodes in Hr.
  rewrite (proj2 (Z.ltb_lt _ _) Hold) in Hr. simpl in Hr.
  pose proof (loaded_refresh tags v1_models hostname fmt_1f serverID now peers pm name) as Hl.
  unfold loaded_in in Hl. rewrite Hr in Hl. unfold selectBestModel. rewrite Hl; [done|]. by exists p, host, ms, size.
Qed.

(** Listing the models hides the peers: the list is made without them,
    and if that refreshes the cache, every request for the nodes in the next
    half minute sees this machine alone, whatever peers there are. *)
Theorem listing_models_hides_peers now now' pm peers :
  interval pm < time_Since now (lastRefresh pm) → time_Since now' now <= interval pm →
  ∃ self, (GetNodes now' peers (GetAggregatedModels now pm).2).1 = [self] ∧ ni_IsSelf self = true.
Proof.
  intros Hold Hnew. unfold Provider.GetAggregatedModels, Provider.GetNodes at 2.
  rewrite (proj2 (Z.ltb_lt _ _) Hold). unfold refresh, detectLocalProviders, probeOllama. simpl peer_nodes.
  destruct (tags _) as [ms|]; simpl; unfold Provider.GetNodes; simpl;
    rewrite (proj2 (Z.ltb_ge _ _)) by done; by eexists.
Qed.

(** The list of models has each model of each provider once: every model
    of every node is in it under its provider and name, nothing else is, and
    no two entries have the same provider and name. *)
Theorem aggregated_models_exact now pm :
  let nodes := (GetNodes now [] pm).1 in
  let ms := (GetAggregatedModels now pm).1 in
  NoDup (model_key <$> ms) ∧
  (∀ m, m ∈ ms → ∃ n p, n ∈ nodes ∧ p ∈ ni_Providers n ∧ m ∈ pi_Models p) ∧
  (∀ n p m, n ∈ nodes → p ∈ ni_Providers n → m ∈ pi_Models p → ∃ m', m' ∈ ms ∧ model_key m' = model_key m).
Proof.
  unfold Provider.GetAggregatedModels. destruct (GetNodes now [] pm) as [nodes pm']. simpl.
  destruct (add_model_fold (all_models nodes) (∅, [])) as (H1 & _ & H3 & H4); simpl; [constructor|set_solver|].
  split_and!; [done| |].
  - intros m Hm. destruct (H4 m Hm) as [Hn|Hm']; [by apply not_elem_of_nil in Hn|].
    apply list_elem_of_bind in Hm' as (n & (p & Hm' & Hp)%list_elem_of_bind & Hn). eauto.
  - intros n p m Hn Hp Hm. assert (m ∈ all_models nodes) as Hall.
    { apply list_elem_of_bind. exists n. split; [|done]. apply list_elem_of_bind. by exists p. }
    assert (model_key m ∈ model_key <$> (foldl add_model (∅, []) (all_models nodes)).2) as Hk.
    { apply H3. right. by apply list_elem_of_fmap_2. }
    apply list_elem_of_fmap in Hk as (m' & Hk & Hm'). by exists m'.
Qed.
End properties.

(** ** Witnesses *)

Definition example_tags (url : string) : option (list (string * Z)) :=
  if String.eqb url "http://10.0.0.8:11434/api/tags" then Some [("qwen2", 4700000000)] else None.
Definition example_peer : PeerInfo :=
  mk_PeerInfo "hive-b" "http://10.0.0.8:8081" 2 "qwen2" (f64_of_Z 110) 0 0 0 2 f64_zero true.
Definition example_pm : ProviderManager :=
  NewProviderManager "hive-a" 8081 "http://localhost:11434" [] (Some NewModelRegistry).

Lemma peer_model_taken_for_local_witness :
  ∃ r, pm_registry (GetNodes example_tags (λ _, None) (λ _, Some "10.0.0.8") (λ _, "4.7") "hive-a" Minute
                      [example_peer] example_pm).2 = Some r ∧
    (selectBestModel "http://localhost:11434" r "qwen2" [] [] [] (λ _, []) Minute).1 =
    mk_selection "qwen2" "http://localhost:11434" false.
Proof.
  destruct (pm_registry (GetNodes example_tags (λ _, None) (λ _, Some "10.0.0.8") (λ _, "4.7") "hive-a" Minute
              [example_peer] example_pm).2) as [r|] eqn:Hr; [|vm_compute in Hr; discriminate].
  exists r. split; [reflexivity|].
  apply (peer_model_taken_for_local example_tags (λ _, None) (λ _, Some "10.0.0.8") (λ _, "4.7") "hive-a" Minute
    example_pm [example_peer] example_peer "10.0.0.8" [("qwen2", 4700000000)] "qwen2" 4700000000 r);
    [by vm_compute|by left|reflexivity|reflexivity|by left|exact Hr].
Defined.

Lemma listing_models_hides_peers_witness :
  length (GetNodes example_tags (λ _, None) (λ _, Some "10.0.0.8") (λ _, "4.7") "hive-a" (Minute + Second)
    [example_peer] (GetAggregatedModels example_tags (λ _, None) (λ _, Some "10.0.0.8") (λ _, "4.7") "hive-a"
                      Minute example_pm).2).1 = 1%nat.
Proof.
  destruct (listing_models_hides_peers example_tags (λ _, None) (λ _, Some "10.0.0.8") (λ _, "4.7") "hive-a"
    Minute (Minute + Second) example_pm [example_peer]) as (self & Hself & _);
    [by vm_compute|by vm_compute|]. rewrite Hself. reflexivity.
Defined.
