(* ===== verification/Telemetry.v ===== *)
(** * Logs and metrics ([hive-server-go/logs.go], [metrics.go])

    The ring of log lines with the writers in front of it, and the counters
    and sliding windows of the metrics page.  Formatting of times, doubles and
    JSON is a parameter. *)

From S2P Require Import Prelude GoFloat GoText GoHttp.

Local Open Scope string_scope.
Local Open Scope list_scope.
Local Open Scope Z_scope.

(** The last [n] elements. *)
Definition last_n {A} (n : nat) (l : list A) : list A := drop (length l - n) l.

Lemma last_n_snoc {A} n (l : list A) x :
  last_n (S n) (l ++ [x]) = last_n n l ++ [x].
Proof.
  unfold last_n. rewrite length_app. simpl. replace (length l + 1 - S n)%nat with (length l - n)%nat by lia.
  rewrite drop_app_le by lia. done.
Qed.

Lemma last_n_length {A} n (l : list A) : length (last_n n l) = Nat.min n (length l).
Proof. unfold last_n. rewrite length_drop. lia. Qed.

Lemma tail_drop {A} k (l : list A) : tail (drop k l) = drop (S k) l.
Proof. revert k. induction l as [|x l IH]; intros [|k]; try done. simpl. rewrite IH. by destruct l. Qed.

(** Dropping the first of a full window is keeping one fewer. *)
Lemma tail_last_n {A} n (l : list A) : (S n <= length l)%nat → tail (last_n (S n) l) = last_n n l.
Proof.
  intros Hl. unfold last_n. rewrite tail_drop. f_equal. lia.
Qed.

(** ** The ring of log entries *)

Record LogEntry := mk_LogEntry {
  le_Timestamp : f64; le_TimeStr : string; le_Level : string; le_Message : string; le_Logger : string }.

Record RingBuffer := mk_Ring { entries : list LogEntry; maxSize : Z }.

Definition NewRingBuffer (maxSize : Z) : RingBuffer := mk_Ring [] maxSize.

(** [entries[1:]] of an empty slice panics. *)
Definition ring_write (e : LogEntry) (rb : RingBuffer) : panics RingBuffer :=
  if maxSize rb <=? go_len (entries rb) then
    match entries rb with
    | [] => None
    | _ :: rest => Some (mk_Ring (rest ++ [e]) (maxSize rb))
    end
  else Some (mk_Ring (entries rb ++ [e]) (maxSize rb)).

Definition GetAll (rb : RingBuffer) : list LogEntry := entries rb.
Definition GetSince (since : f64) (rb : RingBuffer) : list LogEntry :=
  filter (λ e, f64_leb since (le_Timestamp e) = true) (entries rb).
Definition Clear (rb : RingBuffer) : RingBuffer := mk_Ring [] (maxSize rb).

(** ** The loggers *)

Section logs.
(** [Format("15:04:05")], and the JSON line of [HIVE_LOG_JSON]. *)
Variable clock_text : Time → string.
Variable json_line : string → string → Time → string.
Variable jsonLogging : bool.

(** What the process has written, line by line. *)
Record logs := mk_logs { ring : RingBuffer; stdout : list string; stderr : list string }.

Definition nl : string := String (ascii_of_nat 10) "".

Definition ring_entry (level msg : string) (now : Time) : LogEntry :=
  mk_LogEntry (f64_div (f64_of_Z (wrap64 (Z.div (now - unix_epoch) Millisecond))) (f64_of_Z 1000))
    (clock_text now) level msg "hive-server".

Definition write_ring (level msg : string) (now : Time) (s : logs) : panics logs :=
  r ← ring_write (ring_entry level msg now) (ring s); Some (mk_logs r (stdout s) (stderr s)).

Definition write_stdout (line : string) (s : logs) : logs := mk_logs (ring s) (stdout s ++ [line]) (stderr s).

(** [multiInfo]: the line goes to the standard output, to the ring, and from
    the ring's writer to [infoLogger]'s writer, the standard output again. *)
Definition hivelog (text : string) (now : Time) (s : logs) : panics logs :=
  let line := clock_text now +:+ " " +:+ text +:+ nl in
  s ← write_ring "INFO" line now (write_stdout line s);
  Some (write_stdout line s).

Definition line_text (level msg : string) (now : Time) : string :=
  if jsonLogging then json_line level msg now else level +:+ " [hive-server] " +:+ msg.

Definition logInfo (msg : string) (now : Time) (s : logs) : panics logs :=
  hivelog (line_text "INFO" msg now) now s.

Definition logWarn (msg : string) (now : Time) (s : logs) : panics logs :=
  s ← write_ring "WARN" msg now s; hivelog (line_text "WARN" msg now) now s.

Definition logError (msg : string) (now : Time) (s : logs) : panics logs :=
  s ← write_ring "ERROR" msg now s;
  let text := if jsonLogging then json_line "ERROR" msg now else "[hive-server] " +:+ msg in
  Some (mk_logs (ring s) (stdout s) (stderr s ++ ["ERROR " +:+ clock_text now +:+ " " +:+ text +:+ nl])).

Definition getLogs (since : f64) (s : logs) : list LogEntry :=
  if f64_ltb f64_zero since then GetSince since (ring s) else GetAll (ring s).

Definition clearLogs (s : logs) : logs := mk_logs (Clear (ring s)) (stdout s) (stderr s).

Definition initial_logs : logs := mk_logs (NewRingBuffer 500) [] [].

(** *** Handlers *)

Definition entry_json (e : LogEntry) : json := jobj [
  ("epoch", JNum (le_Timestamp e)); ("ts", JStr (le_TimeStr e)); ("level", JStr (le_Level e));
  ("message", JStr (le_Message e)); ("logger", JStr (le_Logger e))].

(** [since]: what scanning the parameter leaves, zero without one.  A nil
    slice, which only the filter can give, is encoded as [null]. *)
Definition handleLogs (since : f64) (s : logs) : response :=
  let l := getLogs since s in
  write_json (jobj [("logs", match l with
                             | [] => if f64_ltb f64_zero since then JNull else JArr []
                             | _ => JArr (entry_json <$> l)
                             end)]).

Definition handleLogsClear (is_POST : bool) (s : logs) : response * logs :=
  if negb is_POST then (http_Error "POST required" StatusMethodNotAllowed, s)
  else (write_json (jobj [("status", JStr "ok")]), clearLogs s).

(** ** Runs *)

Inductive log_call := LInfo (msg : string) (now : Time) | LWarn (msg : string) (now : Time)
  | LError (msg : string) (now : Time) | LClear.

Definition apply_log (s : panics logs) (c : log_call) : panics logs :=
  s ← s;
  match c with
  | LInfo msg now => logInfo msg now s
  | LWarn msg now => logWarn msg now s
  | LError msg now => logError msg now s
  | LClear => Some (clearLogs s)
  end.

(** What a call puts in the ring, and on the standard output. *)
Definition info_line (level msg : string) (now : Time) : string :=
  clock_text now +:+ " " +:+ line_text level msg now +:+ nl.

Definition emitted (c : log_call) : list LogEntry :=
  match c with
  | LInfo msg now => [ring_entry "INFO" (info_line "INFO" msg now) now]
  | LWarn msg now => [ring_entry "WARN" msg now; ring_entry "INFO" (info_line "WARN" msg now) now]
  | LError msg now => [ring_entry "ERROR" msg now]
  | LClear => []
  end.

Definition printed (c : log_call) : list string :=
  match c with
  | LInfo msg now => let l := info_line "INFO" msg now in [l; l]
  | LWarn msg now => let l := info_line "WARN" msg now in [l; l]
  | _ => []
  end.

Definition since_clear (acc : list LogEntry) (c : log_call) : list LogEntry :=
  match c with LClear => [] | _ => acc ++ emitted c end.

(** ** Lemmas *)

Definition holds_last (n : nat) (all : list LogEntry) (rb : RingBuffer) : Prop :=
  maxSize rb = Z.of_nat n ∧ entries rb = last_n n all.

Lemma ring_write_last n all e rb :
  holds_last (S n) all rb → ∃ rb', ring_write e rb = Some rb' ∧ holds_last (S n) (all ++ [e]) rb'.
Proof.
  intros [Hm He]. unfold ring_write. rewrite Hm, He.
  assert (go_len (last_n (S n) all) = Z.of_nat (Nat.min (S n) (length all))) as Hlen
    by (unfold go_len; by rewrite last_n_length).
  destruct (Z.leb_spec (Z.of_nat (S n)) (go_len (last_n (S n) all))) as [Hle|Hlt].
  - pose proof (tail_last_n n all ltac:(lia)) as Ht.
    destruct (last_n (S n) all) as [|e0 rest] eqn:Hl; [unfold go_len in *; simpl in *; lia|].
    eexists. split; [reflexivity|]. split; [done|]. simpl in *. by rewrite last_n_snoc, <-Ht.
  - eexists. split; [reflexivity|]. split; [done|]. simpl. unfold last_n.
    replace (length all - S n)%nat with 0%nat by lia. rewrite length_app. simpl.
    by replace (length all + 1 - S n)%nat with 0%nat by lia.
Qed.
Definition logs_ok (all : list LogEntry) (out : list string) (s : logs) : Prop :=
  holds_last 500 all (ring s) ∧ stdout s = out.

Lemma write_ring_ok all out level msg now s :
  logs_ok all out s → ∃ s', write_ring level msg now s = Some s' ∧ logs_ok (all ++ [ring_entry level msg now]) out s'.
Proof.
  intros [Hr Ho]. destruct (ring_write_last 499 all (ring_entry level msg now) (ring s) Hr) as (rb & Hw & Hrb).
  unfold write_ring. rewrite Hw. by eexists.
Qed.

Lemma hivelog_ok all out text now s :
  let line := clock_text now +:+ " " +:+ text +:+ nl in
  logs_ok all out s →
  ∃ s', hivelog text now s = Some s' ∧ logs_ok (all ++ [ring_entry "INFO" line now]) (out ++ [line; line]) s'.
Proof.
  intros line [Hr Ho]. unfold hivelog. fold line.
  destruct (write_ring_ok all (out ++ [line]) "INFO" line now (write_stdout line s)) as (s' & -> & Hr' & Ho').
  { split; [done|]. simpl. by rewrite Ho. }
  eexists. split; [reflexivity|]. split; [done|]. simpl. by rewrite Ho', <-app_assoc.
Qed.

Lemma apply_log_ok all out c s :
  logs_ok all out s →
  ∃ s', apply_log (Some s) c = Some s' ∧ logs_ok (since_clear all c) (out ++ printed c) s'.
Proof.
  intros Hs. destruct c as [msg now|msg now|msg now|]; simpl.
  - by apply hivelog_ok.
  - unfold logWarn. destruct (write_ring_ok all out "WARN" msg now s Hs) as (s' & -> & Hs'). simpl.
    destruct (hivelog_ok _ _ (line_text "WARN" msg now) now s' Hs') as (s'' & -> & Hs'').
    eexists. split; [reflexivity|]. by rewrite <-(app_assoc all) in Hs''.
  - unfold logError. destruct (write_ring_ok all out "ERROR" msg now s Hs) as (s' & -> & Hs'). simpl.
    eexists. split; [reflexivity|]. by rewrite app_nil_r.
  - eexists. split; [reflexivity|]. destruct Hs as [[Hm _] Ho]. split; [by split|]. simpl. by rewrite app_nil_r.
Qed.

(** The log page shows the newest five hundred entries since the last
    clearing, in order, whatever was logged: no call panics, an information
    or an error is one entry, a warning two, the second as an information;
    and every information and warning is printed twice. *)
Theorem log_history_exact cs :
  ∃ s, foldl apply_log (Some initial_logs) cs = Some s ∧
    entries (ring s) = last_n 500 (foldl since_clear [] cs) ∧
    stdout s = cs ≫= printed ∧
    ∀ since, getLogs since s =
      filter (λ e, negb (f64_ltb f64_zero since) || f64_leb since (le_Timestamp e) = true)
        (last_n 500 (foldl since_clear [] cs)).
Proof.
  assert (∀ all out s, logs_ok all out s → ∃ s', foldl apply_log (Some s) cs = Some s' ∧
            logs_ok (foldl since_clear all cs) (out ++ (cs ≫= printed)) s') as Hrun.
  { induction cs as [|c cs IH]; intros all out s Hs; [exists s; by rewrite app_nil_r|].
    cbn [foldl]. destruct (apply_log_ok all out c s Hs) as (s' & -> & Hs').
    destruct (IH _ _ s' Hs') as (s'' & Hf & Hs''). exists s''. split; [done|].
    change ((c :: cs) ≫= printed) with (printed c ++ (cs ≫= printed)). by rewrite app_assoc. }
  destruct (Hrun [] [] initial_logs) as (s & Hf & [_ He] & Ho); [done|].
  exists s. split_and!; [done|done|done|]. intros since. unfold getLogs, GetSince, GetAll. rewrite <-He.
  destruct (f64_ltb f64_zero since); simpl; [done|]. by rewrite filter_all.
Qed.
End logs.

(** ** Metrics *)

Record MetricsCollector := mk_MC {
  jobsSubmitted : Z; jobsCompleted : Z; jobsFailed : Z; messagesCached : Z; peersForwarded : Z;
  queueDepth : Z; runningJobs : Z; connectedPeers : Z; activeClients : Z;
  jobDurations : list f64; tokenCounts : list f64; tpsValues : list f64;
  mc_startTime : Time }.

(** [append], then drop the first if there are more than a thousand. *)
Definition push (x : f64) (l : list f64) : list f64 :=
  let l := l ++ [x] in if 1000 <? go_len l then tail l else l.

Inductive metric_op :=
  | IncrJobsSubmitted | IncrJobsCompleted | IncrJobsFailed | IncrMessagesCached | IncrPeersForwarded
  | SetQueueDepth (n : Z) | SetRunningJobs (n : Z) | SetConnectedPeers (n : Z) | SetActiveClients (n : Z)
  | RecordJobDuration (x : f64) | RecordTokenCount (n : Z) | RecordTPS (x : f64).

Definition set_counters (a b c d e : Z) (m : MetricsCollector) : MetricsCollector :=
  mk_MC a b c d e (queueDepth m) (runningJobs m) (connectedPeers m) (activeClients m) (jobDurations m)
    (tokenCounts m) (tpsValues m) (mc_startTime m).
Definition set_gauges (a b c d : Z) (m : MetricsCollector) : MetricsCollector :=
  mk_MC (jobsSubmitted m) (jobsCompleted m) (jobsFailed m) (messagesCached m) (peersForwarded m) a b c d
    (jobDurations m) (tokenCounts m) (tpsValues m) (mc_startTime m).
Definition set_windows (a b c : list f64) (m : MetricsCollector) : MetricsCollector :=
  mk_MC (jobsSubmitted m) (jobsCompleted m) (jobsFailed m) (messagesCached m) (peersForwarded m)
    (queueDepth m) (runningJobs m) (connectedPeers m) (activeClients m) a b c (mc_startTime m).

Definition apply_metric (m : MetricsCollector) (o : metric_op) : MetricsCollector :=
  let '(a, b, c, d, e) := (jobsSubmitted m, jobsCompleted m, jobsFailed m, messagesCached m, peersForwarded m) in
  let '(g, h, i, j) := (queueDepth m, runningJobs m, connectedPeers m, activeClients m) in
  match o with
  | IncrJobsSubmitted => set_counters (int_incr a) b c d e m
  | IncrJobsCompleted => set_counters a (int_incr b) c d e m
  | IncrJobsFailed => set_counters a b (int_incr c) d e m
  | IncrMessagesCached => set_counters a b c (int_incr d) e m
  | IncrPeersForwarded => set_counters a b c d (int_incr e) m
  | SetQueueDepth n => set_gauges n h i j m
  | SetRunningJobs n => set_gauges g n i j m
  | SetConnectedPeers n => set_gauges g h n j m
  | SetActiveClients n => set_gauges g h i n m
  | RecordJobDuration x => set_windows (push x (jobDurations m)) (tokenCounts m) (tpsValues m) m
  | RecordTokenCount n => set_windows (jobDurations m) (push (f64_of_Z n) (tokenCounts m)) (tpsValues m) m
  | RecordTPS x => set_windows (jobDurations m) (tokenCounts m) (push x (tpsValues m)) m
  end.

Definition sumFloat64 (vals : list f64) : f64 := foldl f64_add f64_zero vals.

(** The page: [fmt_f] is [%f].  Each metric has its two comment lines. *)
Definition metric (name kind help : string) (samples : list string) : list string :=
  ("# HELP " +:+ name +:+ " " +:+ help) :: ("# TYPE " +:+ name +:+ " " +:+ kind) :: samples.

Definition gauge (kind name help : string) (n : Z) : list string :=
  metric name kind help [name +:+ " " +:+ fmt_d n].

Definition window_lines (fmt_f : f64 → string) (name help : string) (l : list f64) : list string :=
  match l with
  | [] => []
  | _ => metric name "summary" help
           [name +:+ "_sum " +:+ fmt_f (sumFloat64 l); name +:+ "_count " +:+ fmt_d (go_len l)]
  end.

Definition Render (fmt_f : f64 → string) (now : Time) (m : MetricsCollector) : list string :=
  metric "hive_uptime_seconds" "gauge" "Server uptime in seconds"
    ["hive_uptime_seconds " +:+ fmt_f (Seconds (time_Since now (mc_startTime m)))] ++
  gauge "counter" "hive_jobs_total" "Total jobs submitted" (jobsSubmitted m) ++
  gauge "counter" "hive_jobs_completed_total" "Total jobs completed" (jobsCompleted m) ++
  gauge "counter" "hive_jobs_failed_total" "Total jobs failed" (jobsFailed m) ++
  gauge "counter" "hive_messages_cached_total" "Total messages served from cache" (messagesCached m) ++
  gauge "counter" "hive_peers_forwarded_total" "Total jobs forwarded to peers" (peersForwarded m) ++
  gauge "gauge" "hive_queue_depth" "Current queue depth" (queueDepth m) ++
  gauge "gauge" "hive_running_jobs" "Currently running jobs" (runningJobs m) ++
  gauge "gauge" "hive_connected_peers" "Number of connected peers" (connectedPeers m) ++
  gauge "gauge" "hive_active_clients" "Number of active clients" (activeClients m) ++
  window_lines fmt_f "hive_job_duration_seconds" "Job execution duration" (jobDurations m) ++
  window_lines fmt_f "hive_tokens_per_second" "Tokens per second" (tpsValues m).

Definition handleMetrics (fmt_f : f64 → string) (now : Time) (m : MetricsCollector) : response :=
  mk_response StatusOK (BText (foldr (λ l s, l +:+ nl +:+ s) "" (Render fmt_f now m))).

Definition initial_metrics (t : Time) : MetricsCollector := mk_MC 0 0 0 0 0 0 0 0 0 [] [] [] t.

(** ** Properties of the metrics *)

Definition durations (os : list metric_op) : list f64 :=
  omap (λ o, match o with RecordJobDuration x => Some x | _ => None end) os.
Definition is_submitted (o : metric_op) : bool := match o with IncrJobsSubmitted => true | _ => false end.

Lemma push_last x all : push x (last_n 1000 all) = last_n 1000 (all ++ [x]).
Proof.
  unfold push, go_len. rewrite length_app, last_n_length. simpl length.
  assert (last_n 1000 all ++ [x] = last_n 1001 (all ++ [x])) as -> by (by rewrite last_n_snoc).
  destruct (Z.ltb_spec 1000 (Z.of_nat (Nat.min 1000 (length all) + 1))).
  - apply tail_last_n. rewrite length_app. simpl. lia.
  - unfold last_n. rewrite length_app. simpl. by replace (length all + 1 - 1001)%nat with 0%nat by lia;
      replace (length all + 1 - 1000)%nat with 0%nat by lia.
Qed.

(** The metrics are what was recorded: the counter of submitted jobs is
    the number of submissions modulo the machine word, and the durations kept
    are the last thousand; so the count the page shows for durations stops at
    a thousand, and is then no count of all jobs. *)
Theorem metrics_exact t os :
  let m := foldl apply_metric (initial_metrics t) os in
  jobsSubmitted m = wrap64 (Z.of_nat (count_if is_submitted os)) ∧
  jobDurations m = last_n 1000 (durations os) ∧
  go_len (jobDurations m) = Z.min 1000 (go_len (durations os)).
Proof.
  assert (jobsSubmitted (foldl apply_metric (initial_metrics t) os) = wrap64 (Z.of_nat (count_if is_submitted os)) ∧
          jobDurations (foldl apply_metric (initial_metrics t) os) = last_n 1000 (durations os)) as [H1 H2].
  { induction os as [|o os [IH1 IH2]] using rev_ind; [done|].
    rewrite foldl_snoc, count_if_app. unfold durations in *. rewrite omap_app.
    destruct o; simpl; rewrite ?IH1, ?IH2, ?app_nil_r, ?Nat.add_0_r; (split; [|done || apply push_last]); try done.
    unfold count_if. simpl. unfold int_incr. rewrite int_add_wrap. f_equal. lia. }
  split_and!; [done|done|]. rewrite H2. unfold go_len. rewrite last_n_length. lia.
Qed.
