(* ===== verification/Settings.v ===== *)
(** * Settings of the hive server ([hive-server-go/config.go], [main.go])

    What [main] builds from the configuration file, the environment and the
    defaults, and the settings [NewHiveServer] reads from the environment.
    The YAML library and the file system are arguments. *)

From S2P Require Import Prelude GoText GoHttp GoScan MeshNet RateLimit Circuit Cache.

Local Open Scope string_scope.
Local Open Scope list_scope.
Local Open Scope Z_scope.

Record ConfigFile := mk_ConfigFile {
  cf_Port : Z;
  cf_OllamaURL : string;
  cf_OllamaModel : string;
  cf_MaxConcurrent : Z;
  cf_MaxClients : Z;
  cf_ReadTimeout : Z;
  cf_WriteTimeout : Z;
  cf_IdleTimeout : Z;
  cf_APIKey : string;
  cf_MeshEnabled : bool;
  cf_DiscoveryPort : Z;
  cf_AnnounceAddress : string;
  cf_SeedPeers : string;
  cf_ModelMap : string;
  cf_DatabasePath : string;
  cf_CacheEnabled : bool;
  cf_MaxEntries : Z;
  cf_TTLSeconds : Z;
  cf_JSON : bool;
  cf_CustomProviders : list string }.

(** What [os.ReadFile] gives. *)
Inductive file_read :=
  | FileMissing
  | FileError (msg : string)
  | FileData (data : string).

Section settings.
(** The environment (an unset variable is empty), the files by path, and
    [yaml.Unmarshal] into a [ConfigFile]. *)
Variable env : string → string.
Variable read_file : string → file_read.
Variable unmarshal : string → result ConfigFile.

(** ** [config.go] *)

Definition config_path (path : string) : string :=
  let path := if String.eqb path "" then env "HIVE_CONFIG" else path in
  if String.eqb path "" then "hive.yaml" else path.

(** The pointer and the error: [Ok None] when there is no file. *)
Definition LoadConfigFile (path : string) : result (option ConfigFile) :=
  match read_file (config_path path) with
  | FileMissing => Ok None
  | FileError e => Err ("read config: " +:+ e)
  | FileData data =>
      match unmarshal data with
      | Err e => Err ("parse config: " +:+ e)
      | Ok cfg => Ok (Some cfg)
      end
  end.

Definition envOrDefault (key defaultVal : string) : string :=
  if String.eqb (env key) "" then defaultVal else env key.

Definition envOrDefaultInt (key : string) (defaultVal : Z) : Z :=
  if String.eqb (env key) "" then defaultVal else from_opt defaultVal (Sscanf_d (env key)).

(** ** [main] *)

Fixpoint firstNonEmpty (vals : list string) : string :=
  match vals with [] => "" | v :: vals => if negb (String.eqb v "") then v else firstNonEmpty vals end.

Fixpoint firstNonZero (vals : list Z) : Z :=
  match vals with [] => 0 | v :: vals => if negb (v =? 0) then v else firstNonZero vals end.

Record settings := mk_settings {
  st_ollamaURL : string;
  st_ollamaModel : string;
  st_serverPort : Z;
  st_maxConcurrent : Z;
  st_maxClients : Z;
  st_readTimeout : Z;
  st_writeTimeout : Z;
  st_idleTimeout : Z;
  st_apiKey : string;
  st_customProviders : list string }.

(** The values of the file where it has them, and the defaults. *)
Definition file_settings (cfgFile : option ConfigFile) : settings :=
  match cfgFile with
  | Some c => mk_settings
      (firstNonEmpty [cf_OllamaURL c; "http://localhost:11434"])
      (firstNonEmpty [cf_OllamaModel c; "llama3.1:8b"])
      (firstNonZero [cf_Port c; 8081]) (firstNonZero [cf_MaxConcurrent c; 2])
      (firstNonZero [cf_MaxClients c; 5]) (firstNonZero [cf_ReadTimeout c; 30])
      (firstNonZero [cf_WriteTimeout c; 600]) (firstNonZero [cf_IdleTimeout c; 120])
      (cf_APIKey c) (cf_CustomProviders c)
  | None => mk_settings "http://localhost:11434" "llama3.1:8b" 8081 2 5 30 600 120 "" []
  end.

(** The environment on top. *)
Definition env_settings (s : settings) : settings :=
  mk_settings (envOrDefault "OLLAMA_BASE_URL" (st_ollamaURL s)) (envOrDefault "OLLAMA_MODEL" (st_ollamaModel s))
    (envOrDefaultInt "SERVER_PORT" (st_serverPort s)) (envOrDefaultInt "MAX_CONCURRENT" (st_maxConcurrent s))
    (envOrDefaultInt "MAX_CLIENTS" (st_maxClients s)) (envOrDefaultInt "HTTP_READ_TIMEOUT" (st_readTimeout s))
    (envOrDefaultInt "HTTP_WRITE_TIMEOUT" (st_writeTimeout s))
    (envOrDefaultInt "HTTP_IDLE_TIMEOUT" (st_idleTimeout s)) (envOrDefault "HIVE_API_KEY" (st_apiKey s))
    (if negb (String.eqb (env "CUSTOM_PROVIDER_URLS") "") then splitAndTrim (env "CUSTOM_PROVIDER_URLS") ","
     else st_customProviders s).

(** The error of [LoadConfigFile] is dropped and its pointer is then nil. *)
Definition loaded : option ConfigFile :=
  match LoadConfigFile "" with Ok c => c | Err _ => None end.

Definition main_settings : settings := env_settings (file_settings loaded).

Definition meshEnabled : bool := negb (String.eqb (env "MESH_ENABLED") "false").

(** Entries and seconds of the cache [main] makes, [None] without one. *)
Definition main_cache (cfgFile : option ConfigFile) : option (Z * Z) :=
  let cacheEnabled := String.eqb (env "HIVE_CACHE_ENABLED") "true" in
  if cacheEnabled then
    let cacheEntries := envOrDefaultInt "HIVE_CACHE_MAX_ENTRIES" 1000 in
    let cacheTTL := envOrDefaultInt "HIVE_CACHE_TTL_SECONDS" 300 in
    let '(cacheEntries, cacheTTL, cacheEnabled) :=
      match cfgFile with
      | Some c => (firstNonZero [cf_MaxEntries c; cacheEntries], firstNonZero [cf_TTLSeconds c; cacheTTL],
                   cf_CacheEnabled c || cacheEnabled)
      | None => (cacheEntries, cacheTTL, cacheEnabled)
      end in
    if cacheEnabled then Some (cacheEntries, cacheTTL) else None
  else None.

Definition main_limiter : RateLimiter := NewRateLimiter (envOrDefaultInt "HIVE_RATE_LIMIT" 100) (60 * Second).

(** [time.Duration(n) * time.Second]. *)
Definition seconds (n : Z) : Duration := int_mul n Second.

(** ** [NewHiveServer] *)

Definition server_cache_config : CacheConfig :=
  Cache.mk_Config (getEnvInt (env "CACHE_MAX_ITEMS") 1000) true (seconds (getEnvInt (env "CACHE_TTL_SECONDS") 300)).

(** The composite literal leaves the other two fields zero. *)
Definition server_breaker_config : CircuitBreakerConfig :=
  Circuit.mk_Config (getEnvInt (env "CB_FAILURE_THRESHOLD") 5) 0
    (seconds (getEnvInt (env "CB_TIMEOUT_SECONDS") 30)) 0.

End settings.

(** ** Notions of the properties *)

(** The documented precedence: the environment, then the file, then the
    default. *)
Definition chosen_str (env_val file_val default v : string) : Prop :=
  v = if decide (env_val ≠ "") then env_val else if decide (file_val ≠ "") then file_val else default.

(** A variable that is unset, or does not start with a number, is passed
    over; so is a zero in the file. *)
Definition chosen_int (env_val : string) (file_val default v : Z) : Prop :=
  (∃ n, env_val ≠ "" ∧ Sscanf_d env_val = Some n ∧ v = n) ∨
  ((env_val = "" ∨ Sscanf_d env_val = None) ∧
   (file_val ≠ 0 ∧ v = file_val ∨ file_val = 0 ∧ v = default)).

(** Two files with the same [server] section and the same providers. *)
Definition same_server (c c' : ConfigFile) : Prop :=
  cf_Port c = cf_Port c' ∧ cf_OllamaURL c = cf_OllamaURL c' ∧ cf_OllamaModel c = cf_OllamaModel c' ∧
  cf_MaxConcurrent c = cf_MaxConcurrent c' ∧ cf_MaxClients c = cf_MaxClients c' ∧
  cf_ReadTimeout c = cf_ReadTimeout c' ∧ cf_WriteTimeout c = cf_WriteTimeout c' ∧
  cf_IdleTimeout c = cf_IdleTimeout c' ∧ cf_APIKey c = cf_APIKey c' ∧
  cf_CustomProviders c = cf_CustomProviders c'.

(** ** Lemmas *)

Lemma choose_str env key file_val default :
  chosen_str (env key) file_val default (envOrDefault env key (firstNonEmpty [file_val; default])).
Proof.
  unfold chosen_str, envOrDefault. simpl.
  destruct (String.eqb_spec (env key) ""), (String.eqb_spec file_val ""), (String.eqb_spec default "");
    simpl; repeat case_decide; congruence.
Qed.

Lemma choose_int env key file_val default :
  default ≠ 0 →
  chosen_int (env key) file_val default (envOrDefaultInt env key (firstNonZero [file_val; default])).
Proof.
  intros Hd. unfold chosen_int, envOrDefaultInt. simpl.
  rewrite (proj2 (Z.eqb_neq default 0) Hd). simpl.
  destruct (String.eqb_spec (env key) "") as [->|Hne], (Z.eqb_spec file_val 0); simpl; [naive_solver..| |].
  all: destruct (Sscanf_d (env key)); naive_solver.
Qed.

(** ** Properties *)

(** The server section of the file obeys the documented precedence: a
    setting is the environment's value, or else the file's, or else the
    default, where a number the environment gives in an unreadable form and a
    zero in the file count as missing. *)
Theorem settings_precedence env read_file unmarshal c :
  loaded env read_file unmarshal = Some c →
  let s := main_settings env read_file unmarshal in
  chosen_str (env "OLLAMA_BASE_URL") (cf_OllamaURL c) "http://localhost:11434" (st_ollamaURL s) ∧
  chosen_str (env "OLLAMA_MODEL") (cf_OllamaModel c) "llama3.1:8b" (st_ollamaModel s) ∧
  chosen_int (env "SERVER_PORT") (cf_Port c) 8081 (st_serverPort s) ∧
  chosen_int (env "MAX_CONCURRENT") (cf_MaxConcurrent c) 2 (st_maxConcurrent s) ∧
  chosen_int (env "MAX_CLIENTS") (cf_MaxClients c) 5 (st_maxClients s) ∧
  chosen_int (env "HTTP_READ_TIMEOUT") (cf_ReadTimeout c) 30 (st_readTimeout s) ∧
  chosen_int (env "HTTP_WRITE_TIMEOUT") (cf_WriteTimeout c) 600 (st_writeTimeout s) ∧
  chosen_int (env "HTTP_IDLE_TIMEOUT") (cf_IdleTimeout c) 120 (st_idleTimeout s) ∧
  st_apiKey s = (if decide (env "HIVE_API_KEY" = "") then cf_APIKey c else env "HIVE_API_KEY").
Proof.
  intros Hc s. subst s. unfold main_settings. rewrite Hc.
  split_and!; simpl; [apply choose_str..|by apply choose_int|by apply choose_int|by apply choose_int
    |by apply choose_int|by apply choose_int|by apply choose_int|].
  unfold envOrDefault. destruct (String.eqb_spec (env "HIVE_API_KEY") ""); by case_decide.
Qed.

(** The other sections of the file do not obey it.  Two files with the
    same server section and providers give the same settings and the same
    mesh switch, whatever their mesh, database and logging sections say; the
    cache is made exactly if the environment says so, whatever the file's
    switch is, and then the sizes of the file win over those of the
    environment. *)
Theorem other_sections_ignored env c c' :
  same_server c c' →
  env_settings env (file_settings (Some c)) = env_settings env (file_settings (Some c')) ∧
  (env "HIVE_CACHE_ENABLED" ≠ "true" → main_cache env (Some c) = None) ∧
  (env "HIVE_CACHE_ENABLED" = "true" → ∃ entries ttl, main_cache env (Some c) = Some (entries, ttl) ∧
     (cf_MaxEntries c ≠ 0 → entries = cf_MaxEntries c) ∧ (cf_TTLSeconds c ≠ 0 → ttl = cf_TTLSeconds c)).
Proof.
  intros (H1 & H2 & H3 & H4 & H5 & H6 & H7 & H8 & H9 & H10). split; [|split].
  - unfold file_settings. by rewrite H1, H2, H3, H4, H5, H6, H7, H8, H9, H10.
  - intros Hne. unfold main_cache. by rewrite (proj2 (String.eqb_neq _ _) Hne).
  - intros He. unfold main_cache. rewrite He, orb_true_r. simpl. do 2 eexists. split; [done|].
    split; intros Hne; by rewrite (proj2 (Z.eqb_neq _ _) Hne).
Qed.

(** The wiring undoes the breaker's caution: it sets only two of the four
    fields, so the success threshold is zero and the first success after an
    open breaker lets a request through closes it, where the default
    configuration asks for three. *)
Theorem first_success_closes env nm now0 cb now now' t cb' :
  Circuit.config cb = Circuit.config (NewCircuitBreaker nm (Some (server_breaker_config env)) now0) →
  Circuit.state cb = CircuitOpen → Circuit.Allow cb now now' = (true, cb') →
  Circuit.state (RecordSuccess cb' t) = CircuitClosed.
Proof.
  intros Hcfg Hopen Ha. unfold Circuit.Allow in Ha. rewrite Hopen in Ha.
  destruct (Timeout (Circuit.config cb) <? time_Since now (lastFailure cb)); simplify_eq/=.
  unfold RecordSuccess. simpl. by rewrite Hcfg.
Qed.

(** ** Witnesses *)

(** The file of the README, with an environment that sets the port. *)
Definition readme_config : ConfigFile :=
  mk_ConfigFile 8081 "http://localhost:11434" "llama3.1:8b" 4 10 0 0 0 "your-secret-key" true 8082
    "192.168.1.50:8081" "192.168.1.100:8081" "gemma4:31b-mlx->gemma4:31b" "/data/hive-server.db"
    true 2000 600 true ["http://localhost:1234/v1"].

Definition example_env (key : string) : string := if String.eqb key "SERVER_PORT" then "9090x" else "".

Lemma settings_precedence_witness :
  chosen_int "9090x" 8081 8081
    (st_serverPort (main_settings example_env (λ _, FileData "server:") (λ _, Ok readme_config))).
Proof. by apply (settings_precedence example_env (λ _, FileData "server:") (λ _, Ok readme_config) readme_config). Defined.

Lemma other_sections_ignored_witness : main_cache example_env (Some readme_config) = None.
Proof. by apply (other_sections_ignored example_env readme_config readme_config). Defined.

Lemma first_success_closes_witness :
  let cb := RecordFailure (NewCircuitBreaker "peer" (Some (server_breaker_config
              (λ key, if String.eqb key "CB_FAILURE_THRESHOLD" then "1" else ""))) 0) 5 6 in
  Circuit.state (RecordSuccess (Circuit.Allow cb (40 * Second) (40 * Second)).2 (41 * Second)) = CircuitClosed.
Proof.
  intros cb. by apply (first_success_closes (λ key, if String.eqb key "CB_FAILURE_THRESHOLD" then "1" else "")
    "peer" 0 cb (40 * Second) (40 * Second)).
Defined.
