(* ===== verification/Server.v ===== *)
(** * Routing and middleware of the hive server ([handlers.go], [main.go])

    The routes [RegisterRoutes] and [main] register, their resolution by
    [http.ServeMux], and the middleware around the multiplexer.  A handler is
    the list of what it does to its [ResponseWriter]; what the handlers of the
    routes do is in the other files. *)

From S2P Require Import Prelude GoFloat GoText GoHttp RateLimit AuditTrail.

Local Open Scope string_scope.
Local Open Scope list_scope.
Local Open Scope Z_scope.

(** ** Patterns of [http.ServeMux] *)

Inductive seg :=
  | Lit (s : string)
  | Wild (name : string).

(** A pattern: its method (empty: any), its segments, and whether it ends in
    a slash, which matches any rest.  A path is its segments. *)
Record pattern := mk_pattern { pt_method : string; pt_segs : list seg; pt_multi : bool }.

Definition segments (path : string) : list string :=
  match split path "/" with "" :: segs => segs | segs => segs end.

Definition seg_of (s : string) : seg :=
  match s with
  | String c rest =>
      if Ascii.eqb c "{" then Wild (from_opt "" (head (split rest "}"))) else Lit s
  | "" => Lit s
  end.

(** The text of a pattern, as it is registered. *)
Definition parse_pattern (text : string) : pattern :=
  let '(meth, path) := match split text " " with [m; p] => (m, p) | _ => ("", text) end in
  let segs := segments path in
  match List.last segs "x" with
  | "" => mk_pattern meth (seg_of <$> removelast segs) true
  | _ => mk_pattern meth (seg_of <$> segs) false
  end.

(** A pattern for [GET] also takes [HEAD]. *)
Definition method_matches (pm m : string) : bool :=
  String.eqb pm "" || String.eqb pm m || String.eqb pm "GET" && String.eqb m "HEAD".

Fixpoint segs_match (multi : bool) (pat : list seg) (path : list string) : bool :=
  match pat, path with
  | [], [] => negb multi
  | [], _ :: _ => multi
  | Lit s :: pat, x :: path => String.eqb s x && segs_match multi pat path
  | Wild _ :: pat, x :: path => negb (String.eqb x "") && segs_match multi pat path
  | _ :: _, [] => false
  end.

Definition matches (p : pattern) (m : string) (path : list string) : bool :=
  method_matches (pt_method p) m && segs_match (pt_multi p) (pt_segs p) path.

(** [covers q p]: [q] takes every request [p] takes, by comparing the
    patterns. *)
Definition seg_covers (s t : seg) : bool :=
  match s, t with
  | Wild _, Wild _ => true
  | Wild _, Lit x => negb (String.eqb x "")
  | Lit x, Lit y => String.eqb x y
  | Lit _, Wild _ => false
  end.

Fixpoint segs_cover (mq mp : bool) (q p : list seg) : bool :=
  match q, p with
  | [], [] => Bool.eqb mq mp
  | [], _ :: _ => mq
  | s :: q, t :: p => seg_covers s t && segs_cover mq mp q p
  | _ :: _, [] => false
  end.

Definition method_covers (mq mp : string) : bool :=
  String.eqb mq "" || String.eqb mq mp || String.eqb mq "GET" && String.eqb mp "HEAD".

Definition covers (q p : pattern) : bool :=
  method_covers (pt_method q) (pt_method p) && segs_cover (pt_multi q) (pt_multi p) (pt_segs q) (pt_segs p).

(** No request is taken by both. *)
Definition seg_disjoint (s t : seg) : bool :=
  match s, t with
  | Lit x, Lit y => negb (String.eqb x y)
  | Wild _, Lit x | Lit x, Wild _ => String.eqb x ""
  | Wild _, Wild _ => false
  end.

Fixpoint segs_disjoint (mq mp : bool) (q p : list seg) : bool :=
  match q, p with
  | [], [] => negb (Bool.eqb mq mp)
  | [], _ :: _ => negb mq
  | _ :: _, [] => negb mp
  | s :: q, t :: p => seg_disjoint s t || segs_disjoint mq mp q p
  end.

Definition method_disjoint (a b : string) : bool := negb (method_covers a b || method_covers b a).

Definition disjoint_patterns (q p : pattern) : bool :=
  method_disjoint (pt_method q) (pt_method p) || segs_disjoint (pt_multi q) (pt_multi p) (pt_segs q) (pt_segs p).

(** The registered pattern that takes the request and is covered by every
    other that takes it. *)
Definition route {H} (table : list (pattern * H)) (m : string) (path : list string) : option (pattern * H) :=
  List.find (λ e, matches e.1 m path && forallb (λ q, implb (matches q.1 m path) (covers q.1 e.1)) table) table.

(** [mux.HandleFunc] panics when two patterns conflict. *)
Definition conflict (q p : pattern) : bool :=
  Bool.eqb (covers q p) (covers p q) && negb (disjoint_patterns q p).

Fixpoint registers {H} (table : list (pattern * H)) : bool :=
  match table with
  | [] => true
  | e :: table => forallb (λ q, negb (conflict e.1 q.1)) table && registers table
  end.

(** ** The routes *)

Definition RegisterRoutes : list (string * string) := [
  ("/", "handleRoot");
  ("/api/status", "handleStatus");
  ("/api/clients", "handleClients");
  ("POST /api/clients/register", "handleClientRegister");
  ("POST /api/clients/{client_id}/heartbeat", "handleClientHeartbeatPath");
  ("POST /api/clients/unregister", "handleClientUnregister");
  ("/api/jobs", "handleJobs");
  ("GET /api/jobs/{job_id}", "handleJobGet");
  ("POST /api/jobs/forward", "handleJobForward");
  ("/api/queue", "handleQueue");
  ("/api/peers", "handlePeers");
  ("POST /api/peers/register", "handlePeerRegister");
  ("POST /api/peers/introduce", "handlePeerIntroduce");
  ("POST /api/peers/scan", "handlePeerScan");
  ("/api/peers/diagnostics", "handleMeshDiagnostics");
  ("/api/ollama/health", "handleOllamaHealth");
  ("/api/nodes", "handleNodes");
  ("/api/providers", "handleProviders");
  ("/api/models", "handleModels");
  ("/api/logs", "handleLogs");
  ("POST /api/logs/clear", "handleLogsClear");
  ("/api/reports/usage", "handleUsageReport");
  ("/api/reports/usage/recent", "handleUsageRecent");
  ("/api/reports/usage/timeseries", "handleUsageTimeSeries");
  ("/api/reports/usage/histogram", "handleUsageHistogram");
  ("POST /api/agent/sessions", "handleAgentSessionCreate");
  ("GET /api/agent/sessions", "handleAgentSessionList");
  ("GET /api/agent/sessions/{session_id}", "handleAgentSessionGet");
  ("DELETE /api/agent/sessions/{session_id}", "handleAgentSessionDelete");
  ("POST /api/agent/sessions/{session_id}/archive", "handleAgentSessionArchive");
  ("POST /api/agent/sessions/{session_id}/messages", "handleAgentMessageSend");
  ("GET /api/agent/sessions/{session_id}/messages", "handleAgentMessagesGet");
  ("GET /api/agent/sessions/{session_id}/context", "handleAgentContextStats");
  ("GET /api/agent/sessions/{session_id}/audit", "handleAgentAuditLogs");
  ("GET /api/agent/search", "handleAgentSearch");
  ("GET /api/agent/models", "handleAgentModels");
  ("POST /v1/chat/completions", "handleOpenAIChatCompletions");
  ("GET /v1/models", "handleOpenAIListModels");
  ("GET /v1/health", "handleOpenAIHealth")].

(** What [main] adds. *)
Definition main_routes : list (string * string) := [
  ("GET /metrics", "handleMetrics");
  ("GET /api/jobs/stream", "handleJobStream");
  ("GET /api/audit/recent", "handleAuditRecent");
  ("GET /api/audit/search", "handleAuditSearch");
  ("GET /api/audit/timeline/{request_id}", "handleAuditTimeline");
  ("GET /api/audit/summary/{request_id}", "handleAuditSummary");
  ("GET /api/audit/detail/{request_id}", "handleAuditDetail")].

Definition routes : list (pattern * string) :=
  (λ '(text, h), (parse_pattern text, h)) <$> (RegisterRoutes ++ main_routes).

Definition mux (m path : string) : option string := snd <$> route routes m (segments path).

(** ** What a handler does to its [ResponseWriter] *)

Inductive action :=
  | ASet (key value : string)
  | AHeader (code : Z)
  | AWrite (body : string).

(** What goes over the wire: the status and the headers are those of the
    first [WriteHeader] or [Write], or of the end of the handler. *)
Record wire := mk_wire { wr_code : Z; wr_headers : gmap string string; wr_body : string }.

Fixpoint write_out (hdr : gmap string string) (sent : option (Z * gmap string string)) (body : string)
    (acts : list action) : wire :=
  match acts with
  | [] => let '(code, h) := from_opt (StatusOK, hdr) sent in mk_wire code h body
  | ASet k v :: acts => write_out (<[k := v]> hdr) sent body acts
  | AHeader code :: acts => write_out hdr (Some (from_opt (code, hdr) sent)) body acts
  | AWrite b :: acts => write_out hdr (Some (from_opt (StatusOK, hdr) sent)) (body +:+ b) acts
  end.

(** The fields [statusCode] and [body] of the wrapping writers. *)
Definition note_status (code : Z) (a : action) : Z := match a with AHeader c => c | _ => code end.
Definition status_of (acts : list action) : Z := foldl note_status StatusOK acts.
Definition body_of (acts : list action) : string :=
  foldl (λ b a, match a with AWrite t => b +:+ t | _ => b end) "" acts.

Definition error_actions (msg : string) (code : Z) : list action := [
  ASet "Content-Type" "text/plain; charset=utf-8"; ASet "X-Content-Type-Options" "nosniff";
  AHeader code; AWrite (msg +:+ String (ascii_of_nat 10) "")].

Definition refusal_actions (r : response) : list action :=
  match rs_body r with BText msg => error_actions msg (rs_code r) | _ => [AHeader (rs_code r)] end.

Definition handleRoot (dashboardHTML path : string) : list action :=
  if negb (String.eqb path "/") then error_actions "404 page not found" StatusNotFound
  else [ASet "Content-Type" "text/html; charset=utf-8"; AHeader StatusOK; AWrite dashboardHTML].

(** ** Middleware *)

Section middleware.
Variable serverID : string.
(** A request body, and a body written, decoded into a map. *)
Variable decode : string → option (option (gmap string json)).

Definition cors_headers : list action := [
  ASet "Access-Control-Allow-Origin" "*";
  ASet "Access-Control-Allow-Methods" "GET, POST, PUT, DELETE, OPTIONS";
  ASet "Access-Control-Allow-Headers" "Content-Type, Authorization"].

(** What [main]'s request and its audit see of a request. *)
Definition audited (r : Request) (userAgent : string) : http_request :=
  mk_http (Method r) (Path r) (RemoteAddr r) userAgent.

(** The writes and the events; [requestID] is the id [LogRequest] makes. *)
Definition auditMiddleware (requestID userAgent reqBody : string) (durationMs : f64) (r : Request)
    (next : list action) : list action * list AuditEvent :=
  if audit_skipped (Method r) (Path r) then (next, [])
  else (next ++ [ASet "X-Request-ID" requestID],
        audit_events serverID requestID (audited r userAgent) (decode reqBody) (status_of next)
          (decode (body_of next)) durationMs).

Definition corsMiddleware (r : Request) (next : list action * list AuditEvent)
    : list action * list AuditEvent :=
  if String.eqb (Method r) "OPTIONS" then (cors_headers ++ [AHeader StatusNoContent], [])
  else (cors_headers ++ next.1, next.2).

(** The line it logs, if any. *)
Definition requestLogger (r : Request) (dur : Duration) (acts : list action)
    : option (string * string * Z * Duration) :=
  if 100 * Millisecond <? dur then Some (Method r, Path r, status_of acts, dur) else None.

(** The handler [main] serves, around what the route's handler does. *)
Definition serve (apiKey : string) (rl : RateLimiter) (r : Request) (now now' : Time)
    (requestID userAgent reqBody : string) (durationMs : f64) (next : list action)
    : wire * list AuditEvent * RateLimiter :=
  match AuthMiddleware apiKey rl r now now' with
  | (Some refusal, rl) => (write_out ∅ None "" (refusal_actions refusal), [], rl)
  | (None, rl) =>
      let (acts, events) := corsMiddleware r (auditMiddleware requestID userAgent reqBody durationMs r next) in
      (write_out ∅ None "" acts, events, rl)
  end.
End middleware.

(** ** Lemmas: patterns *)

Lemma method_covers_sound a b m : method_covers a b = true → method_matches b m = true → method_matches a m = true.
Proof.
  unfold method_covers, method_matches.
  destruct (String.eqb_spec a ""), (String.eqb_spec a b), (String.eqb_spec a "GET"), (String.eqb_spec b "HEAD"),
    (String.eqb_spec b "GET"), (String.eqb_spec b ""), (String.eqb_spec b m), (String.eqb_spec m "HEAD");
    subst; simpl; try done; rewrite ?String.eqb_refl; done.
Qed.

Lemma segs_cover_sound mq mp q p path :
  segs_cover mq mp q p = true → segs_match mp p path = true → segs_match mq q path = true.
Proof.
  revert p path. induction q as [|s q IH]; intros [|t p] path; simpl.
  - intros ->%eqb_prop. done.
  - intros ->. by destruct t, path.
  - done.
  - intros [Hs Hq]%andb_true_iff. destruct s as [x|], t as [y|], path as [|z path]; simpl in *; try done.
    + apply String.eqb_eq in Hs as ->. intros [-> Hp]%andb_true_iff. by eapply IH.
    + intros [->%String.eqb_eq Hp]%andb_true_iff. rewrite Hs. simpl. by eapply IH.
    + intros [-> Hp]%andb_true_iff. by eapply IH.
Qed.

Lemma covers_sound q p m path : covers q p = true → matches p m path = true → matches q m path = true.
Proof.
  unfold covers, matches. rewrite !andb_true_iff. intros [? ?] [? ?].
  eauto using method_covers_sound, segs_cover_sound.
Qed.

Lemma covers_refl p : covers p p = true.
Proof.
  unfold covers, method_covers. rewrite String.eqb_refl, orb_true_r. simpl.
  induction (pt_segs p) as [|[s|] l IH]; simpl; rewrite ?String.eqb_refl; [by destruct (pt_multi p)|done|done].
Qed.

Lemma segs_cover_trans ma mb mc a b c :
  segs_cover ma mb a b = true → segs_cover mb mc b c = true → segs_cover ma mc a c = true.
Proof.
  revert b c. induction a as [|s a IH]; intros [|t b] [|u c]; simpl; try done.
  - by intros ->%eqb_prop.
  - by intros ->%eqb_prop.
  - rewrite !andb_true_iff. intros [Hst ?] [Htu ?]. split; [|by eapply IH].
    destruct s, t, u; simpl in *; try done.
    + apply String.eqb_eq in Hst as ->. done.
    + apply String.eqb_eq in Htu as <-. done.
Qed.

Lemma covers_trans a b c : covers a b = true → covers b c = true → covers a c = true.
Proof.
  unfold covers. rewrite !andb_true_iff. intros [Hab ?] [Hbc ?]. split; [|by eapply segs_cover_trans].
  revert Hab Hbc. unfold method_covers.
  destruct (String.eqb_spec (pt_method a) ""), (String.eqb_spec (pt_method a) (pt_method b)),
    (String.eqb_spec (pt_method b) (pt_method c)), (String.eqb_spec (pt_method b) ""),
    (String.eqb_spec (pt_method a) "GET"), (String.eqb_spec (pt_method b) "HEAD"),
    (String.eqb_spec (pt_method b) "GET"), (String.eqb_spec (pt_method c) "HEAD"),
    (String.eqb_spec (pt_method a) (pt_method c)); simpl; congruence.
Qed.

Lemma segs_disjoint_sound mq mp q p path :
  segs_disjoint mq mp q p = true → segs_match mq q path = true → segs_match mp p path = true → False.
Proof.
  revert p path. induction q as [|s q IH]; intros [|t p] [|z path]; simpl; try by destruct s.
  - by destruct mq, mp.
  - by destruct mq, mp.
  - by destruct t.
  - by intros H ->.
  - destruct s; intros H ? ?; by simplify_eq.
  - intros [Hs|Hq]%orb_true_iff.
    + destruct s as [x|], t as [y|]; simpl in Hs |- *; rewrite ?andb_true_iff; [| | |done].
      * intros [->%String.eqb_eq _] [->%String.eqb_eq _]. by rewrite String.eqb_refl in Hs.
      * apply String.eqb_eq in Hs as ->. by intros [<-%String.eqb_eq _] [? _].
      * apply String.eqb_eq in Hs as ->. by intros [? _] [<-%String.eqb_eq _].
    + destruct s, t; rewrite !andb_true_iff; intros [_ ?] [_ ?]; by eapply IH.
Qed.

Lemma disjoint_sound q p m path :
  disjoint_patterns q p = true → matches q m path = true → matches p m path = true → False.
Proof.
  unfold disjoint_patterns, matches. rewrite orb_true_iff, !andb_true_iff.
  intros [Hm|Hs] [Hq ?] [Hp ?]; [|by eapply segs_disjoint_sound]. revert Hm Hq Hp.
  unfold method_disjoint, method_covers, method_matches.
  destruct (String.eqb_spec (pt_method q) ""), (String.eqb_spec (pt_method q) (pt_method p)),
    (String.eqb_spec (pt_method p) ""), (String.eqb_spec (pt_method p) (pt_method q)),
    (String.eqb_spec (pt_method q) m), (String.eqb_spec (pt_method p) m), (String.eqb_spec (pt_method q) "GET"),
    (String.eqb_spec (pt_method p) "GET"), (String.eqb_spec (pt_method p) "HEAD"),
    (String.eqb_spec (pt_method q) "HEAD"), (String.eqb_spec m "HEAD"); simpl; congruence.
Qed.

(** Patterns that do not conflict and take the same request are ordered. *)
Lemma no_conflict q p m path :
  conflict q p = false → matches q m path = true → matches p m path = true →
  covers q p = negb (covers p q).
Proof.
  unfold conflict. rewrite andb_false_iff. intros [Hc|Hd] Hq Hp.
  - by destruct (covers q p), (covers p q).
  - apply negb_false_iff in Hd. by destruct (disjoint_sound _ _ _ _ Hd Hq Hp).
Qed.

(** The most specific pattern that takes the request. *)
Definition most_specific {H} (table : list (pattern * H)) (m : string) (path : list string) (i : nat)
    (e : pattern * H) : Prop :=
  table !! i = Some e ∧ matches e.1 m path = true ∧
  ∀ j q, table !! j = Some q → matches q.1 m path = true → j ≠ i →
    covers q.1 e.1 = true ∧ covers e.1 q.1 = false.

Lemma most_specific_cons {H} (table : list (pattern * H)) m path e0 :
  forallb (λ q, negb (conflict e0.1 q.1)) table = true → matches e0.1 m path = true →
  (∃ i e, most_specific table m path i e) ∨ (∀ e, e ∈ table → matches e.1 m path = false) →
  ∃ i e, most_specific (e0 :: table) m path i e.
Proof.
  rewrite forallb_forall. intros Hnc H0.
  assert (∀ j q, table !! j = Some q → matches q.1 m path = true → covers e0.1 q.1 = negb (covers q.1 e0.1)) as Hord.
  { intros j q Hj Hq. eapply no_conflict; [|done|done].
    apply negb_true_iff, Hnc, list_elem_of_In. by eapply list_elem_of_lookup_2. }
  intros [(i & e & Hi & He & Hmin)|Hnone].
  - destruct (covers e0.1 e.1) eqn:Hc; pose proof (Hord i e Hi He) as Hce; rewrite Hc in Hce.
    + exists (S i), e. split_and!; [done..|]. intros [|j] q Hj Hq Hne; simplify_eq/=.
      * split; [done|]. by destruct (covers e.1 q.1).
      * apply (Hmin j); congruence.
    + exists 0%nat, e0. split_and!; [done..|]. intros [|j] q Hj Hq Hne; simplify_eq/=.
      assert (covers q.1 e0.1 = true) as Hqe.
      { apply covers_trans with e.1; [|by destruct (covers e.1 e0.1)].
        destruct (decide (j = i)) as [->|]; [|by apply (Hmin j)]. simplify_eq. apply covers_refl. }
      split; [done|]. by rewrite (Hord j q Hj Hq), Hqe.
  - exists 0%nat, e0. split_and!; [done..|]. intros [|j] q Hj Hq Hne; simplify_eq/=.
    by rewrite (Hnone q) in Hq by (by eapply list_elem_of_lookup_2).
Qed.

Lemma registered_minimum {H} (table : list (pattern * H)) m path :
  registers table = true →
  (∃ i e, most_specific table m path i e) ∨ (∀ e, e ∈ table → matches e.1 m path = false).
Proof.
  induction table as [|e0 table IH]; simpl; [right; by intros e ?%not_elem_of_nil|].
  intros [Hnc Hr]%andb_true_iff. specialize (IH Hr). destruct (matches e0.1 m path) eqn:H0.
  - left. by apply most_specific_cons.
  - destruct IH as [(i & e & Hi & He & Hmin)|Hnone].
    + left. exists (S i), e. split_and!; [done..|]. intros [|j] q Hj Hq Hne; simplify_eq/=; [congruence|]. apply (Hmin j); congruence.
    + right. by intros e [->|?]%elem_of_cons; [|apply Hnone].
Qed.

Lemma route_minimum {H} (table : list (pattern * H)) m path i e :
  most_specific table m path i e → route table m path = Some e.
Proof.
  intros (Hi & He & Hmin). unfold route.
  assert (∀ q, q ∈ table → matches q.1 m path = true → covers q.1 e.1 = true) as Hcov.
  { intros q [j Hj]%list_elem_of_lookup Hq. destruct (decide (j = i)); [simplify_eq; apply covers_refl|].
    by apply (Hmin j). }
  destruct (List.find _ table) as [e'|] eqn:Hf.
  - apply List.find_some in Hf as [Hin [Hm' Hall]%andb_true_iff].
    apply list_elem_of_In, list_elem_of_lookup in Hin as [j Hj].
    destruct (decide (j = i)); [by simplify_eq|]. destruct (Hmin j e' Hj Hm') as [_ Hno]; [done|].
    rewrite forallb_forall in Hall. specialize (Hall e). rewrite He in Hall. simpl in Hall.
    rewrite Hall in Hno; [done|]. apply list_elem_of_In. by eapply list_elem_of_lookup_2.
  - pose proof (List.find_none _ _ Hf e) as Hn. simpl in Hn. rewrite He in Hn. simpl in Hn.
    assert (forallb (λ q, implb (matches q.1 m path) (covers q.1 e.1)) table = true) as Hall.
    { apply forallb_forall. intros q Hq%list_elem_of_In. destruct (matches q.1 m path) eqn:Hqm; [|done]. by apply Hcov. }
    rewrite Hall in Hn. discriminate Hn. apply list_elem_of_In. by eapply list_elem_of_lookup_2.
Qed.

Definition on_path {H} (path : list string) (e : pattern * H) : bool :=
  segs_match (pt_multi e.1) (pt_segs e.1) path.

Lemma find_filter {A} (f g : A → bool) l :
  (∀ x, f x = true → g x = true) → List.find f l = List.find f (List.filter g l).
Proof.
  intros Hfg. induction l as [|x l IH]; simpl; [done|]. specialize (Hfg x).
  destruct (f x) eqn:Hf; [by rewrite Hfg; simpl; rewrite ?Hf|]. destruct (g x); simpl; by rewrite ?Hf, IH.
Qed.

Lemma find_ext {A} (f g : A → bool) l : (∀ x, f x = g x) → List.find f l = List.find g l.
Proof. intros Hfg. induction l as [|x l IH]; simpl; [done|]. by rewrite Hfg, IH. Qed.

(** Only the patterns whose segments match the path matter. *)
Lemma route_on_path {H} (table : list (pattern * H)) m path :
  route table m path = route (List.filter (on_path path) table) m path.
Proof.
  unfold route. rewrite find_filter with (g := on_path path).
  - apply find_ext. intros e. f_equal. induction table as [|q table IH]; simpl; [done|]. rewrite IH.
    unfold on_path at 2, matches at 1.
    by destruct (segs_match _ _ path) eqn:Hq; simpl; [unfold matches; rewrite Hq|rewrite andb_false_r].
  - intros e. unfold matches, on_path. by intros [[_ ?]%andb_true_iff _]%andb_true_iff.
Qed.

Definition root_route : pattern * string := (parse_pattern "/", "handleRoot").

(** A pattern for [POST] that takes the path and is below the root's. *)
Definition below_root (p : pattern) (path : list string) : bool :=
  String.eqb (pt_method p) "POST" && segs_match (pt_multi p) (pt_segs p) path && negb (pt_multi p) &&
  match path, pt_segs p with _ :: _, _ :: _ => true | _, _ => false end.

Lemma route_below_root p h m path :
  below_root p path = true →
  route [root_route; (p, h)] m path = Some (if String.eqb m "POST" then (p, h) else root_route).
Proof.
  destruct p as [pm segs multi]. unfold below_root. simpl. rewrite !andb_true_iff, !negb_true_iff.
  intros [[[->%String.eqb_eq Hs] ->] Hne]. destruct path as [|x path], segs as [|s segs]; try done.
  set (p := mk_pattern "POST" (s :: segs) false).
  assert (matches p m (x :: path) = String.eqb m "POST") as Hp.
  { assert (method_matches "POST" m = String.eqb m "POST") as <-
      by (rewrite (String.eqb_sym m); unfold method_matches; by destruct (String.eqb "POST" m)).
    unfold matches. subst p. cbn [pt_method pt_segs pt_multi]. by rewrite Hs, andb_true_r. }
  unfold route. cbn [List.find forallb fst root_route].
  assert (matches (parse_pattern "/") m (x :: path) = true) as -> by done.
  assert (covers (parse_pattern "/") p = true) as -> by done.
  assert (covers p (parse_pattern "/") = false) as -> by done.
  rewrite Hp, !covers_refl. by destruct (String.eqb m "POST").
Qed.

(** ** Lemmas: writers *)

(** Whether a handler sends anything itself. *)
Definition sends (acts : list action) : bool :=
  existsb (λ a, match a with ASet _ _ => false | _ => true end) acts.

Lemma write_out_sent hdr sent body acts k v :
  is_Some sent ∨ sends acts = true →
  write_out hdr sent body (acts ++ [ASet k v]) = write_out hdr sent body acts.
Proof.
  revert hdr sent body. induction acts as [|[k' v'|c|b] acts IH]; intros hdr sent body Hs; simpl.
  - destruct Hs as [[[code h] ->]|Hs]; done.
  - apply IH. destruct Hs; [by left|by right].
  - apply IH. left. by eexists.
  - apply IH. left. by eexists.
Qed.

(** Headers set before the handler runs stay unless it sets them itself. *)
Lemma write_out_keeps hdr sent body acts k v :
  (∀ v', ASet k v' ∉ acts) → hdr !! k = v → (∀ code h, sent = Some (code, h) → h !! k = v) →
  wr_headers (write_out hdr sent body acts) !! k = v.
Proof.
  revert hdr sent body. induction acts as [|a acts IH]; intros hdr sent body Hno Hk Hs.
  - simpl. destruct sent as [[code h]|]; simpl; [by eapply Hs|done].
  - assert (∀ v', ASet k v' ∉ acts) as Hno' by (intros v' Hin; apply (Hno v'); by right).
    destruct a as [k' v'|c|b]; simpl.
    + assert (k' ≠ k) as Hne by (intros ->; apply (Hno v'); by left).
      apply IH; [done| |done]. by rewrite lookup_insert_ne.
    + apply IH; [done..|]. intros code h [= Hc]. destruct sent as [[]|]; simpl in Hc; [by eapply Hs; f_equal|congruence].
    + apply IH; [done..|]. intros code h [= Hc]. destruct sent as [[]|]; simpl in Hc; [by eapply Hs; f_equal|congruence].
Qed.

(** ** Properties *)

(** The routes are unambiguous: registering them does not panic, and
    every request is taken by exactly one most specific pattern, whose
    handler runs; every other pattern that takes the request covers it and is
    not covered by it. *)
Theorem routes_most_specific m x rest :
  registers routes = true ∧
  ∃ i e, most_specific routes m (x :: rest) i e ∧ route routes m (x :: rest) = Some e.
Proof.
  assert (registers routes = true) as Hr by by vm_compute. split; [done|].
  destruct (registered_minimum routes m (x :: rest) Hr) as [(i & e & He)|Hnone].
  - exists i, e. split; [done|]. by eapply route_minimum.
  - assert ((parse_pattern "/", "handleRoot") ∈ routes) as Hroot by (left).
    specialize (Hnone _ Hroot). done.
Qed.

(** Three requests the documents describe have no route: the search of the
    agent's audit log, the proxied pull of a model and the scan of the seeds
    by [GET].  Like every other path without a route they get the root
    handler's 404. *)
Theorem documented_routes_missing html :
  mux "GET" "/api/agent/audit" = Some "handleRoot" ∧ mux "POST" "/api/models/pull-proxy" = Some "handleRoot" ∧
  mux "GET" "/api/peers/scan" = Some "handleRoot" ∧ mux "POST" "/api/peers/scan" = Some "handlePeerScan" ∧
  ∀ path, path ≠ "/" → wr_code (write_out ∅ None "" (handleRoot html path)) = StatusNotFound.
Proof.
  split_and!; [by vm_compute..|]. intros path Hp. unfold handleRoot.
  by rewrite (proj2 (String.eqb_neq _ _) Hp).
Qed.

(** The checks of the method in the handlers of [POST] routes never
    fail: a request with another method goes to the root handler, which
    answers 404 and not the 405 those handlers would give. *)
Theorem wrong_method_is_404 m html :
  let post := λ path h, mux m path = Some (if String.eqb m "POST" then h else "handleRoot") in
  post "/api/logs/clear" "handleLogsClear" ∧ post "/api/clients/register" "handleClientRegister" ∧
  post "/api/clients/unregister" "handleClientUnregister" ∧ post "/api/peers/register" "handlePeerRegister" ∧
  post "/api/peers/introduce" "handlePeerIntroduce" ∧
  ∀ path, path ≠ "/" → wr_code (write_out ∅ None "" (handleRoot html path)) = StatusNotFound.
Proof.
  intros post.
  assert (∀ path h, List.filter (on_path (segments path)) routes = [root_route; (parse_pattern ("POST " +:+ path), h)] →
            below_root (parse_pattern ("POST " +:+ path)) (segments path) = true → post path h) as Hpost.
  { intros path h Hf Hb. unfold post, mux. rewrite route_on_path, Hf, route_below_root by done.
    by destruct (String.eqb m "POST"). }
  split_and!; try by (apply Hpost; vm_compute).
  intros path Hp. unfold handleRoot. by rewrite (proj2 (String.eqb_neq _ _) Hp).
Qed.

Definition allow_origin (w : wire) : option string := wr_headers w !! "Access-Control-Allow-Origin".


(** ** Witnesses *)

Definition example_answer : list action :=
  [ASet "Content-Type" "application/json"; AHeader StatusOK; AWrite "{}"].


Example routing :
  mux "GET" "/api/jobs/stream" = Some "handleJobStream" ∧ mux "GET" "/api/jobs/7" = Some "handleJobGet" ∧
  mux "HEAD" "/api/jobs/7" = Some "handleJobGet" ∧ mux "POST" "/api/agent/search" = Some "handleRoot" ∧
  mux "GET" "/static/app.js" = Some "handleRoot".
Proof. by vm_compute. Qed.
