(* ===== verification/ProxyServer.v ===== *)
(** * The proxy server as a whole ([main.go], [internal/api/handlers.go],
      [internal/cluster/manager.go])

    The routes [main] registers, the handlers behind them put together into
    the one handler [main] serves, the event stream of the dashboard, the
    forwarding [ProxyToNode] that no route reaches, and the end of the
    process. *)

From S2P Require Import Prelude GoFloat GoText GoHttp GoSort ReqQueue Cluster Balancer Proxy Api Server.

Local Open Scope string_scope.
Local Open Scope list_scope.
Local Open Scope Z_scope.

(** ** Routes *)

Inductive handler :=
  | HandleDashboard | HandleSSE | HandleAPIClusterStatus | HandleAPINodes | HandleAPIQueue | HandleAPIHistory
  | HandleAPIActive | HandleAPIStrategy | HandleAPICancel | HandleAPIModels
  | HandleRegister | HandleHeartbeat | HandleDeregister | HandleOllama.

Definition proxy_patterns : list (string * handler) := [
  ("/", HandleDashboard);
  ("/api/sse", HandleSSE);
  ("/api/status", HandleAPIClusterStatus);
  ("/api/nodes", HandleAPINodes);
  ("/api/queue", HandleAPIQueue);
  ("/api/history", HandleAPIHistory);
  ("/api/active", HandleAPIActive);
  ("/api/strategy", HandleAPIStrategy);
  ("/api/cancel", HandleAPICancel);
  ("/api/models", HandleAPIModels);
  ("/register", HandleRegister);
  ("/heartbeat", HandleHeartbeat);
  ("/deregister", HandleDeregister);
  ("/api/generate", HandleOllama);
  ("/api/chat", HandleOllama);
  ("/api/tags", HandleOllama);
  ("/api/pull", HandleOllama);
  ("/api/ps", HandleOllama)].

Definition proxy_routes : list (pattern * handler) := (λ '(text, h), (parse_pattern text, h)) <$> proxy_patterns.

Definition proxy_mux (m path : string) : option handler := snd <$> route proxy_routes m (segments path).

(** ** The event stream *)

(** [HandleSSE]: the event made at each tick, with the outcome of its write
    (the bytes written and the error), until a write fails or the client
    leaves; the events sent and flushed. *)
Fixpoint sse_loop (ticks : list (json * (Z * option string))) : list json :=
  match ticks with
  | [] => []
  | (data, (n, err)) :: ticks =>
      match err with
      | Some _ => []
      | None => if n =? 0 then [] else data :: sse_loop ticks
      end
  end.

Definition HandleSSE_stream (flusher : bool) (ticks : list (json * (Z * option string))) : response + list json :=
  if negb flusher then inl (http_Error "streaming not supported" StatusInternalServerError)
  else inr (sse_loop ticks).

(** ** [ProxyToNode] *)

Record outgoing := mk_outgoing {
  og_method : string; og_url : string; og_headers : gmap string (list string) }.

(** The request for the node, with two headers of its own. *)
Definition node_request (node : Node) (meth path remoteAddr : string) (headers : gmap string (list string)) :
    outgoing :=
  mk_outgoing meth ("http://" +:+ Address node +:+ ":" +:+ fmt_d (Port node) +:+ path)
    (<["X-Hive-Node-Id" := [Cluster.ID node]]> (<["X-Forwarded-For" := [remoteAddr]]> headers)).

(** What reaches the client, or the error: the reply's headers are added to
    those already set, then its status and its body follow. *)
Definition ProxyToNode (NewRequest_error : string → option string) (do : outgoing → result (Z * gmap string (list string) * string))
    (node : Node) (meth path remoteAddr : string) (headers set : gmap string (list string)) :
    result (Z * gmap string (list string) * string) :=
  let req := node_request node meth path remoteAddr headers in
  match NewRequest_error (og_url req) with
  | Some e => Err e
  | None =>
      match do req with
      | Err e => Err e
      | Ok (code, hs, body) => Ok (code, union_with (λ a b, Some (a ++ b)) set hs, body)
      end
  end.

(** ** A request *)

(** Everything a handler meets: the request's method and path, its decoded
    body for the handler that decodes it, the readings of clocks and maps, the
    replies of the nodes and of the local Ollama, and what [ServeFile] and
    the stream answer. *)
Record inference := mk_inference {
  if_body : result string;
  if_parsed : result (gmap string json);
  if_addr : nat;
  if_flusher : bool;
  if_sel : selection;
  if_upstream : upstream;
  if_now1 : Time; if_now2 : Time; if_now3 : Time; if_now4 : Time; if_now5 : Time }.

Record call := mk_call {
  c_method : string;
  c_path : string;
  c_register : result RegistrationPayload;
  c_heartbeat : result HeartbeatPayload;
  c_text : result string;
  c_inference : inference;
  c_local : upstream;
  c_view : inputs;
  c_models : list string;
  c_now : Time;
  c_now' : Time;
  c_served : response }.

Section server.
Context `{GS : GoSort}.
Variable time_json : Time → json.
Variable request_json : Request → json.

(** [HandleOllama]. *)
Definition ollama (s : Proxy) (c : call) : panics (Proxy * response) :=
  let i := c_inference c in
  if is_inference (c_path c) then
    handleInference s (if_body i) (if_parsed i) (if_addr i) (if_flusher i) (if_sel i) (if_upstream i)
      (if_now1 i) (if_now2 i) (if_now3 i) (if_now4 i) (if_now5 i)
  else Some (s, proxyLocal (c_local c)).

Definition on_cluster (s : Proxy) (r : Manager * response) : Proxy * response := (set_cluster r.1 s, r.2).

Definition call_handler (h : handler) (s : Proxy) (c : call) : panics (Proxy * response) :=
  match h with
  | HandleDashboard | HandleSSE => Some (s, c_served c)
  | HandleAPIClusterStatus =>
      Some (s, Api.HandleAPIClusterStatus time_json s (c_view c) (c_models c) (c_now c))
  | HandleAPINodes => Some (s, Api.HandleAPINodes time_json (in_ord (c_view c)))
  | HandleAPIQueue => Some (s, Api.HandleAPIQueue request_json s)
  | HandleAPIHistory => r ← Api.HandleAPIHistory request_json s; Some (s, r)
  | HandleAPIActive => Some (s, Api.HandleAPIActive request_json s (in_active (c_view c)))
  | HandleAPIStrategy => Some (Api.HandleAPIStrategy s (c_method c) (c_text c))
  | HandleAPICancel => Some (Api.HandleAPICancel s (c_text c))
  | HandleAPIModels => Some (s, Api.HandleAPIModels s (c_view c))
  | HandleRegister =>
      Some (on_cluster s (Cluster.HandleRegister (cluster s) (c_method c) (c_register c) (c_now c) (c_now' c)))
  | HandleHeartbeat =>
      Some (on_cluster s (Cluster.HandleHeartbeat (cluster s) (c_method c) (c_heartbeat c) (c_now c)))
  | HandleDeregister =>
      Some (on_cluster s (Cluster.HandleDeregister (cluster s) (c_method c) (c_text c)))
  | HandleOllama => ollama s c
  end.

(** What [main] serves: the CORS wrapper around the multiplexer. *)
Definition serve_proxy (s : Proxy) (c : call) : panics (Proxy * response) :=
  if String.eqb (c_method c) "OPTIONS" then Some (s, Api.corsMiddleware (c_method c) (c_served c))
  else match proxy_mux (c_method c) (c_path c) with
       | Some h => '(s, r) ← call_handler h s c; Some (s, Api.corsMiddleware (c_method c) r)
       | None => Some (s, http_Error "404 page not found" StatusNotFound)
       end.

End server.

(** ** Lemmas: routes without methods and wildcards *)

Definition literal {H} (e : list string * H) : pattern * H := (mk_pattern "" (Lit <$> e.1) false, e.2).

Lemma segs_match_literal ls path : segs_match false (Lit <$> ls) path = bool_decide (path = ls).
Proof.
  revert path. induction ls as [|l ls IH]; intros [|x path]; [done..|]. simpl. rewrite IH.
  destruct (String.eqb_spec l x) as [->|Hne]; simpl.
  - apply bool_decide_ext. split; [by intros ->|by intros [= ->]].
  - symmetry. apply bool_decide_eq_false. by intros [= <-].
Qed.

(** A table of such routes below the root: the one of exactly the path, or
    the root's. *)
Lemma route_literals {H} (root : H) (table : list (list string * H)) m path :
  path ≠ [] → NoDup table.*1 →
  snd <$> route ((mk_pattern "" [] true, root) :: (literal <$> table)) m path =
  Some (match List.find (λ e, bool_decide (path = e.1)) table with Some e => e.2 | None => root end).
Proof.
  intros Hp Hnd. rewrite route_on_path.
  assert (List.filter (on_path path) (literal <$> table) =
          literal <$> option_list (List.find (λ e, bool_decide (path = e.1)) table)) as Hf.
  { induction table as [|[ls h] table IH]; [done|]. rewrite fmap_cons in Hnd. apply NoDup_cons in Hnd as [Hni Hnd].
    rewrite fmap_cons. cbn [List.find List.filter]. unfold on_path at 1. cbn [literal fst snd pt_multi pt_segs].
    rewrite segs_match_literal. destruct (bool_decide_reflect (path = ls)) as [->|Hne]; [|by apply IH].
    rewrite (IH Hnd). destruct (List.find _ table) as [[ls' h']|] eqn:Hfind; [|done].
    apply List.find_some in Hfind as [Hin Heq]. apply bool_decide_eq_true in Heq. simpl in Heq. subst ls'.
    destruct Hni. apply list_elem_of_In in Hin. by apply (list_elem_of_fmap_2 fst _ (ls, h')). }
  cbn [List.filter]. destruct path as [|x path]; [done|]. cbn [on_path fst pt_multi pt_segs segs_match].
  rewrite Hf. destruct (List.find _ table) as [[ls h]|] eqn:Hfind; [|done].
  apply List.find_some in Hfind as [_ Heq]. apply bool_decide_eq_true in Heq. simpl in Heq. subst ls.
  set (root_e := (mk_pattern "" [] true, root)). set (e := literal (x :: path, h)).
  assert (matches root_e.1 m (x :: path) = true) as Hroot by done.
  assert (matches e.1 m (x :: path) = true) as Hm.
  { unfold matches, e. cbn [literal fst pt_method pt_segs pt_multi]. rewrite segs_match_literal. by rewrite bool_decide_true. }
  assert (covers root_e.1 e.1 = true) as Hc by done. assert (covers e.1 root_e.1 = false) as Hc' by done.
  unfold route. change (literal <$> option_list (Some (x :: path, h))) with [e]. cbn [List.find forallb].
  by rewrite Hroot, Hm, Hc, Hc', !covers_refl.
Qed.

Definition proxy_table : list (list string * handler) := (λ e, (segments e.1, e.2)) <$> tail proxy_patterns.

(** The handler of the route whose path is exactly this one; every other
    path is the dashboard's. *)
Definition exact_handler (path : string) : handler :=
  match List.find (λ e, bool_decide (segments path = e.1)) proxy_table with
  | Some e => e.2
  | None => HandleDashboard
  end.

Lemma proxy_mux_exact m path : segments path ≠ [] → proxy_mux m path = Some (exact_handler path).
Proof.
  intros Hp. unfold proxy_mux, exact_handler.
  assert (proxy_routes = (mk_pattern "" [] true, HandleDashboard) :: (literal <$> proxy_table)) as ->
    by by vm_compute.
  apply route_literals; [done|]. by apply (bool_decide_eq_true_1 _); vm_compute.
Qed.

(** ** Lemmas: a handler as a run of the interleaving *)

Definition request_id (now1 now2 : Time) : string := fmt_d (UnixNano now1) +:+ "-" +:+ fmt_d (randInt now2).

(** The address and the id of the request a call may make are new. *)
Definition fresh_call (S : sys) (c : call) : Prop :=
  let i := c_inference c in
  hp (st S) !! if_addr i = None ∧
  ∀ q ph, inflight S !! q = Some ph → ReqQueue.ID (deref (hp (st S)) q) ≠ request_id (if_now1 i) (if_now2 i).

Section refinement.
Context `{GS : GoSort}.
Implicit Types (S : sys) (c : call).

Lemma admitted_ID s body parsed p now1 now2 now3 s' r :
  enqueue_request s body parsed p now1 now2 now3 = (s', inr r) →
  ReqQueue.ID (deref (hp s') p) = request_id now1 now2.
Proof.
  intros He. destruct r as [model stream].
  destruct (admit_accepted _ _ _ _ _ _ _ _ _ _ He) as (_ & _ & _ & _ & _ & _ & Hlen & _).
  destruct body as [b|]; [|done]. destruct parsed as [m|]; [|done].
  destruct (admit_ok s b m p now1 now2 now3 Hlen) as (s1 & He1 & _ & _ & _ & _ & _ & HID).
  rewrite He in He1. injection He1 as <- _ _. exact HID.
Qed.

Lemma handleInference_steps S body parsed p flusher sel u now1 now2 now3 now4 now5 s' resp :
  inv S → hp (st S) !! p = None →
  (∀ q ph, inflight S !! q = Some ph → ReqQueue.ID (deref (hp (st S)) q) ≠ request_id now1 now2) →
  handleInference (st S) body parsed p flusher sel u now1 now2 now3 now4 now5 = Some (s', resp) →
  ∃ ls, steps ls S (mk_sys s' (inflight S)).
Proof.
  intros HI Hp Hid. unfold handleInference.
  assert (inflight S !! p = None) as Hnone.
  { destruct (inflight S !! p) as [ph|] eqn:Hf; [|done]. destruct (inv_alloc _ HI _ _ Hf). congruence. }
  destruct (enqueue_request _ _ _ _ _ _ _) as [s1 [resp1|[model stream]]] eqn:He.
  { intros [= <- <-]. exists [LRefuse]. eapply steps_cons; [by eapply step_refuse|constructor]. }
  set (S1 := mk_sys s1 (<[p := Queued model stream]> (inflight S))).
  assert (step LAdmit S S1) as H1.
  { eapply step_admit; [done|exact He|]. intros q ph Hq.
    destruct (admit_accepted _ _ _ _ _ _ _ _ _ _ He) as (_ & _ & _ & _ & _ & _ & _ & _ & _ & Hsame).
    rewrite (admitted_ID _ _ _ _ _ _ _ _ _ He).
    assert (p ≠ q) as Hpq by (intros ->; congruence).
    unfold deref. rewrite (Hsame q Hpq). by apply (Hid q ph). }
  assert (inflight S1 !! p = Some (Queued model stream)) as Hq1 by apply lookup_insert_eq.
  unfold handleResponse. destruct (dispatch s1 p model sel now4) as [[s2 [resp2|n]]|] eqn:Hd; simpl; [| |done].
  - intros [= <- <-]. exists [LAdmit; LNoNode]. eapply steps_cons; [exact H1|].
    eapply steps_cons; [|constructor]. rewrite <-(delete_insert_id (inflight S) p (Queued model stream) Hnone).
    by apply (step_no_node S1 p model stream sel now4 s2 resp2).
  - destruct (exchange stream flusher u) as [f resp3] eqn:Hx.
    destruct (finish (write p f s2) p now5) as [s3|] eqn:Hf; simpl; [|done]. intros [= <- <-].
    set (S2 := mk_sys s2 (<[p := Running n stream]> (inflight S1))).
    exists [LAdmit; LStart; LFinish]. eapply steps_cons; [exact H1|]. eapply (steps_cons _ _ _ S2).
    { by eapply step_start. }
    eapply steps_cons; [|constructor].
    assert (inflight S = delete p (inflight S2)) as ->.
    { simpl. by rewrite insert_insert_eq, delete_insert_id. }
    eapply (step_finish S2 p n stream flusher u now5); [apply lookup_insert_eq|]. by rewrite Hx.
Qed.

Lemma one_step l S S' : step l S S' → ∃ ls, steps ls S S'.
Proof. intros Hs. exists [l]. eapply steps_cons; [exact Hs|constructor]. Qed.

Lemma no_step S : ∃ ls, steps ls S (mk_sys (st S) (inflight S)).
Proof. exists []. destruct S. constructor. Qed.

Lemma same_cluster s : set_cluster (cluster s) s = s.
Proof. by destruct s. Qed.

(** The membership handlers are events of the cluster, or refuse. *)
Lemma on_cluster_steps S (r : Manager * response) :
  (r.1 = cluster (st S) ∨ ∃ e, r.1 = apply_event (cluster (st S)) e) →
  ∃ ls, steps ls S (mk_sys (on_cluster (st S) r).1 (inflight S)).
Proof.
  unfold on_cluster. simpl. intros [->|[e ->]].
  - rewrite same_cluster. apply no_step.
  - eapply one_step, step_cluster.
Qed.

Lemma register_event m meth body now1 now2 :
  let r := Cluster.HandleRegister m meth body now1 now2 in r.1 = m ∨ ∃ e, r.1 = apply_event m e.
Proof.
  simpl. unfold Cluster.HandleRegister at 1 2. destruct (String.eqb_spec meth "POST") as [->|]; simpl; [|by left].
  destruct body as [reg|]; [|by left].
  right. exists (ERegister reg now1 now2). done.
Qed.

Lemma heartbeat_event m meth body now :
  let r := Cluster.HandleHeartbeat m meth body now in r.1 = m ∨ ∃ e, r.1 = apply_event m e.
Proof.
  simpl. destruct body as [hb|]; destruct (String.eqb_spec meth "POST") as [->|Hne].
  - right. by exists (EHeartbeat hb now).
  - left. unfold Cluster.HandleHeartbeat. by rewrite (proj2 (String.eqb_neq _ _) Hne).
  - left. done.
  - left. unfold Cluster.HandleHeartbeat. by rewrite (proj2 (String.eqb_neq _ _) Hne).
Qed.

Lemma deregister_event m meth body :
  let r := Cluster.HandleDeregister m meth body in r.1 = m ∨ ∃ e, r.1 = apply_event m e.
Proof.
  simpl. unfold Cluster.HandleDeregister at 1 2. destruct (String.eqb_spec meth "POST") as [->|]; simpl; [|by left].
  destruct body as [i|]; [|by left]. right. by exists (EDeregister i).
Qed.

Lemma strategy_steps S meth payload :
  ∃ ls, steps ls S (mk_sys (Api.HandleAPIStrategy (st S) meth payload).1 (inflight S)).
Proof.
  unfold Api.HandleAPIStrategy. destruct (String.eqb meth "POST"), payload as [str|]; simpl; try apply no_step.
  eapply one_step, step_strategy.
Qed.

Lemma call_handler_steps (tj : Time → json) (rj : Request → json) h S c s' resp :
  inv S → fresh_call S c → call_handler tj rj h (st S) c = Some (s', resp) →
  ∃ ls, steps ls S (mk_sys s' (inflight S)).
Proof.
  intros HI [Hp Hid]. unfold call_handler, ollama. destruct h;
    try (intros [= <- _]; apply no_step).
  - destruct (Api.HandleAPIHistory rj (st S)); simpl; [|done]. intros [= <- _]. apply no_step.
  - pose proof (strategy_steps S (c_method c) (c_text c)) as Hs. intros [= Heq]. by rewrite Heq in Hs.
  - intros [= Heq]. eapply one_step. by apply (step_cancel S (c_text c) s' resp).
  - pose proof (on_cluster_steps S _ (register_event (cluster (st S)) (c_method c) (c_register c) (c_now c) (c_now' c))) as Hs.
    intros [= <- _]. exact Hs.
  - pose proof (on_cluster_steps S _ (heartbeat_event (cluster (st S)) (c_method c) (c_heartbeat c) (c_now c))) as Hs.
    intros [= <- _]. exact Hs.
  - pose proof (on_cluster_steps S _ (deregister_event (cluster (st S)) (c_method c) (c_text c))) as Hs.
    intros [= <- _]. exact Hs.
  - destruct (is_inference (c_path c)); [|intros [= <- _]; apply no_step].
    by apply handleInference_steps.
Qed.

(** C3: The one handler [main] serves refines the interleaving: what a request
    with any method and path does, run alone to its end, is a run of steps of
    [Proxy] that leaves no request in flight behind, so every property of
    those runs is one of the server.  The route decides which: an [OPTIONS]
    request changes nothing, and neither does any path outside the table,
    which gets the dashboard page, not an error. *)
Theorem serve_proxy_refines (tj : Time → json) (rj : Request → json) S c s' resp :
  inv S → fresh_call S c → serve_proxy tj rj (st S) c = Some (s', resp) →
  (∃ ls, steps ls S (mk_sys s' (inflight S))) ∧ inv (mk_sys s' (inflight S)) ∧
  (c_method c = "OPTIONS" → s' = st S ∧ rs_code resp = StatusNoContent) ∧
  (c_method c ≠ "OPTIONS" → segments (c_path c) ≠ [] → (∀ e, e ∈ proxy_table → e.1 ≠ segments (c_path c)) →
     s' = st S ∧ resp = c_served c).
Proof.
  intros HI Hfresh Hs.
  assert (∃ ls, steps ls S (mk_sys s' (inflight S))) as Hsteps.
  { unfold serve_proxy in Hs. destruct (String.eqb (c_method c) "OPTIONS"); [injection Hs as <- _; apply no_step|].
    destruct (proxy_mux (c_method c) (c_path c)) as [h|]; [|injection Hs as <- _; apply no_step].
    destruct (call_handler tj rj h (st S) c) as [[s1 r1]|] eqn:Hc; simpl in Hs; [|done].
    injection Hs as <- _. by eapply call_handler_steps. }
  split; [done|]. split; [destruct Hsteps as [ls Hls]; by eapply proxy_steps_inv|]. split.
  - intros Ho. unfold serve_proxy in Hs. rewrite Ho in Hs. simpl in Hs. by injection Hs as <- <-.
  - intros Ho Hseg Hnone. unfold serve_proxy in Hs. rewrite (proj2 (String.eqb_neq _ _) Ho) in Hs.
    rewrite proxy_mux_exact in Hs by done. unfold exact_handler in Hs.
    destruct (List.find _ proxy_table) as [e|] eqn:Hf.
    { apply List.find_some in Hf as [Hin He]. apply bool_decide_eq_true in He. apply list_elem_of_In in Hin.
      by destruct (Hnone e Hin). }
    simpl in Hs. unfold Api.corsMiddleware in Hs. rewrite (proj2 (String.eqb_neq _ _) Ho) in Hs.
    by injection Hs as <- <-.
Qed.

End refinement.

(** ** Witness *)

Definition example_inference : inference :=
  mk_inference (Ok "{}") (Ok ∅) 1%nat true example_sel example_reply unix_epoch unix_epoch unix_epoch unix_epoch unix_epoch.
Definition example_call (meth path : string) : call :=
  mk_call meth path (Err "") (Err "") (Err "") example_inference example_reply (mk_inputs [] [] (λ _, 0) []) []
    0 0 (mk_response StatusOK (BText "<html>")).

Lemma serve_proxy_refines_witness :
  ∃ s' resp ls, serve_proxy (λ _, JNull) (λ _, JNull) (st example_S0) (example_call "POST" "/api/generate") = Some (s', resp) ∧
    rs_code resp = 200 ∧ steps ls example_S0 (mk_sys s' (inflight example_S0)).
Proof.
  destruct (serve_proxy (λ _, JNull) (λ _, JNull) (st example_S0) (example_call "POST" "/api/generate"))
    as [[s' resp]|] eqn:Hs; [|vm_compute in Hs; discriminate Hs].
  exists s', resp.
  destruct (serve_proxy_refines (λ _, JNull) (λ _, JNull) example_S0 (example_call "POST" "/api/generate") s' resp)
    as [[ls Hls] _].
  - apply proxy_initial_inv, proxy_example_initial.
  - split; [reflexivity|]. intros q ph Hq. by apply (lookup_empty_Some q ph) in Hq.
  - exact Hs.
  - exists ls. split; [done|]. split; [|exact Hls]. vm_compute in Hs. by injection Hs as _ <-.
Defined.
