(* ===== verification/Prometheus.v ===== *)
(** * The Prometheus metrics ([hive-server-go/metrics_prometheus.go])

    The manager registers its metrics once and updates them by label values.
    The client library is the class [PromLib]; its documented rules (a name is
    registered once, a metric is updated with as many label values as it has
    labels, a counter never goes down) are [PromLaws], and breaking one of
    them is a panic. *)

From S2P Require Import Prelude GoFloat GoFloatSign GoText GoHttp PrioQueue ModelRegistry.

Local Open Scope string_scope.
Local Open Scope list_scope.
Local Open Scope Z_scope.

(** ** The client library *)

Inductive metric_kind := Counter | Gauge | Histogram.

(** [buckets] are the arguments of [ExponentialBuckets]. *)
Record metric := mk_metric {
  mt_name : string;
  mt_kind : metric_kind;
  mt_labels : list string;
  mt_buckets : option (f64 * f64 * Z) }.

Inductive update :=
  | Inc
  | Add (v : f64)
  | SetTo (v : f64)
  | Observe (v : f64).

(** Registering a metric ([promauto]) and updating the child of a metric with
    some label values; [None] is a panic. *)
Class PromLib := {
  registry : Type;
  known : registry → list metric;
  valid_value : string → bool;
  promauto_New : metric → registry → option registry;
  with_labels : metric → list string → update → registry → option registry }.

(** Which updates a metric has: those of its Go type, and a counter does not
    take a negative amount. *)
Definition takes (k : metric_kind) (u : update) : bool :=
  match k, u with
  | Counter, Inc => true
  | Counter, Add v => negb (f64_ltb v f64_zero)
  | Gauge, SetTo _ => true
  | Histogram, Observe _ => true
  | _, _ => false
  end.

Fixpoint is_ascii (s : string) : bool :=
  match s with "" => true | String c s => (nat_of_ascii c <? 128)%nat && is_ascii s end.

Class PromLaws (L : PromLib) := {
  ascii_valid s : is_ascii s = true → valid_value s = true;
  new_ok m r : mt_name m ∉ mt_name <$> known r → NoDup (mt_labels m) →
    ∃ r', promauto_New m r = Some r' ∧ known r' = m :: known r;
  update_ok m vals u r : m ∈ known r → length vals = length (mt_labels m) →
    forallb valid_value vals = true → takes (mt_kind m) u = true →
    ∃ r', with_labels m vals u r = Some r' ∧ known r' = known r }.

(** ** The metrics *)

Definition requestsTotal : metric := mk_metric "hive_requests_total" Counter
  ["model"; "provider"; "status"; "priority"; "routing_decision"] None.
Definition requestDuration : metric := mk_metric "hive_request_duration_seconds" Histogram
  ["model"; "provider"; "job_type"; "priority"] (Some (f64_lit 1 10, f64_of_Z 2, 10)).
Definition requestSize : metric := mk_metric "hive_request_size_bytes" Histogram ["job_type"]
  (Some (f64_of_Z 100, f64_of_Z 2, 10)).
Definition responseSize : metric := mk_metric "hive_response_size_bytes" Histogram ["model"; "job_type"]
  (Some (f64_of_Z 100, f64_of_Z 2, 12)).
Definition modelLoadsTotal : metric := mk_metric "hive_model_loads_total" Counter
  ["model"; "provider"; "node_id"; "status"] None.
Definition modelsLoaded : metric := mk_metric "hive_models_loaded" Gauge ["node_id"; "provider"] None.
Definition modelLatency : metric := mk_metric "hive_model_inference_latency_seconds" Histogram
  ["model"; "provider"; "context_length"] (Some (f64_lit 1 2, f64_of_Z 2, 10)).
Definition modelSwitchesTotal : metric := mk_metric "hive_model_switches_total" Counter [] None.
Definition queueDepth : metric := mk_metric "hive_queue_depth" Gauge ["priority"] None.
Definition queueEnqueueTotal : metric := mk_metric "hive_queue_enqueue_total" Counter ["priority"; "job_type"] None.
Definition queueDequeueTotal : metric := mk_metric "hive_queue_dequeue_total" Counter ["priority"; "job_type"] None.
Definition queueWaitTime : metric := mk_metric "hive_queue_wait_time_seconds" Histogram ["priority"]
  (Some (f64_of_Z 1, f64_of_Z 2, 10)).
Definition peerLatency : metric := mk_metric "hive_peer_latency_seconds" Histogram ["peer_id"; "operation"]
  (Some (f64_lit 1 100, f64_of_Z 2, 10)).
Definition peerRequestsTotal : metric := mk_metric "hive_peer_requests_total" Counter ["peer_id"; "status"] None.
Definition peerFailuresTotal : metric := mk_metric "hive_peer_failures_total" Counter ["peer_id"; "error_type"] None.
Definition cacheHitsTotal : metric := mk_metric "hive_cache_hits_total" Counter [] None.
Definition cacheMissesTotal : metric := mk_metric "hive_cache_misses_total" Counter [] None.
Definition cacheSize : metric := mk_metric "hive_cache_size" Gauge [] None.
Definition cacheEvictionsTotal : metric := mk_metric "hive_cache_evictions_total" Counter [] None.
Definition circuitBreakerState : metric := mk_metric "hive_circuit_breaker_state" Gauge ["provider"; "endpoint"] None.
Definition circuitBreakerTrips : metric := mk_metric "hive_circuit_breaker_trips_total" Counter
  ["provider"; "endpoint"] None.
Definition tokensGenerated : metric := mk_metric "hive_tokens_generated_total" Counter ["model"; "provider"] None.
Definition tokensPerSecond : metric := mk_metric "hive_tokens_per_second" Gauge ["model"; "provider"] None.
Definition vramUsageBytes : metric := mk_metric "hive_vram_usage_bytes" Gauge ["provider"; "device"] None.
Definition gpuUtilization : metric := mk_metric "hive_gpu_utilization" Gauge ["provider"; "device"] None.

(** In the order [NewMetricsManager] registers them. *)
Definition all_metrics : list metric := [
  requestsTotal; requestDuration; requestSize; responseSize; modelLoadsTotal; modelsLoaded; modelLatency;
  modelSwitchesTotal; queueDepth; queueEnqueueTotal; queueDequeueTotal; queueWaitTime; peerLatency;
  peerRequestsTotal; peerFailuresTotal; cacheHitsTotal; cacheMissesTotal; cacheSize; cacheEvictionsTotal;
  circuitBreakerState; circuitBreakerTrips; tokensGenerated; tokensPerSecond; vramUsageBytes; gpuUtilization].

Section manager.
Context `{L : PromLib}.
Implicit Types r : registry.

Fixpoint register_all (ms : list metric) (r : registry) : panics registry :=
  match ms with [] => Some r | m :: ms => r ← promauto_New m r; register_all ms r end.

Definition NewMetricsManager (r : registry) : panics registry := register_all all_metrics r.

Definition RecordRequest (model provider status priority routing : string) (duration : Duration) r :
    panics registry :=
  r ← with_labels requestsTotal [model; provider; status; priority; routing] Inc r;
  with_labels requestDuration [model; provider; "chat"; priority] (Observe (Seconds duration)) r.

Definition RecordModelLoad (model provider nodeID status : string) r : panics registry :=
  with_labels modelLoadsTotal [model; provider; nodeID; status] Inc r.

Definition UpdateModelsLoaded (nodeID provider : string) (count : Z) r : panics registry :=
  with_labels modelsLoaded [nodeID; provider] (SetTo (f64_of_Z count)) r.

Definition RecordQueueEnqueue (priority : Z) (jobType : string) (waitTime : Duration) r : panics registry :=
  r ← with_labels queueEnqueueTotal [JobPriority_String priority; jobType] Inc r;
  with_labels queueWaitTime [JobPriority_String priority] (Observe (Seconds waitTime)) r.

Definition RecordQueueDequeue (priority : Z) (jobType : string) r : panics registry :=
  with_labels queueDequeueTotal [JobPriority_String priority; jobType] Inc r.

Definition UpdateQueueDepth (priority depth : Z) r : panics registry :=
  with_labels queueDepth [JobPriority_String priority] (SetTo (f64_of_Z depth)) r.

Definition RecordPeerRequest (peerID status : string) (latency : Duration) r : panics registry :=
  r ← with_labels peerRequestsTotal [peerID; status] Inc r;
  with_labels peerLatency [peerID; "forward"] (Observe (Seconds latency)) r.

Definition RecordPeerFailure (peerID errorType : string) r : panics registry :=
  with_labels peerFailuresTotal [peerID; errorType] Inc r.

Definition RecordCacheHit r : panics registry := with_labels cacheHitsTotal [] Inc r.
Definition RecordCacheMiss r : panics registry := with_labels cacheMissesTotal [] Inc r.
Definition UpdateCacheSize (size : Z) r : panics registry := with_labels cacheSize [] (SetTo (f64_of_Z size)) r.
Definition RecordCacheEviction r : panics registry := with_labels cacheEvictionsTotal [] Inc r.

Definition UpdateCircuitBreakerState (provider endpoint : string) (state : Z) r : panics registry :=
  with_labels circuitBreakerState [provider; endpoint] (SetTo (f64_of_Z state)) r.

Definition RecordCircuitBreakerTrip (provider endpoint : string) r : panics registry :=
  with_labels circuitBreakerTrips [provider; endpoint] Inc r.

Definition RecordTokensGenerated (model provider : string) (count : Z) r : panics registry :=
  with_labels tokensGenerated [model; provider] (Add (f64_of_Z count)) r.

Definition UpdateTokensPerSecond (model provider : string) (tps : f64) r : panics registry :=
  with_labels tokensPerSecond [model; provider] (SetTo tps) r.

Definition UpdateVRAMUsage (provider device : string) (bytes : Z) r : panics registry :=
  with_labels vramUsageBytes [provider; device] (SetTo (f64_of_Z bytes)) r.

Definition UpdateGPUUtilization (provider device : string) (percent : f64) r : panics registry :=
  with_labels gpuUtilization [provider; device] (SetTo percent) r.

Definition RecordModelSwitch r : panics registry := with_labels modelSwitchesTotal [] Inc r.

(** [stats] are those of the server's model registry, if it has one. *)
Definition collectPeriodicMetrics (serverID : string) (stats : option (gmap string json)) r : panics registry :=
  match stats with
  | Some stats =>
      match obj_get as_int stats "local_models" with
      | Some localCount => UpdateModelsLoaded serverID "local" localCount r
      | None => Some r
      end
  | None => Some r
  end.

(** The goroutine of [StartBackgroundMetrics] after some ticks, [stats] being
    what each finds: a ticker cannot be made for an interval that is not
    positive, and the loop has no end. *)
Fixpoint collect_loop (serverID : string) (ticks : list (option (gmap string json))) r : panics registry :=
  match ticks with
  | [] => Some r
  | stats :: ticks => r ← collectPeriodicMetrics serverID stats r; collect_loop serverID ticks r
  end.

Definition StartBackgroundMetrics (serverID : string) (interval : Duration)
    (ticks : list (option (gmap string json))) r : panics registry :=
  if interval <=? 0 then None else collect_loop serverID ticks r.

(** The summary: the counter itself, and texts in the place of values. *)
Inductive summary_value := SMetric (m : metric) | SText (s : string).

Definition GetMetricsSummary : gmap string summary_value :=
  list_to_map [("requests_total", SMetric requestsTotal); ("cache_hit_ratio", SText "calculated_from_hits_misses");
               ("queue_depths", SText "by_priority"); ("models_loaded", SText "by_node")].

(** ** Runs *)

Inductive call :=
  | CRequest (model provider status priority routing : string) (duration : Duration)
  | CModelLoad (model provider nodeID status : string)
  | CModelsLoaded (nodeID provider : string) (count : Z)
  | CEnqueue (priority : Z) (jobType : string) (waitTime : Duration)
  | CDequeue (priority : Z) (jobType : string)
  | CDepth (priority depth : Z)
  | CPeerRequest (peerID status : string) (latency : Duration)
  | CPeerFailure (peerID errorType : string)
  | CCacheHit | CCacheMiss | CCacheEviction
  | CCacheSize (size : Z)
  | CBreakerState (provider endpoint : string) (state : Z)
  | CBreakerTrip (provider endpoint : string)
  | CTokens (model provider : string) (count : Z)
  | CTokensPerSecond (model provider : string) (tps : f64)
  | CVRAM (provider device : string) (bytes : Z)
  | CGPU (provider device : string) (percent : f64)
  | CModelSwitch
  | CCollect (serverID : string) (stats : option (gmap string json)).

Definition apply_call (c : call) : registry → panics registry :=
  match c with
  | CRequest m p s pr ro d => RecordRequest m p s pr ro d
  | CModelLoad m p n s => RecordModelLoad m p n s
  | CModelsLoaded n p c => UpdateModelsLoaded n p c
  | CEnqueue p t w => RecordQueueEnqueue p t w
  | CDequeue p t => RecordQueueDequeue p t
  | CDepth p d => UpdateQueueDepth p d
  | CPeerRequest p s l => RecordPeerRequest p s l
  | CPeerFailure p e => RecordPeerFailure p e
  | CCacheHit => RecordCacheHit
  | CCacheMiss => RecordCacheMiss
  | CCacheEviction => RecordCacheEviction
  | CCacheSize n => UpdateCacheSize n
  | CBreakerState p e s => UpdateCircuitBreakerState p e s
  | CBreakerTrip p e => RecordCircuitBreakerTrip p e
  | CTokens m p c => RecordTokensGenerated m p c
  | CTokensPerSecond m p t => UpdateTokensPerSecond m p t
  | CVRAM p d b => UpdateVRAMUsage p d b
  | CGPU p d v => UpdateGPUUtilization p d v
  | CModelSwitch => RecordModelSwitch
  | CCollect s st => collectPeriodicMetrics s st
  end.

Fixpoint run_calls (cs : list call) r : panics registry :=
  match cs with [] => Some r | c :: cs => r ← apply_call c r; run_calls cs r end.
End manager.

(** ** Lemmas *)

Lemma nonneg_not_below x : sign_of x = Some false → f64_ltb x f64_zero = false.
Proof. by destruct x as [[]|[]| |[]]. Qed.

Lemma int_not_below z : 0 <= z → f64_ltb (f64_of_Z z) f64_zero = false.
Proof. intros Hz. by apply nonneg_not_below, normalize_sign. Qed.

Section facts.
Context `{L : PromLib} `{!PromLaws L}.

Lemma register_all_ok ms r :
  NoDup (mt_name <$> (ms : list metric)) → (∀ m, m ∈ ms → mt_name m ∉ mt_name <$> known r) →
  (∀ m, m ∈ ms → NoDup (mt_labels m)) →
  ∃ r', register_all ms r = Some r' ∧ known r' = reverse ms ++ known r.
Proof.
  revert r. induction ms as [|m ms IH]; intros r Hnd Hnew Hlab; simpl; [by exists r|].
  apply NoDup_cons in Hnd as [Hm Hnd].
  destruct (new_ok m r) as (r1 & -> & Hk); [apply Hnew; by left|apply Hlab; by left|]. simpl.
  destruct (IH r1 Hnd) as (r' & -> & Hr').
  - intros m' Hm'. rewrite Hk. apply not_elem_of_cons. split; [|apply Hnew; by right].
    intros He. apply Hm. rewrite <- He. by apply list_elem_of_fmap_2.
  - intros m' Hm'. apply Hlab. by right.
  - exists r'. split; [done|]. by rewrite Hr', Hk, reverse_cons, <- app_assoc.
Qed.

(** The conditions of [update_ok] for a manager's own metric. *)
Lemma own_update_ok m vals u r :
  (∀ m, m ∈ all_metrics → m ∈ known r) → m ∈ all_metrics → length vals = length (mt_labels m) →
  forallb valid_value vals = true → takes (mt_kind m) u = true →
  ∃ r', with_labels m vals u r = Some r' ∧ ∀ m, m ∈ all_metrics → m ∈ known r'.
Proof.
  intros Hk Hm Hl Hv Hu. destruct (update_ok m vals u r) as (r' & -> & Hr'); [by apply Hk|done..|].
  exists r'. split; [done|]. by rewrite Hr'.
Qed.

(** The label values of a call are text, and its token count not negative. *)
Definition call_ok (c : call) : bool :=
  match c with
  | CRequest m p s pr ro _ => forallb valid_value [m; p; s; pr; ro]
  | CModelLoad m p n s => forallb valid_value [m; p; n; s]
  | CModelsLoaded a b _ | CPeerRequest a b _ | CPeerFailure a b | CBreakerState a b _ | CBreakerTrip a b
  | CTokensPerSecond a b _ | CVRAM a b _ | CGPU a b _ => forallb valid_value [a; b]
  | CEnqueue _ t _ | CDequeue _ t => valid_value t
  | CTokens m p n => forallb valid_value [m; p] && (0 <=? n)
  | CCollect s _ => valid_value s
  | CDepth _ _ | CCacheHit | CCacheMiss | CCacheEviction | CCacheSize _ | CModelSwitch => true
  end.

Lemma priority_valid p : valid_value (JobPriority_String p) = true.
Proof. apply ascii_valid. unfold JobPriority_String. by repeat case_match. Qed.
End facts.

(** One update of a call: its side conditions are computed. *)
Ltac own_update :=
  match goal with
  | Hk : ∀ m, m ∈ all_metrics → m ∈ known ?r |- context [with_labels ?m ?vals ?u ?r] =>
      let r' := fresh "r" in let Hk' := fresh "Hk" in
      destruct (own_update_ok m vals u r Hk) as (r' & -> & Hk');
        [by repeat constructor|done
        |simpl; rewrite ?priority_valid, ?(ascii_valid "chat" eq_refl), ?(ascii_valid "forward" eq_refl),
           ?(ascii_valid "local" eq_refl); by repeat match goal with Hv : valid_value _ = true |- _ => rewrite Hv end
        |simpl; rewrite ?int_not_below; [done|lia..]|clear Hk; simpl]
  end.

Lemma apply_call_ok `{L : PromLib} `{!PromLaws L} c r :
  call_ok c = true → (∀ m, m ∈ all_metrics → m ∈ known r) →
  ∃ r', apply_call c r = Some r' ∧ ∀ m, m ∈ all_metrics → m ∈ known r'.
Proof.
  intros Hok Hk.
  destruct c; simpl in Hok |- *;
    unfold RecordRequest, RecordModelLoad, UpdateModelsLoaded, RecordQueueEnqueue, RecordQueueDequeue,
      UpdateQueueDepth, RecordPeerRequest, RecordPeerFailure, RecordCacheHit, RecordCacheMiss, UpdateCacheSize,
      RecordCacheEviction, UpdateCircuitBreakerState, RecordCircuitBreakerTrip, RecordTokensGenerated,
      UpdateTokensPerSecond, UpdateVRAMUsage, UpdateGPUUtilization, RecordModelSwitch.
  all: rewrite ?andb_true_iff, ?Z.leb_le in Hok; destruct_and? Hok; try (repeat own_update; by eexists).
  unfold collectPeriodicMetrics, UpdateModelsLoaded. destruct stats as [stats|]; [|by eexists].
  destruct (obj_get as_int stats "local_models"); [own_update|]; by eexists.
Qed.

Lemma run_calls_ok `{L : PromLib} `{!PromLaws L} cs r :
  Forall (λ c, call_ok c = true) cs → (∀ m, m ∈ all_metrics → m ∈ known r) → ∃ r', run_calls cs r = Some r'.
Proof.
  intros Hcs. induction Hcs as [|c cs Hc _ IH] in r |- *; intros Hall; simpl; [by eexists|].
  destruct (apply_call_ok c r Hc Hall) as (r1 & -> & Hall1). simpl. by apply IH.
Qed.

Lemma stats_key_missing `{L : PromLib} serverID mr ord ordp r :
  collectPeriodicMetrics serverID (Some (GetStats mr ord ordp)) r = Some r.
Proof. unfold collectPeriodicMetrics, GetStats, jmap, obj_get. simpl. by simplify_map_eq. Qed.

(** ** Properties *)

(** Metrics never take the server down.  In a registry where none of the
    manager's names is taken all metrics can be registered, and after that no
    sequence of recordings panics, as long as label values are text and token
    counts are not negative: every call passes as many label values as its
    metric has labels, and an update its metric has. *)
Theorem metrics_never_panic `{L : PromLib} `{!PromLaws L} r cs :
  (∀ m, m ∈ all_metrics → mt_name m ∉ mt_name <$> known r) →
  Forall (λ c, call_ok c = true) cs →
  ∃ r' r'', NewMetricsManager r = Some r' ∧ run_calls cs r' = Some r''.
Proof.
  intros Hfresh Hcs. destruct (register_all_ok all_metrics r) as (r' & Hr' & Hk).
  - by (apply (bool_decide_eq_true_1 _); by vm_compute).
  - done.
  - intros m Hm. assert (Forall (λ m, NoDup (mt_labels m)) all_metrics) as Hl
      by (apply (bool_decide_eq_true_1 _); by vm_compute).
    by eapply (proj1 (Forall_forall _ _) Hl).
  - exists r'. assert (∀ m, m ∈ all_metrics → m ∈ known r') as Hall.
    { intros m Hm. rewrite Hk. apply elem_of_app. left. by apply elem_of_reverse. }
    destruct (run_calls_ok cs r' Hcs Hall) as [r'' ?]. by exists r''.
Qed.

(** The collector, however long it runs and whatever the registry of models
    holds at each tick, changes no metric (it asks the statistics for a key they
    do not have, so the gauge of loaded models is never set); with an interval that is not positive
    it ends the process. *)
Theorem collector_changes_nothing `{L : PromLib} serverID interval ticks r :
  Forall (λ st, st = None ∨ ∃ mr ord ordp, st = Some (GetStats mr ord ordp)) ticks →
  StartBackgroundMetrics serverID interval ticks r = if decide (0 < interval) then Some r else None.
Proof.
  intros Ht. unfold StartBackgroundMetrics. destruct (Z.leb_spec interval 0); [by rewrite decide_False by lia|].
  rewrite decide_True by lia. induction Ht as [|st ticks Hst _ IH]; [done|]. simpl.
  assert (collectPeriodicMetrics serverID st r = Some r) as ->; [|exact IH].
  destruct Hst as [->|(mr & ord & ordp & ->)]; [done|]. by apply stats_key_missing.
Qed.

(** ** Witness *)

(** A registry that keeps the metrics and the updates. *)
Definition example_lib : PromLib := {|
  registry := list metric * list (string * list string * update);
  known := fst;
  valid_value := is_ascii;
  promauto_New m r :=
    if decide (mt_name m ∈ mt_name <$> r.1) then None else Some (m :: r.1, r.2);
  with_labels m vals u r :=
    if (length vals =? length (mt_labels m))%nat && forallb is_ascii vals && takes (mt_kind m) u
    then Some (r.1, (mt_name m, vals, u) :: r.2) else None |}.

Lemma prom_example_laws : PromLaws example_lib.
Proof.
  split.
  - done.
  - intros m r Hm _. simpl. rewrite decide_False by done. by eexists.
  - intros m vals u r _ Hl Hv Hu. simpl in *. rewrite Hl, Nat.eqb_refl, Hv, Hu. by eexists.
Qed.

Lemma metrics_never_panic_witness :
  ∃ r' r'', @NewMetricsManager example_lib ([], []) = Some r' ∧
    run_calls [CRequest "llama3" "ollama" "ok" "high" "local" Second; CTokens "llama3" "ollama" 42;
               CDepth PriorityLow 3; CCacheHit] r' = Some r''.
Proof.
  apply (metrics_never_panic (L := example_lib) (PromLaws0 := prom_example_laws)).
  - intros m _. simpl. by apply not_elem_of_nil.
  - by repeat constructor.
Defined.

Lemma collector_changes_nothing_witness :
  StartBackgroundMetrics (L := example_lib) "hive" (15 * Second)
    [None; Some (GetStats (NewModelRegistry) [] [])] ([], []) = Some ([], []).
Proof.
  rewrite (collector_changes_nothing (L := example_lib)).
  - by vm_compute.
  - constructor; [by left|]. constructor; [|done]. right. by eexists _, [], [].
Defined.
