(* ===== verification/Status.v ===== *)
(** * Status pages of the hive server ([handlers.go], [hardware.go])

    The summary of the server, its hardware as far as files show it, the
    health of its Ollama, the mesh pages, and the models a beacon takes from
    the health page. *)

From S2P Require Import Prelude GoFloat GoText GoHttp Job JobQueue Mesh Clients Hive.

Local Open Scope string_scope.
Local Open Scope list_scope.
Local Open Scope Z_scope.

(** ** Hardware *)

Section hardware.
(** [runtime.GOOS] and [runtime.GOARCH], the host's name (empty when
    [os.Hostname] fails) and [os.Stat] of a path. *)
Variables (GOOS GOARCH hostname : string).
Variable exists_path : string → bool.

Definition detectNvidiaGPU : string :=
  if exists_path "/usr/bin/nvidia-smi" then "NVIDIA GPU (detected)" else "".

Definition gpu_json (model type : string) : json := jobj [("model", JStr model); ("type", JStr type)].

Definition detectGPUs : list json :=
  (if String.eqb detectNvidiaGPU "" then [] else [gpu_json detectNvidiaGPU "nvidia"]) ++
  (if exists_path "/dev/dri/renderD128" then [gpu_json "DRI GPU" "dri"] else []).

Definition getHardwareInfo : json :=
  let info := jmap [("platform", JStr GOOS); ("architecture", JStr GOARCH); ("hostname", JStr hostname)] in
  JObj (match detectGPUs with [] => info | gpus => <["gpus" := JArr gpus]> info end).

Definition getAcceleratorType : string :=
  if String.eqb GOOS "linux" then
    if negb (String.eqb detectNvidiaGPU "") then "GPU"
    else if exists_path "/dev/dri/renderD128" then "GPU" else "CPU"
  else "CPU".

(** [detectServingType]; [SERVING_TYPE] is the variable's value. *)
Definition detectServingType (SERVING_TYPE : string) : string :=
  if negb (String.eqb SERVING_TYPE "") then SERVING_TYPE
  else if exists_path "/dev/nvidia0" then "GPU"
  else if exists_path "/dev/dri/renderD128" then "GPU"
  else if negb (String.eqb detectNvidiaGPU "") then "GPU" else "CPU".

(** [SERVER_ID] is the variable's value. *)
Definition getServerID (SERVER_ID : string) : string :=
  if negb (String.eqb SERVER_ID "") then SERVER_ID else "hive-" +:+ hostname.

(** A machine is called accelerated on the evidence that lists a GPU. *)
Lemma accelerator_agrees : GOOS = "linux" → getAcceleratorType = "GPU" ↔ detectGPUs ≠ [].
Proof.
  intros ->. unfold getAcceleratorType, detectGPUs. simpl.
  destruct (String.eqb detectNvidiaGPU ""), (exists_path "/dev/dri/renderD128"); naive_solver.
Qed.
End hardware.

(** ** Handlers *)

Definition serverVersion : string := "1.7.0".

(** [uptime] is the text of the time since the start; listing the alive peers
    marks them. *)
Definition handleStatus (getServerID uptime ollamaURL ollamaModel : string) (MaxClients : Z) (MeshEnabled : bool)
    (hardware : json) (rs : list (nat * f64)) (ord : list (string * nat)) (rd : nat → Time) (s : server)
    : response * server :=
  let '(peers, s) :=
    match hs_mesh s with
    | Some m => let (alive, m) := GetAlivePeers rs m in (go_len alive, set_hs_mesh (Some m) s)
    | None => (0, s)
    end in
  (write_json (jobj [
     ("server_id", JStr getServerID); ("version", JStr serverVersion); ("uptime", JStr uptime);
     ("ollama_url", JStr ollamaURL); ("ollama_model", JStr ollamaModel);
     ("queue", JObj (GetQueueStatus (hs_queue s) ord rd)); ("clients", JInt (Count (hs_clients s)));
     ("max_clients", JInt MaxClients); ("mesh_enabled", JBool MeshEnabled); ("peers", JInt peers);
     ("hardware", hardware)]), s).

Definition getPeers (rs : list (nat * f64)) (mesh : option MeshDiscovery) : list nat * option MeshDiscovery :=
  match mesh with
  | Some m => let (alive, m) := GetAlivePeers rs m in (alive, Some m)
  | None => ([], None)
  end.

(** [probes]: the seeds of the environment, each with what its probe gives. *)
Definition handlePeerScan (probes : list (string * option (gmap string json) * f64 * option (list (PeerInfo * f64))))
    (mesh : option MeshDiscovery) : response * option MeshDiscovery :=
  match mesh with
  | None => (http_Error "mesh not enabled" StatusBadRequest, None)
  | Some m =>
      let seeds := (λ pr, JStr pr.1.1.1) <$> probes in
      (write_json (jobj [("status", JStr "ok");
         ("seed_peers", match seeds with [] => JNull | _ => JArr seeds end)]), Some (Rescan probes m))
  end.

Definition handleMeshDiagnostics (serverID : string) (rs : list (nat * f64)) (seeds : list string)
    (mesh : option MeshDiscovery) : response * option MeshDiscovery :=
  match mesh with
  | None => (write_json (jobj [("enabled", JBool false)]), None)
  | Some m =>
      let (diag, m) := GetDiagnostics rs seeds m in
      (write_json (JObj (<["mesh_enabled" := JBool true]> (<["server_id" := JStr serverID]> diag))), Some m)
  end.

(** The reply of Ollama's [/api/tags]: the names of its models, or the error
    of the request or of the decoding. *)
Definition handleOllamaHealth (tags : result (list string)) : response :=
  match tags with
  | Err e => write_json (jobj [("status", JStr "unhealthy"); ("error", JStr e)])
  | Ok models => write_json (jobj [("status", JStr "healthy"); ("models", JArr (JStr <$> models))])
  end.

(** ** The models of a beacon *)

(** The reply decoded into the names of a list of objects. *)
Definition decode_named (m : gmap string json) : option (list string) :=
  match m !! "models" with
  | None | Some JNull => Some []
  | Some (JArr l) => mapM (λ j, match j with JObj o => field_str o "name" | JNull => Some "" | _ => None end) l
  | Some _ => None
  end.

(** [getLocalModels] asks the server's own health page. *)
Definition getLocalModels (reply : option (gmap string json)) : list string :=
  from_opt [] (reply ≫= decode_named).

Definition body_object (r : response) : option (gmap string json) :=
  match rs_body r with BJson (JObj m) => Some m | _ => None end.

(** A beacon never carries the models it is meant to carry: the health
    page lists the names of the models as texts, and the beacon's sender
    decodes a list of objects with names, so whatever models Ollama has, the
    decoding fails or finds none. *)
Theorem beacon_carries_no_models tags q cap cl m :
  getLocalModels (body_object (handleOllamaHealth tags)) = [] ∧
  sendBeacon q cap cl (getLocalModels (body_object (handleOllamaHealth tags))) m !! "models" = None.
Proof.
  assert (getLocalModels (body_object (handleOllamaHealth tags)) = []) as Hno.
  { destruct tags as [[|x l]|e]; unfold getLocalModels, decode_named, body_object, handleOllamaHealth; simpl;
      by simplify_map_eq. }
  split; [done|]. rewrite Hno. unfold sendBeacon, jmap.
  destruct q, cap, cl; simpl; by simplify_map_eq.
Qed.
