(* ===== verification/MeshServer.v ===== *)
(** * The mesh server as a whole ([hive-server-go/handlers.go], [main.go])

    The handlers of all routes put together over one state, behind the
    authentication, the CORS wrapper and the multiplexer: [serve_hive] is a
    request from its arrival to its end.  What other requests do while a
    handler waits are functions of the part of the state they share.  What
    the audit and logging middleware adds is in [Server], the writes to the
    log in [Telemetry]; the subscriptions of an event stream are in
    [JobStream].  Two things the routes use are defined nowhere in the
    repository: the five handlers of the audit pages, which are variables, and
    the [globalQueue] of the event stream, whose job is an input. *)

From S2P Require Import Prelude GoFloat GoText GoScan GoHttp GoSort Job JobQueue JobStream MeshNet Mesh AgentDB.
From S2P Require Import Agent OpenAI OpenAIAgent ModelRegistry ModelContext Usage Clients Hive AgentApi Provider.
From S2P Require Import Telemetry Status RateLimit Server.

Local Open Scope string_scope.
Local Open Scope list_scope.
Local Open Scope Z_scope.

(** ** State *)

(** [hv_server] has the clients, the job queue and the mesh; [hv_agent] the
    database's agent tables and the sessions cached from them; [hv_usage] the
    usage table, if the database is open. *)
Record hive := mk_hive {
  hv_server : Hive.server;
  hv_provider : ProviderManager;
  hv_agent : world;
  hv_logs : logs;
  hv_metrics : MetricsCollector;
  hv_usage : option token_usage;
  hv_limiter : RateLimiter }.

Definition set_hv_server (x : Hive.server) (s : hive) : hive :=
  mk_hive x (hv_provider s) (hv_agent s) (hv_logs s) (hv_metrics s) (hv_usage s) (hv_limiter s).
Definition set_hv_provider (x : ProviderManager) (s : hive) : hive :=
  mk_hive (hv_server s) x (hv_agent s) (hv_logs s) (hv_metrics s) (hv_usage s) (hv_limiter s).
Definition set_hv_agent (x : world) (s : hive) : hive :=
  mk_hive (hv_server s) (hv_provider s) x (hv_logs s) (hv_metrics s) (hv_usage s) (hv_limiter s).
Definition set_hv_logs (x : logs) (s : hive) : hive :=
  mk_hive (hv_server s) (hv_provider s) (hv_agent s) x (hv_metrics s) (hv_usage s) (hv_limiter s).
Definition set_hv_limiter (x : RateLimiter) (s : hive) : hive :=
  mk_hive (hv_server s) (hv_provider s) (hv_agent s) (hv_logs s) (hv_metrics s) (hv_usage s) x.

Definition set_hv_mesh (m : option MeshDiscovery) (s : hive) : hive := set_hv_server (set_hs_mesh m (hv_server s)) s.
Definition set_hv_clients (c : ClientManager) (s : hive) : hive := set_hv_server (set_hs_clients c (hv_server s)) s.

(** ** A request *)

(** The request itself; the decoded bodies its handler may read; the readings
    of clocks and the orders of maps; and what Ollama, the peers, the database
    and the writer answer. *)
Record call := mk_call {
  c_request : Request;
  c_query : string → string;
  (** bodies *)
  c_job : option job_body;
  c_forward : option forward_job;
  c_register : option (string * string);
  c_client : option string;
  c_peer : option peer_body;
  c_agent_body : option agent_body;
  c_chat : result OpenAIChatRequest;
  c_read : bool;
  (** clocks and orders *)
  c_now : f64; c_now' : f64;
  c_time : Time; c_time' : Time;
  c_visits : list (nat * f64);
  c_running : list (string * nat); c_completed : list (string * nat);
  c_clients : list (string * nat);
  c_rd : nat → Time;
  c_types : list string;
  c_known : list (string * Z);
  (** answers *)
  c_submit : submit_env;
  c_states : Hive.server → list Hive.server;
  c_agent : agent_env;
  c_outside : outside;
  c_elsewhere : Hive.server → Hive.server;
  c_probes : list (string * option (gmap string json) * f64 * option (list (PeerInfo * f64)));
  c_health : result (list string);
  c_tags : option (list string);
  c_sized_tags : option (list (string * Z * option (Z * Z) * option (Z * Z)));
  c_lists : string → option (list string) * Time * Time;
  c_fault : option string; c_fault' : option string;
  c_flusher : bool;
  c_stream_job : option Job;
  c_wakes : list wake;
  c_uptime : string; c_hardware : json }.

(** What reaches the client. *)
Inductive outcome :=
  | OReply (r : response)
  | OPage (acts : list action)
  | OModels (l : list OpenAIModel)
  | OChat (r : chat_result)
  | OFrames (l : list frame) (closed : bool).

Section hive.
Context `{!Store, !GoSort}.
(** The server's id and configuration. *)
Variable getServerID : string.
Variable MeshEnabled : bool.
Variables (ollamaURL ollamaModel : string).
Variable MaxClients : Z.
Variable seedPeers : list string.
Variable agent_exists : bool.
Variable dashboardHTML : string.
Variable apiKey : string.
(** Rendering of values, and the sum of the database. *)
Variable fmt_time : Time → string.
Variable fmt_v : json → string.
Variables (fmt_1f fmt_f : f64 → string).
Variable peer_json : PeerInfo → json.
Variable sum_real : list f64 → f64.
Variable Sscanf_f : string → f64.
(** What servers answer the provider manager. *)
Variable tags : string → option (list (string * Z)).
Variable v1_models : string → option (list string).
Variable host_of : string → option string.
(** The handlers defined nowhere. *)
Variable audit_page : string → call → response.

(** ** Handlers over the whole state *)

Definition on_server (f : Hive.server → response * Hive.server) (s : hive) : panics (hive * outcome) :=
  let (r, sv) := f (hv_server s) in Some (set_hv_server sv s, OReply r).

Definition on_mesh (f : option MeshDiscovery → response * option MeshDiscovery) (s : hive) : panics (hive * outcome) :=
  let (r, m) := f (hs_mesh (hv_server s)) in Some (set_hv_mesh m s, OReply r).

Definition on_clients (f : ClientManager → response * ClientManager) (s : hive) : panics (hive * outcome) :=
  let (r, c) := f (hs_clients (hv_server s)) in Some (set_hv_clients c s, OReply r).

Definition on_provider (f : ProviderManager → response * ProviderManager) (s : hive) : panics (hive * outcome) :=
  let (r, p) := f (hv_provider s) in Some (set_hv_provider p s, OReply r).

(** The agent's handlers answer every error themselves. *)
Definition on_agent (m : M response) (s : hive) : panics (hive * outcome) :=
  match m (hv_agent s) with
  | (Ok r, w) => Some (set_hv_agent w s, OReply r)
  | (Err _, _) => None
  end.

Definition reads (f : hive → response) (s : hive) : panics (hive * outcome) := Some (s, OReply (f s)).

Definition is_POST (c : call) : bool := String.eqb (Method (c_request c)) "POST".

Definition agent_call (ep : agent_endpoint) (c : call) : hive → panics (hive * outcome) :=
  on_agent (serve_agent fmt_v ollamaModel agent_exists ep (c_agent c)
              (mk_areq (Method (c_request c)) (c_query c) (c_agent_body c))).

(** [getPeers] and then [GetNodes]. *)
Definition nodes_call (c : call) (s : hive) : panics (hive * outcome) :=
  let (alive, m) := getPeers (c_visits c) (hs_mesh (hv_server s)) in
  let infos := match m with Some m => peer_at m <$> alive | None => [] end in
  on_provider (handleNodes tags v1_models host_of fmt_1f getServerID (c_time c) infos) (set_hv_mesh m s).

(** The peers are asked for their lists one after the other. *)
Fixpoint ask_all (lists : string → option (list string) * Time * Time) (alive : list nat) (m : MeshDiscovery) :
    list (string * list string) * MeshDiscovery :=
  match alive with
  | [] => ([], m)
  | p :: alive =>
      let peer := peer_at m p in
      let '(reply, now, stored) := lists (p_ServerID peer) in
      let (models, m) := GetCachedPeerModels peer reply now stored m in
      let (rest, m) := ask_all lists alive m in
      ((p_ServerID peer, models) :: rest, m)
  end.

Definition models_call (c : call) (s : hive) : panics (hive * outcome) :=
  let '(lists, m) :=
    match hs_mesh (hv_server s) with
    | Some m => let (alive, m) := GetAlivePeers (c_visits c) m in
                let (lists, m) := ask_all (c_lists c) alive m in (lists, Some m)
    | None => ([], None)
    end in
  Some (set_hv_mesh m s, OModels (handleOpenAIListModels (c_tags c) lists ollamaModel (Unix (c_time c)))).

(** The registry is the one the provider manager fills; the server is built
    with one.  [c_elsewhere] is what the job of the direct path and the search
    for a peer leave of the queue and the mesh. *)
Definition chat_call (c : call) (s : hive) : panics (hive * outcome) :=
  mr ← pm_registry (hv_provider s);
  match handleOpenAIChatCompletions fmt_v ollamaURL ollamaModel (hs_mesh (hv_server s)) getServerID
          (Method (c_request c)) (c_read c) (c_chat c) agent_exists mr (c_outside c) (hv_agent s) with
  | (Ok (r, mr), w) =>
      let pm := hv_provider s in
      let pm := mk_PM (selfID pm) (selfPort pm) (pm_ollamaURL pm) (customURLs pm) (nodesCache pm) (lastRefresh pm)
                  (interval pm) (Some mr) in
      Some (set_hv_server (c_elsewhere c (hv_server s)) (set_hv_agent w (set_hv_provider pm s)), OChat r)
  | (Err _, _) => None
  end.

Definition stream_call (c : call) (s : hive) : panics (hive * outcome) :=
  Some (s, match handleJobStream (c_query c "job_id") (c_flusher c) (c_stream_job c) (c_wakes c) with
           | inl r => OReply r
           | inr (l, closed) => OFrames l closed
           end).

(** [fmt.Sscanf(sinceStr, "%f", &since)], zero without the parameter. *)
Definition logs_since (c : call) : f64 :=
  let since := c_query c "since" in if String.eqb since "" then f64_zero else Sscanf_f since.

(** The handlers by the names the routes have. *)
Definition handlers (c : call) : list (string * (hive → panics (hive * outcome))) := [
  ("handleRoot", λ s, Some (s, OPage (handleRoot dashboardHTML (Path (c_request c)))));
  ("handleStatus", on_server (handleStatus getServerID (c_uptime c) ollamaURL ollamaModel MaxClients MeshEnabled
     (c_hardware c) (c_visits c) (c_running c) (c_rd c)));
  ("handleClients", reads (λ s, handleClients (c_clients c) (hs_clients (hv_server s))));
  ("handleClientRegister", on_clients (handleClientRegister (is_POST c) (c_register c) (c_now c) (c_now' c)));
  ("handleClientHeartbeatPath", on_clients (handleClientHeartbeatPath (c_query c "client_id") (c_client c) (c_now c)));
  ("handleClientUnregister", on_clients (handleClientUnregister (is_POST c) (c_client c)));
  ("handleJobs", on_server (handleJobs getServerID MeshEnabled fmt_time (Method (c_request c)) (c_submit c) (c_job c)
     (c_running c) (c_completed c) (c_rd c)));
  ("handleJobGet", reads (λ s, handleJobGet (c_query c "job_id") (hv_server s)));
  ("handleJobForward", on_server (handleJobForward (is_POST c) (c_forward c) (c_time c) (c_states c)));
  ("handleQueue", reads (λ s, handleQueue (c_running c) (c_rd c) (hv_server s)));
  ("handlePeers", on_mesh (handlePeers peer_json (c_visits c)));
  ("handlePeerRegister", on_mesh (handlePeerRegister (is_POST c) (c_peer c) (c_now c)));
  ("handlePeerIntroduce", on_mesh (handlePeerIntroduce getServerID (c_peer c) (c_now c)));
  ("handlePeerScan", on_mesh (handlePeerScan (c_probes c)));
  ("handleMeshDiagnostics", on_mesh (handleMeshDiagnostics getServerID (c_visits c) seedPeers));
  ("handleOllamaHealth", reads (λ _, handleOllamaHealth (c_health c)));
  ("handleNodes", nodes_call c);
  ("handleProviders", on_provider (handleProviders tags v1_models host_of fmt_1f getServerID (c_time c) (c_types c)));
  ("handleModels", on_provider (handleModels tags v1_models host_of fmt_1f getServerID (c_time c)));
  ("handleLogs", reads (λ s, handleLogs (logs_since c) (hv_logs s)));
  ("handleLogsClear", λ s, let (r, l) := handleLogsClear (is_POST c) (hv_logs s) in Some (set_hv_logs l s, OReply r));
  ("handleUsageReport", reads (λ s, handleUsageReport sum_real (hv_usage s) (c_fault c)));
  ("handleUsageRecent", reads (λ s, handleUsageRecent (hv_usage s) (c_fault c)));
  ("handleUsageTimeSeries",
     reads (λ s, handleUsageTimeSeries Sscanf_f (hv_usage s) (c_fault c) (c_fault' c) (c_now c) (c_query c)));
  ("handleUsageHistogram", λ s,
     r ← handleUsageHistogram Sscanf_f (hv_usage s) (c_fault c) (c_now c) (c_query c); Some (s, OReply r));
  ("handleAgentSessionCreate", agent_call ECreate c);
  ("handleAgentSessionList", agent_call EList c);
  ("handleAgentSessionGet", agent_call EGet c);
  ("handleAgentSessionDelete", agent_call EDelete c);
  ("handleAgentSessionArchive", agent_call EArchive c);
  ("handleAgentMessageSend", agent_call ESend c);
  ("handleAgentMessagesGet", agent_call EMessages c);
  ("handleAgentContextStats", agent_call EContext c);
  ("handleAgentAuditLogs", agent_call EAudit c);
  ("handleAgentSearch", agent_call ESearch c);
  ("handleAgentModels", on_agent (handleAgentModels agent_exists fmt_1f (c_known c) (c_sized_tags c)));
  ("handleOpenAIChatCompletions", chat_call c);
  ("handleOpenAIListModels", models_call c);
  ("handleOpenAIHealth", reads (λ _, handleOpenAIHealth serverVersion));
  ("handleMetrics", reads (λ s, handleMetrics fmt_f (c_time c) (hv_metrics s)));
  ("handleJobStream", stream_call c);
  ("handleAuditRecent", reads (λ _, audit_page "handleAuditRecent" c));
  ("handleAuditSearch", reads (λ _, audit_page "handleAuditSearch" c));
  ("handleAuditTimeline", reads (λ _, audit_page "handleAuditTimeline" c));
  ("handleAuditSummary", reads (λ _, audit_page "handleAuditSummary" c));
  ("handleAuditDetail", reads (λ _, audit_page "handleAuditDetail" c))].

Definition run_handler (name : string) (c : call) (s : hive) : panics (hive * outcome) :=
  match List.find (λ h, String.eqb name h.1) (handlers c) with
  | Some h => h.2 s
  | None => None
  end.

(** A request from its arrival to its end. *)
Definition serve_hive (c : call) (s : hive) : panics (hive * outcome) :=
  let r := c_request c in
  match AuthMiddleware apiKey (hv_limiter s) r (c_time c) (c_time' c) with
  | (Some refusal, rl) => Some (set_hv_limiter rl s, OReply refusal)
  | (None, rl) =>
      let s := set_hv_limiter rl s in
      if String.eqb (Method r) "OPTIONS" then Some (s, OReply (mk_response StatusNoContent BNone))
      else match mux (Method r) (Path r) with
           | Some name => run_handler name c s
           | None => Some (s, OReply (http_Error "404 page not found" StatusNotFound))
           end
  end.

(** Requests one after the other. *)
Fixpoint serve_all (cs : list call) (s : hive) : panics hive :=
  match cs with
  | [] => Some s
  | c :: cs => '(s, _) ← serve_hive c s; serve_all cs s
  end.

End hive.

(** ** Notions of the properties *)

Definition mesh_wf_of (m : option MeshDiscovery) : Prop := ∀ m', m = Some m' → Mesh.wf m'.

(** The clients' table and the peers' table are well formed, and the channel
    of jobs is within its capacity. *)
Definition server_wf (sv : Hive.server) : Prop :=
  Clients.wf (hs_clients sv) ∧ mesh_wf_of (hs_mesh sv) ∧
  go_len (jobCh (hs_queue sv)) <= jobCh_cap.

(** Moreover the provider manager has its registry, and the agent's tables are
    consistent: no key twice, and the next number of an audit entry unused. *)
Definition hive_wf (s : hive) : Prop :=
  server_wf (hv_server s) ∧ is_Some (pm_registry (hv_provider s)) ∧ tables_wf (hv_agent s).

(** What other requests do meanwhile keeps it. *)
Definition calm (c : call) : Prop :=
  ∀ sv, server_wf sv →
    server_wf (se_meanwhile (c_submit c) sv) ∧ Forall server_wf (c_states c sv) ∧ server_wf (c_elsewhere c sv).

(** A peer without what a listing computes: its free capacity, its load and
    whether it is alive. *)
Definition announced (p : PeerInfo) : PeerInfo :=
  mk_PeerInfo (p_ServerID p) (p_Endpoint p) (p_MaxConcurrent p) (p_OllamaModel p) (p_LastSeen p)
    (p_PendingJobs p) (p_RunningJobs p) (p_Clients p) 0 f64_zero false.

Definition same_peers (m m' : MeshDiscovery) : Prop :=
  Mesh.peers m' = Mesh.peers m ∧ ∀ q, announced (peer_at m' q) = announced (peer_at m q).

Definition same_mesh (m m' : option MeshDiscovery) : Prop :=
  match m, m' with Some m, Some m' => same_peers m m' | None, None => True | _, _ => False end.

(** Everything but the caches (of models, nodes and sessions), what a listing
    of the peers computes, and the limiter.  The lines a handler itself writes
    to the log are not part of this state. *)
Record unchanged (s s' : hive) : Prop := mk_unchanged {
  un_clients : hs_clients (hv_server s') = hs_clients (hv_server s);
  un_queue : hs_queue (hv_server s') = hs_queue (hv_server s);
  un_mesh : same_mesh (hs_mesh (hv_server s)) (hs_mesh (hv_server s'));
  un_agent : same_tables (hv_agent s) (hv_agent s');
  un_logs : hv_logs s' = hv_logs s;
  un_metrics : hv_metrics s' = hv_metrics s;
  un_usage : hv_usage s' = hv_usage s }.

(** Everything but the peers, the log and the limiter. *)
Definition mesh_or_logs (s s' : hive) : Prop :=
  hs_clients (hv_server s') = hs_clients (hv_server s) ∧ hs_queue (hv_server s') = hs_queue (hv_server s) ∧
  hv_provider s' = hv_provider s ∧ hv_agent s' = hv_agent s ∧ hv_metrics s' = hv_metrics s ∧ hv_usage s' = hv_usage s.

(** The handlers that are not for reading. *)
Definition writers : list string := [
  "handleClientRegister"; "handleClientHeartbeatPath"; "handleClientUnregister"; "handleJobForward";
  "handlePeerRegister"; "handlePeerIntroduce"; "handlePeerScan"; "handleLogsClear"; "handleAgentSessionCreate";
  "handleAgentSessionDelete"; "handleAgentSessionArchive"; "handleAgentMessageSend"; "handleOpenAIChatCompletions"].

(** The handlers behind the paths the key is not asked for. *)
Definition open_handlers : list string := [
  "handleRoot"; "handleStatus"; "handlePeers"; "handlePeerRegister"; "handlePeerIntroduce"; "handlePeerScan";
  "handleMeshDiagnostics"; "handleLogs"; "handleLogsClear"; "handleOpenAIHealth"].

Definition among (names : list string) (name : string) : bool := existsb (String.eqb name) names.

(** ** Lemmas: routes *)

(** The text of the literal segments a pattern begins with. *)
Fixpoint lit_text (pat : list seg) : string :=
  match pat with Lit s :: pat => "/" +:+ s +:+ lit_text pat | _ => "" end.

Lemma segs_match_prefix multi pat segs :
  segs_match multi pat segs = true → has_prefix ("/" +:+ join "/" segs) (lit_text pat) = true.
Proof.
  revert segs. induction pat as [|[s|w] pat IH]; intros [|x segs]; simpl; try done.
  intros [<-%String.eqb_eq Hm]%andb_true_iff. apply has_prefix_spec.
  destruct segs as [|y segs].
  - destruct pat as [|[]]; [|done..]. exists "". simpl. by rewrite !str_app_nil_r.
  - destruct (proj1 (has_prefix_spec _ _) (IH _ Hm)) as [r Hr]. exists r.
    change (s +:+ ("/" +:+ join "/" (y :: segs)) = (s +:+ lit_text pat) +:+ r). by rewrite Hr, str_app_assoc.
Qed.

Lemma segments_join rest : "/" +:+ join "/" (segments (String "/" rest)) = String "/" rest.
Proof.
  unfold segments, split. cbn [String.length].
  assert (splitN (S (S (S (String.length rest)))) (String "/" rest) "/" =
          "" :: splitN (S (S (String.length rest))) rest "/") as ->.
  { change (splitN (S (S (S (String.length rest)))) (String "/" rest) "/") with
      (match str_index (String "/" rest) "/" with
       | Some i => str_take i (String "/" rest) :: splitN (S (S (String.length rest))) (str_drop (i + 1) (String "/" rest)) "/"
       | None => [String "/" rest]
       end).
    by destruct rest. }
  by rewrite splitN_join.
Qed.

(** The route that takes a request is registered, and its literal segments
    are the beginning of the path. *)
Lemma mux_route m path name :
  mux m path = Some name →
  ∃ p, (p, name) ∈ routes ∧ method_matches (pt_method p) m = true ∧
    ∀ rest, path = String "/" rest → has_prefix path (lit_text (pt_segs p)) = true.
Proof.
  unfold mux, route. destruct (List.find _ routes) as [[p h]|] eqn:Hf; [|done]. intros [= <-].
  apply List.find_some in Hf as [Hin [Hm _]%andb_true_iff]. apply andb_true_iff in Hm as [Hm Hs].
  exists p. split_and!; [by apply list_elem_of_In|done|]. intros rest ->.
  rewrite <-(segments_join rest) at 1. by eapply segs_match_prefix.
Qed.

Lemma among_false names name : among names name = false → name ∉ names.
Proof.
  unfold among. intros Hf Hin. apply not_true_iff_false in Hf. apply Hf, existsb_exists. exists name.
  split; [by apply list_elem_of_In|apply String.eqb_refl].
Qed.

(** What a computed check of the table says of a request. *)
Lemma mux_check (f : pattern * string → bool) m path name :
  forallb f routes = true → mux m path = Some name →
  ∃ p, f (p, name) = true ∧ method_matches (pt_method p) m = true ∧
    ∀ rest, path = String "/" rest → has_prefix path (lit_text (pt_segs p)) = true.
Proof.
  intros Hf (p & Hin & Hm & Hp)%mux_route. exists p. split_and!; [|done..].
  rewrite forallb_forall in Hf. by apply Hf, list_elem_of_In.
Qed.

Lemma safe_route m path name :
  m = "GET" ∨ m = "HEAD" → mux m path = Some name → among writers name = false.
Proof.
  intros Hm Hmux.
  destruct (mux_check (λ e, negb (method_matches (pt_method e.1) m) || negb (among writers e.2)) m path name)
    as (p & Hf & Hpm & _); [destruct Hm as [->| ->]; by vm_compute|done|].
  simpl in Hf. rewrite Hpm in Hf. by apply negb_true_iff.
Qed.

Lemma open_route (r : Request) name :
  exempt r = true ∨ keyless (Path r) = true → Method r ≠ "OPTIONS" → mux (Method r) (Path r) = Some name →
  among open_handlers name = true.
Proof.
  intros Hopen Hm Hmux.
  assert (∀ path, (∃ rest, path = String "/" rest) → Path r = path →
            forallb (λ e, negb (has_prefix path (lit_text (pt_segs e.1))) || among open_handlers e.2) routes = true →
            among open_handlers name = true) as Hexact.
  { intros path [rest Hr] Hp Hf. destruct (mux_check _ _ _ _ Hf Hmux) as (p & Hor & _ & Hpre).
    specialize (Hpre rest ltac:(congruence)). rewrite Hp in Hpre. simpl in Hor. by rewrite Hpre in Hor. }
  assert (∀ pre, (∃ rest, pre = String "/" rest) → has_prefix (Path r) pre = true →
            forallb (λ e, negb (has_prefix pre (lit_text (pt_segs e.1)) || has_prefix (lit_text (pt_segs e.1)) pre)
                          || among open_handlers e.2) routes = true →
            among open_handlers name = true) as Hprefix.
  { intros pre [rest Hr] Hp Hf. destruct (mux_check _ _ _ _ Hf Hmux) as (p & Hor & _ & Hpre).
    destruct (proj1 (has_prefix_spec _ _) Hp) as [t Ht]. specialize (Hpre (rest +:+ t)). rewrite Ht, Hr in Hpre.
    specialize (Hpre eq_refl). rewrite <-Hr, <-Ht in Hpre. simpl in Hor.
    destruct (Nat.le_ge_cases (String.length pre) (String.length (lit_text (pt_segs p)))) as [Hle|Hle].
    - rewrite (has_prefix_comparable _ _ _ Hp Hpre Hle), orb_true_r in Hor. done.
    - rewrite (has_prefix_comparable _ _ _ Hpre Hp Hle) in Hor. done. }
  destruct Hopen as [He|Hk].
  - unfold exempt in He. rewrite !orb_true_iff, !String.eqb_eq in He. destruct He as [[He|He]|He]; [..|done].
    + apply (Hexact "/"); [by eexists|done|by vm_compute].
    + apply (Hexact "/v1/health"); [by eexists|done|by vm_compute].
  - unfold keyless in Hk. rewrite !orb_true_iff, !String.eqb_eq in Hk. destruct Hk as [[[Hk|Hk]|Hk]|Hk].
    + apply (Hprefix "/api/peers"); [by eexists|done|by vm_compute].
    + apply (Hprefix "/api/logs"); [by eexists|done|by vm_compute].
    + apply (Hexact "/api/status"); [by eexists|done|by vm_compute].
    + apply (Hexact "/v1/health"); [by eexists|done|by vm_compute].
Qed.

(** ** Lemmas: what a handler does to the state *)

Definition respects (R : relation hive) (h : hive → panics (hive * outcome)) : Prop :=
  ∀ s s' o, h s = Some (s', o) → R s s'.

Section respects.
Context (R : relation hive).

Lemma respects_server f : (∀ s, R s (set_hv_server (f (hv_server s)).2 s)) → respects R (on_server f).
Proof. intros Hf s s' o. unfold on_server. specialize (Hf s). destruct (f _). by intros [= <- _]. Qed.
Lemma respects_mesh f :
  (∀ s, R s (set_hv_mesh (f (hs_mesh (hv_server s))).2 s)) → respects R (on_mesh f).
Proof. intros Hf s s' o. unfold on_mesh. specialize (Hf s). destruct (f _). by intros [= <- _]. Qed.
Lemma respects_clients f :
  (∀ s, R s (set_hv_clients (f (hs_clients (hv_server s))).2 s)) → respects R (on_clients f).
Proof. intros Hf s s' o. unfold on_clients. specialize (Hf s). destruct (f _). by intros [= <- _]. Qed.
Lemma respects_provider f : (∀ s, R s (set_hv_provider (f (hv_provider s)).2 s)) → respects R (on_provider f).
Proof. intros Hf s s' o. unfold on_provider. specialize (Hf s). destruct (f _). by intros [= <- _]. Qed.
Lemma respects_agent (Q : relation world) m :
  keeps Q m → (∀ w s, Q (hv_agent s) w → R s (set_hv_agent w s)) → respects R (on_agent m).
Proof.
  intros Hm HR s s' o. unfold on_agent. specialize (Hm (hv_agent s)).
  destruct (m (hv_agent s)) as [[]]; [|done]. intros [= <- _]. by apply HR.
Qed.
Lemma respects_reads `{!Reflexive R} f : respects R (reads f).
Proof. by intros s s' o [= <- _]. Qed.
End respects.

#[global] Instance same_tables_refl : Reflexive same_tables.
Proof. intros w. by split_and!. Qed.
#[global] Instance same_tables_trans : Transitive same_tables.
Proof. intros w1 w2 w3 (? & ? & ? & ?) (? & ? & ? & ?). split_and!; congruence. Qed.
#[global] Instance same_peers_refl : Reflexive same_peers.
Proof. by intros m. Qed.
#[global] Instance same_peers_trans : Transitive same_peers.
Proof. intros m1 m2 m3 [H1 H2] [H3 H4]. split; [congruence|]. intros q. by rewrite H4. Qed.
#[global] Instance same_mesh_refl : Reflexive same_mesh.
Proof. intros [m|]; [apply same_peers_refl|done]. Qed.
#[global] Instance unchanged_refl : Reflexive unchanged.
Proof. intros s. split; try done; apply same_mesh_refl || apply same_tables_refl. Qed.
#[global] Instance wf_kept_reflexive : Reflexive wf_kept.
Proof. by intros w Hw. Qed.
#[global] Instance wf_kept_transitive : Transitive wf_kept.
Proof. intros w1 w2 w3 H12 H23 H1. by apply H23, H12. Qed.

(** *** The agent *)

Lemma keeps_weaken {A} (R R' : relation world) (m : M A) : (∀ w w', R w w' → R' w w') → keeps R m → keeps R' m.
Proof. intros HR Hm w. apply HR, Hm. Qed.

Lemma same_tables_kept w w' : same_tables w w' → wf_kept w w'.
Proof. intros Hs Hw. by apply (grows_tables w w' Hs). Qed.

Lemma grows_kept w w' : grows w w' → wf_kept w w'.
Proof. intros Hg Hw. by apply Hg. Qed.

Section agent.
Context `{!Store}.

Lemma keeps_query {A} (f : world → A) : keeps same_tables (M_stmt (λ w, (Ok (f w), w))).
Proof. apply (keeps_stmt_of same_tables); [done|]. intros w. by split_and!. Qed.
Lemma keeps_new s : keeps same_tables (new_session s).
Proof. intros w. by split_and!. Qed.
Lemma keeps_clock : keeps same_tables M_now ∧ keeps same_tables M_millis ∧ keeps same_tables M_unix.
Proof. split_and!; intros w; by split_and!. Qed.

End agent.

(** Decompose a computation into the statements it makes. *)
Ltac tables_step :=
  first
    [ progress intros
    | progress cbv zeta
    | solve [auto with agent_keeps]
    | apply keeps_query | apply keeps_new | apply keeps_clock
    | apply keeps_bind | apply keeps_try | apply keeps_wrap | apply keeps_found
    | apply keeps_modify; done
    | case_match ].
Ltac tables := repeat tables_step.

Section agent_reads.
Context `{!Store}.

Lemma get_session_reads id : keeps same_tables (GetSession id).
Proof. unfold GetSession, GetCodingAgentSession, put_cache. tables. Qed.
#[local] Hint Resolve get_session_reads : agent_keeps.

Lemma context_stats_reads id reply : keeps same_tables (GetContextStats id reply).
Proof. unfold GetContextStats, GetCodingAgentMessages. tables. Qed.
#[local] Hint Resolve context_stats_reads : agent_keeps.

(** The endpoints that only read. *)
Definition reading (ep : agent_endpoint) : bool :=
  match ep with EList | EGet | EMessages | EContext | EAudit | ESearch => true | _ => false end.

Lemma serve_agent_reads fmt_v om av ep e r :
  reading ep = true → keeps same_tables (serve_agent fmt_v om av ep e r).
Proof.
  destruct ep; try done; intros _; simpl;
    unfold handleAgentSessionList, handleAgentSessionGet, handleAgentMessagesGet, handleAgentContextStats,
      handleAgentAuditLogs, handleAgentSearch, with_session, agent_available, or_error, reply,
      ListCodingAgentSessions, GetCodingAgentMessages, GetCodingAgentAuditLogs, SearchCodingAgentMessages; tables.
Qed.

Lemma agent_models_read av f ord t : keeps same_tables (handleAgentModels av f ord t).
Proof. unfold handleAgentModels, agent_available, reply. tables. Qed.

End agent_reads.

Section agent_writes.
Context `{!Store}.
Variable fmt_v : json → string.
Variables (ollamaURL ollamaModel : string).

Lemma create_kept at_ model sp b md r r' : keeps wf_kept (CreateSession ollamaModel at_ model sp b md r r').
Proof. eapply keeps_weaken; [apply grows_kept|apply keeps_CreateSession]. Qed.
Lemma send_kept id role content md an : keeps wf_kept (SendMessage fmt_v id role content md an).
Proof. eapply keeps_weaken; [apply grows_kept|apply keeps_SendMessage]. Qed.
Lemma archive_kept id : keeps wf_kept (ArchiveSession id).
Proof. eapply keeps_weaken; [apply grows_kept|apply keeps_ArchiveSession]. Qed.
Lemma delete_kept id : keeps wf_kept (DeleteSession id).
Proof. apply keeps_DeleteSession. Qed.
Lemma reads_kept {A} (m : M A) : keeps same_tables m → keeps wf_kept m.
Proof. apply keeps_weaken, same_tables_kept. Qed.

#[local] Hint Resolve create_kept send_kept archive_kept delete_kept : agent_keeps.

Lemma serve_agent_wf av ep e r : keeps wf_kept (serve_agent fmt_v ollamaModel av ep e r).
Proof.
  destruct (reading ep) eqn:Hr; [by apply reads_kept, serve_agent_reads|].
  destruct ep; try done; simpl;
    unfold handleAgentSessionCreate, handleAgentSessionDelete, handleAgentSessionArchive, handleAgentMessageSend,
      POST_required, with_session, with_body, agent_available, or_error, reply; tables.
Qed.

Lemma agent_response_reads model id p reply : keeps same_tables (agent_response model id p reply).
Proof.
  unfold agent_response, GetCodingAgentAuditLogs.
  pose proof context_stats_reads. tables.
Qed.

Lemma replay_wf id msgs ans : keeps wf_kept (replay fmt_v id msgs ans).
Proof. revert ans. induction msgs as [|m msgs IH]; intros ans; simpl; [tables|]. unfold replay_one. tables. Qed.

Lemma chat_wf mesh origin method read req av mr o :
  keeps wf_kept (handleOpenAIChatCompletions fmt_v ollamaURL ollamaModel mesh origin method read req av mr o).
Proof.
  assert (∀ model id p reply, keeps wf_kept (agent_response model id p reply)) as Hresp
    by (intros; apply reads_kept, agent_response_reads).
  assert (∀ model msgs o, keeps wf_kept (direct_completion fmt_v mesh origin model msgs o)) as Hdirect.
  { intros. apply reads_kept. unfold direct_completion. tables. }
  assert (∀ model sp msgs o, keeps wf_kept (handleOpenAIViaAgent fmt_v ollamaModel model sp msgs o)) as Hvia.
  { intros. unfold handleOpenAIViaAgent. pose proof replay_wf. tables. }
  unfold handleOpenAIChatCompletions. tables.
Qed.

End agent_writes.

(** A computation that does not fail. *)
Definition replies {A} (m : M A) : Prop := ∀ w, ∃ a w', m w = (Ok a, w').

Lemma replies_ret {A} (a : A) : replies (M_ret a).
Proof. intros w. by eexists _, _. Qed.
Lemma replies_gets {A} (f : world → A) : replies (M_gets f).
Proof. intros w. by eexists _, _. Qed.
Lemma replies_modify f : replies (M_modify f).
Proof. intros w. by eexists _, _. Qed.
Lemma replies_try {A} (m : M A) : replies (M_try m).
Proof. intros w. unfold M_try. destruct (m w). by eexists _, _. Qed.
Lemma replies_bind {A B} (m : M A) (f : A → M B) : replies m → (∀ a, replies (f a)) → replies (M_bind m f).
Proof. intros Hm Hf w. unfold M_bind. destruct (Hm w) as (a & w' & ->). apply Hf. Qed.

Ltac replies_step :=
  first
    [ progress intros
    | progress cbv zeta
    | solve [auto]
    | apply replies_ret | apply replies_gets | apply replies_modify | apply replies_try
    | apply replies_bind
    | case_match ].
Ltac all_reply := repeat replies_step.

Section agent_replies.
Context `{!Store}.

Lemma clock_replies : replies M_millis ∧ replies M_unix.
Proof. split; intros w; by eexists _, _. Qed.

Lemma serve_agent_replies fmt_v om av ep e r : replies (serve_agent fmt_v om av ep e r).
Proof.
  destruct ep; simpl;
    unfold handleAgentSessionCreate, handleAgentSessionDelete, handleAgentSessionArchive, handleAgentMessageSend,
      handleAgentSessionList, handleAgentSessionGet, handleAgentMessagesGet, handleAgentContextStats,
      handleAgentAuditLogs, handleAgentSearch, POST_required, with_session, with_body, agent_available, or_error, reply;
    all_reply.
Qed.

Lemma agent_models_replies av f ord t : replies (handleAgentModels av f ord t).
Proof. unfold handleAgentModels, agent_available, reply. all_reply. Qed.

Lemma chat_replies fmt_v url om mesh origin method read req av mr o :
  replies (handleOpenAIChatCompletions fmt_v url om mesh origin method read req av mr o).
Proof.
  destruct clock_replies as [Hms Hu].
  assert (∀ model msgs, replies (direct_completion fmt_v mesh origin model msgs o)) as Hdirect
    by (unfold direct_completion; all_reply).
  unfold handleOpenAIChatCompletions. all_reply.
Qed.

End agent_replies.

(** *** The mesh *)

Lemma alive_same rs m : same_peers m (alive_loop rs m).2.
Proof.
  revert m. induction rs as [|[p now] rs IH]; intros m; simpl; [done|].
  destruct (seen_within now (peer_at m p)); [|apply IH].
  specialize (IH (update_peer mark_alive p m)). destruct (alive_loop rs _) as [l m']. simpl in *.
  etrans; [|exact IH]. split; [done|]. intros q. rewrite update_peer_at. by case_decide; subst.
Qed.

Lemma ask_all_same lists alive m : same_peers m (ask_all lists alive m).2 ∧ Mesh.keeps m (ask_all lists alive m).2.
Proof.
  revert m. induction alive as [|p alive IH]; intros m; simpl; [done|].
  destruct (lists _) as [[reply now] stored].
  assert (∀ m', m' = (GetCachedPeerModels (peer_at m p) reply now stored m).2 → same_peers m m' ∧ Mesh.keeps m m') as Hget.
  { unfold GetCachedPeerModels. intros m' ->. repeat case_match; simpl; (split; [done|]); done || apply set_models_keeps. }
  destruct (GetCachedPeerModels _ _ _ _ m) as [models m1]. destruct (Hget m1 eq_refl) as [H1 H2].
  destruct (IH m1) as [H3 H4]. destruct (ask_all lists alive m1) as [rest m2]. simpl in *.
  split; by etrans.
Qed.

Definition mesh_keeps (m m' : option MeshDiscovery) : Prop :=
  match m, m' with Some m, Some m' => Mesh.keeps m m' | None, None => True | _, _ => False end.

(** The handlers that list the peers. *)
Definition lists_peers (m m' : option MeshDiscovery) : Prop := same_mesh m m' ∧ mesh_keeps m m'.

Lemma lists_peers_refl m : lists_peers m m.
Proof. split; [apply same_mesh_refl|by destruct m]. Qed.

Lemma alive_lists rs m : lists_peers (Some m) (Some (alive_loop rs m).2).
Proof. split; [apply alive_same|apply alive_keeps]. Qed.

Lemma peers_lists render rs m : lists_peers m (handlePeers render rs m).2.
Proof.
  destruct m as [m|]; [|apply lists_peers_refl]. simpl. unfold GetPeersList, GetAlivePeers.
  pose proof (alive_lists rs m) as Ha. by destruct (alive_loop rs m).
Qed.

Lemma getPeers_lists rs m : lists_peers m (getPeers rs m).2.
Proof.
  destruct m as [m|]; [|apply lists_peers_refl]. simpl. unfold GetAlivePeers.
  pose proof (alive_lists rs m) as Ha. by destruct (alive_loop rs m).
Qed.

Lemma diagnostics_lists id rs seeds m : lists_peers m (handleMeshDiagnostics id rs seeds m).2.
Proof.
  destruct m as [m|]; [|apply lists_peers_refl]. simpl. unfold GetDiagnostics, GetAlivePeers.
  pose proof (alive_lists rs m) as Ha. by destruct (alive_loop rs m).
Qed.

Lemma status_lists id up url om mc me hw rs ord rd sv :
  let sv' := (handleStatus id up url om mc me hw rs ord rd sv).2 in
  hs_clients sv' = hs_clients sv ∧ hs_queue sv' = hs_queue sv ∧ lists_peers (hs_mesh sv) (hs_mesh sv').
Proof.
  unfold handleStatus, GetAlivePeers. destruct sv as [cs q [m|]]; simpl; [|split_and!; [done..|apply lists_peers_refl]].
  pose proof (alive_lists rs m) as Ha. by destruct (alive_loop rs m).
Qed.

(** *** Well-formedness *)

Lemma mesh_wf_kept m m' sv :
  server_wf sv → hs_mesh sv = m → mesh_keeps m m' → server_wf (set_hs_mesh m' sv).
Proof.
  intros (Hc & Hm & Hq) <- Hk. split_and!; [done| |done]. intros m1 Hm1. simpl in Hm1. subst m'.
  destruct (hs_mesh sv) as [m0|]; simpl in Hk; [|done]. by apply Hk, Hm.
Qed.

Lemma set_queue_wf sv sv' :
  server_wf sv → hs_clients sv' = hs_clients sv → hs_mesh sv' = hs_mesh sv →
  go_len (jobCh (hs_queue sv')) <= jobCh_cap → server_wf sv'.
Proof. intros (Hc & Hm & Hq) H1 H2 H3. split_and!; [by rewrite H1|by rewrite H2|done]. Qed.

Lemma submit_new_bound j q :
  go_len (jobCh q) <= jobCh_cap → go_len (jobCh (submit_new j q).2) <= jobCh_cap.
Proof.
  intros Hq. pose proof (submit_new_spec j q) as Hs. destruct (submit_new j q) as [[ok p] q']. simpl.
  destruct Hs as (_ & _ & _ & _ & Hs). destruct ok; [|by destruct Hs as [-> _]].
  destruct Hs as [-> Hlt]. len_lia.
Qed.

Lemma count_submitted_wf p sv : server_wf sv → server_wf (count_submitted p sv).
Proof. intros (Hc & Hm & Hq). split_and!; [by apply update_wf|done..]. Qed.

Lemma submit_local_wf p j sv :
  server_wf sv → server_wf (count_submitted p (set_hs_queue (submit_new j (hs_queue sv)).2 sv)).
Proof.
  intros Hsv. apply count_submitted_wf. eapply set_queue_wf; [exact Hsv|done..|]. simpl. apply submit_new_bound, Hsv.
Qed.

Lemma try_forward_wf id me e b sv :
  (∀ sv, server_wf sv → server_wf (se_meanwhile e sv)) → server_wf sv → server_wf (try_forward id me e b sv).2.
Proof.
  intros He Hsv. unfold try_forward. destruct (hs_mesh sv) as [m|] eqn:Hm; [|done].
  destruct (_ && _); [|done]. unfold GetBestPeer, GetAlivePeers.
  pose proof (alive_keeps (se_rs e) m) as Hk. destruct (alive_loop (se_rs e) m) as [alive m']. simpl in Hk.
  assert (server_wf (set_hs_mesh (Some m') sv)) as Hsv' by by eapply mesh_wf_kept.
  destruct (foldl _ None alive); simpl; [by apply He|done].
Qed.

Lemma submitJob_wf id me ft e body sv :
  (∀ sv, server_wf sv → server_wf (se_meanwhile e sv)) → server_wf sv → server_wf (submitJob id me ft e body sv).2.
Proof.
  intros He Hsv. unfold submitJob. destruct body as [b|]; [|done]. destruct (_ || _); [done|].
  pose proof (register_wf (jb_ClientID b) (jb_ClientID b) (se_now e) (se_now' e) (hs_clients sv) (proj1 Hsv)) as Hr.
  destruct (Register _ _ _ _ _) as [[client|err] cm]; simpl in Hr;
    assert (server_wf (set_hs_clients cm sv)) as Hsv1 by (destruct Hsv as (_ & ? & ?); by split_and!); [|done].
  pose proof (try_forward_wf id me e b _ He Hsv1) as Hf.
  destruct (try_forward id me e b _) as [[reply|] sv2]; simpl in Hf |- *; [by apply count_submitted_wf|].
  pose proof (submit_local_wf client (NewJob (job_id (jb_ClientID b) (jb_JobType b) (se_time e)) (jb_ClientID b)
    (jb_JobType b) (jb_Payload b) (se_created e)) sv2 Hf) as Hl.
  destruct (submit_new _ _) as [[ok p] q]. done.
Qed.

Lemma forward_wf post body now states sv :
  (∀ sv, server_wf sv → Forall server_wf (states sv)) → server_wf sv →
  server_wf (handleJobForward post body now states sv).2.
Proof.
  intros Hst Hsv. unfold handleJobForward. destruct (negb post); [done|]. destruct body as [b|]; [|done].
  destruct (_ || _); [done|].
  pose proof (submit_new_bound (NewJob (peer_job_id b) (fj_ClientID b) (fj_JobType b) (fj_Payload b) now)
                (hs_queue sv) (proj2 (proj2 Hsv))) as Hb.
  destruct (submit_new _ _) as [[ok p] q]. simpl in Hb |- *.
  assert (server_wf (set_hs_queue q sv)) as Hsv' by by eapply set_queue_wf.
  specialize (Hst _ Hsv'). destruct (states _) as [|x l] using rev_ind; [done|].
  rewrite List.last_last. apply Forall_app in Hst as [_ Hx]. by rewrite Forall_singleton in Hx.
Qed.

Lemma peer_register_kept post body now m : mesh_wf_of m → mesh_wf_of (handlePeerRegister post body now m).2.
Proof.
  intros Hm. unfold handlePeerRegister. destruct (negb post), m as [m|], body as [b|]; try done.
  destruct (_ || _); [done|]. intros m' [= <-]. apply put_peer_wf; [by apply Hm|done].
Qed.

Lemma peer_introduce_kept id body now m : mesh_wf_of m → mesh_wf_of (handlePeerIntroduce id body now m).2.
Proof.
  intros Hm. unfold handlePeerIntroduce. destruct m as [m|], body as [b|]; try done.
  destruct (_ || _); [done|]. destruct (String.eqb _ _); [done|].
  intros m' [= <-]. apply put_peer_wf; [by apply Hm|done].
Qed.

Lemma peer_scan_kept probes m : mesh_wf_of m → mesh_wf_of (handlePeerScan probes m).2.
Proof.
  intros Hm. destruct m as [m|]; [|done]. intros m' [= <-]. unfold Rescan.
  apply (foldl_inv Mesh.wf); [by apply Hm|]. intros m0 [[[addr status] now] gossip] _ Hw.
  by apply probeSeed_keeps.
Qed.

Lemma client_register_kept post body t t' cm : Clients.wf cm → Clients.wf (handleClientRegister post body t t' cm).2.
Proof.
  intros Hc. unfold handleClientRegister. destruct (negb post), body as [[id nm]|]; try done.
  destruct (_ || _); [done|]. pose proof (register_wf id nm t t' _ Hc) as Hr.
  by destruct (Register _ _ _ _ _) as [[] ?].
Qed.

Lemma client_heartbeat_kept q body now cm : Clients.wf cm → Clients.wf (handleClientHeartbeatPath q body now cm).2.
Proof.
  intros Hc. unfold handleClientHeartbeatPath. destruct (String.eqb (if _ : bool then _ else _) ""); [done|].
  by eapply (client_op_wf _ (OHeartbeat _ now)).
Qed.

Lemma client_unregister_kept post body cm : Clients.wf cm → Clients.wf (handleClientUnregister post body cm).2.
Proof.
  intros Hc. unfold handleClientUnregister. destruct (negb post), body as [id|]; try done.
  by eapply (client_op_wf _ (OUnregister id)).
Qed.

(** *** The provider manager keeps its registry *)

Section registry.
Variable tags : string → option (list (string * Z)).
Variable v1_models : string → option (list string).
Variable host_of : string → option string.
Variable fmt_1f : f64 → string.
Variable id : string.
Variable now : Time.
Implicit Types pm : ProviderManager.

Lemma probe_registry url node pm :
  is_Some (pm_registry pm) → is_Some (pm_registry (probeOllama tags fmt_1f id now url node pm).2).
Proof. intros Hr. unfold probeOllama. destruct (tags _); [|done]. simpl. by apply fmap_is_Some. Qed.

Lemma peer_nodes_registry peers pm :
  is_Some (pm_registry pm) → is_Some (pm_registry (peer_nodes tags v1_models host_of fmt_1f id now peers pm).2).
Proof.
  revert pm. induction peers as [|p peers IH]; intros pm Hr; simpl; [done|].
  assert (is_Some (pm_registry (detectPeerProviders tags v1_models host_of fmt_1f id now p pm).2)) as H1.
  { unfold detectPeerProviders. destruct (host_of _) as [host|]; [|done].
    pose proof (probe_registry ("http://" +:+ host +:+ ":11434") (p_ServerID p) pm Hr) as Hp.
    by destruct (probeOllama _ _ _ _ _ _ _). }
  destruct (detectPeerProviders _ _ _ _ _ _ p pm) as [ps pm1]. specialize (IH pm1 H1).
  by destruct (peer_nodes _ _ _ _ _ _ peers pm1).
Qed.

Lemma nodes_registry peers pm :
  is_Some (pm_registry pm) → is_Some (pm_registry (GetNodes tags v1_models host_of fmt_1f id now peers pm).2).
Proof.
  intros Hr. unfold GetNodes. simpl. case_match; [|done]. unfold refresh, detectLocalProviders.
  pose proof (probe_registry (pm_ollamaURL pm) (selfID pm) pm Hr) as Hp.
  destruct (probeOllama _ _ _ _ _ _ _) as [o pm1]. pose proof (peer_nodes_registry peers pm1 Hp) as Hn.
  by destruct (peer_nodes _ _ _ _ _ _ peers pm1).
Qed.

End registry.

(** *** The three relations *)

Definition keeps_wf (s s' : hive) : Prop := hive_wf s → hive_wf s'.

#[global] Instance keeps_wf_refl : Reflexive keeps_wf.
Proof. by intros s Hs. Qed.
#[global] Instance mesh_or_logs_refl : Reflexive mesh_or_logs.
Proof. intros s. by split_and!. Qed.

Lemma wf_set_server sv s : server_wf sv → hive_wf s → hive_wf (set_hv_server sv s).
Proof. by intros Hsv (_ & Hr & Hw). Qed.

Lemma wf_set_mesh m s : mesh_wf_of m → hive_wf s → hive_wf (set_hv_mesh m s).
Proof. intros Hm Hs. apply wf_set_server; [|done]. by destruct Hs as [(Hc & _ & Hq) _]. Qed.

Lemma wf_set_clients c s : Clients.wf c → hive_wf s → hive_wf (set_hv_clients c s).
Proof. intros Hc Hs. apply wf_set_server; [|done]. by destruct Hs as [(_ & Hm & Hq) _]. Qed.

Lemma wf_set_provider pm s : is_Some (pm_registry pm) → hive_wf s → hive_wf (set_hv_provider pm s).
Proof. by intros Hr (Hsv & _ & Hw). Qed.

Lemma wf_set_agent w s : wf_kept (hv_agent s) w → hive_wf s → hive_wf (set_hv_agent w s).
Proof. intros Hk (Hsv & Hr & Hw). split_and!; [done..|by apply Hk]. Qed.

Lemma lists_wf m m' : lists_peers m m' → mesh_wf_of m → mesh_wf_of m'.
Proof. intros [_ Hk] Hm m1 ->. destruct m as [m0|]; [|done]. by apply Hk, Hm. Qed.

Lemma unchanged_limiter rl s : unchanged s (set_hv_limiter rl s).
Proof. split; try done; apply same_mesh_refl. Qed.

Lemma mesh_or_logs_limiter rl s : mesh_or_logs s (set_hv_limiter rl s).
Proof. by split_and!. Qed.

Lemma unchanged_mesh m s : same_mesh (hs_mesh (hv_server s)) m → unchanged s (set_hv_mesh m s).
Proof. intros Hm. by split. Qed.

Lemma unchanged_agent w s : same_tables (hv_agent s) w → unchanged s (set_hv_agent w s).
Proof. intros Hw. split; try done; apply same_mesh_refl. Qed.

Section table.
Context `{!Store, !GoSort}.
Variable getServerID : string.
Variable MeshEnabled : bool.
Variables (ollamaURL ollamaModel : string).
Variable MaxClients : Z.
Variable seedPeers : list string.
Variable agent_exists : bool.
Variable dashboardHTML : string.
Variable apiKey : string.
Variable fmt_time : Time → string.
Variable fmt_v : json → string.
Variables (fmt_1f fmt_f : f64 → string).
Variable peer_json : PeerInfo → json.
Variable sum_real : list f64 → f64.
Variable Sscanf_f : string → f64.
Variable tags : string → option (list (string * Z)).
Variable v1_models : string → option (list string).
Variable host_of : string → option string.
Variable audit_page : string → call → response.
Implicit Types (c : call) (s : hive).

Local Abbreviation table := (handlers getServerID MeshEnabled ollamaURL ollamaModel MaxClients seedPeers agent_exists
  dashboardHTML fmt_time fmt_v fmt_1f fmt_f peer_json sum_real Sscanf_f tags v1_models host_of audit_page).
Local Abbreviation serve := (serve_hive getServerID MeshEnabled ollamaURL ollamaModel MaxClients seedPeers agent_exists
  dashboardHTML apiKey fmt_time fmt_v fmt_1f fmt_f peer_json sum_real Sscanf_f tags v1_models host_of audit_page).

Local Abbreviation run := (run_handler getServerID MeshEnabled ollamaURL ollamaModel MaxClients seedPeers agent_exists
  dashboardHTML fmt_time fmt_v fmt_1f fmt_f peer_json sum_real Sscanf_f tags v1_models host_of audit_page).
Local Abbreviation serves := (serve_all getServerID MeshEnabled ollamaURL ollamaModel MaxClients seedPeers agent_exists
  dashboardHTML apiKey fmt_time fmt_v fmt_1f fmt_f peer_json sum_real Sscanf_f tags v1_models host_of audit_page).

Lemma nodes_respects (R : relation hive) c :
  (∀ m infos s, lists_peers (hs_mesh (hv_server s)) m →
     R s (set_hv_provider (handleNodes tags v1_models host_of fmt_1f getServerID (c_time c) infos (hv_provider s)).2
            (set_hv_mesh m s))) →
  respects R (nodes_call getServerID fmt_1f tags v1_models host_of c).
Proof.
  intros HR s s' o. unfold nodes_call, on_provider. pose proof (getPeers_lists (c_visits c) (hs_mesh (hv_server s))) as Hl.
  destruct (getPeers _ _) as [alive m]. specialize (HR m (match m with Some m => peer_at m <$> alive | None => [] end) s Hl).
  change (hv_provider (set_hv_mesh m s)) with (hv_provider s).
  destruct (handleNodes _ _ _ _ _ _ _ _) as [r pm]. by intros [= <- _].
Qed.

Lemma models_respects (R : relation hive) c :
  (∀ m s, lists_peers (hs_mesh (hv_server s)) m → R s (set_hv_mesh m s)) → respects R (models_call ollamaModel c).
Proof.
  intros HR s s' o. unfold models_call, GetAlivePeers.
  assert (∀ m, hs_mesh (hv_server s) = Some m → lists_peers (Some m) (Some (ask_all (c_lists c)
            (alive_loop (c_visits c) m).1 (alive_loop (c_visits c) m).2).2)) as Hl.
  { intros m _. pose proof (alive_lists (c_visits c) m) as [H1 H2].
    destruct (ask_all_same (c_lists c) (alive_loop (c_visits c) m).1 (alive_loop (c_visits c) m).2) as [H3 H4].
    split; simpl in *; by etrans. }
  destruct (hs_mesh (hv_server s)) as [m|] eqn:Hm; [|intros [= <- _]; apply HR; rewrite Hm; apply lists_peers_refl].
  specialize (Hl m eq_refl). destruct (alive_loop (c_visits c) m) as [alive m1]. simpl in Hl.
  destruct (ask_all (c_lists c) alive m1) as [lists m2]. intros [= <- _]. apply HR. by rewrite Hm.
Qed.

Lemma histogram_reads (R : relation hive) `{!Reflexive R} c :
  respects R (λ s, r ← handleUsageHistogram Sscanf_f (hv_usage s) (c_fault c) (c_now c) (c_query c); Some (s, OReply r)).
Proof. intros s s' o. destruct (handleUsageHistogram _ _ _ _ _); [|done]. by intros [= <- _]. Qed.

Lemma provider_wf f :
  (∀ pm, is_Some (pm_registry pm) → is_Some (pm_registry (f pm).2)) → respects keeps_wf (on_provider f).
Proof. intros Hf. apply respects_provider. intros s Hs. apply wf_set_provider; [|done]. apply Hf, Hs. Qed.

Lemma mesh_wf f : (∀ m, mesh_wf_of m → mesh_wf_of (f m).2) → respects keeps_wf (on_mesh f).
Proof. intros Hf. apply respects_mesh. intros s Hs. apply wf_set_mesh; [|done]. apply Hf, Hs. Qed.

Lemma mesh_listing_wf f : (∀ m, lists_peers m (f m).2) → respects keeps_wf (on_mesh f).
Proof. intros Hf. apply mesh_wf. intros m. by apply lists_wf. Qed.

Lemma clients_wf f : (∀ cm, Clients.wf cm → Clients.wf (f cm).2) → respects keeps_wf (on_clients f).
Proof. intros Hf. apply respects_clients. intros s Hs. apply wf_set_clients; [|done]. apply Hf, Hs. Qed.

Lemma agent_wf m : keeps wf_kept m → respects keeps_wf (on_agent m).
Proof. intros Hm. eapply respects_agent; [exact Hm|]. intros w s Hw Hs. by apply wf_set_agent. Qed.

Lemma server_wf_kept f : (∀ sv, server_wf sv → server_wf (f sv).2) → respects keeps_wf (on_server f).
Proof. intros Hf. apply respects_server. intros s Hs. apply wf_set_server; [|done]. apply Hf, Hs. Qed.

Lemma status_wf id up url om mc me hw rs ord rd sv :
  server_wf sv → server_wf (handleStatus id up url om mc me hw rs ord rd sv).2.
Proof.
  intros (Hc & Hm & Hq). destruct (status_lists id up url om mc me hw rs ord rd sv) as (H1 & H2 & H3).
  split_and!; [by rewrite H1|by eapply lists_wf|by rewrite H2].
Qed.

Lemma jobs_wf c sv :
  calm c → server_wf sv →
  server_wf (handleJobs getServerID MeshEnabled fmt_time (Method (c_request c)) (c_submit c) (c_job c) (c_running c)
               (c_completed c) (c_rd c) sv).2.
Proof.
  intros Hcalm Hsv. unfold handleJobs. destruct (String.eqb _ "GET"); [done|].
  destruct (String.eqb _ "POST"); [|done]. apply submitJob_wf; [|done]. intros sv' Hv. by apply Hcalm.
Qed.

Lemma chat_call_wf c :
  calm c → respects keeps_wf (chat_call getServerID ollamaURL ollamaModel agent_exists fmt_v c).
Proof.
  intros Hcalm s s' o. unfold chat_call. destruct (pm_registry _) as [mr|]; simpl; [|done].
  pose proof (chat_wf fmt_v ollamaURL ollamaModel (hs_mesh (hv_server s)) getServerID (Method (c_request c)) (c_read c)
    (c_chat c) agent_exists mr (c_outside c) (hv_agent s)) as Hk.
  destruct (handleOpenAIChatCompletions _ _ _ _ _ _ _ _ _ _ _ _) as [[[r mr']|e] w]; [|done].
  intros [= <- _] (Hsv & _ & Hw). split_and!; simpl; [by apply Hcalm|done|by apply Hk].
Qed.

(** Every handler of the table. *)
Lemma handlers_wf c : calm c → Forall (λ h, respects keeps_wf h.2) (table c).
Proof.
  intros Hcalm.
  assert (∀ ep, respects keeps_wf (agent_call ollamaModel agent_exists fmt_v ep c)) as Hagent
    by (intros ep; apply agent_wf, serve_agent_wf).
  unfold handlers. repeat (apply Forall_cons; split; [simpl|]); try apply Forall_nil_2; try apply Hagent;
    try (by apply respects_reads); try (by intros s s' o [= <- _]).
  - apply server_wf_kept. intros sv. apply status_wf.
  - apply clients_wf. intros cm. apply client_register_kept.
  - apply clients_wf. intros cm. apply client_heartbeat_kept.
  - apply clients_wf. intros cm. apply client_unregister_kept.
  - apply server_wf_kept. intros sv. by apply jobs_wf.
  - apply server_wf_kept. intros sv Hsv. apply forward_wf; [|done]. intros sv' Hv. by apply Hcalm.
  - apply mesh_listing_wf. intros m. apply peers_lists.
  - apply mesh_wf. intros m. apply peer_register_kept.
  - apply mesh_wf. intros m. apply peer_introduce_kept.
  - apply mesh_wf. intros m. apply peer_scan_kept.
  - apply mesh_listing_wf. intros m. apply diagnostics_lists.
  - apply nodes_respects. intros m infos s Hl Hs. apply wf_set_provider.
    + unfold handleNodes. pose proof (nodes_registry tags v1_models host_of fmt_1f getServerID (c_time c) infos
        (hv_provider s) (proj1 (proj2 Hs))) as Hr. by destruct (GetNodes _ _ _ _ _ _ _ _).
    + apply wf_set_mesh; [|done]. eapply lists_wf; [exact Hl|apply Hs].
  - apply provider_wf. intros pm. apply nodes_registry.
  - apply provider_wf. intros pm Hr. unfold handleModels, GetAggregatedModels.
    pose proof (nodes_registry tags v1_models host_of fmt_1f getServerID (c_time c) [] pm Hr) as Hn.
    by destruct (GetNodes _ _ _ _ _ _ _ _).
  - intros s s' o. destruct (handleLogsClear _ _). by intros [= <- _] Hs.
  - apply histogram_reads, _.
  - apply agent_wf, reads_kept, agent_models_read.
  - by apply chat_call_wf.
  - apply models_respects. intros m s Hl Hs. apply wf_set_mesh; [|done]. eapply lists_wf; [exact Hl|apply Hs].
Qed.

(** Every handler but the histogram's answers whatever the request. *)
Definition answers (h : hive → panics (hive * outcome)) : Prop := ∀ s, hive_wf s → is_Some (h s).

Lemma agent_answers m : replies m → answers (on_agent m).
Proof. intros Hm s _. unfold on_agent. destruct (Hm (hv_agent s)) as (r & w & ->). by eexists. Qed.

Lemma chat_answers c : answers (chat_call getServerID ollamaURL ollamaModel agent_exists fmt_v c).
Proof.
  intros s (_ & [mr Hmr] & _). unfold chat_call. rewrite Hmr. simpl.
  destruct (chat_replies fmt_v ollamaURL ollamaModel (hs_mesh (hv_server s)) getServerID (Method (c_request c)) (c_read c)
    (c_chat c) agent_exists mr (c_outside c) (hv_agent s)) as ([r mr'] & w & ->). by eexists.
Qed.

Lemma handlers_answer c : Forall (λ h, h.1 ≠ "handleUsageHistogram" → answers h.2) (table c).
Proof.
  assert (∀ ep, answers (agent_call ollamaModel agent_exists fmt_v ep c)) as Hcall
    by (intros ep; apply agent_answers, serve_agent_replies).
  unfold handlers. repeat (apply Forall_cons; split; [simpl|]); try apply Forall_nil_2; try done;
    intros _; try apply Hcall; try (by intros s _; eexists);
    try (intros s _; unfold on_server, on_mesh, on_clients, on_provider; case_match; by eexists).
  - intros s _. unfold nodes_call, on_provider. repeat case_match; by eexists.
  - apply agent_answers, agent_models_replies.
  - apply chat_answers.
  - intros s _. unfold models_call. repeat case_match; by eexists.
Qed.

(** The handlers that read, and those the key is not asked for. *)
Lemma jobs_read c sv :
  Method (c_request c) = "GET" ∨ Method (c_request c) = "HEAD" →
  (handleJobs getServerID MeshEnabled fmt_time (Method (c_request c)) (c_submit c) (c_job c) (c_running c)
     (c_completed c) (c_rd c) sv).2 = sv.
Proof. intros [->| ->]; done. Qed.

Lemma agent_unchanged m : keeps same_tables m → respects unchanged (on_agent m).
Proof. intros Hm. eapply respects_agent; [exact Hm|]. intros w s. apply unchanged_agent. Qed.

Lemma mesh_unchanged f : (∀ m, lists_peers m (f m).2) → respects unchanged (on_mesh f).
Proof. intros Hf. apply respects_mesh. intros s. apply unchanged_mesh, Hf. Qed.

Lemma provider_unchanged pm s : unchanged s (set_hv_provider pm s).
Proof. split; try done; apply same_mesh_refl. Qed.

Lemma handlers_safe c :
  Method (c_request c) = "GET" ∨ Method (c_request c) = "HEAD" →
  Forall (λ h, among writers h.1 = false → respects unchanged h.2) (table c).
Proof.
  intros Hm.
  assert (∀ ep, reading ep = true → respects unchanged (agent_call ollamaModel agent_exists fmt_v ep c)) as Hagent
    by (intros ep He; by apply agent_unchanged, serve_agent_reads).
  unfold handlers. repeat (apply Forall_cons; split; [simpl; intros Hw; try (by vm_compute in Hw); clear Hw|]);
    try apply Forall_nil_2; try (by apply Hagent); try (by apply respects_reads, _);
    try (intros s s' o [= <- _]; apply unchanged_refl).
  - apply respects_server. intros s.
    destruct (status_lists getServerID (c_uptime c) ollamaURL ollamaModel MaxClients MeshEnabled (c_hardware c)
                (c_visits c) (c_running c) (c_rd c) (hv_server s)) as (H1 & H2 & [H3 _]).
    by split.
  - apply respects_server. intros s. rewrite jobs_read by done. by destruct s.
  - apply mesh_unchanged. intros m. apply peers_lists.
  - apply mesh_unchanged. intros m. apply diagnostics_lists.
  - apply nodes_respects. intros m infos s [Hs _]. by split.
  - apply respects_provider. intros s. apply provider_unchanged.
  - apply respects_provider. intros s. apply provider_unchanged.
  - apply histogram_reads, _.
  - apply agent_unchanged, agent_models_read.
  - apply models_respects. intros m s [Hs _]. by apply unchanged_mesh.
Qed.

Lemma handlers_open c : Forall (λ h, among open_handlers h.1 = true → respects mesh_or_logs h.2) (table c).
Proof.
  unfold handlers. repeat (apply Forall_cons; split; [simpl; intros Hw; try (by vm_compute in Hw); clear Hw|]);
    try apply Forall_nil_2; try (by apply respects_reads, _);
    try (apply respects_mesh; intros s; by split_and!); try (intros s s' o [= <- _]; by split_and!).
  - apply respects_server. intros s.
    destruct (status_lists getServerID (c_uptime c) ollamaURL ollamaModel MaxClients MeshEnabled (c_hardware c)
                (c_visits c) (c_running c) (c_rd c) (hv_server s)) as (H1 & H2 & _).
    by split_and!.
  - intros s s' o. destruct (handleLogsClear _ _). intros [= <- _]. by split_and!.
Qed.

(** Every name a route has is in the table. *)
Lemma run_handler_in m path name c s :
  mux m path = Some name → ∃ h, (name, h) ∈ table c ∧ run name c s = h s.
Proof.
  intros Hmux. destruct (mux_check (λ e, among (table c).*1 e.2) m path name) as (p & Hin & _); [by vm_compute|done|].
  unfold run_handler. destruct (List.find _ (table c)) as [[n h]|] eqn:Hf.
  - apply List.find_some in Hf as [Hf Hn%String.eqb_eq]. simpl in Hn. subst n. exists h.
    split; [by apply list_elem_of_In|done].
  - exfalso. cbn [snd] in Hin. unfold among in Hin. apply existsb_exists in Hin as (n & Hn & He).
    apply list_elem_of_In, list_elem_of_fmap in Hn as ([n' h] & -> & Hh).
    pose proof (List.find_none _ _ Hf (n', h) (proj1 (list_elem_of_In _ _) Hh)) as Hno.
    simpl in Hno, He. by rewrite He in Hno.
Qed.

(** A request is refused by the middleware, answered without a handler, or
    answered by the handler of its route. *)
Lemma serve_cases c s :
  let '(refusal, rl) := AuthMiddleware apiKey (hv_limiter s) (c_request c) (c_time c) (c_time' c) in
  match refusal with
  | Some e => serve c s = Some (set_hv_limiter rl s, OReply e)
  | None => (∃ o, serve c s = Some (set_hv_limiter rl s, o)) ∨
            ∃ name h, Method (c_request c) ≠ "OPTIONS" ∧ mux (Method (c_request c)) (Path (c_request c)) = Some name ∧
              (name, h) ∈ table c ∧ serve c s = h (set_hv_limiter rl s)
  end.
Proof.
  unfold serve_hive. destruct (AuthMiddleware _ _ _ _ _) as [[e|] rl]; [done|].
  destruct (String.eqb_spec (Method (c_request c)) "OPTIONS") as [Ho|Ho]; [left; by eexists|].
  destruct (mux _ _) as [name|] eqn:Hm; [|left; by eexists]. right.
  destruct (run_handler_in _ _ name c (set_hv_limiter rl s) Hm) as (h & Hh & Hrun). by exists name, h.
Qed.

Lemma serve_keeps_wf c s : calm c → hive_wf s → ∀ s' o, serve c s = Some (s', o) → hive_wf s'.
Proof.
  intros Hc Hs s' o Hserve. pose proof (serve_cases c s) as Hcase.
  destruct (AuthMiddleware _ _ _ _ _) as [[e|] rl]; [by rewrite Hserve in Hcase; simplify_eq|].
  destruct Hcase as [[o' Ho]|(name & h & _ & _ & Hh & Hr)]; [by rewrite Ho in Hserve; simplify_eq|].
  rewrite Hr in Hserve. pose proof (handlers_wf c Hc) as Hall. rewrite Forall_forall in Hall.
  by apply (Hall _ Hh _ _ _ Hserve).
Qed.



(** C6: What the key protects.  With a key configured, a request that does not
    present it is refused, and changes nothing but the limiter, unless its
    path is one of those the key is not asked for; and then it can still
    change nothing but the peers and the log. *)
Theorem key_protects c s s' o :
  apiKey ≠ "" → presented_key (c_request c) ≠ apiKey → serve c s = Some (s', o) →
  mesh_or_logs s s' ∧
  (exempt (c_request c) = false → keyless (Path (c_request c)) = false →
     (∃ rl, s' = set_hv_limiter rl s) ∧
     ∃ r, o = OReply r ∧ (rs_code r = StatusUnauthorized ∨ rs_code r = StatusTooManyRequests)).
Proof.
  intros Hkey Hpres Hserve. pose proof (serve_cases c s) as Hcase.
  assert (∀ refusal rl, AuthMiddleware apiKey (hv_limiter s) (c_request c) (c_time c) (c_time' c) = (refusal, rl) →
    match refusal with
    | Some r => rs_code r = StatusUnauthorized ∨ rs_code r = StatusTooManyRequests
    | None => exempt (c_request c) = true ∨ keyless (Path (c_request c)) = true
    end) as Hauth.
  { unfold AuthMiddleware. destruct (exempt _); [intros ? ? [= <- _]; by left|].
    destruct (Allow _ _ _ _) as [[] rl1]; [|intros ? ? [= <- _]; by right].
    rewrite (proj2 (String.eqb_neq _ _) Hkey). simpl. destruct (keyless _); [intros ? ? [= <- _]; by right|].
    rewrite (proj2 (String.eqb_neq _ _) Hpres). simpl. intros ? ? [= <- _]. by left. }
  destruct (AuthMiddleware _ _ _ _ _) as [[e|] rl] eqn:Ha; specialize (Hauth _ _ eq_refl); simpl in Hauth.
  { rewrite Hserve in Hcase. simplify_eq. split; [by apply mesh_or_logs_limiter|]. intros _ _.
    split; [by eexists|]. by exists e. }
  split; [|intros He Hk; rewrite He, Hk in Hauth; by destruct Hauth].
  destruct Hcase as [[o' Ho]|(name & h & Hno & Hmux & Hh & Hr)].
  { rewrite Ho in Hserve. simplify_eq. by apply mesh_or_logs_limiter. }
  rewrite Hr in Hserve. pose proof (handlers_open c) as Hall. rewrite Forall_forall in Hall.
  apply (Hall _ Hh (open_route _ _ Hauth Hno Hmux) _ _ _ Hserve).
Qed.

(** The peers are among what the key is not asked for: anyone registers one,
    to which jobs are then forwarded. *)
Lemma peers_open_without_key c s m b :
  Path (c_request c) = "/api/peers/register" → Method (c_request c) = "POST" →
  (Allow (hv_limiter s) (clientIP (c_request c)) (c_time c) (c_time' c)).1 = true →
  hs_mesh (hv_server s) = Some m → Mesh.wf m → c_peer c = Some b → pb_ServerID b ≠ "" → pb_Endpoint b ≠ "" →
  ∃ s' o m' p, serve c s = Some (s', o) ∧ hs_mesh (hv_server s') = Some m' ∧
    peer_of m' (pb_ServerID b) = Some p ∧ p_Endpoint p = pb_Endpoint b.
Proof.
  intros Hpath Hmeth Hallow Hm Hwf Hb Hid Hep.
  assert (∃ rl, AuthMiddleware apiKey (hv_limiter s) (c_request c) (c_time c) (c_time' c) = (None, rl)) as [rl Ha].
  { unfold AuthMiddleware, exempt. rewrite Hpath, Hmeth. simpl. destruct (Allow _ _ _ _) as [[] rl]; [|done].
    exists rl. by case_match. }
  assert (mux "POST" "/api/peers/register" = Some "handlePeerRegister") as Hmux by by vm_compute.
  unfold serve_hive. rewrite Ha, Hpath, Hmeth, Hmux.
  change (String.eqb "POST" "OPTIONS") with false. cbv iota.
  change (run "handlePeerRegister" c (set_hv_limiter rl s))
    with (on_mesh (handlePeerRegister (is_POST c) (c_peer c) (c_now c)) (set_hv_limiter rl s)).
  unfold on_mesh, handlePeerRegister, is_POST. simpl. rewrite Hmeth, Hm, Hb. simpl.
  rewrite (proj2 (String.eqb_neq _ _) Hid), (proj2 (String.eqb_neq _ _) Hep). simpl.
  eexists _, _, _, _. split; [done|]. split; [done|].
  unfold RegisterPeer. rewrite put_peer_of by done. rewrite decide_True by done. by split.
Qed.

End table.

(** ** Witnesses *)

Definition example_hive : hive :=
  mk_hive (mk_server (NewClientManager 10) (NewOllamaQueue example_cfg example_heap) (Some example_mesh))
    example_pm empty_world initial_logs (initial_metrics 0) None (NewRateLimiter 100 Minute).

Definition example_request (meth path key : string) : Request := mk_Request path meth "10.0.0.9" "" "" key.

Definition example_call (meth path key : string) : call :=
  mk_call (example_request meth path key) (λ _, "") (Some example_body) None (Some ("a", "laptop")) None None None
    (Err "") true (f64_of_Z 200) (f64_of_Z 200) 0 0 example_rs [] [] [] (λ _, 0) [] [] example_env (λ _, [])
    (mk_aenv None None example_answers) example_outside (λ sv, sv) [] (Err "") None None (λ _, (None, 0, 0)) None None
    true None [] "1h" JNull.

Definition example_serve (apiKey : string) : call → hive → panics (hive * outcome) :=
  @serve_hive ticking insertion_sort "a" true "http://localhost:11434" "llama3" 10 [] true "<html>" apiKey (λ _, "")
    (λ _, "") (λ _, "") (λ _, "") (λ _, JNull) sum_in_order (λ _, f64_zero) example_tags (λ _, None) (λ _, None)
    (λ _ _, http_Error "" StatusNotFound).

Definition after (r : panics (hive * outcome)) : hive := from_opt example_hive (fst <$> r).

Lemma example_hive_wf : hive_wf example_hive.
Proof.
  split_and!; [split_and!| |apply empty_wf].
  - apply new_wf.
  - intros m [= <-]. unfold example_mesh. apply mesh_run_wf, new_mesh_wf.
  - by vm_compute.
  - by eexists.
Qed.

Lemma example_calm meth path key : calm (example_call meth path key).
Proof. intros sv Hsv. split_and!; [done|apply Forall_nil_2|done]. Qed.



Lemma key_protects_witness :
  let s := after (example_serve "secret" (example_call "POST" "/api/jobs" "guess") example_hive) in
  size (RateLimit.clients (hv_limiter s)) = 1%nat ∧ mesh_or_logs example_hive s.
Proof.
  split; [by vm_compute|].
  eapply (@key_protects ticking insertion_sort "a" true "http://localhost:11434" "llama3" 10 [] true "<html>" "secret"
    (λ _, "") (λ _, "") (λ _, "") (λ _, "") (λ _, JNull) sum_in_order (λ _, f64_zero) example_tags (λ _, None)
    (λ _, None) (λ _ _, http_Error "" StatusNotFound) (example_call "POST" "/api/jobs" "guess") example_hive).
  - done.
  - by vm_compute.
  - reflexivity.
Defined.
