(* ===== verification/Startup.v ===== *)
(** * Construction and start of the mesh server ([hive-server-go/main.go],
      [handlers.go], [reporting.go], [db.go])

    What [main] does before it serves: it opens the database, builds the
    server of its components, starts the queue and the mesh, and creates the
    audit trail.  Five functions that [NewHiveServer] calls and two methods
    of its queue are defined nowhere in the repository; they are variables. *)

From S2P Require Import Prelude GoFloat GoText GoHttp GoScan Job PrioQueue Circuit RateLimit Cache.
From S2P Require Import ModelRegistry ModelContext MeshNet Mesh MeshLoops AgentDB AuditTrail Clients.
From S2P Require Import Provider Settings Prometheus Status.

Local Open Scope string_scope.
Local Open Scope list_scope.
Local Open Scope Z_scope.

(** ** The database *)

(** The store is known by the file it opened. *)
Record DBStore := mk_DBStore { db_path : string }.

(** What SQLite answers for a file: the errors of opening it, of the two
    pragmas, which are only logged, of the ping and of the schema. *)
Record sqlite_replies := mk_replies {
  re_open : option string;
  re_journal_mode : option string;
  re_busy_timeout : option string;
  re_ping : option string;
  re_schema : option string }.

(** The variables the reports read. *)
Record globals := mk_globals {
  defaultDB : option DBStore;
  servingNodeID : string;
  servingType : string }.

(** ** The server *)

Record ServerConfig := mk_ServerConfig {
  sc_OllamaURL : string;
  sc_OllamaModel : string;
  sc_ServerPort : Z;
  sc_MaxConcurrent : Z;
  sc_MeshEnabled : bool;
  sc_MaxClients : Z;
  sc_CustomProviderURLs : list string;
  sc_Cache : option (Z * Z) }.

Record ModelContextDetector := mk_detector {
  mcd_cache : gmap string ModelContextWindow;
  mcd_ollamaURL : string }.

(** The queue and the mesh it shares with the server are not repeated. *)
Record CodingAgentManager := mk_cam {
  cam_db : DBStore;
  cam_detector : ModelContextDetector;
  cam_serverID : string;
  cam_sessions : gmap string CodingAgentSession }.

(** The model registry is the one of the provider manager, which shares it. *)
Record HiveServer `{CacheLib} `{PromLib} := mk_HiveServer {
  hv_queue : PriorityQueue;
  hv_mesh : option MeshDiscovery;
  hv_clients : ClientManager;
  hv_cfg : ServerConfig;
  hv_providerMgr : ProviderManager;
  hv_codingAgent : option CodingAgentManager;
  hv_cache : ResponseCache;
  hv_circuitBreaker : CircuitBreakerManager;
  hv_metrics : registry }.

(** What runs when [main] comes to its listener: the server, the goroutines
    of its mesh, the limiter and the audit trail. *)
Record running `{CacheLib} `{PromLib} := mk_running {
  rn_server : HiveServer;
  rn_mesh : option net;
  rn_limiter : RateLimiter;
  rn_audit : AuditTrail.sys }.

Section startup.
Context `{CL : CacheLib} `{PL : PromLib}.
(** The environment, the files, the YAML library, the machine, the network
    interfaces, the host of a URL, SQLite, and the cache library's refusal of
    a configuration. *)
Variable env : string → string.
Variable read_file : string → file_read.
Variable unmarshal : string → result ConfigFile.
Variable exists_path : string → bool.
Variable hostname : string.
Variable ifaces : option (list iface).
Variable url_host : string → option string.
Variable sqlite : string → sqlite_replies.
Variable ristretto_NewCache : Z → Z → Z → option string.
(** The metrics already registered with the Prometheus library. *)
Variable prometheus_default : registry.
(** Called and defined nowhere. *)
Variable NewResponseCacheNoop : ResponseCache.
Variable SetConfig : CircuitBreakerConfig → CircuitBreakerManager → CircuitBreakerManager.
Variable SetCircuitBreaker : CircuitBreakerManager → ProviderManager → ProviderManager.
Variable SetMetrics : registry → ProviderManager → ProviderManager.
Variable SetCallbacks : PriorityQueue → Z → ProviderManager → MeshDiscovery → MeshDiscovery.
Variable queue_Start : PriorityQueue → PriorityQueue.

(** [getServerID()]. *)
Definition server_id : string := getServerID hostname (env "SERVER_ID").

(** ** Opening the database *)

Definition NewDBStore (path : string) : result DBStore :=
  let path := if String.eqb path "" then env "HIVE_DB_PATH" else path in
  let path := if String.eqb path "" then "/data/hive-server.db" else path in
  match re_open (sqlite path) with
  | Some e => Err ("open db: " +:+ e)
  | None =>
      match re_ping (sqlite path) with
      | Some e => Err ("ping db: " +:+ e)
      | None =>
          match re_schema (sqlite path) with
          | Some e => Err ("migrate: " +:+ e)
          | None => Ok (mk_DBStore path)
          end
      end
  end.

(** Without the database the other two variables keep their zero values. *)
Definition initDB : globals :=
  let path := if String.eqb (env "HIVE_DB_PATH") "" then "./hive-server.db" else env "HIVE_DB_PATH" in
  match NewDBStore path with
  | Err _ => mk_globals None "" ""
  | Ok db => mk_globals (Some db) server_id (detectServingType exists_path (env "SERVING_TYPE"))
  end.

(** ** Constructors *)

Definition NewModelContextDetector (ollamaURL : string) : ModelContextDetector := mk_detector ∅ ollamaURL.

(** The queue is only read for its address; a nil queue panics. *)
Definition NewCodingAgentManager (db : DBStore) (queue_ollamaURL : option string) (serverID : string) :
    panics CodingAgentManager :=
  url ← queue_ollamaURL; Some (mk_cam db (NewModelContextDetector url) serverID ∅).

Definition new_cache (c : CacheConfig) : result ResponseCache :=
  match ristretto_NewCache (int_mul (MaxEntries c) 10) (MaxEntries c) 64 with
  | Some e => Err ("failed to create cache: " +:+ e)
  | None => Ok (NewResponseCache c)
  end.

Definition new_mesh (serverID : string) (serverPort discoveryPort maxConcurrent : Z) (ollamaModel : string) :
    MeshDiscovery :=
  NewMeshDiscovery serverID serverPort discoveryPort maxConcurrent ollamaModel
    (resolveAnnounceAddress url_host (env "MESH_ANNOUNCE_ADDRESS") ifaces serverPort)
    (parseModelMap (env "MESH_MODEL_MAP")).

(** The table is created through the store, so a nil store panics; errors of
    the statement are only logged. *)
Definition start_audit (db : option DBStore) : panics AuditTrail.sys :=
  _ ← db; Some NewAuditTrailManager.

Definition NewHiveServer (g : globals) (cfg : ServerConfig) : panics HiveServer :=
  let queue := NewPriorityQueue in
  let mesh := if sc_MeshEnabled cfg
              then Some (new_mesh server_id (sc_ServerPort cfg) (getEnvInt (env "MESH_DISCOVERY_PORT") 8082)
                           (sc_MaxConcurrent cfg) (sc_OllamaModel cfg))
              else None in
  let cache := match new_cache (server_cache_config env) with Ok c => c | Err _ => NewResponseCacheNoop end in
  let circuitBreaker := SetConfig (server_breaker_config env) NewCircuitBreakerManager in
  metrics ← NewMetricsManager prometheus_default;
  let providerMgr := NewProviderManager server_id (sc_ServerPort cfg) (sc_OllamaURL cfg)
                       (sc_CustomProviderURLs cfg) (Some NewModelRegistry) in
  let providerMgr := SetMetrics metrics (SetCircuitBreaker circuitBreaker providerMgr) in
  let mesh := SetCallbacks queue (sc_MaxConcurrent cfg) providerMgr <$> mesh in
  cam ← match defaultDB g with
        | Some db => Some <$> NewCodingAgentManager db None server_id
        | None => Some None
        end;
  Some (mk_HiveServer _ _ queue mesh (NewClientManager (sc_MaxClients cfg)) cfg providerMgr cam cache
          circuitBreaker metrics).

(** [hs.Start()]: the loop that removes silent clients is [Clients]'s. *)
Definition Start (hs : HiveServer) : HiveServer * option net :=
  (mk_HiveServer _ _ (queue_Start (hv_queue hs)) (hv_mesh hs) (hv_clients hs) (hv_cfg hs) (hv_providerMgr hs)
     (hv_codingAgent hs) (hv_cache hs) (hv_circuitBreaker hs) (hv_metrics hs),
   (λ m, MeshLoops.Start m (getSeedPeers url_host (env "MESH_SEED_PEERS"))) <$> hv_mesh hs).

(** ** [main] up to its listener *)

Definition main_config : ServerConfig :=
  let s := main_settings env read_file unmarshal in
  mk_ServerConfig (st_ollamaURL s) (st_ollamaModel s) (st_serverPort s) (st_maxConcurrent s) (meshEnabled env)
    (st_maxClients s) (st_customProviders s) (main_cache env (loaded env read_file unmarshal)).

Definition main_start : panics running :=
  let g := initDB in
  hs ← NewHiveServer g main_config;
  let (hs, mesh) := Start hs in
  atm ← start_audit (defaultDB g);
  Some (mk_running _ _ hs mesh (main_limiter env) atm).

(** ** Properties *)

(** The store that is opened lies where [HIVE_DB_PATH] says, and without the
    variable in the working directory: the path the documentation gives as
    the default is the fallback of [NewDBStore], which [initDB] never
    reaches. *)
Theorem store_path db :
  defaultDB initDB = Some db →
  db_path db = (if decide (env "HIVE_DB_PATH" = "") then "./hive-server.db" else env "HIVE_DB_PATH") ∧
  servingNodeID initDB = server_id ∧ re_open (sqlite (db_path db)) = None ∧
  re_ping (sqlite (db_path db)) = None ∧ re_schema (sqlite (db_path db)) = None.
Proof.
  unfold initDB, NewDBStore. destruct (String.eqb_spec (env "HIVE_DB_PATH") "") as [->|Hne].
  - rewrite decide_True by done. simpl. repeat case_match; intros [= <-]; simplify_eq; done.
  - rewrite decide_False, (proj2 (String.eqb_neq _ _) Hne) by done. cbn [negb].
    rewrite (proj2 (String.eqb_neq _ _) Hne). repeat case_match; intros [= <-]; simplify_eq; done.
Qed.

(** With a store the coding agent is built, from a queue that is nil. *)
Lemma NewHiveServer_with_store g cfg : is_Some (defaultDB g) → NewHiveServer g cfg = None.
Proof.
  intros [db Hdb]. unfold NewHiveServer. rewrite Hdb. by destruct (NewMetricsManager prometheus_default).
Qed.

(** The server as built: every component in its first state and with the
    settings of the environment. *)
Definition as_built (cfg : ServerConfig) (hs : HiveServer) : Prop :=
  hv_queue hs = NewPriorityQueue ∧ hv_cfg hs = cfg ∧ hv_codingAgent hs = None ∧
  hv_clients hs = NewClientManager (sc_MaxClients cfg) ∧
  hv_circuitBreaker hs = SetConfig (server_breaker_config env) NewCircuitBreakerManager ∧
  (hv_mesh hs = if sc_MeshEnabled cfg
                then SetCallbacks (hv_queue hs) (sc_MaxConcurrent cfg) (hv_providerMgr hs) <$>
                       Some (new_mesh server_id (sc_ServerPort cfg) (getEnvInt (env "MESH_DISCOVERY_PORT") 8082)
                               (sc_MaxConcurrent cfg) (sc_OllamaModel cfg))
                else None) ∧
  (hv_cache hs = NewResponseCacheNoop ∨ hv_cache hs = NewResponseCache (server_cache_config env)).

Lemma NewHiveServer_without_store g cfg r :
  defaultDB g = None → NewMetricsManager prometheus_default = Some r →
  ∃ hs, NewHiveServer g cfg = Some hs ∧ as_built cfg hs ∧ hv_metrics hs = r.
Proof.
  intros Hdb Hm. unfold NewHiveServer. rewrite Hm, Hdb. cbn [mbind option_bind].
  eexists. split; [done|]. unfold as_built. cbn [hv_queue hv_mesh hv_clients hv_cfg hv_providerMgr hv_codingAgent
    hv_cache hv_circuitBreaker hv_metrics]. split_and!; try done.
  - by destruct (sc_MeshEnabled cfg).
  - unfold new_cache. destruct (ristretto_NewCache _ _ _); auto.
Qed.

(** C13: The server never comes to its listener.  If the database opens, the
    construction of the coding agent dereferences a queue that is nil; if it
    does not, the server is built without the agent, and then the audit trail
    dereferences the store that is nil. *)
Theorem main_never_listens :
  main_start = None ∧
  (is_Some (defaultDB initDB) → NewHiveServer initDB main_config = None) ∧
  (defaultDB initDB = None → ∀ r, NewMetricsManager prometheus_default = Some r →
     ∃ hs, NewHiveServer initDB main_config = Some hs ∧ as_built main_config hs ∧
       start_audit (defaultDB initDB) = None).
Proof.
  split_and!.
  - unfold main_start. destruct (defaultDB initDB) as [db|] eqn:Hdb.
    + by rewrite NewHiveServer_with_store by by eexists.
    + by destruct (NewHiveServer initDB main_config).
  - apply NewHiveServer_with_store.
  - intros Hdb r Hr. destruct (NewHiveServer_without_store initDB main_config r Hdb Hr) as (hs & Hhs & Hb & _).
    exists hs. by rewrite Hdb.
Qed.

End startup.

(** ** Witnesses *)

Definition example_env : string → string := λ _, "".
Definition example_sqlite : string → sqlite_replies := λ _, mk_replies None None None None None.

Lemma store_path_witness :
  db_path (from_opt (mk_DBStore "") (defaultDB (initDB example_env (λ _, false) "host" example_sqlite))) =
    "./hive-server.db".
Proof.
  refine (proj1 (store_path example_env (λ _, false) "host" example_sqlite (mk_DBStore "./hive-server.db") _)).
  by vm_compute.
Defined.

(** A machine whose database opens: it has a store, and does not start. *)
Lemma main_never_listens_witness :
  is_Some (defaultDB (initDB example_env (λ _, false) "host" example_sqlite)) ∧
  main_start (CL := Cache.map_cache) (PL := Prometheus.example_lib) example_env (λ _, FileMissing) (λ _, Err "")
    (λ _, false) "host" None (λ _, None) example_sqlite (λ _ _ _, None) ([], [])
    (NewResponseCache (server_cache_config example_env)) (λ _ m, m) (λ _ p, p) (λ _ p, p) (λ _ _ _ m, m)
    (λ q, q) = None.
Proof.
  split; [by eexists|].
  apply (main_never_listens (CL := Cache.map_cache) (PL := Prometheus.example_lib) example_env (λ _, FileMissing)
           (λ _, Err "") (λ _, false) "host" None (λ _, None) example_sqlite (λ _ _ _, None) ([], [])
           (NewResponseCache (server_cache_config example_env)) (λ _ m, m) (λ _ p, p) (λ _ p, p) (λ _ _ _ m, m)
           (λ q, q)).
Defined.
