(* ===== verification/Shutdown.v ===== *)
(** * The end of the mesh server ([hive-server-go/main.go], [handlers.go])

    A server that listens, from the signal to the end of the process.  Two
    threads take part: [main], which waits in [ListenAndServe] and has two
    deferred calls, and the handler of the signals.  Around them run the
    workers of [JobQueue], the goroutines of [MeshLoops], the loop of
    [AuditTrail] and the requests being served.  As [Startup] shows, [main]
    does not get as far as its listener; this is what it would do next.

    Of [net/http] the documented behaviour is used: [Shutdown] closes the
    listener, [ListenAndServe] then returns at once, and [Shutdown] returns
    when no request is being served or its context has expired. *)

From S2P Require Import Prelude GoFloat GoHttp Job JobQueue AuditTrail MeshNet Mesh MeshLoops.

Local Open Scope string_scope.
Local Open Scope list_scope.
Local Open Scope Z_scope.

(** ** State *)

(** [main]: in [ListenAndServe], then in the deferred calls
    [auditManager.Stop] and [server.Stop], whose three statements are the
    close of the queue's channel, the wait for the workers and the stop of
    the mesh. *)
Inductive main_pc := MServe | MAuditStop | MQueueStop | MQueueWait | MMeshStop.

(** The handler: waiting for the signal, in [server.Stop], in [Shutdown]
    before and after it has closed the listener, in [closeDB], in
    [os.Exit]. *)
Inductive sig_pc :=
  | SigWait | SigQueueStop | SigQueueWait | SigMeshStop | SigShutdown | SigPoll | SigCloseDB | SigExit.

Inductive outcome := Exited_with (code : Z) | Crashed.

(** [p_deadline]: the half minute of the handler's context is over. *)
Record proc := mk_proc {
  p_main : main_pc;
  p_sig : sig_pc;
  p_jobs : JobQueue.sys;
  p_mesh : option net;
  p_audit : AuditTrail.sys;
  p_listening : bool;
  p_requests : list nat;
  p_deadline : bool;
  p_db_open : bool;
  p_end : option outcome }.

Definition set_p_main (pc : main_pc) (P : proc) : proc :=
  mk_proc pc (p_sig P) (p_jobs P) (p_mesh P) (p_audit P) (p_listening P) (p_requests P) (p_deadline P) (p_db_open P) (p_end P).
Definition set_p_sig (pc : sig_pc) (P : proc) : proc :=
  mk_proc (p_main P) pc (p_jobs P) (p_mesh P) (p_audit P) (p_listening P) (p_requests P) (p_deadline P) (p_db_open P) (p_end P).
Definition set_p_jobs (S : JobQueue.sys) (P : proc) : proc :=
  mk_proc (p_main P) (p_sig P) S (p_mesh P) (p_audit P) (p_listening P) (p_requests P) (p_deadline P) (p_db_open P) (p_end P).
Definition set_p_mesh (N : option net) (P : proc) : proc :=
  mk_proc (p_main P) (p_sig P) (p_jobs P) N (p_audit P) (p_listening P) (p_requests P) (p_deadline P) (p_db_open P) (p_end P).
Definition set_p_audit (A : AuditTrail.sys) (P : proc) : proc :=
  mk_proc (p_main P) (p_sig P) (p_jobs P) (p_mesh P) A (p_listening P) (p_requests P) (p_deadline P) (p_db_open P) (p_end P).
Definition set_p_listening (b : bool) (P : proc) : proc :=
  mk_proc (p_main P) (p_sig P) (p_jobs P) (p_mesh P) (p_audit P) b (p_requests P) (p_deadline P) (p_db_open P) (p_end P).
Definition set_p_requests (rs : list nat) (P : proc) : proc :=
  mk_proc (p_main P) (p_sig P) (p_jobs P) (p_mesh P) (p_audit P) (p_listening P) rs (p_deadline P) (p_db_open P) (p_end P).
Definition set_p_deadline (b : bool) (P : proc) : proc :=
  mk_proc (p_main P) (p_sig P) (p_jobs P) (p_mesh P) (p_audit P) (p_listening P) (p_requests P) b (p_db_open P) (p_end P).
Definition closeDB (P : proc) : proc :=
  mk_proc (p_main P) (p_sig P) (p_jobs P) (p_mesh P) (p_audit P) (p_listening P) (p_requests P) (p_deadline P) false (p_end P).
Definition set_p_end (o : outcome) (P : proc) : proc :=
  mk_proc (p_main P) (p_sig P) (p_jobs P) (p_mesh P) (p_audit P) (p_listening P) (p_requests P) (p_deadline P) (p_db_open P) (Some o).

(** ** [server.Stop] *)

(** [close(q.stopCh)]. *)
Definition close_queue (S : JobQueue.sys) : panics JobQueue.sys :=
  if JobQueue.stopped (oq S) then None
  else Some (JobQueue.mk_sys (JobQueue.Stop (oq S)) (workers S) (started S) (finished S)).

(** [q.wg.Wait()]. *)
Definition all_gone (S : JobQueue.sys) : bool := forallb (λ ph, match ph with Exited => true | _ => false end) (workers S).

Definition close_mesh (N : option net) : panics (option net) :=
  match N with None => Some None | Some N => Some <$> MeshLoops.Stop N end.

Definition crash_or {A} (r : panics A) (k : A → proc) (P : proc) : proc :=
  match r with Some a => k a | None => set_p_end Crashed P end.

(** ** The two threads *)

Section shutdown.
Context `{AL : !AuditLib}.

(** The next step of [main]; [None] while it waits. *)
Definition main_next (P : proc) : option proc :=
  match p_main P with
  | MServe => if p_listening P then None else Some (set_p_main MAuditStop P)
  | MAuditStop =>
      Some (crash_or (AuditTrail.exec AuditTrail.OStop (p_audit P)) (λ A, set_p_main MQueueStop (set_p_audit A P)) P)
  | MQueueStop => Some (crash_or (close_queue (p_jobs P)) (λ S, set_p_main MQueueWait (set_p_jobs S P)) P)
  | MQueueWait => if all_gone (p_jobs P) then Some (set_p_main MMeshStop P) else None
  | MMeshStop => Some (crash_or (close_mesh (p_mesh P)) (λ N, set_p_end (Exited_with 0) (set_p_mesh N P)) P)
  end.

(** The next step of the handler, once the signal has come. *)
Definition sig_next (P : proc) : option proc :=
  match p_sig P with
  | SigWait => None
  | SigQueueStop => Some (crash_or (close_queue (p_jobs P)) (λ S, set_p_sig SigQueueWait (set_p_jobs S P)) P)
  | SigQueueWait => if all_gone (p_jobs P) then Some (set_p_sig SigMeshStop P) else None
  | SigMeshStop => Some (crash_or (close_mesh (p_mesh P)) (λ N, set_p_sig SigShutdown (set_p_mesh N P)) P)
  | SigShutdown => Some (set_p_sig SigPoll (set_p_listening false P))
  | SigPoll => match p_requests P, p_deadline P with
               | [], _ | _, true => Some (set_p_sig SigCloseDB P)
               | _, false => None
               end
  | SigCloseDB => Some (set_p_sig SigExit (closeDB P))
  | SigExit => Some (set_p_end (Exited_with 0) P)
  end.

(** ** The process *)

(** A step of the process: of [main] or the handler, the signal, a failure
    of the listener, the end of the half minute; a request comes or is
    answered; a step of the queue, the mesh or the audit trail that is not
    their stop. *)
Inductive pstep : proc → proc → Prop :=
  | ps_main P P' : p_end P = None → main_next P = Some P' → pstep P P'
  | ps_sig P P' : p_end P = None → sig_next P = Some P' → pstep P P'
  | ps_signal P : p_end P = None → p_sig P = SigWait → pstep P (set_p_sig SigQueueStop P)
  | ps_listener_fails P :
      p_end P = None → p_main P = MServe → p_listening P = true → pstep P (set_p_end (Exited_with 1) P)
  | ps_deadline P : p_end P = None → p_sig P ≠ SigWait → pstep P (set_p_deadline true P)
  | ps_request P r : p_end P = None → p_listening P = true → pstep P (set_p_requests (r :: p_requests P) P)
  | ps_answer P l1 r l2 :
      p_end P = None → p_requests P = l1 ++ r :: l2 → pstep P (set_p_requests (l1 ++ l2) P)
  | ps_jobs P o S : p_end P = None → o ≠ JobQueue.OStop → JobQueue.step o (p_jobs P) S → pstep P (set_p_jobs S P)
  | ps_mesh P e N N' unmarshal :
      p_end P = None → e ≠ MeshLoops.EStop → p_mesh P = Some N → MeshLoops.exec unmarshal e N = Some N' →
      pstep P (set_p_mesh (Some N') P)
  | ps_audit P o A :
      p_end P = None → o ≠ AuditTrail.OStop → AuditTrail.exec o (p_audit P) = Some A → pstep P (set_p_audit A P).

(** A server that has come to its listener: nothing is stopped. *)
Definition serving (P : proc) : Prop :=
  p_main P = MServe ∧ p_sig P = SigWait ∧ p_listening P = true ∧ p_deadline P = false ∧ p_db_open P = true ∧
  p_end P = None ∧ JobQueue.stopped (oq (p_jobs P)) = false ∧ AuditTrail.stopped (p_audit P) = false ∧
  match p_mesh P with Some N => n_stopped N = false | None => True end.

Definition reaches : relation proc := rtc pstep.

(** ** What the other steps leave alone *)

Lemma jobs_stopped_step o S S' :
  JobQueue.step o S S' → o ≠ JobQueue.OStop → JobQueue.stopped (oq S') = JobQueue.stopped (oq S).
Proof.
  destruct 1; intros Ho; simpl; try done.
  1, 2: unfold Submit in *; case_match; simplify_eq; done.
  unfold worker_take in *. by case_match; simplify_eq.
Qed.

(** Workers that have left take no job: whatever is or comes into the
    channel stays there. *)
Lemma jobs_gone_step o S S' :
  JobQueue.step o S S' → all_gone S = true →
  all_gone S' = true ∧ started S' = started S ∧ finished S' = finished S ∧ jobCh (oq S) `prefix_of` jobCh (oq S').
Proof.
  intros Hstep Hg. assert (∀ w ph, workers S !! w = Some ph → ph = Exited) as Hall.
  { intros w ph Hw. unfold all_gone in Hg. rewrite forallb_forall in Hg.
    assert (ph ∈ workers S) as Hin by by eapply list_elem_of_lookup_2.
    specialize (Hg ph (proj1 (list_elem_of_In _ _) Hin)). by destruct ph. }
  destruct Hstep as [S job q Hj Hf Hs|S job q Hs|S w job now q Hw Ht|S w job Hw|S w job r now Hw|S w job Hw|S
    |S w Hw Hst|S hours now]; try (specialize (Hall _ _ Hw); done); simpl; try done.
  - unfold Submit in Hs. case_match; simplify_eq/=. split_and!; try done. by eexists.
  - unfold Submit in Hs. case_match; simplify_eq/=. done.
Qed.

Lemma audit_stopped_step o A A' :
  AuditTrail.exec o A = Some A' → o ≠ AuditTrail.OStop → AuditTrail.stopped A' = AuditTrail.stopped A.
Proof.
  destruct A. destruct o as [| | | | | | |[]|]; intros He Ho; simpl in He; repeat case_match; by simplify_eq/=.
Qed.

Lemma mesh_stopped_step unmarshal e N N' :
  MeshLoops.exec unmarshal e N = Some N' → e ≠ MeshLoops.EStop → n_stopped N' = n_stopped N.
Proof.
  destruct e; cbn [MeshLoops.exec broadcastLoop listenerLoop cleanupLoop seedProbeLoop healthPollLoop]; unfold put_starter, put_seed, finish_poll; intros He Ho;
    repeat (case_match || (apply bind_Some in He as (? & ? & He)) || (apply fmap_Some in He as (? & ? & ->)));
    by simplify_eq/=.
Qed.

(** ** The invariant *)

Definition rank (pc : sig_pc) : nat :=
  match pc with
  | SigWait => 0 | SigQueueStop => 1 | SigQueueWait => 2 | SigMeshStop => 3 | SigShutdown => 4 | SigPoll => 5
  | SigCloseDB => 6 | SigExit => 7
  end.

(** How far the handler is decides what is stopped; [main] only leaves its
    listener after it, and its deferred calls end at the queue. *)
Record pinv (P : proc) : Prop := mk_pinv {
  pi_listening : p_listening P = (rank (p_sig P) <=? 4)%nat;
  pi_queue : JobQueue.stopped (oq (p_jobs P)) = (2 <=? rank (p_sig P))%nat;
  pi_mesh : match p_mesh P with Some N => n_stopped N = (4 <=? rank (p_sig P))%nat | None => True end;
  pi_db : p_db_open P = (rank (p_sig P) <=? 6)%nat;
  pi_gone : (3 <= rank (p_sig P))%nat → all_gone (p_jobs P) = true;
  pi_served : (6 <= rank (p_sig P))%nat → p_requests P = [] ∨ p_deadline P = true;
  pi_main : p_main P = MServe ∧ AuditTrail.stopped (p_audit P) = false ∨
            p_listening P = false ∧
            (p_main P = MAuditStop ∧ AuditTrail.stopped (p_audit P) = false ∨ p_main P = MQueueStop);
  pi_end : match p_end P with
           | None => True
           | Some (Exited_with 0) => p_sig P = SigExit
           | Some (Exited_with c) => c = 1 ∧ p_main P = MServe ∧ p_listening P = true
           | Some Crashed => p_main P = MQueueStop
           end }.

Lemma serving_pinv P : serving P → pinv P.
Proof.
  intros (Hm & Hs & Hl & Hd & Hdb & He & Hq & Ha & Hn).
  split; rewrite ?Hs, ?Hl, ?Hdb, ?He, ?Hq, ?Ha; simpl; try done; try lia.
  by left.
Qed.

(** A thread past the listener finds the queue closed. *)
Lemma closed_listener_queue P : pinv P → p_listening P = false → JobQueue.stopped (oq (p_jobs P)) = true.
Proof.
  intros [Hl Hq _ _ _ _ _ _] Hc. rewrite Hq. rewrite Hl in Hc. apply Nat.leb_gt in Hc. apply Nat.leb_le. lia.
Qed.

Lemma audit_stop A : AuditTrail.stopped A = false →
  ∃ A', AuditTrail.exec AuditTrail.OStop A = Some A' ∧ AuditTrail.stopped A' = true.
Proof. destruct A. simpl. intros ->. by eexists. Qed.

Lemma main_next_pinv P P' : pinv P → p_end P = None → main_next P = Some P' → pinv P'.
Proof.
  intros HI Hend. pose proof (closed_listener_queue P HI) as Hcq. destruct HI as [Hl Hq Hn Hdb Hg Hr Hm He].
  unfold main_next. destruct Hm as [[Hm Ha]|[Hc [[Hm Ha]|Hm]]]; rewrite Hm.
  - destruct (p_listening P) eqn:Hpl; [done|]. intros [= <-].
    split; simpl; rewrite ?Hpl, ?Hend; try done. right. split; [done|]. by left.
  - destruct (audit_stop _ Ha) as (A' & -> & HA'). intros [= <-]. simpl.
    split; simpl; rewrite ?Hend; try done. right. split; [done|]. by right.
  - unfold close_queue. rewrite (Hcq Hc). intros [= <-]. simpl.
    split; simpl; try done. right. split; [done|]. by right.
Qed.

Lemma sig_next_pinv P P' : pinv P → p_end P = None → sig_next P = Some P' → pinv P'.
Proof.
  intros [Hl Hq Hn Hdb Hg Hr Hm He] Hend. unfold sig_next.
  destruct (p_sig P) eqn:Hs; simpl in Hl, Hq, Hn, Hdb, Hg, Hr; [done|..].
  - unfold close_queue. rewrite Hq. intros [= <-]. split; simpl; rewrite ?Hend; try done; lia.
  - destruct (all_gone (p_jobs P)) eqn:Hgone; [|done]. intros [= <-].
    split; simpl; rewrite ?Hend; try done; lia.
  - unfold close_mesh, MeshLoops.Stop. destruct (p_mesh P) as [N|] eqn:HN; [rewrite Hn|]; intros [= <-];
      (split; simpl; rewrite ?Hend, ?HN; try done; try lia; intros; apply Hg; lia).
  - intros [= <-]. split; simpl; rewrite ?Hend; try done; try lia.
    + intros _. apply Hg. lia.
    + destruct Hm as [Hm|[Hc _]]; [by left|congruence].
  - assert (p_requests P = [] ∨ p_deadline P = true → pinv (set_p_sig SigCloseDB P)) as Hgo.
    { intros Hor. split; simpl; rewrite ?Hend; try done. intros _. apply Hg. lia. }
    destruct (p_requests P) eqn:Hreq; [intros [= <-]; by apply Hgo; left|].
    destruct (p_deadline P) eqn:Hd; [|done]. intros [= <-]. by apply Hgo; right.
  - intros [= <-]. split; simpl; rewrite ?Hend; try done; intros _; [apply Hg|apply Hr]; lia.
  - intros [= <-]. split; simpl; rewrite ?Hs; try done.
Qed.

Lemma pstep_pinv P P' : pinv P → pstep P P' → pinv P'.
Proof.
  intros HI Hstep. pose proof HI as [Hl Hq Hn Hdb Hg Hr Hm He]. destruct Hstep as
    [P P' Hend Hs|P P' Hend Hs|P Hend Hs|P Hend Hs Hli|P Hend Hs|P r Hend Hli|P l1 r l2 Hend Hreq
    |P o S Hend Ho Hs|P e N N' um Hend Ho HN Hs|P o A Hend Ho Hs].
  - by eapply main_next_pinv.
  - by eapply sig_next_pinv.
  - rewrite Hs in *. split; simpl in *; rewrite ?Hend; try done; lia.
  - split; simpl; try done.
  - split; simpl; rewrite ?Hend; try done. intros _. by right.
  - split; simpl; rewrite ?Hend; try done. intros H6. rewrite Hli in Hl. symmetry in Hl.
    apply Nat.leb_le in Hl. lia.
  - split; simpl; rewrite ?Hend; try done. intros H6. destruct (Hr H6) as [Hnil|Hd]; [|by right].
    rewrite Hreq in Hnil. by destruct l1.
  - split; simpl; rewrite ?Hend; try done.
    + by rewrite (jobs_stopped_step _ _ _ Hs Ho).
    + intros H3. by apply (jobs_gone_step _ _ _ Hs), Hg.
  - split; simpl; rewrite ?Hend; try done. rewrite HN in Hn. by rewrite (mesh_stopped_step _ _ _ _ Hs Ho).
  - split; simpl; rewrite ?Hend; try done. by rewrite (audit_stopped_step _ _ _ Hs Ho).
Qed.

Lemma reaches_pinv P0 P : serving P0 → reaches P0 P → pinv P.
Proof. intros H0 Hr. apply serving_pinv in H0. induction Hr; eauto using pstep_pinv. Qed.

(** ** Properties *)

(** The steps of [main] alone. *)
Definition main_steps : relation proc := rtc (λ P P', main_next P = Some P').

(** C12: How a server ends: [main] never returns.  Either the listener fails,
    before any signal has closed it; or the handler of the signal exits, with
    the workers gone, the database closed, and no request open unless its
    half minute is over; or [main] crashes, closing the queue's channel again
    in its deferred [Stop].  That crash can happen in every state in which
    [Shutdown] has closed the listener, so at any point of the wait for the
    requests: [main] is never blocked and takes at most three steps to it,
    which leave the open requests unanswered. *)
Theorem shutdown_outcomes P0 P :
  serving P0 → reaches P0 P →
  match p_end P with
  | Some (Exited_with c) =>
      c = 1 ∧ p_listening P = true ∨
      c = 0 ∧ p_sig P = SigExit ∧ p_db_open P = false ∧ all_gone (p_jobs P) = true ∧
        (p_requests P = [] ∨ p_deadline P = true)
  | Some Crashed => p_main P = MQueueStop ∧ p_listening P = false
  | None =>
      p_listening P = false →
      ∃ P', main_steps P P' ∧ p_end P' = Some Crashed ∧ p_requests P' = p_requests P ∧
        finished (p_jobs P') = finished (p_jobs P)
  end.
Proof.
  intros H0 Hr. pose proof (reaches_pinv _ _ H0 Hr) as HI. pose proof HI as [Hl Hq Hn Hdb Hg Hsv Hm He].
  destruct (p_end P) as [[c|]|] eqn:Hend.
  - destruct c as [|c|c]; [|left; destruct He as (? & _ & ?); done..].
    right. rewrite He in *. simpl in *. split_and!; try done; [apply Hg; lia|apply Hsv; lia].
  - split; [done|]. destruct Hm as [[Hm _]|[Hc _]]; [congruence|done].
  - intros Hc. pose proof (closed_listener_queue P HI Hc) as Hcq.
    assert (∀ P1, p_main P1 = MQueueStop → p_jobs P1 = p_jobs P → main_next P1 = Some (set_p_end Crashed P1)) as Hlast.
    { intros P1 H1 Hj. unfold main_next, close_queue. by rewrite H1, Hj, Hcq. }
    assert (∀ P1, p_main P1 = MAuditStop → AuditTrail.stopped (p_audit P1) = false → p_jobs P1 = p_jobs P →
              ∃ P', main_steps P1 P' ∧ p_end P' = Some Crashed ∧ p_requests P' = p_requests P1 ∧ p_jobs P' = p_jobs P) as Hmid.
    { intros P1 H1 Ha Hj. destruct (audit_stop _ Ha) as (A & HA & _).
      exists (set_p_end Crashed (set_p_main MQueueStop (set_p_audit A P1))). split; [|done].
      eapply rtc_l; [unfold main_next; by rewrite H1, HA|]. simpl. eapply rtc_once. by apply Hlast. }
    destruct Hm as [[Hm Ha]|[_ [[Hm Ha]|Hm]]].
    + destruct (Hmid (set_p_main MAuditStop P)) as (P' & Hs & He' & Hrq & Hj); [done..|].
      exists P'. rewrite Hj. split; [|done]. eapply rtc_l; [|exact Hs]. unfold main_next. by rewrite Hm, Hc.
    + destruct (Hmid P) as (P' & Hs & He' & Hrq & Hj); [done..|]. exists P'. by rewrite Hj.
    + exists (set_p_end Crashed P). split; [|done]. apply rtc_once. by apply Hlast.
Qed.

(** With the queue closed neither thread changes it any more. *)
Lemma main_next_jobs P P' :
  JobQueue.stopped (oq (p_jobs P)) = true → main_next P = Some P' →
  p_jobs P' = p_jobs P ∧ p_sig P' = p_sig P.
Proof.
  intros Hq. unfold main_next, close_queue. rewrite Hq. destruct (p_main P).
  - destruct (p_listening P); [done|]. by intros [= <-].
  - destruct (AuditTrail.exec _ _); by intros [= <-].
  - by intros [= <-].
  - destruct (all_gone _); [|done]. by intros [= <-].
  - destruct (close_mesh _); by intros [= <-].
Qed.

Lemma sig_next_jobs P P' :
  (2 <= rank (p_sig P))%nat → sig_next P = Some P' →
  p_jobs P' = p_jobs P ∧ (rank (p_sig P) ≤ rank (p_sig P'))%nat.
Proof.
  intros H2. unfold sig_next. destruct (p_sig P) eqn:Hs; simpl in H2; try lia.
  - destruct (all_gone _); [|done]. intros [= <-]. split; [done|simpl; lia].
  - destruct (close_mesh _); intros [= <-]; (split; [done|]); simpl; rewrite ?Hs; simpl; lia.
  - intros [= <-]. split; [done|simpl; lia].
  - destruct (p_requests P), (p_deadline P); intros Hn; simplify_eq/=; split; first [done|lia].
  - intros [= <-]. split; [done|simpl; lia].
  - intros [= <-]. split; [done|]. simpl. rewrite Hs. simpl. lia.
Qed.

(** Nothing a process does once the workers have left runs a job. *)
Lemma gone_reaches P P' :
  reaches P P' → pinv P → (3 <= rank (p_sig P))%nat →
  started (p_jobs P') = started (p_jobs P) ∧ jobCh (oq (p_jobs P)) `prefix_of` jobCh (oq (p_jobs P')).
Proof.
  induction 1 as [P|P P1 P' Hstep Hr IH]; intros HI H3; [done|].
  pose proof (pstep_pinv _ _ HI Hstep) as HI1.
  assert ((3 <= rank (p_sig P1))%nat ∧ started (p_jobs P1) = started (p_jobs P) ∧
          jobCh (oq (p_jobs P)) `prefix_of` jobCh (oq (p_jobs P1))) as (H31 & Hst & Hpre).
  { pose proof (pi_gone _ HI H3) as Hgone. pose proof HI as [Hl Hq Hn Hdb Hg Hsv Hm He]. destruct Hstep as
      [P P1 Hend Hs|P P1 Hend Hs|P Hend Hs|P Hend Hs Hli|P Hend Hs|P r Hend Hli|P l1 r l2 Hend Hreq
      |P o S Hend Ho Hs|P e N N' um Hend Ho HN Hs|P o A Hend Ho Hs]; try done.
    - assert (JobQueue.stopped (oq (p_jobs P)) = true) as Hst by (rewrite Hq; apply Nat.leb_le; lia).
      by destruct (main_next_jobs _ _ Hst Hs) as [-> ->].
    - destruct (sig_next_jobs P P1 ltac:(lia) Hs) as [-> Hle]. split; [lia|done].
    - rewrite Hs in H3. simpl in H3. lia.
    - by destruct (jobs_gone_step _ _ _ Hs Hgone) as (_ & ? & _ & ?). }
  destruct (IH HI1 H31) as [-> Hp]. split; [done|]. by etrans.
Qed.

(** C36: What the drain of the queue is: the handler waits for the workers for as
    long as their jobs take, whatever its half minute says, and the server
    goes on accepting requests; and a worker may leave before the channel is
    empty, after which no job that is waiting, and none that is accepted
    from then on, is ever run. *)
Theorem drain_abandons_jobs P0 P :
  serving P0 → reaches P0 P →
  (p_sig P = SigQueueWait → all_gone (p_jobs P) = false →
     p_listening P = true ∧ ∀ P', pstep P P' → p_sig P' = SigQueueWait) ∧
  ((3 <= rank (p_sig P))%nat → ∀ P', reaches P P' →
     started (p_jobs P') = started (p_jobs P) ∧
     ∀ p, p ∈ jobCh (oq (p_jobs P)) → p ∈ jobCh (oq (p_jobs P'))).
Proof.
  intros H0 Hr. pose proof (reaches_pinv _ _ H0 Hr) as HI. split.
  - intros Hs Hg. split; [by rewrite (pi_listening _ HI), Hs|].
    intros P' Hstep. destruct Hstep as
      [P P1 Hend Hn|P P1 Hend Hn|P Hend Hn|P Hend Hn Hli|P Hend Hn|P r Hend Hli|P l1 r l2 Hend Hreq
      |P o S Hend Ho Hn|P e N N' um Hend Ho HN Hn|P o A Hend Ho Hn]; try done; try congruence.
    + unfold main_next, crash_or in Hn. repeat case_match; simplify_eq/=; done.
    + unfold sig_next in Hn. by rewrite Hs, Hg in Hn.
  - intros H3 P' Hr'. destruct (gone_reaches _ _ Hr' HI H3) as [Hst Hp]. split; [done|].
    intros p Hin. by eapply elem_of_prefix.
Qed.

End shutdown.

(** ** Witnesses *)

(** A server with one worker, two jobs in its queue and a request open. *)
Definition example_serving : proc :=
  mk_proc MServe SigWait example_S2 None NewAuditTrailManager true [7%nat] false true None.

Section example.
#[local] Existing Instance AuditTrail.example_lib.

(** The signal comes, the queue is closed, the idle worker leaves without
    looking at the channel, and the wait ends. *)
Definition example_closed : proc := from_opt example_serving (sig_next (set_p_sig SigQueueStop example_serving)).
Definition example_left : JobQueue.sys :=
  JobQueue.mk_sys (oq (p_jobs example_closed)) [Exited] (started (p_jobs example_closed)) (finished (p_jobs example_closed)).
Definition example_drained : proc := set_p_sig SigMeshStop (set_p_jobs example_left example_closed).

(** The server goes on to [Shutdown]. *)
Definition example_waiting : proc := set_p_sig SigPoll (set_p_listening false (set_p_sig SigShutdown example_drained)).

Lemma shutdown_example_serving : serving example_serving.
Proof. by split_and!. Qed.

Lemma example_reaches_drained : reaches example_serving example_drained.
Proof.
  eapply rtc_l; [by apply ps_signal|]. eapply rtc_l; [by apply ps_sig|].
  apply (rtc_l _ _ (set_p_jobs example_left example_closed)).
  - apply (ps_jobs _ JobQueue.OWorker); [done..|].
    by apply (JobQueue.step_exit (p_jobs example_closed) 0).
  - apply rtc_once. by apply ps_sig.
Qed.

Lemma example_reaches_waiting : reaches example_serving example_waiting.
Proof.
  etrans; [exact example_reaches_drained|]. eapply rtc_l; [by apply ps_sig|]. apply rtc_once. by apply ps_sig.
Qed.

Lemma shutdown_outcomes_witness :
  ∃ P', main_steps example_waiting P' ∧ p_end P' = Some Crashed ∧ p_requests P' = [7%nat] ∧
    finished (p_jobs P') = [].
Proof.
  exact (shutdown_outcomes example_serving example_waiting shutdown_example_serving example_reaches_waiting eq_refl).
Defined.

Lemma drain_abandons_jobs_witness :
  jobCh (oq (p_jobs example_drained)) = [1%nat; 2%nat] ∧ started (p_jobs example_drained) = [] ∧
  p_listening example_drained = true ∧
  ∀ P', reaches example_drained P' → started (p_jobs P') = [].
Proof.
  split_and!; [reflexivity..|]. intros P' Hr.
  exact (proj1 (proj2 (drain_abandons_jobs example_serving example_drained shutdown_example_serving
    example_reaches_drained) (le_n 3) P' Hr)).
Defined.

End example.
